(* ===== verification/_CoqProject ===== *)
-Q . S2P
Prelude.v
Api.v
Effects.v
SqlLexer.v
SqlLexerFacts.v
SqlPolicy.v
SqlPolicyFacts.v
SqlPolicyCase.v
SqlPolicyTheorems.v
System.v
Directory.v
Numbers.v
World.v
Formats.v
FormatsFacts.v
BinaryRow.v
Literals.v
BinaryFacts.v
LiteralsFacts.v
ClientQuery.v
ClientStmt.v
Runtime.v
Exec.v
Statement.v
Frames.v
DirectoryFacts.v
Rules.v
ClientFacts.v
Scripted.v
RuntimeFacts.v
RuntimeTheorems.v
Library.v
ExecFacts.v
Termination.v
StatementFacts.v
Lifetime.v
Calls.v
Bindings.v
Rows.v
ProtocolRows.v
Fetch.v
Step.v
Execute.v
Prepared.v
PreparedTheorems.v
Interleaving.v
Storage.v
Survival.v
Reexecute.v
Columns.v
Zend.v
ZendFacts.v
Php.v
PhpFacts.v
Pdo.v
PdoFacts.v
Mysqli.v
MysqliFacts.v
Threads.v
ThreadsFacts.v
