(* ===== verification/Prelude.v ===== *)
(** * MyLite: a model of libmylite and its theorems

    MyLite runs the MariaDB server inside the process of its caller and gives
    the caller a small C interface.  The development models that interface,
    [packages/libmylite/src/database.cc] with
    [packages/libmylite/include/mylite/mylite.h], and the part of the MariaDB
    client library it calls, then the three PHP extensions over it, and proves
    what callers rely on.  Paths below are under [src/].

    ** The parts of the program and how they interact

    [mylite_open] prepares the database directory, takes a lock on it, starts
    the server once per process ([g_runtime]) and connects; [mylite_close]
    undoes this.  [mylite_exec] and [mylite_prepare] first show the statement
    to the policy gate, which cuts it into tokens and refuses the families
    that make no sense in an embedded server.  Accepted text goes through the
    client library to the server; answers wait in the [THD] of the connection
    until they are read.  A prepared statement has parameters, which the bind
    functions set, and columns, into whose buffers [mylite_step] fetches a
    row; a value that does not fit its buffer is fetched again into a larger
    one.  Diagnostics are in the handle.  The PHP extensions keep handles and
    statements in objects of the Zend engine, turn columns into PHP values and
    PHP values into bind calls, and offer the result as classes of their own
    ([MyLite]), as a PDO driver and as a replacement of [mysqli].

    ** Files

    - [Prelude], [Effects]: byte strings; the monad [cmd] of commands that
      return, throw a C++ exception, are undefined, or run out of fuel, and
      its weakest preconditions [wp].
    - [Api]: constants of [mylite.h], [mylite_db], [set_error], [set_ok] and
      the functions that read the diagnostics.
    - [SqlLexer], [SqlPolicy]: [collect_sql_policy_tokens] with all it calls,
      and [reject_unsupported_sql_policy] with every family.  Facts in
      [SqlLexerFacts], [SqlPolicyFacts], [SqlPolicyCase]; theorems in
      [SqlPolicyTheorems].
    - [System]: what the source uses of the file system, [flock] and clocks.
      Failures, answers of [flock] and the progress of time are lists in the
      state over which theorems quantify.  [Directory]: the layout of a
      database directory; [DirectoryFacts]: its theorems.
    - [Numbers]: [strtoll], [strtoull], [strtoul], [strtod].
    - [World]: the structures of [mysql.h] and [database.cc], the memory
      [world], and the class [Server], the interface of the SQL server.
    - [Formats]: [int10_to_str] of [mariadb/strings/int2str.c] and
      [my_TIME_to_str] of [mariadb/sql-common/my_time.c] with all it calls;
      [FormatsFacts].
    - [BinaryRow]: rows of the binary protocol, written as
      [Protocol_binary] of [mariadb/sql/protocol.cc] and read as
      [mariadb/libmysqld/libmysql.c]; [BinaryFacts], [ProtocolRows].
    - [ClientQuery], [ClientStmt]: the functions of
      [mariadb/libmysqld/libmysql.c], [mariadb/libmysqld/lib_sql.cc],
      [mariadb/libmysqld/libmysqld.c] and [mariadb/sql-common/client.c] that
      [database.cc] calls, and what they call.
    - [Runtime], [Exec], [Statement]: the rest of [database.cc], one
      definition per function; a loop or a branch that the proofs talk about
      has a definition of its own, next to its function.
    - [Frames], [Rules], [ClientFacts]: frames ([steps]), ways to end
      ([ends]), the tactics [wp_auto], [steps_auto], [ends_auto] and their
      hint databases, and the client library on a compliant server.
    - [Scripted]: an instance of [Server] that plays a script; witnesses and
      closed runs use it.
    - [RuntimeFacts], [RuntimeTheorems], [Library], [ExecFacts],
      [Termination], [StatementFacts], [Lifetime], [Calls]: opening, closing,
      executing, and the library as a state machine.
    - [Bindings], [Rows], [Fetch], [Step], [Execute], [Prepared],
      [PreparedTheorems], [Columns], [Interleaving]: prepared statements.
    - [Storage]: what a command does to the parameters of statements and to
      the memory they point to ([protects], with its hint database);
      [Survival]: no two owners share storage, so bound values stay;
      [Reexecute]: [mylite_reset] and executing again.
    - [Literals]: string literals, quoted by the extensions
      ([pdo_mylite_handle_quoter], [php_mylite_mysqli_escape_sql]) and read by
      [Lex_input_stream::get_text] of [mariadb/sql/sql_lex.cc];
      [LiteralsFacts].
    - [Zend]: PHP values and arrays, the engine as the class [Zend], and the
      conversions that the extensions have copies of; [ZendFacts].
    - [Php]: [packages/php-ext-mylite/src/php_mylite.c], with the reference
      counts of its objects; [PhpFacts].
    - [Pdo]: [packages/php-ext-pdo-mylite/src/php_pdo_mylite.c], the hooks of
      the driver; [PdoFacts].
    - [Mysqli]: [packages/php-ext-mysqli-mylite/src/php_mysqli_mylite.c], with
      the error and status properties of a link; [MysqliFacts].  A function
      and the method that does the same share a definition.
    - [Threads]: [open_impl] and [mylite_close] cut at the critical sections
      of [g_runtime.mutex], and the steps of any number of threads;
      [ThreadsFacts].

    ** What the theorems show

    - The library is safe to drive: every sequence of calls on live pointers
      keeps [library_ok] ([Calls.reachable_library_ok]), every call
      terminates ([Calls.calls_terminate]), and open, close, prepare and
      finalize change the set of handles and statements exactly as promised
      ([Library], [Lifetime]).  Threads may open, use and close different
      handles in any interleaving: the count of references, the lock and the
      server stay in step, no call gets stuck
      ([ThreadsFacts.threads_share_runtime]), and a call that is not
      interrupted is the sequential one ([ThreadsFacts.uninterrupted_calls]).
    - The gate: refused text never reaches the server
      ([ExecFacts.rejected_sql_is_not_executed]); the answer depends on the
      first 32 tokens only, ignores letter case and leading gaps, and refuses
      its families whatever follows ([SqlPolicyTheorems]).
    - Results: [mylite_exec] gives the callback the rows of the answer and
      records its effects ([ExecFacts]); a prepared statement returns exactly
      the rows of the answer to the execution with the bound values, each
      value whole ([PreparedTheorems.prepared_select_rows]), comes to
      [MYLITE_DONE] ([PreparedTheorems.steps_reach_done]) and records effects
      ([PreparedTheorems.prepared_update_effects]).  Reset, it can be executed
      again and again, each time with the values bound since and the older
      ones ([Reexecute.executions_repeat]): whatever else is called, what is
      bound stays as it is until it is bound anew, cleared or finalized
      ([Survival.bound_values_stay]).
    - Values: rows survive the binary protocol ([ProtocolRows.row_roundtrip]),
      types and integers come out as they went in ([Columns]), texts of
      numbers and times are right and fit their buffers ([ProtocolRows]).
    - Directories: what an open created or accepted stays acceptable, and
      without [MYLITE_OPEN_CREATE] nothing is written ([DirectoryFacts]).
    - PHP: objects of the native extension own handles and statements so that
      a connection outlives its statements and nothing is left when its last
      connection is gone ([PhpFacts.php_objects_ok]); in each extension a
      query gives the rows of the answer, once and in order
      ([PhpFacts.php_query_rows], [PdoFacts.pdo_query_rows],
      [MysqliFacts.mysqli_query_rows]); a quoted string is read back by the
      server ([LiteralsFacts.quoted_literal_roundtrip]).
    - Where the program falls short: rows lost to an interleaved call
      ([Interleaving]), a lost write of the metadata
      ([DirectoryFacts.lost_metadata_is_not_reported]), a failed start that
      is not retried ([RuntimeTheorems.failed_start_is_not_retried]), ways
      past the gate ([SqlPolicyTheorems.policy_gate_can_be_passed],
      [LiteralsFacts.gate_trusts_backslashes]), a second execution through
      PDO that cannot bind ([PdoFacts.pdo_bind_after_execution_fails]),
      directories that are created without a lock and an exception that keeps
      a reference (the end of [ThreadsFacts]), and
      closed runs of the extensions at the end of [PhpFacts] and
      [MysqliFacts].

    ** Choices and bounds

    The configuration is the embedded one ([MYLITE_WITH_MARIADB_EMBEDDED]) on
    a 64-bit Unix.  Sizes are [nat], machine integers [Z] with their
    wrap-around written out.  Every [malloc] or [new] that the source checks
    or catches may fail ([allocations]), but not those inside the containers of
    the C++ library; an exception that nothing catches
    shows as [Throw] in the outcome of the call.  Loops that read answers
    have as fuel one more than the answers that wait, the wait for the lock
    has as fuel the number of polls in the timeout plus two, and
    [Termination] and [RuntimeFacts] show that no fuel runs out.  The loops of
    the extensions that step through a result take their fuel as an argument,
    and the theorems on queries show how many rounds are enough for the rows of
    the answer.

    Sequences of calls are taken one call after the other, except in
    [Threads], where a step is a critical section of [g_runtime.mutex] or a
    piece of [mylite_open] or [mylite_close] between two of them, and every
    other call, which does not touch [g_runtime], is one step.  A handle is
    used by one thread at a time, as the documentation asks, and the server
    serves each piece as a whole.

    The server is a parameter: [dispatch_command] maps a command, the state of
    the server and the file tree to an answer.  Theorems that need more of it
    say so: [Compliant] (answers are well formed), [prepares], [executes]
    and [resets] (the answer to one command).  The formats of floating-point numbers,
    [my_gcvt] and [my_fcvt], are parameters as well, and so is what the
    extensions use of the Zend engine and of PDO, whose objects are records
    and whose allocations do not fail.

    ** Not modelled

    The MariaDB server behind [dispatch_command] with its storage engines;
    the conversions of the client library to result buffers that are not
    strings, cursors and long data, which [libmylite] does not use; the
    registration of the PHP modules, the parsing of arguments by the Zend
    engine and functions of the extensions that only return a constant;
    concurrent calls on one handle; tests, tools and build files. *)

From Stdlib Require Export Bool ZArith Lia Ascii String.
From stdpp Require Export strings gmap numbers option list.
From stdpp Require Import options.

(** ** Byte strings

    [std::string], [std::string_view] and a C string without its terminator
    are byte lists.  String literals of the source are Rocq strings, turned
    into byte lists by [str]. *)

Abbreviation bytes := (list ascii).

Definition str (s : string) : bytes := list_ascii_of_string s.

Arguments str s%_string_scope : simpl never.

(** [lo <= value && value <= hi] on [char]: bytes above 127 are outside every
    range the source tests, whatever the signedness of [char]. *)
Definition char_between (lo hi value : ascii) : bool :=
  (N_of_ascii lo <=? N_of_ascii value)%N && (N_of_ascii value <=? N_of_ascii hi)%N.

(** The folding written out in [token_equals] and
    [token_contains_sql_mode_name]: [left - ('a' - 'A')] on 'a'..'z'. *)
Definition to_upper (c : ascii) : ascii :=
  if char_between "a" "z" c then ascii_of_N (N_of_ascii c - 32) else c.

Definition upper (s : bytes) : bytes := to_upper <$> s.

Arguments upper : simpl never.

(** ** Loops over byte strings *)

(** [while (offset < s.size() && p(s[offset])) ++offset], as the number of
    increments from the start of the suffix. *)
Fixpoint count_while (p : ascii -> bool) (s : bytes) : nat :=
  match s with
  | [] => 0
  | c :: s' => if p c then S (count_while p s') else 0
  end.

(** The C string that starts at a pointer: the bytes before the terminator. *)
Definition c_str (s : bytes) : bytes :=
  take (count_while (fun c => negb (Ascii.eqb c zero)) s) s.

(** [for (index = lo; index < hi; ++index) if (body) return true; return false] *)
Definition any_index (lo hi : nat) (body : nat -> bool) : bool :=
  existsb body (seq lo (hi - lo)).

(** ** Tactics *)

(** Case analysis over the 256 values of a byte. *)
Ltac ascii_cases c :=
  let b0 := fresh in let b1 := fresh in let b2 := fresh in let b3 := fresh in
  let b4 := fresh in let b5 := fresh in let b6 := fresh in let b7 := fresh in
  destruct c as [b0 b1 b2 b3 b4 b5 b6 b7];
  destruct b0, b1, b2, b3, b4, b5, b6, b7.

(** A fact about single bytes, decided by evaluation. *)
Ltac by_ascii c := ascii_cases c; vm_compute; try reflexivity; try discriminate.
