(* ===== verification/Api.v ===== *)
(** * The public constants and the database handle

    The enumerations and flags of [packages/libmylite/include/mylite/mylite.h],
    the [mylite_db] structure of [packages/libmylite/src/database.cc] and its
    diagnostics: [set_ok], [set_error] and the accessors that read them. *)

From S2P Require Import Prelude.
From stdpp Require Import options.

Local Open Scope Z_scope.

(** ** Result codes: [enum mylite_result] *)

Definition MYLITE_OK : Z := 0.
Definition MYLITE_ERROR : Z := 1.
Definition MYLITE_BUSY : Z := 5.
Definition MYLITE_NOMEM : Z := 7.
Definition MYLITE_READONLY : Z := 8.
Definition MYLITE_IOERR : Z := 10.
Definition MYLITE_CORRUPT : Z := 11.
Definition MYLITE_NOTFOUND : Z := 12.
Definition MYLITE_FULL : Z := 13.
Definition MYLITE_CONSTRAINT : Z := 19.
Definition MYLITE_MISUSE : Z := 21.
Definition MYLITE_ROW : Z := 100.
Definition MYLITE_DONE : Z := 101.

(** [enum mylite_value_type] *)
Inductive mylite_value_type : Set :=
| MYLITE_TYPE_NULL
| MYLITE_TYPE_INT64
| MYLITE_TYPE_UINT64
| MYLITE_TYPE_DOUBLE
| MYLITE_TYPE_TEXT
| MYLITE_TYPE_BLOB.

#[global] Instance mylite_value_type_eq_dec : EqDecision mylite_value_type.
Proof. solve_decision. Defined.

(** [enum mylite_warning_level] *)
Definition MYLITE_WARNING_NOTE : Z := 1.
Definition MYLITE_WARNING_WARNING : Z := 2.
Definition MYLITE_WARNING_ERROR : Z := 3.

(** ** Open flags, profiles and durability modes *)

Definition MYLITE_OPEN_READONLY : Z := 1.
Definition MYLITE_OPEN_READWRITE : Z := 2.
Definition MYLITE_OPEN_CREATE : Z := 4.
Definition MYLITE_OPEN_EXCLUSIVE : Z := 8.
Definition MYLITE_OPEN_URI : Z := 16.

Definition MYLITE_PROFILE_DEFAULT : Z := 0.
Definition MYLITE_PROFILE_STRICT : Z := 1.
Definition MYLITE_PROFILE_COMPAT : Z := 2.

Definition MYLITE_DURABILITY_OFF : Z := 0.
Definition MYLITE_DURABILITY_NORMAL : Z := 1.
Definition MYLITE_DURABILITY_FULL : Z := 2.

(** [MYLITE_NUL_TERMINATED] is [(size_t)(-1)]. *)
Definition MYLITE_NUL_TERMINATED : Z := 2 ^ 64 - 1.

(** [k_known_open_flags] *)
Definition k_known_open_flags : Z :=
  Z.lor MYLITE_OPEN_READONLY (Z.lor MYLITE_OPEN_READWRITE
    (Z.lor MYLITE_OPEN_CREATE (Z.lor MYLITE_OPEN_EXCLUSIVE MYLITE_OPEN_URI))).

(** [(flags & mask) != 0U] *)
Definition has_flag (flags mask : Z) : bool := negb (Z.land flags mask =? 0).

(** ** [struct mylite_open_config]

    The caller allocates the structure and says how long it is in [size]; a
    field is only read when [size] reaches its end. *)
Record mylite_open_config : Type := mkOpenConfig {
  size : Z;
  profile : Z;
  busy_timeout_ms : Z;
  durability : Z;
  temp_directory : option bytes;
}.

(** [offsetof(mylite_open_config, f) + sizeof(config->f)] on an LP64 target:
    a [size_t] at 0, three 4-byte integers from 8, the pointer at 24. *)
Definition profile_end : Z := 12.
Definition busy_timeout_ms_end : Z := 16.
Definition durability_end : Z := 20.
Definition temp_directory_end : Z := 32.

Definition has_config_field (config : option mylite_open_config) (field_end : Z) : bool :=
  match config with
  | None => false
  | Some config => field_end <=? size config
  end.

(** ** [struct mylite_db]

    The embedded [MYSQL mysql] is not stored: a connection is known to the
    MariaDB library by the address of the handle that holds it. *)
Record mylite_db : Type := mkDb {
  database_path : bytes;
  current_schema : bytes;
  errcode : Z;
  extended_errcode : Z;
  mariadb_errno : Z;
  sqlstate : bytes;
  errmsg : bytes;
  warning_message : bytes;
  changes : Z;
  last_insert_id : Z;
  active_statement_count : Z;
  connected : bool;
}.

Definition k_sqlstate_ok : bytes := str "00000".
Definition k_sqlstate_general : bytes := str "HY000".
Definition k_not_an_error : bytes := str "not an error".
Definition k_bad_db_handle : bytes := str "bad database handle".

(** [new mylite_db()] with the path it is given in [open_impl]. *)
Definition new_db (path : bytes) : mylite_db :=
  mkDb path [] MYLITE_OK MYLITE_OK 0 k_sqlstate_ok k_not_an_error [] 0 0 0 false.

(** Writing all the diagnostics fields at once. *)
Definition set_diag (db : mylite_db) (code : Z) (errno : Z) (state msg : bytes) : mylite_db :=
  mkDb (database_path db) (current_schema db) code code errno state msg
    (warning_message db) (changes db) (last_insert_id db) (active_statement_count db)
    (connected db).

Definition set_ok (db : mylite_db) : mylite_db :=
  set_diag db MYLITE_OK 0 k_sqlstate_ok k_not_an_error.

Definition set_error (db : mylite_db) (code : Z) (message : string) : mylite_db :=
  set_diag db code 0 k_sqlstate_general (str message).

(** Assignments to single fields. *)
Definition with_current_schema (db : mylite_db) (schema : bytes) : mylite_db :=
  mkDb (database_path db) schema (errcode db) (extended_errcode db) (mariadb_errno db)
    (sqlstate db) (errmsg db) (warning_message db) (changes db) (last_insert_id db)
    (active_statement_count db) (connected db).

Definition with_warning_message (db : mylite_db) (message : bytes) : mylite_db :=
  mkDb (database_path db) (current_schema db) (errcode db) (extended_errcode db)
    (mariadb_errno db) (sqlstate db) (errmsg db) message (changes db) (last_insert_id db)
    (active_statement_count db) (connected db).

Definition with_effects (db : mylite_db) (changes' insert_id : Z) : mylite_db :=
  mkDb (database_path db) (current_schema db) (errcode db) (extended_errcode db)
    (mariadb_errno db) (sqlstate db) (errmsg db) (warning_message db) changes' insert_id
    (active_statement_count db) (connected db).

Definition with_active_statement_count (db : mylite_db) (n : Z) : mylite_db :=
  mkDb (database_path db) (current_schema db) (errcode db) (extended_errcode db)
    (mariadb_errno db) (sqlstate db) (errmsg db) (warning_message db) (changes db)
    (last_insert_id db) n (connected db).

Definition with_connected (db : mylite_db) (c : bool) : mylite_db :=
  mkDb (database_path db) (current_schema db) (errcode db) (extended_errcode db)
    (mariadb_errno db) (sqlstate db) (errmsg db) (warning_message db) (changes db)
    (last_insert_id db) (active_statement_count db) c.

(** ** Diagnostics accessors: a null handle has fixed answers *)

Definition mylite_errcode (db : option mylite_db) : Z :=
  match db with Some db => errcode db | None => MYLITE_MISUSE end.

Definition mylite_extended_errcode (db : option mylite_db) : Z :=
  match db with Some db => extended_errcode db | None => MYLITE_MISUSE end.

Definition mylite_mariadb_errno (db : option mylite_db) : Z :=
  match db with Some db => mariadb_errno db | None => 0 end.

Definition mylite_sqlstate (db : option mylite_db) : bytes :=
  match db with Some db => sqlstate db | None => k_sqlstate_general end.

Definition mylite_errmsg (db : option mylite_db) : bytes :=
  match db with Some db => errmsg db | None => k_bad_db_handle end.

Definition mylite_changes (db : option mylite_db) : Z :=
  match db with Some db => changes db | None => 0 end.

Definition mylite_last_insert_id (db : option mylite_db) : Z :=
  match db with Some db => last_insert_id db | None => 0 end.
