(* ===== verification/Effects.v ===== *)
(** * Effects: a state monad with C++ outcomes

    A call returns a value, throws a C++ exception, or has undefined
    behaviour; [OutOfFuel] marks a loop whose bound was too small, and the
    theorems on loops show that it does not occur.  The state is kept when a
    call throws, since the source's handlers see it. *)

From S2P Require Import Prelude.
From stdpp Require Import options.

(** The exceptions the source throws or catches. *)
Inductive exn : Set :=
| bad_alloc
| length_error
| filesystem_error.

#[global] Instance exn_eq_dec : EqDecision exn.
Proof. solve_decision. Defined.

Inductive outcome (A : Type) : Type :=
| Ret (a : A)
| Throw (e : exn)
| Undefined
| OutOfFuel.
Arguments Ret {A} a.
Arguments Throw {A} e.
Arguments Undefined {A}.
Arguments OutOfFuel {A}.

Definition cmd (S A : Type) : Type := S -> outcome A * S.

Section cmd.
  Context {S : Type}.

#[global] Instance cmd_ret : MRet (cmd S) := fun _ a s => (Ret a, s).

#[global] Instance cmd_bind : MBind (cmd S) := fun _ _ f m s =>
    match m s with
    | (Ret a, s) => f a s
    | (Throw e, s) => (Throw e, s)
    | (Undefined, s) => (Undefined, s)
    | (OutOfFuel, s) => (OutOfFuel, s)
    end.

Definition get : cmd S S := fun s => (Ret s, s).
Definition gets {A} (f : S -> A) : cmd S A := fun s => (Ret (f s), s).
Definition modify (f : S -> S) : cmd S unit := fun s => (Ret tt, f s).
Definition throw {A} (e : exn) : cmd S A := fun s => (Throw e, s).
Definition undefined {A} : cmd S A := fun s => (Undefined, s).
Definition out_of_fuel {A} : cmd S A := fun s => (OutOfFuel, s).

(** [*p] for a pointer that is valid exactly when [p s] is defined. *)
Definition deref {A} (p : S -> option A) : cmd S A := fun s =>
    match p s with
    | Some a => (Ret a, s)
    | None => (Undefined, s)
    end.

(** [try { m } catch (...) { handler(e) }] *)
Definition try_catch {A} (m : cmd S A) (handler : exn -> cmd S A) : cmd S A := fun s =>
    match m s with
    | (Throw e, s) => handler e s
    | r => r
    end.
End cmd.

(** Running a command on a part of a larger state. *)
Definition zoom {S T A} (get_part : S -> T) (set_part : T -> S -> S) (m : cmd T A) : cmd S A :=
  fun s => let '(o, t) := m (get_part s) in (o, set_part t s).

(** ** Weakest preconditions *)

Definition wp {S A} (m : cmd S A) (Q : outcome A -> S -> Prop) (s : S) : Prop :=
  Q (fst (m s)) (snd (m s)).

(** The postcondition that passes exceptions and failures on unchanged. *)
Definition bind_post {S A B} (f : A -> cmd S B) (Q : outcome B -> S -> Prop)
    (o : outcome A) (s : S) : Prop :=
  match o with
  | Ret a => wp (f a) Q s
  | Throw e => Q (Throw e) s
  | Undefined => Q Undefined s
  | OutOfFuel => Q OutOfFuel s
  end.

Section wp.
  Context {S : Type}.
  Implicit Types s : S.

Lemma wp_bind {A B} (m : cmd S A) (f : A -> cmd S B) Q s :
  wp m (bind_post f Q) s -> wp (mbind f m) Q s.
Proof. unfold wp, mbind, cmd_bind. by destruct (m s) as [[] s']. Qed.

Lemma wp_ret {A} (a : A) (Q : outcome A -> S -> Prop) s : Q (Ret a) s -> wp (mret a) Q s.
Proof. done. Qed.

Lemma wp_mono {A} (m : cmd S A) (P Q : outcome A -> S -> Prop) s :
  wp m P s -> (forall o s', P o s' -> Q o s') -> wp m Q s.
Proof. unfold wp. auto. Qed.

Lemma wp_and {A} (m : cmd S A) (P Q : outcome A -> S -> Prop) s :
  wp m P s -> wp m Q s -> wp m (fun o s' => P o s' /\ Q o s') s.
Proof. unfold wp. auto. Qed.

Lemma wp_try_catch {A} (m : cmd S A) h (Q : outcome A -> S -> Prop) s :
  wp m (fun o s' => match o with Throw e => wp (h e) Q s' | _ => Q o s' end) s ->
  wp (try_catch m h) Q s.
Proof. unfold wp, try_catch. by destruct (m s) as [[] s']. Qed.

Lemma wp_modify f (Q : outcome unit -> S -> Prop) s : Q (Ret tt) (f s) -> wp (modify f) Q s.
Proof. done. Qed.

Lemma wp_gets {A} (f : S -> A) (Q : outcome A -> S -> Prop) s : Q (Ret (f s)) s -> wp (gets f) Q s.
Proof. done. Qed.

Lemma wp_deref {A} (p : S -> option A) (Q : outcome A -> S -> Prop) s a :
  p s = Some a -> Q (Ret a) s -> wp (deref p) Q s.
Proof. unfold wp, deref. by intros ->. Qed.
End wp.

Lemma wp_zoom {S T A} (g : S -> T) (st : T -> S -> S) (m : cmd T A) Q s :
  wp m (fun o t => Q o (st t s)) (g s) -> wp (zoom g st m) Q s.
Proof. unfold wp, zoom. by destruct (m (g s)). Qed.
