(* ===== verification/SqlLexer.v ===== *)
(** * The SQL policy tokenizer of [packages/libmylite/src/database.cc]

    [collect_sql_policy_tokens] cuts a statement into at most
    [k_sql_policy_token_count] tokens, skipping spaces and comments and
    looking inside executable comments.  The definitions follow the source
    function by function: [sql] is the [string_view], [offset] the in/out
    parameter, returned as the new value. *)

From S2P Require Import Prelude.
From stdpp Require Import options.

Definition k_sql_policy_token_count : nat := 32.

(** [sql[offset] == c], for an [offset] below [sql.size()]. *)
Definition char_is (sql : bytes) (offset : nat) (c : ascii) : bool :=
  match sql !! offset with
  | Some x => Ascii.eqb x c
  | None => false
  end.

(** [while (offset < sql.size() && p(sql[offset])) ++offset] *)
Definition skip_while (p : ascii -> bool) (sql : bytes) (offset : nat) : nat :=
  offset + count_while p (drop offset sql).

(** The characters the tokenizer tests that have no literal of their own. *)
Definition char_tab : ascii := ascii_of_nat 9.
Definition char_newline : ascii := ascii_of_nat 10.
Definition char_formfeed : ascii := ascii_of_nat 12.
Definition char_return : ascii := ascii_of_nat 13.
Definition char_double_quote : ascii := ascii_of_nat 34.

Definition is_sql_space (value : ascii) : bool :=
  Ascii.eqb value " " || Ascii.eqb value char_tab || Ascii.eqb value char_newline ||
  Ascii.eqb value char_return || Ascii.eqb value char_formfeed.

Definition is_sql_digit (value : ascii) : bool := char_between "0" "9" value.

Definition is_sql_identifier_char (value : ascii) : bool :=
  char_between "a" "z" value || char_between "A" "Z" value ||
  char_between "0" "9" value || Ascii.eqb value "_".

Definition is_sql_quote (value : ascii) : bool :=
  Ascii.eqb value "'" || Ascii.eqb value char_double_quote || Ascii.eqb value "`".

Definition not_newline (value : ascii) : bool := negb (Ascii.eqb value char_newline).

(** Each comment function returns [None] where the source returns [false]
    without moving, and [Some offset'] where it returns [true]. *)
Definition enter_executable_sql_comment (sql : bytes) (offset : nat) : option nat :=
  let is_mysql_comment :=
    (offset + 2 <? length sql) && char_is sql offset "/" &&
    char_is sql (offset + 1) "*" && char_is sql (offset + 2) "!" in
  let is_mariadb_comment :=
    (offset + 3 <? length sql) && char_is sql offset "/" && char_is sql (offset + 1) "*" &&
    (char_is sql (offset + 2) "M" || char_is sql (offset + 2) "m") &&
    char_is sql (offset + 3) "!" in
  if is_mysql_comment then Some (skip_while is_sql_digit sql (offset + 3))
  else if is_mariadb_comment then Some (skip_while is_sql_digit sql (offset + 4))
  else None.

Definition skip_dash_sql_comment (sql : bytes) (offset : nat) : option nat :=
  if (length sql <=? offset + 1) || negb (char_is sql offset "-") ||
     negb (char_is sql (offset + 1) "-")
  then None
  else Some (skip_while not_newline sql (offset + 2)).

Definition skip_hash_sql_comment (sql : bytes) (offset : nat) : option nat :=
  if (length sql <=? offset) || negb (char_is sql offset "#")
  then None
  else Some (skip_while not_newline sql (offset + 1)).

(** [while (offset + 1 < size && (sql[offset] != '*' || sql[offset + 1] != '/')) ++offset],
    as the number of increments over the suffix. *)
Fixpoint count_to_comment_end (s : bytes) : nat :=
  match s with
  | c :: s' =>
      match s' with
      | d :: _ =>
          if negb (Ascii.eqb c "*") || negb (Ascii.eqb d "/")
          then S (count_to_comment_end s') else 0
      | [] => 0
      end
  | [] => 0
  end.

Definition skip_block_sql_comment (sql : bytes) (offset : nat) : option nat :=
  if (length sql <=? offset + 1) || negb (char_is sql offset "/") ||
     negb (char_is sql (offset + 1) "*")
  then None
  else
    let offset := offset + 2 in
    let offset := offset + count_to_comment_end (drop offset sql) in
    Some (if offset + 1 <? length sql then offset + 2 else offset).

(** The [for (;;)] of [skip_sql_spacing_and_comments].  Every [continue]
    follows a comment function that moved [offset], so the fuel that
    [skip_sql_spacing_and_comments] passes is never exhausted
    ([skip_sql_spacing_and_comments_loop]). *)
Fixpoint skip_spacing_loop (fuel : nat) (sql : bytes) (offset : nat) : nat :=
  match fuel with
  | 0 => offset
  | S fuel =>
      let offset := skip_while is_sql_space sql offset in
      match enter_executable_sql_comment sql offset with
      | Some offset => skip_spacing_loop fuel sql offset
      | None =>
      match skip_dash_sql_comment sql offset with
      | Some offset => skip_spacing_loop fuel sql offset
      | None =>
      match skip_hash_sql_comment sql offset with
      | Some offset => skip_spacing_loop fuel sql offset
      | None =>
      match skip_block_sql_comment sql offset with
      | Some offset => skip_spacing_loop fuel sql offset
      | None => offset
      end end end end
  end.

Definition skip_sql_spacing_and_comments (sql : bytes) (offset : nat) : nat :=
  skip_spacing_loop (S (length sql - offset)) sql offset.

(** The loop of [skip_quoted_sql_token] after the opening quote, as the
    number of characters it moves over. *)
Fixpoint count_quoted (quote : ascii) (s : bytes) : nat :=
  match s with
  | [] => 0
  | c :: s' =>
      if Ascii.eqb c "\" then
        match s' with
        | _ :: s'' => 2 + count_quoted quote s''
        | [] => if Ascii.eqb c quote then 1 else 1 + count_quoted quote s'
        end
      else if Ascii.eqb c quote then 1 else 1 + count_quoted quote s'
  end.

Definition skip_quoted_sql_token (sql : bytes) (offset : nat) : nat :=
  match sql !! offset with
  | Some quote => offset + 1 + count_quoted quote (drop (offset + 1) sql)
  | None => offset
  end.

(** [None] is the [false] return; [Some (offset', token)] the [true] one. *)
Definition next_sql_token (sql : bytes) (offset : nat) : option (nat * bytes) :=
  let offset := skip_sql_spacing_and_comments sql offset in
  match sql !! offset with
  | None => None
  | Some c =>
      let start := offset in
      if is_sql_quote c then
        let offset := skip_quoted_sql_token sql offset in
        Some (offset, take (offset - start) (drop start sql))
      else if is_sql_identifier_char c then
        let offset := skip_while is_sql_identifier_char sql offset in
        Some (offset, take (offset - start) (drop start sql))
      else Some (offset + 1, take 1 (drop start sql))
  end.

(** [std::array<std::string_view, 32> values] and [count]. *)
Record SqlPolicyTokens : Type := mkSqlPolicyTokens {
  values : list bytes;
  count : nat;
}.

Definition no_tokens : SqlPolicyTokens :=
  mkSqlPolicyTokens (replicate k_sql_policy_token_count []) 0.

(** [tokens.values[tokens.count] = token; ++tokens.count] *)
Definition push_token (tokens : SqlPolicyTokens) (token : bytes) : SqlPolicyTokens :=
  mkSqlPolicyTokens (<[count tokens := token]> (values tokens)) (S (count tokens)).

(** [room] is [tokens.values.size() - tokens.count]. *)
Fixpoint collect_loop (room : nat) (sql : bytes) (offset : nat) (tokens : SqlPolicyTokens)
    : SqlPolicyTokens :=
  match room with
  | 0 => tokens
  | S room =>
      match next_sql_token sql offset with
      | Some (offset, token) => collect_loop room sql offset (push_token tokens token)
      | None => tokens
      end
  end.

Definition collect_sql_policy_tokens (sql : bytes) : SqlPolicyTokens :=
  collect_loop k_sql_policy_token_count sql 0 no_tokens.

Example lexer_ex :
  let t := collect_sql_policy_tokens (str "/*!50003 Grant*/ -- x
   `a\`b`.c=1") in take (count t) (values t) =
  [str "Grant"; str "*"; str "/"; str "`a\`b`"; str "."; str "c"; str "="; str "1"].
Proof. vm_compute. reflexivity. Qed.
