(* ===== verification/SqlLexerFacts.v ===== *)
(** * Facts about the SQL policy tokenizer

    The tokenizer works on offsets into the whole statement; the lemmas here
    show that it only looks at the suffix from [offset] on ([*_app]), that it
    makes progress and stays in bounds, and that what
    [collect_sql_policy_tokens] stores is the first 32 tokens of the token
    stream [lex]. *)

From S2P Require Import Prelude SqlLexer.
From stdpp Require Import options.

(** The token stream of a statement, without the 32-token limit.  Every token
    has at least one character, so [length sql] tokens are enough. *)
Fixpoint lex_from (fuel : nat) (sql : bytes) (offset : nat) : list bytes :=
  match fuel with
  | 0 => []
  | S fuel =>
      match next_sql_token sql offset with
      | Some (offset, token) => token :: lex_from fuel sql offset
      | None => []
      end
  end.

Definition lex (sql : bytes) : list bytes := lex_from (length sql) sql 0.

(** ** Loops over suffixes *)

Lemma count_while_le p s : count_while p s <= length s.
Proof. induction s as [|c s IH]; simpl; [lia|]. destruct (p c); simpl; lia. Qed.

Lemma count_to_comment_end_le s : count_to_comment_end s <= length s.
Proof.
  induction s as [|c s IH]; simpl; [lia|]. destruct s as [|d s]; simpl in *; [lia|].
  destruct (_ || _); simpl in *; lia.
Qed.

Lemma count_quoted_le quote s : count_quoted quote s <= length s.
Proof.
  induction s as [s IH] using (induction_ltof1 _ (@length _)); unfold ltof in IH.
  destruct s as [|c s]; simpl; [lia|].
  pose proof (IH s ltac:(simpl; lia)).
  destruct (Ascii.eqb c "\"), (Ascii.eqb c quote), s as [|d s]; simpl in *; try lia.
  - pose proof (IH s ltac:(simpl; lia)); lia.
  - pose proof (IH s ltac:(simpl; lia)); lia.
Qed.

Lemma skip_while_bounds p sql offset :
  offset <= length sql -> offset <= skip_while p sql offset <= length sql.
Proof.
  intros H. unfold skip_while.
  pose proof (count_while_le p (drop offset sql)). rewrite length_drop in *. lia.
Qed.

Lemma sub_cancel n a b : n + a - (n + b) = a - b.
Proof. lia. Qed.

(** ** Locality: only the suffix matters *)

Section locality.
Context (pre s : bytes).

Lemma char_is_app offset c :
  char_is (pre ++ s) (length pre + offset) c = char_is s offset c.
Proof. unfold char_is. rewrite lookup_app_r by lia. by rewrite Nat.add_comm, Nat.add_sub. Qed.

Lemma skip_while_app p offset :
  skip_while p (pre ++ s) (length pre + offset) = length pre + skip_while p s offset.
Proof. unfold skip_while. rewrite drop_app_add. lia. Qed.

Lemma ltb_length_app n : (length pre + n <? length (pre ++ s)) = (n <? length s).
Proof. rewrite length_app. apply eq_iff_eq_true. rewrite !Nat.ltb_lt. lia. Qed.

Lemma leb_length_app n : (length (pre ++ s) <=? length pre + n) = (length s <=? n).
Proof. rewrite length_app. apply eq_iff_eq_true. rewrite !Nat.leb_le. lia. Qed.

Ltac shift := rewrite <-?Nat.add_assoc, ?ltb_length_app, ?leb_length_app, ?char_is_app,
  ?skip_while_app, ?drop_app_add.

Lemma enter_executable_sql_comment_app offset :
  enter_executable_sql_comment (pre ++ s) (length pre + offset) =
  Nat.add (length pre) <$> enter_executable_sql_comment s offset.
Proof.
  unfold enter_executable_sql_comment. shift. by repeat case_match.
Qed.

Lemma skip_dash_sql_comment_app offset :
  skip_dash_sql_comment (pre ++ s) (length pre + offset) =
  Nat.add (length pre) <$> skip_dash_sql_comment s offset.
Proof. unfold skip_dash_sql_comment. shift. by case_match. Qed.

Lemma skip_hash_sql_comment_app offset :
  skip_hash_sql_comment (pre ++ s) (length pre + offset) =
  Nat.add (length pre) <$> skip_hash_sql_comment s offset.
Proof. unfold skip_hash_sql_comment. shift. by case_match. Qed.

Lemma skip_block_sql_comment_app offset :
  skip_block_sql_comment (pre ++ s) (length pre + offset) =
  Nat.add (length pre) <$> skip_block_sql_comment s offset.
Proof. unfold skip_block_sql_comment. cbv zeta. shift. by repeat case_match. Qed.

Lemma skip_spacing_loop_app fuel offset :
  skip_spacing_loop fuel (pre ++ s) (length pre + offset) =
  length pre + skip_spacing_loop fuel s offset.
Proof.
  revert offset. induction fuel as [|fuel IH]; intros offset; [done|]. simpl.
  rewrite skip_while_app, enter_executable_sql_comment_app, skip_dash_sql_comment_app,
    skip_hash_sql_comment_app, skip_block_sql_comment_app.
  repeat (case_match; simpl in *; simplify_eq; try apply IH; try done).
Qed.

Lemma skip_sql_spacing_and_comments_app offset :
  skip_sql_spacing_and_comments (pre ++ s) (length pre + offset) =
  length pre + skip_sql_spacing_and_comments s offset.
Proof.
  unfold skip_sql_spacing_and_comments. rewrite skip_spacing_loop_app, length_app.
  do 3 f_equal. lia.
Qed.

Lemma skip_quoted_sql_token_app offset :
  skip_quoted_sql_token (pre ++ s) (length pre + offset) =
  length pre + skip_quoted_sql_token s offset.
Proof.
  unfold skip_quoted_sql_token. rewrite lookup_app_r by lia.
  rewrite (Nat.add_comm (length pre) offset), Nat.add_sub.
  rewrite (Nat.add_comm offset (length pre)), <-Nat.add_assoc, drop_app_add.
  case_match; lia.
Qed.

Lemma next_sql_token_app offset :
  next_sql_token (pre ++ s) (length pre + offset) =
  prod_map (Nat.add (length pre)) id <$> next_sql_token s offset.
Proof.
  unfold next_sql_token. cbv zeta. rewrite skip_sql_spacing_and_comments_app.
  set (o := skip_sql_spacing_and_comments s offset).
  rewrite lookup_app_r by lia. rewrite (Nat.add_comm (length pre) o), Nat.add_sub.
  rewrite (Nat.add_comm o (length pre)), skip_quoted_sql_token_app, skip_while_app, drop_app_add.
  rewrite !(sub_cancel (length pre)), <-Nat.add_assoc.
  destruct (s !! o) as [c|]; [|done].
  by destruct (is_sql_quote c), (is_sql_identifier_char c).
Qed.

Lemma lex_from_app fuel offset :
  lex_from fuel (pre ++ s) (length pre + offset) = lex_from fuel s offset.
Proof.
  revert offset. induction fuel as [|fuel IH]; intros offset; [done|]. simpl.
  rewrite next_sql_token_app. destruct (next_sql_token s offset) as [[o t]|]; simpl; [|done].
  by rewrite IH.
Qed.

End locality.

(** ** Progress and bounds *)

Lemma char_is_lt sql offset c : char_is sql offset c = true -> offset < length sql.
Proof.
  unfold char_is. destruct (sql !! offset) eqn:E; [|done].
  intros _. by eapply lookup_lt_Some.
Qed.

(** Turns boolean guards of the tokenizer into propositions. *)
Ltac lexer_guards :=
  repeat match goal with
  | H : _ && _ = true |- _ => apply andb_prop in H as [? ?]
  | H : _ || _ = false |- _ => apply orb_false_elim in H as [? ?]
  | H : negb _ = false |- _ => apply negb_false_iff in H
  | H : (_ <? _) = true |- _ => apply Nat.ltb_lt in H
  | H : (_ <=? _) = false |- _ => apply Nat.leb_gt in H
  | H : Some _ = Some _ |- _ => injection H as <-
  end.

Lemma enter_executable_sql_comment_bounds sql offset offset' :
  enter_executable_sql_comment sql offset = Some offset' -> offset < offset' <= length sql.
Proof.
  unfold enter_executable_sql_comment. intros H.
  repeat case_match; simplify_eq; lexer_guards;
    match goal with |- context [skip_while ?p sql ?o] =>
      pose proof (skip_while_bounds p sql o ltac:(lia)) end; lia.
Qed.

Lemma skip_dash_sql_comment_bounds sql offset offset' :
  skip_dash_sql_comment sql offset = Some offset' -> offset < offset' <= length sql.
Proof.
  unfold skip_dash_sql_comment. intros H. case_match; simplify_eq; lexer_guards.
  pose proof (skip_while_bounds not_newline sql (offset + 2) ltac:(lia)). lia.
Qed.

Lemma skip_hash_sql_comment_bounds sql offset offset' :
  skip_hash_sql_comment sql offset = Some offset' -> offset < offset' <= length sql.
Proof.
  unfold skip_hash_sql_comment. intros H. case_match; simplify_eq; lexer_guards.
  pose proof (skip_while_bounds not_newline sql (offset + 1) ltac:(lia)). lia.
Qed.

Lemma skip_block_sql_comment_bounds sql offset offset' :
  skip_block_sql_comment sql offset = Some offset' -> offset < offset' <= length sql.
Proof.
  unfold skip_block_sql_comment. intros H. case_match; simplify_eq; lexer_guards.
  pose proof (count_to_comment_end_le (drop (offset + 2) sql)). rewrite length_drop in *.
  destruct (_ <? _) eqn:?; lexer_guards; lia.
Qed.

Create HintDb lexer.
#[export] Hint Resolve enter_executable_sql_comment_bounds skip_dash_sql_comment_bounds
  skip_hash_sql_comment_bounds skip_block_sql_comment_bounds : lexer.

(** One round of the [for (;;)] loop: the offset after the spaces and, when a
    comment starts there, the offset the loop continues from. *)
Definition comment_at (sql : bytes) (offset : nat) : option nat :=
  match enter_executable_sql_comment sql offset with
  | Some o => Some o
  | None =>
  match skip_dash_sql_comment sql offset with
  | Some o => Some o
  | None =>
  match skip_hash_sql_comment sql offset with
  | Some o => Some o
  | None => skip_block_sql_comment sql offset
  end end end.

Lemma comment_at_bounds sql offset offset' :
  comment_at sql offset = Some offset' -> offset < offset' <= length sql.
Proof. unfold comment_at. intros H. repeat case_match; simplify_eq; eauto with lexer. Qed.
#[export] Hint Resolve comment_at_bounds : lexer.

Lemma skip_spacing_loop_S fuel sql offset :
  skip_spacing_loop (S fuel) sql offset =
  let offset := skip_while is_sql_space sql offset in
  match comment_at sql offset with
  | Some offset => skip_spacing_loop fuel sql offset
  | None => offset
  end.
Proof. simpl. unfold comment_at. by repeat case_match. Qed.

Lemma skip_spacing_loop_fuel fuel1 fuel2 sql offset :
  length sql - offset < fuel1 -> length sql - offset < fuel2 -> offset <= length sql ->
  skip_spacing_loop fuel1 sql offset = skip_spacing_loop fuel2 sql offset.
Proof.
  revert fuel2 offset. induction fuel1 as [|fuel1 IH]; intros [|fuel2] offset H1 H2 H3; try lia.
  rewrite !skip_spacing_loop_S. cbv zeta.
  pose proof (skip_while_bounds is_sql_space sql offset H3).
  destruct (comment_at _ _) as [o|] eqn:E; [|done].
  apply comment_at_bounds in E. apply IH; lia.
Qed.

Lemma skip_spacing_loop_bounds fuel sql offset :
  offset <= length sql -> offset <= skip_spacing_loop fuel sql offset <= length sql.
Proof.
  revert offset. induction fuel as [|fuel IH]; intros offset H; [simpl; lia|].
  rewrite skip_spacing_loop_S. cbv zeta.
  pose proof (skip_while_bounds is_sql_space sql offset H).
  destruct (comment_at _ _) as [o|] eqn:E; [|lia].
  apply comment_at_bounds in E. specialize (IH o). lia.
Qed.

Lemma skip_sql_spacing_and_comments_bounds sql offset :
  offset <= length sql -> offset <= skip_sql_spacing_and_comments sql offset <= length sql.
Proof. apply skip_spacing_loop_bounds. Qed.

(** The loop equation: with the fuel [skip_sql_spacing_and_comments] passes,
    the loop behaves as the unbounded [for (;;)]. *)
Lemma skip_sql_spacing_and_comments_loop sql offset :
  offset <= length sql ->
  skip_sql_spacing_and_comments sql offset =
  let offset := skip_while is_sql_space sql offset in
  match comment_at sql offset with
  | Some offset => skip_sql_spacing_and_comments sql offset
  | None => offset
  end.
Proof.
  intros H. unfold skip_sql_spacing_and_comments at 1. rewrite skip_spacing_loop_S. cbv zeta.
  pose proof (skip_while_bounds is_sql_space sql offset H).
  destruct (comment_at _ _) as [o|] eqn:E; [|done].
  apply comment_at_bounds in E. apply skip_spacing_loop_fuel; lia.
Qed.

Lemma skip_quoted_sql_token_bounds sql offset :
  offset < length sql -> offset < skip_quoted_sql_token sql offset <= length sql.
Proof.
  intros H. unfold skip_quoted_sql_token.
  destruct (lookup_lt_is_Some_2 sql offset H) as [c ->].
  pose proof (count_quoted_le c (drop (offset + 1) sql)). rewrite length_drop in *. lia.
Qed.

Lemma skip_while_progress p sql offset c :
  sql !! offset = Some c -> p c = true -> offset < skip_while p sql offset.
Proof.
  intros H Hp. unfold skip_while. erewrite drop_S by done. simpl. rewrite Hp. lia.
Qed.

(** What a successful [next_sql_token] returns: the token is the non-empty
    slice [sql[start..offset')], and the scan moves forward. *)
Lemma next_sql_token_slice sql offset offset' token :
  offset <= length sql ->
  next_sql_token sql offset = Some (offset', token) ->
  let start := skip_sql_spacing_and_comments sql offset in
  offset <= start /\ start < offset' /\ offset' <= length sql /\
  token = take (offset' - start) (drop start sql).
Proof.
  intros H. unfold next_sql_token. cbv zeta.
  pose proof (skip_sql_spacing_and_comments_bounds sql offset H) as Hs.
  set (start := skip_sql_spacing_and_comments sql offset) in *.
  destruct (sql !! start) as [c|] eqn:E; [|done].
  pose proof (lookup_lt_Some _ _ _ E).
  pose proof (skip_quoted_sql_token_bounds sql start ltac:(done)).
  pose proof (skip_while_bounds is_sql_identifier_char sql start ltac:(lia)).
  intros Hn. destruct (is_sql_quote c); [|destruct (is_sql_identifier_char c) eqn:Hi];
    simplify_eq; split_and!; try lia; try done.
  - eapply skip_while_progress; eauto.
  - by replace (start + 1 - start) with 1 by lia.
Qed.

Lemma next_sql_token_bounds sql offset offset' token :
  offset <= length sql ->
  next_sql_token sql offset = Some (offset', token) ->
  offset < offset' <= length sql /\ length token = offset' - skip_sql_spacing_and_comments sql offset.
Proof.
  intros H Hn. destruct (next_sql_token_slice _ _ _ _ H Hn) as (? & ? & ? & ->).
  rewrite length_take, length_drop. lia.
Qed.

Lemma next_sql_token_nonempty sql offset offset' token :
  offset <= length sql -> next_sql_token sql offset = Some (offset', token) -> token <> [].
Proof.
  intros H Hn. destruct (next_sql_token_slice _ _ _ _ H Hn) as (? & ? & ? & _).
  apply next_sql_token_bounds in Hn as [_ Hl]; [|done]. intros ->. simpl in *. lia.
Qed.

(** ** The token stream *)

Lemma lex_from_fuel fuel1 fuel2 sql offset :
  length sql - offset <= fuel1 -> length sql - offset <= fuel2 -> offset <= length sql ->
  lex_from fuel1 sql offset = lex_from fuel2 sql offset.
Proof.
  revert fuel2 offset. induction fuel1 as [|fuel1 IH]; intros fuel2 offset H1 H2 H3.
  - destruct fuel2 as [|fuel2]; [done|]. simpl.
    destruct (next_sql_token sql offset) as [[o t]|] eqn:E; [|done].
    apply next_sql_token_bounds in E; [|done]. lia.
  - destruct fuel2 as [|fuel2]; simpl;
      destruct (next_sql_token sql offset) as [[o t]|] eqn:E; try done;
      apply next_sql_token_bounds in E; try lia.
    f_equal. apply IH; lia.
Qed.

(** The stream is the first token followed by the stream of the rest. *)
Lemma lex_unfold sql :
  lex sql =
  match next_sql_token sql 0 with
  | Some (offset, token) => token :: lex (drop offset sql)
  | None => []
  end.
Proof.
  unfold lex. destruct (length sql) as [|n] eqn:Hl.
  { apply nil_length_inv in Hl as ->. done. }
  simpl. destruct (next_sql_token sql 0) as [[o t]|] eqn:E; [|done]. f_equal.
  apply next_sql_token_bounds in E as [Hb _]; [|lia].
  assert (lex_from n sql o = lex_from n (drop o sql) 0) as ->.
  { rewrite <-(take_drop o sql) at 1.
    rewrite <-(lex_from_app (take o sql) (drop o sql) n 0). f_equal.
    rewrite length_take. lia. }
  apply lex_from_fuel; rewrite ?length_drop; lia.
Qed.

Lemma collect_loop_spec room sql offset tokens :
  offset <= length sql -> length (values tokens) = count tokens + room ->
  let toks := take room (lex_from (length sql) sql offset) in
  collect_loop room sql offset tokens =
  mkSqlPolicyTokens
    (take (count tokens) (values tokens) ++ toks ++
     drop (count tokens + length toks) (values tokens))
    (count tokens + length toks).
Proof.
  revert offset tokens. induction room as [|room IH]; intros offset [vs n] Ho Hl; simpl in *.
  { rewrite Nat.add_0_r, take_drop. done. }
  destruct (length sql) as [|m] eqn:Hm; simpl.
  { apply nil_length_inv in Hm as ->. simpl. rewrite Nat.add_0_r, take_drop. done. }
  destruct (next_sql_token sql offset) as [[o t]|] eqn:E; simpl.
  2:{ rewrite Nat.add_0_r, take_drop. done. }
  apply next_sql_token_bounds in E as [Hb _]; [|lia].
  rewrite IH by (simpl; rewrite ?length_insert; lia).
  rewrite (lex_from_fuel (S m) m) by lia. cbn [push_token values count].
  set (toks := take room (lex_from m sql o)).
  change (length (t :: toks)) with (S (length toks)).
  rewrite <-Nat.add_succ_comm. f_equal.
  erewrite take_S_r by (apply list_lookup_insert_eq; lia).
  rewrite take_insert_ge, drop_insert_lt by lia.
  by rewrite <-app_assoc.
Qed.

(** [collect_sql_policy_tokens] stores the first 32 tokens of the stream. *)
Lemma collect_sql_policy_tokens_lex sql :
  let toks := take k_sql_policy_token_count (lex sql) in
  collect_sql_policy_tokens sql =
  mkSqlPolicyTokens
    (toks ++ replicate (k_sql_policy_token_count - length toks) []) (length toks).
Proof.
  cbv zeta. unfold collect_sql_policy_tokens.
  rewrite collect_loop_spec; [|lia|reflexivity].
  unfold no_tokens. cbn [values count]. rewrite drop_replicate. done.
Qed.

Lemma collected_tokens sql :
  take (count (collect_sql_policy_tokens sql)) (values (collect_sql_policy_tokens sql)) =
  take k_sql_policy_token_count (lex sql).
Proof. rewrite collect_sql_policy_tokens_lex. simpl. by rewrite take_app_length. Qed.

(** ** Equations of the token stream *)

Lemma skip_while_stop p sql offset :
  (forall c, sql !! offset = Some c -> p c = false) -> skip_while p sql offset = offset.
Proof.
  intros H. unfold skip_while. destruct (sql !! offset) as [c|] eqn:E.
  - erewrite drop_S by done. simpl. rewrite H by done. lia.
  - apply lookup_ge_None in E. rewrite drop_ge by done. simpl. lia.
Qed.

Lemma count_while_all p s rest :
  forallb p s = true -> (forall c, head rest = Some c -> p c = false) ->
  count_while p (s ++ rest) = length s.
Proof.
  intros Hs Hr. induction s as [|c s IH]; simpl in *.
  - destruct rest as [|c rest]; simpl in *; [done|]. by rewrite Hr.
  - apply andb_prop in Hs as [-> Hs]. by rewrite IH.
Qed.

Lemma comment_at_app pre s offset :
  comment_at (pre ++ s) (length pre + offset) = Nat.add (length pre) <$> comment_at s offset.
Proof.
  unfold comment_at. rewrite enter_executable_sql_comment_app, skip_dash_sql_comment_app,
    skip_hash_sql_comment_app, skip_block_sql_comment_app.
  by repeat (case_match; simpl in *; simplify_eq).
Qed.

(** A comment starts with one of three characters. *)
Lemma comment_at_start sql offset offset' :
  comment_at sql offset = Some offset' ->
  char_is sql offset "/" = true \/ char_is sql offset "-" = true \/ char_is sql offset "#" = true.
Proof.
  unfold comment_at, enter_executable_sql_comment, skip_dash_sql_comment,
    skip_hash_sql_comment, skip_block_sql_comment.
  intros H. repeat case_match; simplify_eq; lexer_guards; auto.
Qed.

Definition starts_plain (c : ascii) : bool :=
  negb (is_sql_space c) && negb (Ascii.eqb c "/") && negb (Ascii.eqb c "-") &&
  negb (Ascii.eqb c "#").

Lemma comment_not_space sql offset offset' c :
  comment_at sql offset = Some offset' -> sql !! offset = Some c -> is_sql_space c = false.
Proof.
  intros H Hc. apply comment_at_start in H. unfold char_is in H. rewrite Hc in H.
  destruct H as [H|[H|H]]; apply Ascii.eqb_eq in H as ->; reflexivity.
Qed.

Lemma skip_stop c s :
  starts_plain c = true -> skip_sql_spacing_and_comments (c :: s) 0 = 0.
Proof.
  unfold starts_plain. intros H.
  repeat (apply andb_prop in H as [H ?]).
  rewrite skip_sql_spacing_and_comments_loop by lia. cbv zeta.
  rewrite skip_while_stop by (intros ? [= <-]; by destruct (is_sql_space c)).
  destruct (comment_at _ _) as [o|] eqn:E; [|done].
  apply comment_at_start in E. unfold char_is in E. simpl in E.
  destruct (Ascii.eqb c "/"), (Ascii.eqb c "-"), (Ascii.eqb c "#");
    simpl in *; destruct_or?; discriminate.
Qed.

(** Skipping is idempotent: it stops where neither a space nor a comment starts. *)
Lemma skip_idempotent sql offset :
  offset <= length sql ->
  skip_sql_spacing_and_comments sql (skip_sql_spacing_and_comments sql offset) =
  skip_sql_spacing_and_comments sql offset.
Proof.
  remember (length sql - offset) as n eqn:Hn. revert offset Hn.
  induction n as [n IH] using lt_wf_ind; intros offset Hn H.
  rewrite (skip_sql_spacing_and_comments_loop sql offset) by done. cbv zeta.
  pose proof (skip_while_bounds is_sql_space sql offset H).
  set (o := skip_while is_sql_space sql offset) in *.
  destruct (comment_at sql o) as [o'|] eqn:E.
  - pose proof (comment_at_bounds _ _ _ E). apply (IH (length sql - o')); lia.
  - rewrite skip_sql_spacing_and_comments_loop by lia. cbv zeta.
    rewrite skip_while_stop, E; [done|].
    intros c Hc. destruct (is_sql_space c) eqn:Hsp; [exfalso|done].
    assert (drop (skip_while is_sql_space sql offset) sql !! 0 = Some c) as Hd.
    { by rewrite lookup_drop, Nat.add_0_r. }
    unfold skip_while in Hd. rewrite <-drop_drop in Hd. revert Hd Hsp. clear.
    generalize (drop offset sql) as s. induction s as [|d s IHs]; simpl; [done|].
    destruct (is_sql_space d) eqn:?; simpl; [exact IHs|]. congruence.
Qed.

(** A skipped prefix does not change the stream. *)
Lemma lex_skip pre s :
  skip_sql_spacing_and_comments (pre ++ s) 0 =
  skip_sql_spacing_and_comments (pre ++ s) (length pre) ->
  lex (pre ++ s) = lex s.
Proof.
  intros H. rewrite (lex_unfold (pre ++ s)), (lex_unfold s).
  assert (next_sql_token (pre ++ s) 0 =
    prod_map (Nat.add (length pre)) id <$> next_sql_token s 0) as ->.
  { rewrite <-next_sql_token_app, Nat.add_0_r. unfold next_sql_token. by rewrite H. }
  destruct (next_sql_token s 0) as [[o t]|]; simpl; [|done]. by rewrite drop_app_add.
Qed.

Lemma lex_space c s : is_sql_space c = true -> lex (c :: s) = lex s.
Proof.
  intros H. apply (lex_skip [c]). rewrite !(skip_sql_spacing_and_comments_loop ([c] ++ s))
    by (simpl; lia). cbv zeta.
  assert (skip_while is_sql_space ([c] ++ s) 0 = skip_while is_sql_space ([c] ++ s) (length [c]))
    as ->; [|done].
  unfold skip_while. simpl. rewrite H, drop_0. lia.
Qed.

Lemma lex_comment pre s :
  comment_at (pre ++ s) 0 = Some (length pre) -> lex (pre ++ s) = lex s.
Proof.
  intros H. apply lex_skip.
  rewrite (skip_sql_spacing_and_comments_loop (pre ++ s)) by lia. cbv zeta.
  rewrite skip_while_stop, H; [done|]. intros c Hc. by eapply comment_not_space.
Qed.

Lemma lex_spaces pre s : forallb is_sql_space pre = true -> lex (pre ++ s) = lex s.
Proof.
  induction pre as [|c pre IH]; [done|]. simpl. intros [? ?]%andb_prop.
  rewrite lex_space by done. auto.
Qed.

(** The stream after a token that starts right away. *)
Lemma lex_token c s n :
  starts_plain c = true ->
  (next_sql_token (c :: s) 0 = Some (n, take n (c :: s))) ->
  lex (c :: s) = take n (c :: s) :: lex (drop n (c :: s)).
Proof. intros _ H. by rewrite lex_unfold, H. Qed.

Lemma identifier_char_plain c :
  is_sql_identifier_char c = true -> starts_plain c = true /\ is_sql_quote c = false.
Proof. by_ascii c; split; reflexivity. Qed.

Lemma lex_identifier t s :
  t <> [] -> forallb is_sql_identifier_char t = true ->
  (forall c, head s = Some c -> is_sql_identifier_char c = false) ->
  lex (t ++ s) = t :: lex s.
Proof.
  intros Hne Ht Hs. destruct t as [|c t]; [done|].
  pose proof Ht as Hc. simpl in Hc. apply andb_prop in Hc as [Hc _].
  destruct (identifier_char_plain c Hc) as [Hp Hq].
  rewrite lex_unfold. unfold next_sql_token. cbv zeta.
  change ((c :: t) ++ s) with (c :: (t ++ s)). rewrite skip_stop by done. simpl. rewrite Hq, Hc.
  unfold skip_while. rewrite drop_0. change (c :: t ++ s) with ((c :: t) ++ s).
  rewrite count_while_all by done.
  replace (0 + length (c :: t) - 0) with (length (c :: t)) by lia.
  rewrite take_app_length, Nat.add_0_l, drop_app_length. done.
Qed.

Lemma lex_char c s :
  starts_plain c = true -> is_sql_quote c = false -> is_sql_identifier_char c = false ->
  lex (c :: s) = [c] :: lex s.
Proof.
  intros Hp Hq Hi. rewrite lex_unfold. unfold next_sql_token. cbv zeta.
  rewrite skip_stop by done. simpl. rewrite Hq, Hi. simpl. by rewrite drop_0.
Qed.

(** A quoted token is taken whole, escapes included, up to the closing quote
    or the end of the statement. *)
Lemma lex_quoted quote s :
  is_sql_quote quote = true ->
  let n := count_quoted quote s in
  lex (quote :: s) = (quote :: take n s) :: lex (drop n s).
Proof.
  intros Hq. cbv zeta.
  assert (starts_plain quote = true) as Hp by (revert Hq; by_ascii quote).
  rewrite lex_unfold. unfold next_sql_token. cbv zeta. rewrite skip_stop by done. simpl.
  rewrite Hq. unfold skip_quoted_sql_token. simpl. rewrite drop_0. done.
Qed.

Lemma lex_nil : lex [] = [].
Proof. reflexivity. Qed.

(** ** ASCII case *)

Lemma upper_length s : length (upper s) = length s.
Proof. apply length_fmap. Qed.

Lemma upper_cons c s : upper (c :: s) = to_upper c :: upper s.
Proof. reflexivity. Qed.

Lemma upper_drop n s : drop n (upper s) = upper (drop n s).
Proof. symmetry. apply fmap_drop. Qed.

Lemma upper_take n s : take n (upper s) = upper (take n s).
Proof. symmetry. apply fmap_take. Qed.

Lemma upper_lookup n s : upper s !! n = to_upper <$> s !! n.
Proof. apply list_lookup_fmap. Qed.

Lemma to_upper_other c x : char_between "a" "z" x = false -> char_between "A" "Z" x = false ->
  Ascii.eqb (to_upper c) x = Ascii.eqb c x.
Proof.
  intros H1 H2. destruct (Ascii.eqb_spec c x) as [->|Hne].
  - unfold to_upper. rewrite H1. apply Ascii.eqb_refl.
  - apply Ascii.eqb_neq. unfold to_upper. destruct (char_between "a" "z" c) eqn:E; [|done].
    intros <-. revert E H2. clear. by_ascii c.
Qed.

Lemma is_sql_space_upper c : is_sql_space (to_upper c) = is_sql_space c.
Proof. by_ascii c. Qed.
Lemma is_sql_digit_upper c : is_sql_digit (to_upper c) = is_sql_digit c.
Proof. by_ascii c. Qed.
Lemma is_sql_identifier_char_upper c : is_sql_identifier_char (to_upper c) = is_sql_identifier_char c.
Proof. by_ascii c. Qed.
Lemma is_sql_quote_upper c : is_sql_quote (to_upper c) = is_sql_quote c.
Proof. by_ascii c. Qed.
Lemma not_newline_upper c : not_newline (to_upper c) = not_newline c.
Proof. by_ascii c. Qed.

Lemma char_is_upper s offset x :
  char_between "a" "z" x = false -> char_between "A" "Z" x = false ->
  char_is (upper s) offset x = char_is s offset x.
Proof.
  intros ? ?. unfold char_is. rewrite upper_lookup.
  destruct (s !! offset); simpl; [by apply to_upper_other|done].
Qed.

Lemma char_is_upper_m s offset :
  char_is (upper s) offset "M" || char_is (upper s) offset "m" =
  char_is s offset "M" || char_is s offset "m".
Proof.
  unfold char_is. rewrite upper_lookup.
  destruct (s !! offset) as [c|]; simpl; [|done]. by_ascii c.
Qed.

Lemma count_while_upper p s :
  (forall c, p (to_upper c) = p c) -> count_while p (upper s) = count_while p s.
Proof.
  intros H. induction s as [|c s IH]; [done|]. rewrite upper_cons. simpl. by rewrite H, IH.
Qed.

Lemma skip_while_upper p s offset :
  (forall c, p (to_upper c) = p c) -> skip_while p (upper s) offset = skip_while p s offset.
Proof.
  intros H. unfold skip_while. by rewrite upper_drop, count_while_upper.
Qed.

Lemma count_to_comment_end_upper s : count_to_comment_end (upper s) = count_to_comment_end s.
Proof.
  induction s as [|c s IH]; [done|]. destruct s as [|d s]; [done|].
  rewrite upper_cons. cbn [count_to_comment_end]. rewrite IH, upper_cons.
  by rewrite !to_upper_other.
Qed.

Lemma count_quoted_upper quote s :
  is_sql_quote quote = true -> count_quoted quote (upper s) = count_quoted quote s.
Proof.
  intros Hq.
  assert (char_between "a" "z" quote = false /\ char_between "A" "Z" quote = false) as [H1 H2]
    by (revert Hq; by_ascii quote; split; reflexivity).
  induction s as [s IH] using (induction_ltof1 _ (@length _)); unfold ltof in IH.
  destruct s as [|c s]; [done|]. rewrite upper_cons. simpl.
  rewrite !(to_upper_other c), (IH s) by (done || simpl; lia).
  destruct s as [|d s]; [done|]. rewrite upper_cons, (IH s) by (simpl; lia). done.
Qed.

Lemma enter_executable_sql_comment_upper s offset :
  enter_executable_sql_comment (upper s) offset = enter_executable_sql_comment s offset.
Proof.
  unfold enter_executable_sql_comment.
  rewrite char_is_upper_m, !char_is_upper, !skip_while_upper, upper_length
    by (done || apply is_sql_digit_upper). done.
Qed.

Lemma comment_at_upper s offset : comment_at (upper s) offset = comment_at s offset.
Proof.
  unfold comment_at, skip_dash_sql_comment, skip_hash_sql_comment, skip_block_sql_comment.
  rewrite enter_executable_sql_comment_upper, !char_is_upper, !skip_while_upper, upper_length
    by (done || apply not_newline_upper).
  by rewrite upper_drop, count_to_comment_end_upper.
Qed.

Lemma skip_sql_spacing_and_comments_upper s offset :
  skip_sql_spacing_and_comments (upper s) offset = skip_sql_spacing_and_comments s offset.
Proof.
  unfold skip_sql_spacing_and_comments. rewrite upper_length.
  generalize (S (length s - offset)) as fuel. intros fuel. revert offset.
  induction fuel as [|fuel IH]; intros offset; [done|].
  rewrite !skip_spacing_loop_S. cbv zeta.
  rewrite skip_while_upper, comment_at_upper by apply is_sql_space_upper. by case_match.
Qed.

Lemma skip_quoted_sql_token_upper s offset quote :
  s !! offset = Some quote -> is_sql_quote quote = true ->
  skip_quoted_sql_token (upper s) offset = skip_quoted_sql_token s offset.
Proof.
  intros Hs Hq. unfold skip_quoted_sql_token. rewrite upper_lookup, Hs. simpl.
  assert (to_upper quote = quote) as -> by (revert Hq; clear; by_ascii quote).
  by rewrite upper_drop, count_quoted_upper.
Qed.

Lemma next_sql_token_upper s offset :
  next_sql_token (upper s) offset = prod_map id upper <$> next_sql_token s offset.
Proof.
  unfold next_sql_token. cbv zeta. rewrite skip_sql_spacing_and_comments_upper.
  set (o := skip_sql_spacing_and_comments s offset).
  rewrite upper_lookup, upper_drop. destruct (s !! o) as [c|] eqn:E; [|done].
  cbn [fmap option_fmap option_map]. rewrite is_sql_quote_upper, is_sql_identifier_char_upper.
  destruct (is_sql_quote c) eqn:Hq.
  - erewrite skip_quoted_sql_token_upper by done. by rewrite upper_take.
  - destruct (is_sql_identifier_char c); rewrite ?skip_while_upper, upper_take
      by apply is_sql_identifier_char_upper; done.
Qed.

(** Tokenizing commutes with upper-casing the statement. *)
Lemma lex_upper s : lex (upper s) = upper <$> lex s.
Proof.
  unfold lex. rewrite upper_length. generalize (length s) as fuel. intros fuel.
  generalize 0 as offset. induction fuel as [|fuel IH]; intros offset; [done|]. simpl.
  rewrite next_sql_token_upper.
  destruct (next_sql_token s offset) as [[o t]|]; simpl; [|done]. by rewrite IH.
Qed.
