(* ===== verification/SqlPolicy.v ===== *)
(** * The SQL policy gate of [packages/libmylite/src/database.cc]

    [reject_unsupported_sql_policy] looks at the first 32 tokens of a
    statement and refuses the statement families that do not fit an embedded
    runtime.  One definition per source function, in the order helpers,
    families, gate.  A [const char *] keyword is a Rocq string, a
    [std::string_view] a byte list. *)

From S2P Require Import Prelude Api SqlLexer.
From stdpp Require Import options.

(** ** Token tests *)

(** [tokens.values[index]] *)
Definition token_at (tokens : SqlPolicyTokens) (index : nat) : bytes :=
  nth index (values tokens) [].

(** The comparison loop of [token_equals] over two strings of equal length. *)
Fixpoint equal_ignoring_case (token keyword : bytes) : bool :=
  match token, keyword with
  | l :: token, r :: keyword =>
      Ascii.eqb (to_upper l) (to_upper r) && equal_ignoring_case token keyword
  | _, _ => true
  end.

Definition token_equals (token : bytes) (keyword : string) : bool :=
  (length token =? length (str keyword)) && equal_ignoring_case token (str keyword).

(** The three overloads of [token_in]. *)
Definition token_in2 (token : bytes) (first second : string) : bool :=
  token_equals token first || token_equals token second.

Definition token_in3 (token : bytes) (first second third : string) : bool :=
  token_equals token first || token_equals token second || token_equals token third.

Definition token_in4 (token : bytes) (first second third fourth : string) : bool :=
  token_equals token first || token_equals token second ||
  token_equals token third || token_equals token fourth.

(** [token.front() == '`' && token.back() == '`'] and at least two bytes. *)
Definition unquoted_identifier_token (token : bytes) : bytes :=
  if (2 <=? length token) && char_is token 0 "`" && char_is token (length token - 1) "`"
  then take (length token - 2) (drop 1 token)
  else token.

Definition identifier_token_equals (token : bytes) (keyword : string) : bool :=
  token_equals (unquoted_identifier_token token) keyword.

Definition is_sql_identifier_token (token : bytes) : bool :=
  match token with
  | [] => false
  | c :: _ => is_sql_identifier_char c
  end.

(** The loop of [identifier_token_at] over the stored tokens. *)
Fixpoint identifier_token_loop (tokens : list bytes) (identifier_index index : nat) : bytes :=
  match tokens with
  | [] => []
  | token :: tokens =>
      if negb (is_sql_identifier_token token)
      then identifier_token_loop tokens identifier_index index
      else if identifier_index =? index then token
      else identifier_token_loop tokens (S identifier_index) index
  end.

Definition identifier_token_at (tokens : SqlPolicyTokens) (index : nat) : bytes :=
  identifier_token_loop (take (count tokens) (values tokens)) 0 index.

(** [view.empty()] *)
Definition is_empty (token : bytes) : bool :=
  match token with [] => true | _ => false end.

(** [for (index = start_index; !identifier_token_at(tokens, index).empty(); ++index)]:
    there is no identifier at [count] or later, so the fuel is enough
    ([has_identifier_token_spec]). *)
Fixpoint has_identifier_loop (fuel : nat) (tokens : SqlPolicyTokens) (keyword : string)
    (index : nat) : bool :=
  match fuel with
  | 0 => false
  | S fuel =>
      if is_empty (identifier_token_at tokens index) then false
      else if token_equals (identifier_token_at tokens index) keyword then true
      else has_identifier_loop fuel tokens keyword (S index)
  end.

Definition has_identifier_token (tokens : SqlPolicyTokens) (keyword : string)
    (start_index : nat) : bool :=
  has_identifier_loop (S (count tokens)) tokens keyword start_index.

(** The inner and outer loops of [token_contains_sql_mode_name]. *)
Definition sql_mode_name_at (token : bytes) (mode_name : string) (start : nat) : bool :=
  let mode_length := length (str mode_name) in
  let matches := equal_ignoring_case (take mode_length (drop start token)) (str mode_name) in
  let left_boundary :=
    (start =? 0) ||
    match token !! (start - 1) with Some c => negb (is_sql_identifier_char c) | None => true end in
  let right_boundary :=
    match token !! (start + mode_length) with
    | Some c => negb (is_sql_identifier_char c)
    | None => true
    end in
  matches && left_boundary && right_boundary.

Definition token_contains_sql_mode_name (token : bytes) (mode_name : string) : bool :=
  let mode_length := length (str mode_name) in
  if (mode_length =? 0) || (length token <? mode_length) then false
  else any_index 0 (length token - mode_length + 1) (sql_mode_name_at token mode_name).

(** ** Keyword classes *)

Definition table_reference_keyword (token : bytes) : bool :=
  token_in3 token "FROM" "JOIN" "UPDATE" || token_in4 token "INTO" "TABLE" "DESC" "DESCRIBE".

Definition is_userstat_statistics_table_token (token : bytes) : bool :=
  identifier_token_equals token "CLIENT_STATISTICS" ||
  identifier_token_equals token "INDEX_STATISTICS" ||
  identifier_token_equals token "TABLE_STATISTICS" ||
  identifier_token_equals token "USER_STATISTICS".

Definition is_server_variable_token (token : bytes) : bool :=
  token_in4 token "EVENT_SCHEDULER" "SQL_LOG_BIN" "LOG_BIN" "BINLOG_FORMAT" ||
  token_in3 token "QUERY_CACHE_SIZE" "QUERY_CACHE_TYPE" "QUERY_CACHE_LIMIT" ||
  token_in3 token "QUERY_CACHE_MIN_RES_UNIT" "QUERY_CACHE_WLOCK_INVALIDATE"
    "QUERY_CACHE_STRIP_COMMENTS" ||
  token_in3 token "GTID_BINLOG_STATE" "GTID_SLAVE_POS" "GTID_STRICT_MODE" ||
  token_in3 token "GTID_DOMAIN_ID" "GTID_SEQ_NO" "GTID_CLEANUP_BATCH_SIZE" ||
  token_in3 token "GTID_IGNORE_DUPLICATES" "GTID_POS_AUTO_ENGINES" "BINLOG_GTID_INDEX" ||
  token_in3 token "BINLOG_GTID_INDEX_PAGE_SIZE" "BINLOG_GTID_INDEX_SPAN_MIN"
    "WSREP_GTID_DOMAIN_ID" ||
  token_in2 token "WSREP_GTID_SEQ_NO" "WSREP_GTID_MODE".

Definition is_query_log_variable_token (token : bytes) : bool :=
  token_in3 token "GENERAL_LOG" "GENERAL_LOG_FILE" "LOG_OUTPUT" ||
  token_in3 token "SLOW_QUERY_LOG" "SLOW_QUERY_LOG_FILE" "LOG_SLOW_QUERY" ||
  token_in3 token "LOG_SLOW_QUERY_FILE" "SQL_LOG_OFF" "LONG_QUERY_TIME" ||
  token_in3 token "MIN_EXAMINED_ROW_LIMIT" "LOG_SLOW_MIN_EXAMINED_ROW_LIMIT"
    "LOG_SLOW_RATE_LIMIT" ||
  token_in3 token "LOG_SLOW_FILTER" "LOG_SLOW_VERBOSITY" "LOG_SLOW_DISABLED_STATEMENTS" ||
  token_in3 token "LOG_SLOW_ADMIN_STATEMENTS" "LOG_SLOW_SLAVE_STATEMENTS"
    "LOG_SLOW_MAX_WARNINGS".

Definition is_persistent_statistics_variable_token (token : bytes) : bool :=
  token_in3 token "USE_STAT_TABLES" "HISTOGRAM_SIZE" "HISTOGRAM_TYPE".

(** ** Positions in a SET statement *)

Definition first_set_assignment_token_index (tokens : SqlPolicyTokens) : nat :=
  if (2 <? count tokens) && token_equals (token_at tokens 1) "STATEMENT" &&
     negb (token_equals (token_at tokens 2) "=")
  then 2 else 1.

(** The loop of [is_system_variable_assignment_start] over
    [first_assignment <= token_index < index]: [None] is the early
    [return false], [Some depth] the parenthesis depth at the end. *)
Fixpoint assignment_start_loop (tokens : SqlPolicyTokens) (first_assignment : nat)
    (steps token_index paren_depth : nat) : option nat :=
  match steps with
  | 0 => Some paren_depth
  | S steps =>
      let token := token_at tokens token_index in
      if token_equals token "(" then
        assignment_start_loop tokens first_assignment steps (S token_index) (S paren_depth)
      else if token_equals token ")" then
        assignment_start_loop tokens first_assignment steps (S token_index)
          (if 0 <? paren_depth then paren_depth - 1 else paren_depth)
      else if (paren_depth =? 0) && (first_assignment =? 2) && token_equals token "FOR" then None
      else assignment_start_loop tokens first_assignment steps (S token_index) paren_depth
  end.

Definition is_system_variable_assignment_start (tokens : SqlPolicyTokens) (index : nat) : bool :=
  let first_assignment := first_set_assignment_token_index tokens in
  if index =? first_assignment then true
  else
    match assignment_start_loop tokens first_assignment (index - first_assignment)
            first_assignment 0 with
    | None => false
    | Some paren_depth =>
        (0 <? index) && (paren_depth =? 0) && token_equals (token_at tokens (index - 1)) ","
    end.

Definition is_system_variable_qualified_token (tokens : SqlPolicyTokens) (index : nat) : bool :=
  if (count tokens <=? index + 1) || negb (token_equals (token_at tokens (index + 1)) "=")
  then false
  else if is_system_variable_assignment_start tokens index then true
  else if token_in3 (token_at tokens (index - 1)) "GLOBAL" "SESSION" "LOCAL"
  then is_system_variable_assignment_start tokens (index - 1)
  else if (2 <=? index) && token_equals (token_at tokens (index - 1)) "@" &&
          token_equals (token_at tokens (index - 2)) "@"
  then true
  else
    (4 <=? index) && token_equals (token_at tokens (index - 1)) "." &&
    token_in3 (token_at tokens (index - 2)) "GLOBAL" "SESSION" "LOCAL" &&
    token_equals (token_at tokens (index - 3)) "@" &&
    token_equals (token_at tokens (index - 4)) "@".

Definition is_sql_mode_assignment_target (tokens : SqlPolicyTokens) (index : nat) : bool :=
  is_system_variable_qualified_token tokens index.

(** The value part of [sql_mode = ...], up to the next top-level comma. *)
Fixpoint mentions_oracle_loop (tokens : list bytes) (paren_depth : nat) : bool :=
  match tokens with
  | [] => false
  | token :: tokens =>
      if token_equals token "(" then mentions_oracle_loop tokens (S paren_depth)
      else if token_equals token ")" then
        mentions_oracle_loop tokens (if 0 <? paren_depth then paren_depth - 1 else paren_depth)
      else if (paren_depth =? 0) && token_equals token "," then false
      else if token_contains_sql_mode_name token "ORACLE" then true
      else mentions_oracle_loop tokens paren_depth
  end.

Definition sql_mode_assignment_mentions_oracle (tokens : SqlPolicyTokens) (index : nat) : bool :=
  mentions_oracle_loop (drop (index + 2) (take (count tokens) (values tokens))) 0.

(** ** Table references *)

Definition has_information_schema_table (tokens : SqlPolicyTokens) (table_name : string) : bool :=
  any_index 0 (count tokens - 2) (fun index =>
    identifier_token_equals (token_at tokens index) "INFORMATION_SCHEMA" &&
    token_equals (token_at tokens (index + 1)) "." &&
    identifier_token_equals (token_at tokens (index + 2)) table_name).

Definition has_unqualified_table_reference (tokens : SqlPolicyTokens) (table_name : string)
    : bool :=
  any_index 1 (count tokens) (fun index =>
    identifier_token_equals (token_at tokens index) table_name &&
    table_reference_keyword (token_at tokens (index - 1))).

Definition has_current_schema_table_reference (tokens : SqlPolicyTokens) (table_name : string)
    (current_schema : bytes) : bool :=
  identifier_token_equals current_schema "INFORMATION_SCHEMA" &&
  has_unqualified_table_reference tokens table_name.

Definition has_information_schema_userstat_statistics_table (tokens : SqlPolicyTokens) : bool :=
  has_information_schema_table tokens "CLIENT_STATISTICS" ||
  has_information_schema_table tokens "INDEX_STATISTICS" ||
  has_information_schema_table tokens "TABLE_STATISTICS" ||
  has_information_schema_table tokens "USER_STATISTICS".

Definition has_current_schema_userstat_statistics_table_reference (tokens : SqlPolicyTokens)
    (current_schema : bytes) : bool :=
  has_current_schema_table_reference tokens "CLIENT_STATISTICS" current_schema ||
  has_current_schema_table_reference tokens "INDEX_STATISTICS" current_schema ||
  has_current_schema_table_reference tokens "TABLE_STATISTICS" current_schema ||
  has_current_schema_table_reference tokens "USER_STATISTICS" current_schema.

(** ** Statement families *)

Definition is_unsupported_account_or_event_statement (tokens : SqlPolicyTokens) : bool :=
  let first := identifier_token_at tokens 0 in
  let second := identifier_token_at tokens 1 in
  let third := identifier_token_at tokens 2 in
  let fourth := identifier_token_at tokens 3 in
  if token_in2 first "GRANT" "REVOKE" then true
  else if token_equals first "CREATE" then
    if token_equals second "DEFINER" then has_identifier_token tokens "EVENT" 2
    else if token_equals second "OR" && token_equals third "REPLACE" then
      if token_equals fourth "DEFINER" then has_identifier_token tokens "EVENT" 4
      else token_in4 fourth "USER" "ROLE" "EVENT" "SERVER"
    else token_in4 second "USER" "ROLE" "EVENT" "SERVER"
  else if token_equals first "ALTER" then
    if token_equals second "DEFINER" then has_identifier_token tokens "EVENT" 2
    else token_in3 second "USER" "EVENT" "SERVER"
  else if token_equals first "DROP" then token_in4 second "USER" "ROLE" "EVENT" "SERVER"
  else if token_equals first "SHOW" then
    token_equals second "EVENTS" || (token_equals second "CREATE" && token_equals third "EVENT")
  else token_equals first "RENAME" && token_equals second "USER".

Definition is_unsupported_plugin_statement (tokens : SqlPolicyTokens) : bool :=
  let first := identifier_token_at tokens 0 in
  let second := identifier_token_at tokens 1 in
  (token_equals first "INSTALL" || token_equals first "UNINSTALL") &&
  token_in2 second "PLUGIN" "SONAME".

Definition is_unsupported_udf_statement (tokens : SqlPolicyTokens) : bool :=
  let first := identifier_token_at tokens 0 in
  let second := identifier_token_at tokens 1 in
  let third := identifier_token_at tokens 2 in
  if negb (token_equals first "CREATE") then false
  else
    let function_index :=
      if token_equals second "OR" && token_equals third "REPLACE" then 3 else 1 in
    let function_index :=
      if token_equals (identifier_token_at tokens function_index) "AGGREGATE"
      then S function_index else function_index in
    token_equals (identifier_token_at tokens function_index) "FUNCTION" &&
    has_identifier_token tokens "SONAME" (function_index + 1).

Definition is_unsupported_replication_statement (tokens : SqlPolicyTokens) : bool :=
  let first := identifier_token_at tokens 0 in
  let second := identifier_token_at tokens 1 in
  if token_equals first "CHANGE" && token_in2 second "MASTER" "REPLICATION" then true
  else if token_equals first "RESET" && token_equals second "MASTER" then true
  else token_in3 first "START" "STOP" "RESET" && token_in2 second "SLAVE" "REPLICA".

Definition is_unsupported_binlog_statement (tokens : SqlPolicyTokens) : bool :=
  let first := identifier_token_at tokens 0 in
  let second := identifier_token_at tokens 1 in
  let third := identifier_token_at tokens 2 in
  if token_equals first "BINLOG" then true
  else if token_equals first "SHOW" && token_equals second "BINARY"
  then token_in2 third "LOGS" "STATUS"
  else if token_equals first "SHOW" && token_equals second "BINLOG"
  then token_equals third "EVENTS"
  else if token_equals first "SHOW" && token_in3 second "MASTER" "SLAVE" "REPLICA"
  then token_equals third "STATUS"
  else if token_equals first "FLUSH" && token_equals second "BINARY"
  then token_equals third "LOGS"
  else if token_equals first "RESET" && token_equals second "MASTER" then true
  else token_equals first "PURGE" && token_in2 second "BINARY" "MASTER".

Definition is_unsupported_xa_statement (tokens : SqlPolicyTokens) : bool :=
  token_equals (identifier_token_at tokens 0) "XA".

(** A function name directly followed by an opening parenthesis, anywhere in
    the window: the loop the function-call families share. *)
Definition has_function_call (tokens : SqlPolicyTokens) (is_name : bytes -> bool) : bool :=
  any_index 0 (count tokens - 1) (fun index =>
    is_name (token_at tokens index) && token_equals (token_at tokens (index + 1)) "(").

Definition is_unsupported_replication_function_statement (tokens : SqlPolicyTokens) : bool :=
  has_function_call tokens (fun token =>
    identifier_token_equals token "MASTER_GTID_WAIT" ||
    identifier_token_equals token "MASTER_POS_WAIT" ||
    identifier_token_equals token "BINLOG_GTID_POS" ||
    identifier_token_equals token "WSREP_SYNC_WAIT_UPTO_GTID").

Definition is_unsupported_vector_sql_function_statement (tokens : SqlPolicyTokens) : bool :=
  has_function_call tokens (fun token =>
    identifier_token_equals token "VEC_DISTANCE" ||
    identifier_token_equals token "VEC_DISTANCE_COSINE" ||
    identifier_token_equals token "VEC_DISTANCE_EUCLIDEAN" ||
    identifier_token_equals token "VEC_FROMTEXT" ||
    identifier_token_equals token "VEC_TOTEXT").

Definition is_unsupported_vector_index_statement (tokens : SqlPolicyTokens) : bool :=
  any_index 0 (count tokens - 1) (fun index =>
    if negb (identifier_token_equals (token_at tokens index) "VECTOR") then false
    else if identifier_token_equals (token_at tokens (index + 1)) "KEY" ||
            identifier_token_equals (token_at tokens (index + 1)) "INDEX" then true
    else token_equals (token_at tokens (index + 1)) "(" && (0 <? index) &&
         token_in2 (token_at tokens (index - 1)) "(" ",").

Definition is_unsupported_xml_sql_function_call (tokens : SqlPolicyTokens) : bool :=
  has_function_call tokens (fun token =>
    identifier_token_equals token "EXTRACTVALUE" || identifier_token_equals token "UPDATEXML").

Definition is_unsupported_dynamic_column_function_call (tokens : SqlPolicyTokens) : bool :=
  has_function_call tokens (fun token =>
    identifier_token_equals token "COLUMN_ADD" ||
    identifier_token_equals token "COLUMN_CHECK" ||
    identifier_token_equals token "COLUMN_CREATE" ||
    identifier_token_equals token "COLUMN_DELETE" ||
    identifier_token_equals token "COLUMN_EXISTS" ||
    identifier_token_equals token "COLUMN_GET" ||
    identifier_token_equals token "COLUMN_JSON" ||
    identifier_token_equals token "COLUMN_LIST").

Definition is_unsupported_server_utility_function_statement (tokens : SqlPolicyTokens) : bool :=
  has_function_call tokens (fun token =>
    identifier_token_equals token "BENCHMARK" ||
    identifier_token_equals token "GET_LOCK" ||
    identifier_token_equals token "IS_FREE_LOCK" ||
    identifier_token_equals token "IS_USED_LOCK" ||
    identifier_token_equals token "LOAD_FILE" ||
    identifier_token_equals token "RELEASE_ALL_LOCKS" ||
    identifier_token_equals token "RELEASE_LOCK" ||
    identifier_token_equals token "SLEEP" ||
    identifier_token_equals token "UUID_SHORT").

Definition is_unsupported_sql_handler_statement (tokens : SqlPolicyTokens) : bool :=
  token_equals (identifier_token_at tokens 0) "HANDLER".

Definition is_unsupported_select_file_statement (tokens : SqlPolicyTokens) : bool :=
  if negb (token_in2 (identifier_token_at tokens 0) "SELECT" "WITH") then false
  else any_index 0 (count tokens - 1) (fun index =>
    token_equals (token_at tokens index) "INTO" &&
    token_in2 (token_at tokens (index + 1)) "OUTFILE" "DUMPFILE").

Definition is_unsupported_load_file_import_statement (tokens : SqlPolicyTokens) : bool :=
  token_equals (identifier_token_at tokens 0) "LOAD" &&
  token_in2 (identifier_token_at tokens 1) "DATA" "XML".

Definition is_unsupported_help_statement (tokens : SqlPolicyTokens) : bool :=
  token_equals (identifier_token_at tokens 0) "HELP".

Definition is_unsupported_static_show_info_statement (tokens : SqlPolicyTokens) : bool :=
  token_equals (identifier_token_at tokens 0) "SHOW" &&
  token_in3 (identifier_token_at tokens 1) "AUTHORS" "CONTRIBUTORS" "PRIVILEGES".

Definition is_unsupported_processlist_metadata_statement (tokens : SqlPolicyTokens) : bool :=
  let first := identifier_token_at tokens 0 in
  let second := identifier_token_at tokens 1 in
  let third := identifier_token_at tokens 2 in
  token_equals first "SHOW" &&
  (token_equals second "PROCESSLIST" ||
   (token_equals second "FULL" && token_equals third "PROCESSLIST")).

Definition is_unsupported_foreign_server_metadata_statement (tokens : SqlPolicyTokens) : bool :=
  let first := identifier_token_at tokens 0 in
  let second := identifier_token_at tokens 1 in
  let third := identifier_token_at tokens 2 in
  token_equals first "SHOW" && token_equals second "CREATE" && token_equals third "SERVER".

Definition is_unsupported_backup_statement (tokens : SqlPolicyTokens) : bool :=
  token_equals (identifier_token_at tokens 0) "BACKUP".

(** [token_in(second, "LOCAL", "NO_WRITE_TO_BINLOG") ? 2U : 1U] *)
Definition flush_target_index (tokens : SqlPolicyTokens) : nat :=
  if token_in2 (identifier_token_at tokens 1) "LOCAL" "NO_WRITE_TO_BINLOG" then 2 else 1.

(** The loop over a SET statement that looks for an assignment to a system
    variable [is_variable] accepts. *)
Definition sets_system_variable (tokens : SqlPolicyTokens) (is_variable : bytes -> bool) : bool :=
  any_index 1 (count tokens) (fun index =>
    is_variable (token_at tokens index) && is_system_variable_qualified_token tokens index).

Definition is_unsupported_userstat_diagnostics_statement (tokens : SqlPolicyTokens)
    (current_schema : bytes) : bool :=
  let first := identifier_token_at tokens 0 in
  if has_information_schema_userstat_statistics_table tokens ||
     has_current_schema_userstat_statistics_table_reference tokens current_schema then true
  else if token_equals first "FLUSH" then
    is_userstat_statistics_table_token (identifier_token_at tokens (flush_target_index tokens))
  else if negb (token_equals first "SET") then false
  else sets_system_variable tokens (fun token => identifier_token_equals token "USERSTAT").

Definition is_unsupported_user_variable_diagnostics_statement (tokens : SqlPolicyTokens)
    (current_schema : bytes) : bool :=
  let first := identifier_token_at tokens 0 in
  let second := identifier_token_at tokens 1 in
  if has_information_schema_table tokens "USER_VARIABLES" ||
     has_current_schema_table_reference tokens "USER_VARIABLES" current_schema then true
  else if token_equals first "SHOW" then token_equals second "USER_VARIABLES"
  else if token_equals first "FLUSH" then
    identifier_token_equals (identifier_token_at tokens (flush_target_index tokens))
      "USER_VARIABLES"
  else false.

Definition is_unsupported_statement_profiling_statement (tokens : SqlPolicyTokens)
    (current_schema : bytes) : bool :=
  let first := identifier_token_at tokens 0 in
  let second := identifier_token_at tokens 1 in
  if has_information_schema_table tokens "PROFILING" ||
     has_current_schema_table_reference tokens "PROFILING" current_schema then true
  else if token_equals first "SHOW" && token_in2 second "PROFILE" "PROFILES" then true
  else if negb (token_equals first "SET") then false
  else sets_system_variable tokens (fun token =>
    token_in2 token "PROFILING" "PROFILING_HISTORY_SIZE").

Definition is_unsupported_query_cache_statement (tokens : SqlPolicyTokens) : bool :=
  let first := identifier_token_at tokens 0 in
  let second := identifier_token_at tokens 1 in
  let third := identifier_token_at tokens 2 in
  (token_equals first "FLUSH" || token_equals first "RESET") &&
  token_equals second "QUERY" && token_equals third "CACHE".

Definition is_unsupported_query_log_statement (tokens : SqlPolicyTokens) : bool :=
  let first := identifier_token_at tokens 0 in
  if token_equals first "FLUSH" then
    let flush_target := identifier_token_at tokens (flush_target_index tokens) in
    let flush_target_tail := identifier_token_at tokens (flush_target_index tokens + 1) in
    token_equals flush_target "LOGS" ||
    (token_in2 flush_target "GENERAL" "SLOW" && token_equals flush_target_tail "LOGS")
  else if negb (token_equals first "SET") then false
  else sets_system_variable tokens is_query_log_variable_token.

Definition is_unsupported_optimizer_trace_statement (tokens : SqlPolicyTokens)
    (current_schema : bytes) : bool :=
  if has_information_schema_table tokens "OPTIMIZER_TRACE" ||
     has_current_schema_table_reference tokens "OPTIMIZER_TRACE" current_schema then true
  else if negb (token_equals (identifier_token_at tokens 0) "SET") then false
  else sets_system_variable tokens (fun token =>
    token_in2 token "OPTIMIZER_TRACE" "OPTIMIZER_TRACE_MAX_MEM_SIZE").

Definition is_unsupported_persistent_statistics_statement (tokens : SqlPolicyTokens) : bool :=
  if token_equals (identifier_token_at tokens 0) "ANALYZE" &&
     has_identifier_token tokens "PERSISTENT" 1 then true
  else if negb (token_equals (identifier_token_at tokens 0) "SET") then false
  else sets_system_variable tokens is_persistent_statistics_variable_token.

Definition is_unsupported_server_set_statement (tokens : SqlPolicyTokens) : bool :=
  if negb (token_equals (identifier_token_at tokens 0) "SET") then false
  else sets_system_variable tokens (fun token =>
    token_equals token "PASSWORD" || is_server_variable_token token).

(** ** The gate *)

Definition is_unsupported_oracle_sql_mode_statement (sql : bytes) : bool :=
  let tokens := collect_sql_policy_tokens sql in
  if negb (token_equals (identifier_token_at tokens 0) "SET") then false
  else any_index 1 (count tokens) (fun index =>
    token_equals (token_at tokens index) "SQL_MODE" &&
    is_sql_mode_assignment_target tokens index &&
    sql_mode_assignment_mentions_oracle tokens index).

Definition is_unsupported_procedure_analyse_statement (sql : bytes) : bool :=
  let tokens := collect_sql_policy_tokens sql in
  if negb (token_equals (identifier_token_at tokens 0) "SELECT") then false
  else any_index 1 (count tokens - 2) (fun index =>
    token_equals (token_at tokens index) "PROCEDURE" &&
    token_equals (token_at tokens (index + 1)) "ANALYSE" &&
    token_equals (token_at tokens (index + 2)) "(").

Definition is_unsupported_vector_runtime_statement (sql : bytes) : bool :=
  let tokens := collect_sql_policy_tokens sql in
  is_unsupported_vector_sql_function_statement tokens ||
  is_unsupported_vector_index_statement tokens.

Definition is_unsupported_xml_sql_function_statement (sql : bytes) : bool :=
  is_unsupported_xml_sql_function_call (collect_sql_policy_tokens sql).

Definition is_unsupported_dynamic_column_statement (sql : bytes) : bool :=
  is_unsupported_dynamic_column_function_call (collect_sql_policy_tokens sql).

Definition is_unsupported_server_surface_sql (sql : bytes) (current_schema : bytes) : bool :=
  let tokens := collect_sql_policy_tokens sql in
  if is_empty (identifier_token_at tokens 0) then false
  else
    is_unsupported_account_or_event_statement tokens ||
    is_unsupported_plugin_statement tokens || is_unsupported_udf_statement tokens ||
    is_unsupported_replication_statement tokens ||
    is_unsupported_binlog_statement tokens || is_unsupported_xa_statement tokens ||
    is_unsupported_replication_function_statement tokens ||
    is_unsupported_server_utility_function_statement tokens ||
    is_unsupported_sql_handler_statement tokens ||
    is_unsupported_select_file_statement tokens ||
    is_unsupported_load_file_import_statement tokens ||
    is_unsupported_help_statement tokens ||
    is_unsupported_static_show_info_statement tokens ||
    is_unsupported_processlist_metadata_statement tokens ||
    is_unsupported_foreign_server_metadata_statement tokens ||
    is_unsupported_backup_statement tokens ||
    is_unsupported_userstat_diagnostics_statement tokens current_schema ||
    is_unsupported_user_variable_diagnostics_statement tokens current_schema ||
    is_unsupported_statement_profiling_statement tokens current_schema ||
    is_unsupported_query_cache_statement tokens ||
    is_unsupported_query_log_statement tokens ||
    is_unsupported_optimizer_trace_statement tokens current_schema ||
    is_unsupported_persistent_statistics_statement tokens ||
    is_unsupported_server_set_statement tokens.

(** The result code and the handle after the call. *)
Definition reject_unsupported_sql_policy (db : mylite_db) (sql : bytes) : Z * mylite_db :=
  if is_unsupported_oracle_sql_mode_statement sql then
    (MYLITE_ERROR, set_error db MYLITE_ERROR "Oracle SQL mode is not supported by MyLite")
  else if is_unsupported_procedure_analyse_statement sql then
    (MYLITE_ERROR, set_error db MYLITE_ERROR "PROCEDURE ANALYSE is not supported by MyLite")
  else if is_unsupported_vector_runtime_statement sql then
    (MYLITE_ERROR, set_error db MYLITE_ERROR "vector SQL runtime is not supported by MyLite")
  else if is_unsupported_xml_sql_function_statement sql then
    (MYLITE_ERROR, set_error db MYLITE_ERROR "XML SQL functions are not supported by MyLite")
  else if is_unsupported_dynamic_column_statement sql then
    (MYLITE_ERROR, set_error db MYLITE_ERROR "dynamic columns are not supported by MyLite")
  else if is_unsupported_server_surface_sql sql (current_schema db) then
    (MYLITE_ERROR,
     set_error db MYLITE_ERROR "server-owned SQL surface is not supported by MyLite")
  else (MYLITE_OK, db).

Definition update_current_schema_after_successful_sql (db : mylite_db) (sql : bytes) : mylite_db :=
  let tokens := collect_sql_policy_tokens sql in
  if negb (token_equals (identifier_token_at tokens 0) "USE") || (count tokens <? 2) then db
  else with_current_schema db (unquoted_identifier_token (token_at tokens 1)).
