(* ===== verification/SqlPolicyFacts.v ===== *)
(** * Helper facts about the SQL policy gate

    Token comparison as equality up to ASCII case, the identifier tokens of a
    statement as a list, and the lemmas that carry case folding through every
    family ([*_upper]). *)

From S2P Require Import Prelude Api SqlLexer SqlLexerFacts SqlPolicy.
From stdpp Require Import options.

(** ** Token comparison *)

Lemma equal_ignoring_case_spec a c :
  length a = length c -> equal_ignoring_case a c = true <-> upper a = upper c.
Proof.
  revert c. induction a as [|x a IH]; intros [|y c] Hl; simpl in Hl; try done.
  rewrite !upper_cons. simpl. rewrite andb_true_iff, Ascii.eqb_eq, IH by lia.
  split; [by intros [-> ->]|by intros [= -> ->]].
Qed.

(** [token_equals] is equality up to the case of ASCII letters. *)
Lemma token_equals_spec token keyword :
  token_equals token keyword = true <-> upper token = upper (str keyword).
Proof.
  unfold token_equals. rewrite andb_true_iff, Nat.eqb_eq. split.
  - intros [Hl He]. by apply equal_ignoring_case_spec.
  - intros He. assert (length token = length (str keyword)) as Hl.
    { rewrite <-(upper_length token), He. apply upper_length. }
    split; [done|]. by apply equal_ignoring_case_spec.
Qed.

Lemma to_upper_idemp c : to_upper (to_upper c) = to_upper c.
Proof. by_ascii c. Qed.

Lemma upper_idemp s : upper (upper s) = upper s.
Proof. induction s as [|c s IH]; [done|]. by rewrite !upper_cons, to_upper_idemp, IH. Qed.

Lemma upper_app a c : upper (a ++ c) = upper a ++ upper c.
Proof. apply fmap_app. Qed.

Create Rewrite HintDb case_folding.

Lemma token_equals_upper token keyword :
  token_equals (upper token) keyword = token_equals token keyword.
Proof. apply eq_iff_eq_true. by rewrite !token_equals_spec, upper_idemp. Qed.
#[export] Hint Rewrite token_equals_upper upper_length : case_folding.

Lemma token_in2_upper t a c : token_in2 (upper t) a c = token_in2 t a c.
Proof. unfold token_in2. by autorewrite with case_folding. Qed.
Lemma token_in3_upper t a c d : token_in3 (upper t) a c d = token_in3 t a c d.
Proof. unfold token_in3. by autorewrite with case_folding. Qed.
Lemma token_in4_upper t a c d e : token_in4 (upper t) a c d e = token_in4 t a c d e.
Proof. unfold token_in4. by autorewrite with case_folding. Qed.
#[export] Hint Rewrite token_in2_upper token_in3_upper token_in4_upper : case_folding.

Lemma unquoted_identifier_token_upper t :
  unquoted_identifier_token (upper t) = upper (unquoted_identifier_token t).
Proof.
  unfold unquoted_identifier_token. rewrite upper_length, !char_is_upper by done.
  by case_match; rewrite ?upper_drop, ?upper_take.
Qed.
#[export] Hint Rewrite unquoted_identifier_token_upper : case_folding.

Lemma identifier_token_equals_upper t k :
  identifier_token_equals (upper t) k = identifier_token_equals t k.
Proof. unfold identifier_token_equals. by autorewrite with case_folding. Qed.
#[export] Hint Rewrite identifier_token_equals_upper : case_folding.

Lemma is_sql_identifier_token_upper t :
  is_sql_identifier_token (upper t) = is_sql_identifier_token t.
Proof. destruct t as [|c t]; [done|]. apply is_sql_identifier_char_upper. Qed.

Lemma is_empty_upper t : is_empty (upper t) = is_empty t.
Proof. by destruct t. Qed.
#[export] Hint Rewrite is_sql_identifier_token_upper is_empty_upper : case_folding.

Lemma equal_ignoring_case_upper a c : equal_ignoring_case (upper a) c = equal_ignoring_case a c.
Proof.
  revert c. induction a as [|x a IH]; intros [|y c]; rewrite ?upper_cons; try done. simpl.
  by rewrite to_upper_idemp, IH.
Qed.

Lemma any_index_ext lo hi f g :
  (forall i, lo <= i < hi -> f i = g i) -> any_index lo hi f = any_index lo hi g.
Proof.
  intros H. unfold any_index.
  assert (forall i, i ∈ seq lo (hi - lo) -> f i = g i) as Hs.
  { intros i Hi. apply elem_of_seq in Hi. apply H. lia. }
  revert Hs. generalize (seq lo (hi - lo)) as l. clear H.
  induction l as [|i l IH]; intros Hs; [done|]. simpl.
  rewrite (Hs i) by (left). f_equal. apply IH. intros j Hj. apply Hs. by right.
Qed.

Lemma any_index_true lo hi f :
  any_index lo hi f = true <-> exists i, lo <= i < hi /\ f i = true.
Proof.
  unfold any_index. rewrite existsb_exists. setoid_rewrite in_seq.
  split; intros (i & ? & ?); exists i; (split; [lia|done]).
Qed.

Lemma sql_mode_name_at_upper t m i :
  sql_mode_name_at (upper t) m i = sql_mode_name_at t m i.
Proof.
  unfold sql_mode_name_at. cbv zeta.
  rewrite upper_drop, upper_take, equal_ignoring_case_upper, !upper_lookup.
  destruct (t !! (i - 1)), (t !! (i + _)); simpl; by rewrite ?is_sql_identifier_char_upper.
Qed.

Lemma token_contains_sql_mode_name_upper t m :
  token_contains_sql_mode_name (upper t) m = token_contains_sql_mode_name t m.
Proof.
  unfold token_contains_sql_mode_name. cbv zeta. rewrite upper_length.
  case_match; [done|]. apply any_index_ext. intros. apply sql_mode_name_at_upper.
Qed.
#[export] Hint Rewrite token_contains_sql_mode_name_upper : case_folding.

(** ** Identifier tokens *)

(** The stored tokens, and those of them that start like an identifier. *)
Definition stored (tokens : SqlPolicyTokens) : list bytes := take (count tokens) (values tokens).

Definition identifiers (tokens : SqlPolicyTokens) : list bytes :=
  List.filter is_sql_identifier_token (stored tokens).

Lemma identifier_token_loop_spec l i index :
  i <= index ->
  identifier_token_loop l i index = nth (index - i) (List.filter is_sql_identifier_token l) [].
Proof.
  revert i. induction l as [|t l IH]; intros i Hi; simpl; [by destruct (index - i)|].
  destruct (is_sql_identifier_token t); simpl; [|by apply IH].
  destruct (Nat.eqb_spec i index) as [->|]; [by rewrite Nat.sub_diag|].
  rewrite IH by lia. replace (index - i) with (S (index - S i)) by lia. done.
Qed.

Lemma identifier_token_at_spec tokens index :
  identifier_token_at tokens index = nth index (identifiers tokens) [].
Proof. unfold identifier_token_at. rewrite identifier_token_loop_spec by lia. by rewrite Nat.sub_0_r. Qed.

Lemma identifiers_length tokens : length (identifiers tokens) <= count tokens.
Proof.
  unfold identifiers, stored. etrans; [apply List.filter_length_le|].
  rewrite length_take. lia.
Qed.

Lemma identifiers_nonempty tokens t : In t (identifiers tokens) -> t <> [].
Proof. intros [_ H]%filter_In. by destruct t. Qed.

(** [has_identifier_token] looks at every identifier from [start_index] on. *)
Lemma has_identifier_token_spec tokens keyword start :
  has_identifier_token tokens keyword start =
  existsb (fun t => token_equals t keyword) (drop start (identifiers tokens)).
Proof.
  unfold has_identifier_token.
  assert (length (identifiers tokens) <= start + S (count tokens)) as Hf
    by (pose proof (identifiers_length tokens); lia).
  revert start Hf. generalize (S (count tokens)) as fuel.
  induction fuel as [|fuel IH]; intros start Hf; simpl.
  { rewrite drop_ge by lia. done. }
  rewrite identifier_token_at_spec.
  destruct (decide (start < length (identifiers tokens))) as [Hlt|Hge].
  - destruct (lookup_lt_is_Some_2 _ _ Hlt) as [t Ht].
    rewrite (nth_lookup_Some _ _ _ _ Ht).
    assert (t <> []) as Hne.
    { eapply (identifiers_nonempty tokens), list_elem_of_In, list_elem_of_lookup; eauto. }
    erewrite drop_S by done. simpl. rewrite IH by lia.
    destruct t; [done|]. simpl. by destruct (token_equals _ _).
  - rewrite nth_overflow, drop_ge by lia. done.
Qed.

(** ** Case folding through the families *)

Definition upper_tokens (tokens : SqlPolicyTokens) : SqlPolicyTokens :=
  mkSqlPolicyTokens (upper <$> values tokens) (count tokens).

Lemma collect_sql_policy_tokens_upper sql :
  collect_sql_policy_tokens (upper sql) = upper_tokens (collect_sql_policy_tokens sql).
Proof.
  rewrite !collect_sql_policy_tokens_lex, lex_upper. unfold upper_tokens. cbn [values count].
  rewrite <-fmap_take, fmap_app, fmap_replicate, length_fmap. done.
Qed.

Lemma count_upper tokens : count (upper_tokens tokens) = count tokens.
Proof. done. Qed.

Lemma token_at_upper tokens index : token_at (upper_tokens tokens) index = upper (token_at tokens index).
Proof.
  unfold token_at, upper_tokens. cbn [values]. rewrite <-(map_nth upper). done.
Qed.

Lemma stored_upper tokens : stored (upper_tokens tokens) = upper <$> stored tokens.
Proof. unfold stored, upper_tokens. cbn [values count]. by rewrite fmap_take. Qed.

Lemma identifiers_upper tokens : identifiers (upper_tokens tokens) = upper <$> identifiers tokens.
Proof.
  unfold identifiers. rewrite stored_upper. induction (stored tokens) as [|t l IH]; [done|].
  simpl. rewrite is_sql_identifier_token_upper. destruct (is_sql_identifier_token t);
    [|done]. simpl. by f_equal.
Qed.

Lemma identifier_token_at_upper tokens index :
  identifier_token_at (upper_tokens tokens) index = upper (identifier_token_at tokens index).
Proof. rewrite !identifier_token_at_spec, identifiers_upper. apply (map_nth upper _ []). Qed.

Lemma has_identifier_token_upper tokens k i :
  has_identifier_token (upper_tokens tokens) k i = has_identifier_token tokens k i.
Proof.
  rewrite !has_identifier_token_spec, identifiers_upper, <-fmap_drop.
  induction (drop i (identifiers tokens)) as [|t l IH]; [done|].
  rewrite fmap_cons. cbn [existsb]. by rewrite token_equals_upper, IH.
Qed.
#[export] Hint Rewrite collect_sql_policy_tokens_upper count_upper token_at_upper
  identifier_token_at_upper has_identifier_token_upper : case_folding.

Lemma assignment_start_loop_upper tokens f steps i d :
  assignment_start_loop (upper_tokens tokens) f steps i d = assignment_start_loop tokens f steps i d.
Proof.
  revert i d. induction steps as [|steps IH]; intros i d; [done|]. simpl.
  autorewrite with case_folding. by rewrite !IH.
Qed.

Lemma first_set_assignment_token_index_upper tokens :
  first_set_assignment_token_index (upper_tokens tokens) = first_set_assignment_token_index tokens.
Proof. unfold first_set_assignment_token_index. by autorewrite with case_folding. Qed.
#[export] Hint Rewrite assignment_start_loop_upper first_set_assignment_token_index_upper
  : case_folding.

Lemma is_system_variable_assignment_start_upper tokens i :
  is_system_variable_assignment_start (upper_tokens tokens) i =
  is_system_variable_assignment_start tokens i.
Proof.
  unfold is_system_variable_assignment_start. cbv zeta. by autorewrite with case_folding.
Qed.
#[export] Hint Rewrite is_system_variable_assignment_start_upper : case_folding.

Lemma is_system_variable_qualified_token_upper tokens i :
  is_system_variable_qualified_token (upper_tokens tokens) i =
  is_system_variable_qualified_token tokens i.
Proof. unfold is_system_variable_qualified_token. by autorewrite with case_folding. Qed.
#[export] Hint Rewrite is_system_variable_qualified_token_upper : case_folding.

Lemma mentions_oracle_loop_upper l d :
  mentions_oracle_loop (upper <$> l) d = mentions_oracle_loop l d.
Proof.
  revert d. induction l as [|t l IH]; intros d; [done|].
  rewrite fmap_cons. cbn [mentions_oracle_loop]. autorewrite with case_folding. by rewrite !IH.
Qed.

Lemma sql_mode_assignment_mentions_oracle_upper tokens i :
  sql_mode_assignment_mentions_oracle (upper_tokens tokens) i =
  sql_mode_assignment_mentions_oracle tokens i.
Proof.
  unfold sql_mode_assignment_mentions_oracle.
  change (take (count (upper_tokens tokens)) (values (upper_tokens tokens)))
    with (stored (upper_tokens tokens)).
  by rewrite stored_upper, <-fmap_drop, mentions_oracle_loop_upper.
Qed.
#[export] Hint Rewrite sql_mode_assignment_mentions_oracle_upper : case_folding.

Lemma has_information_schema_table_upper tokens n :
  has_information_schema_table (upper_tokens tokens) n = has_information_schema_table tokens n.
Proof. apply any_index_ext. intros. by autorewrite with case_folding. Qed.

Lemma table_reference_keyword_upper t : table_reference_keyword (upper t) = table_reference_keyword t.
Proof. unfold table_reference_keyword. by autorewrite with case_folding. Qed.
#[export] Hint Rewrite has_information_schema_table_upper table_reference_keyword_upper
  : case_folding.

Lemma has_unqualified_table_reference_upper tokens n :
  has_unqualified_table_reference (upper_tokens tokens) n =
  has_unqualified_table_reference tokens n.
Proof. apply any_index_ext. intros. by autorewrite with case_folding. Qed.
#[export] Hint Rewrite has_unqualified_table_reference_upper : case_folding.

Lemma has_current_schema_table_reference_upper tokens n s :
  has_current_schema_table_reference (upper_tokens tokens) n (upper s) =
  has_current_schema_table_reference tokens n s.
Proof. unfold has_current_schema_table_reference. by autorewrite with case_folding. Qed.
#[export] Hint Rewrite has_current_schema_table_reference_upper : case_folding.

Lemma userstat_table_upper tokens s :
  has_information_schema_userstat_statistics_table (upper_tokens tokens) =
  has_information_schema_userstat_statistics_table tokens /\
  has_current_schema_userstat_statistics_table_reference (upper_tokens tokens) (upper s) =
  has_current_schema_userstat_statistics_table_reference tokens s.
Proof.
  unfold has_information_schema_userstat_statistics_table,
    has_current_schema_userstat_statistics_table_reference.
  by autorewrite with case_folding.
Qed.
#[export] Hint Rewrite (fun t => proj1 (userstat_table_upper t []))
  (fun t s => proj2 (userstat_table_upper t s)) : case_folding.

Lemma is_variable_token_upper t :
  is_server_variable_token (upper t) = is_server_variable_token t /\
  is_query_log_variable_token (upper t) = is_query_log_variable_token t /\
  is_persistent_statistics_variable_token (upper t) = is_persistent_statistics_variable_token t /\
  is_userstat_statistics_table_token (upper t) = is_userstat_statistics_table_token t.
Proof.
  unfold is_server_variable_token, is_query_log_variable_token,
    is_persistent_statistics_variable_token, is_userstat_statistics_table_token.
  by autorewrite with case_folding.
Qed.
#[export] Hint Rewrite (fun t => proj1 (is_variable_token_upper t))
  (fun t => proj1 (proj2 (is_variable_token_upper t)))
  (fun t => proj1 (proj2 (proj2 (is_variable_token_upper t))))
  (fun t => proj2 (proj2 (proj2 (is_variable_token_upper t)))) : case_folding.

Lemma sets_system_variable_upper tokens p :
  (forall t, p (upper t) = p t) ->
  sets_system_variable (upper_tokens tokens) p = sets_system_variable tokens p.
Proof.
  intros Hp. apply any_index_ext. intros. autorewrite with case_folding. by rewrite Hp.
Qed.

Lemma has_function_call_upper tokens p :
  (forall t, p (upper t) = p t) ->
  has_function_call (upper_tokens tokens) p = has_function_call tokens p.
Proof.
  intros Hp. apply any_index_ext. intros. autorewrite with case_folding. by rewrite Hp.
Qed.

Lemma flush_target_index_upper tokens :
  flush_target_index (upper_tokens tokens) = flush_target_index tokens.
Proof. unfold flush_target_index. by autorewrite with case_folding. Qed.
#[export] Hint Rewrite flush_target_index_upper : case_folding.

(** Case folding of one family: unfold it, fold the loops, rewrite. *)
Ltac family_case :=
  intros; cbv zeta; autorewrite with case_folding;
  rewrite ?sets_system_variable_upper, ?has_function_call_upper
    by (intros; by autorewrite with case_folding);
  first [ done | by repeat case_match | repeat case_match; try done; apply any_index_ext;
          intros; by autorewrite with case_folding ].
