(* ===== verification/SqlPolicyCase.v ===== *)
(** * The SQL policy gate does not depend on letter case *)

From S2P Require Import Prelude Api SqlLexer SqlLexerFacts SqlPolicy SqlPolicyFacts.
From stdpp Require Import options.

Lemma is_unsupported_account_or_event_statement_upper tokens :
  is_unsupported_account_or_event_statement (upper_tokens tokens) = is_unsupported_account_or_event_statement tokens.
Proof. unfold is_unsupported_account_or_event_statement. family_case. Qed.
#[export] Hint Rewrite is_unsupported_account_or_event_statement_upper : case_folding.

Lemma is_unsupported_plugin_statement_upper tokens :
  is_unsupported_plugin_statement (upper_tokens tokens) = is_unsupported_plugin_statement tokens.
Proof. unfold is_unsupported_plugin_statement. family_case. Qed.
#[export] Hint Rewrite is_unsupported_plugin_statement_upper : case_folding.

Lemma is_unsupported_udf_statement_upper tokens :
  is_unsupported_udf_statement (upper_tokens tokens) = is_unsupported_udf_statement tokens.
Proof. unfold is_unsupported_udf_statement. family_case. Qed.
#[export] Hint Rewrite is_unsupported_udf_statement_upper : case_folding.

Lemma is_unsupported_replication_statement_upper tokens :
  is_unsupported_replication_statement (upper_tokens tokens) = is_unsupported_replication_statement tokens.
Proof. unfold is_unsupported_replication_statement. family_case. Qed.
#[export] Hint Rewrite is_unsupported_replication_statement_upper : case_folding.

Lemma is_unsupported_binlog_statement_upper tokens :
  is_unsupported_binlog_statement (upper_tokens tokens) = is_unsupported_binlog_statement tokens.
Proof. unfold is_unsupported_binlog_statement. family_case. Qed.
#[export] Hint Rewrite is_unsupported_binlog_statement_upper : case_folding.

Lemma is_unsupported_xa_statement_upper tokens :
  is_unsupported_xa_statement (upper_tokens tokens) = is_unsupported_xa_statement tokens.
Proof. unfold is_unsupported_xa_statement. family_case. Qed.
#[export] Hint Rewrite is_unsupported_xa_statement_upper : case_folding.

Lemma is_unsupported_replication_function_statement_upper tokens :
  is_unsupported_replication_function_statement (upper_tokens tokens) = is_unsupported_replication_function_statement tokens.
Proof. unfold is_unsupported_replication_function_statement. family_case. Qed.
#[export] Hint Rewrite is_unsupported_replication_function_statement_upper : case_folding.

Lemma is_unsupported_vector_sql_function_statement_upper tokens :
  is_unsupported_vector_sql_function_statement (upper_tokens tokens) = is_unsupported_vector_sql_function_statement tokens.
Proof. unfold is_unsupported_vector_sql_function_statement. family_case. Qed.
#[export] Hint Rewrite is_unsupported_vector_sql_function_statement_upper : case_folding.

Lemma is_unsupported_vector_index_statement_upper tokens :
  is_unsupported_vector_index_statement (upper_tokens tokens) = is_unsupported_vector_index_statement tokens.
Proof. unfold is_unsupported_vector_index_statement. family_case. Qed.
#[export] Hint Rewrite is_unsupported_vector_index_statement_upper : case_folding.

Lemma is_unsupported_xml_sql_function_call_upper tokens :
  is_unsupported_xml_sql_function_call (upper_tokens tokens) = is_unsupported_xml_sql_function_call tokens.
Proof. unfold is_unsupported_xml_sql_function_call. family_case. Qed.
#[export] Hint Rewrite is_unsupported_xml_sql_function_call_upper : case_folding.

Lemma is_unsupported_dynamic_column_function_call_upper tokens :
  is_unsupported_dynamic_column_function_call (upper_tokens tokens) = is_unsupported_dynamic_column_function_call tokens.
Proof. unfold is_unsupported_dynamic_column_function_call. family_case. Qed.
#[export] Hint Rewrite is_unsupported_dynamic_column_function_call_upper : case_folding.

Lemma is_unsupported_server_utility_function_statement_upper tokens :
  is_unsupported_server_utility_function_statement (upper_tokens tokens) = is_unsupported_server_utility_function_statement tokens.
Proof. unfold is_unsupported_server_utility_function_statement. family_case. Qed.
#[export] Hint Rewrite is_unsupported_server_utility_function_statement_upper : case_folding.

Lemma is_unsupported_sql_handler_statement_upper tokens :
  is_unsupported_sql_handler_statement (upper_tokens tokens) = is_unsupported_sql_handler_statement tokens.
Proof. unfold is_unsupported_sql_handler_statement. family_case. Qed.
#[export] Hint Rewrite is_unsupported_sql_handler_statement_upper : case_folding.

Lemma is_unsupported_select_file_statement_upper tokens :
  is_unsupported_select_file_statement (upper_tokens tokens) = is_unsupported_select_file_statement tokens.
Proof. unfold is_unsupported_select_file_statement. family_case. Qed.
#[export] Hint Rewrite is_unsupported_select_file_statement_upper : case_folding.

Lemma is_unsupported_load_file_import_statement_upper tokens :
  is_unsupported_load_file_import_statement (upper_tokens tokens) = is_unsupported_load_file_import_statement tokens.
Proof. unfold is_unsupported_load_file_import_statement. family_case. Qed.
#[export] Hint Rewrite is_unsupported_load_file_import_statement_upper : case_folding.

Lemma is_unsupported_help_statement_upper tokens :
  is_unsupported_help_statement (upper_tokens tokens) = is_unsupported_help_statement tokens.
Proof. unfold is_unsupported_help_statement. family_case. Qed.
#[export] Hint Rewrite is_unsupported_help_statement_upper : case_folding.

Lemma is_unsupported_static_show_info_statement_upper tokens :
  is_unsupported_static_show_info_statement (upper_tokens tokens) = is_unsupported_static_show_info_statement tokens.
Proof. unfold is_unsupported_static_show_info_statement. family_case. Qed.
#[export] Hint Rewrite is_unsupported_static_show_info_statement_upper : case_folding.

Lemma is_unsupported_processlist_metadata_statement_upper tokens :
  is_unsupported_processlist_metadata_statement (upper_tokens tokens) = is_unsupported_processlist_metadata_statement tokens.
Proof. unfold is_unsupported_processlist_metadata_statement. family_case. Qed.
#[export] Hint Rewrite is_unsupported_processlist_metadata_statement_upper : case_folding.

Lemma is_unsupported_foreign_server_metadata_statement_upper tokens :
  is_unsupported_foreign_server_metadata_statement (upper_tokens tokens) = is_unsupported_foreign_server_metadata_statement tokens.
Proof. unfold is_unsupported_foreign_server_metadata_statement. family_case. Qed.
#[export] Hint Rewrite is_unsupported_foreign_server_metadata_statement_upper : case_folding.

Lemma is_unsupported_backup_statement_upper tokens :
  is_unsupported_backup_statement (upper_tokens tokens) = is_unsupported_backup_statement tokens.
Proof. unfold is_unsupported_backup_statement. family_case. Qed.
#[export] Hint Rewrite is_unsupported_backup_statement_upper : case_folding.

Lemma is_unsupported_userstat_diagnostics_statement_upper tokens s :
  is_unsupported_userstat_diagnostics_statement (upper_tokens tokens) (upper s) = is_unsupported_userstat_diagnostics_statement tokens s.
Proof. unfold is_unsupported_userstat_diagnostics_statement. family_case. Qed.
#[export] Hint Rewrite is_unsupported_userstat_diagnostics_statement_upper : case_folding.

Lemma is_unsupported_user_variable_diagnostics_statement_upper tokens s :
  is_unsupported_user_variable_diagnostics_statement (upper_tokens tokens) (upper s) = is_unsupported_user_variable_diagnostics_statement tokens s.
Proof. unfold is_unsupported_user_variable_diagnostics_statement. family_case. Qed.
#[export] Hint Rewrite is_unsupported_user_variable_diagnostics_statement_upper : case_folding.

Lemma is_unsupported_statement_profiling_statement_upper tokens s :
  is_unsupported_statement_profiling_statement (upper_tokens tokens) (upper s) = is_unsupported_statement_profiling_statement tokens s.
Proof. unfold is_unsupported_statement_profiling_statement. family_case. Qed.
#[export] Hint Rewrite is_unsupported_statement_profiling_statement_upper : case_folding.

Lemma is_unsupported_query_cache_statement_upper tokens :
  is_unsupported_query_cache_statement (upper_tokens tokens) = is_unsupported_query_cache_statement tokens.
Proof. unfold is_unsupported_query_cache_statement. family_case. Qed.
#[export] Hint Rewrite is_unsupported_query_cache_statement_upper : case_folding.

Lemma is_unsupported_query_log_statement_upper tokens :
  is_unsupported_query_log_statement (upper_tokens tokens) = is_unsupported_query_log_statement tokens.
Proof. unfold is_unsupported_query_log_statement. family_case. Qed.
#[export] Hint Rewrite is_unsupported_query_log_statement_upper : case_folding.

Lemma is_unsupported_optimizer_trace_statement_upper tokens s :
  is_unsupported_optimizer_trace_statement (upper_tokens tokens) (upper s) = is_unsupported_optimizer_trace_statement tokens s.
Proof. unfold is_unsupported_optimizer_trace_statement. family_case. Qed.
#[export] Hint Rewrite is_unsupported_optimizer_trace_statement_upper : case_folding.

Lemma is_unsupported_persistent_statistics_statement_upper tokens :
  is_unsupported_persistent_statistics_statement (upper_tokens tokens) = is_unsupported_persistent_statistics_statement tokens.
Proof. unfold is_unsupported_persistent_statistics_statement. family_case. Qed.
#[export] Hint Rewrite is_unsupported_persistent_statistics_statement_upper : case_folding.

Lemma is_unsupported_server_set_statement_upper tokens :
  is_unsupported_server_set_statement (upper_tokens tokens) = is_unsupported_server_set_statement tokens.
Proof. unfold is_unsupported_server_set_statement. family_case. Qed.
#[export] Hint Rewrite is_unsupported_server_set_statement_upper : case_folding.

Lemma is_unsupported_oracle_sql_mode_statement_upper sql :
  is_unsupported_oracle_sql_mode_statement (upper sql) =
  is_unsupported_oracle_sql_mode_statement sql.
Proof.
  unfold is_unsupported_oracle_sql_mode_statement, is_sql_mode_assignment_target. family_case.
Qed.

Lemma is_unsupported_procedure_analyse_statement_upper sql :
  is_unsupported_procedure_analyse_statement (upper sql) =
  is_unsupported_procedure_analyse_statement sql.
Proof. unfold is_unsupported_procedure_analyse_statement. family_case. Qed.

Lemma is_unsupported_vector_runtime_statement_upper sql :
  is_unsupported_vector_runtime_statement (upper sql) =
  is_unsupported_vector_runtime_statement sql.
Proof. unfold is_unsupported_vector_runtime_statement. family_case. Qed.

Lemma is_unsupported_xml_sql_function_statement_upper sql :
  is_unsupported_xml_sql_function_statement (upper sql) =
  is_unsupported_xml_sql_function_statement sql.
Proof. unfold is_unsupported_xml_sql_function_statement. family_case. Qed.

Lemma is_unsupported_dynamic_column_statement_upper sql :
  is_unsupported_dynamic_column_statement (upper sql) =
  is_unsupported_dynamic_column_statement sql.
Proof. unfold is_unsupported_dynamic_column_statement. family_case. Qed.

Lemma is_unsupported_server_surface_sql_upper sql s :
  is_unsupported_server_surface_sql (upper sql) (upper s) =
  is_unsupported_server_surface_sql sql s.
Proof. unfold is_unsupported_server_surface_sql. family_case. Qed.
#[export] Hint Rewrite is_unsupported_oracle_sql_mode_statement_upper
  is_unsupported_procedure_analyse_statement_upper is_unsupported_vector_runtime_statement_upper
  is_unsupported_xml_sql_function_statement_upper is_unsupported_dynamic_column_statement_upper
  is_unsupported_server_surface_sql_upper : case_folding.
