(* ===== verification/SqlPolicyTheorems.v ===== *)
(** * What the SQL policy gate guarantees

    The gate depends on the first 32 tokens only, ignores letter case and
    anything a gap (spaces, comments, the opening of an executable comment)
    can put in front of a statement, and refuses its statement families
    whatever follows the deciding tokens. *)

From S2P Require Import Prelude Api SqlLexer SqlLexerFacts SqlPolicy SqlPolicyFacts SqlPolicyCase.
From stdpp Require Import options.

(** ** Gaps *)

(** [body] does not contain the end of a block comment, also not together
    with the end marker that follows it. *)
Definition no_comment_end (body : bytes) : Prop :=
  count_to_comment_end (body ++ str "*/") = length body.

(** [body] does not make [/*body] an executable comment. *)
Definition plain_comment_body (body : bytes) : Prop :=
  enter_executable_sql_comment (str "/*" ++ body ++ str "*/") 0 = None.

(** What the tokenizer passes over between two tokens, as text. *)
Inductive sql_gap : bytes -> Prop :=
| gap_nil : sql_gap []
| gap_space c g : is_sql_space c = true -> sql_gap g -> sql_gap (c :: g)
| gap_hash body g :
    forallb not_newline body = true -> sql_gap g ->
    sql_gap (str "#" ++ body ++ char_newline :: g)
| gap_dash body g :
    forallb not_newline body = true -> sql_gap g ->
    sql_gap (str "--" ++ body ++ char_newline :: g)
| gap_block body g :
    no_comment_end body -> plain_comment_body body -> sql_gap g ->
    sql_gap (str "/*" ++ body ++ str "*/" ++ g)
| gap_executable digits c g :
    forallb is_sql_digit digits = true -> is_sql_space c = true -> sql_gap g ->
    sql_gap (str "/*!" ++ digits ++ c :: g)
| gap_executable_mariadb digits c g :
    forallb is_sql_digit digits = true -> is_sql_space c = true -> sql_gap g ->
    sql_gap (str "/*M!" ++ digits ++ c :: g).

Lemma space_not_digit c : is_sql_space c = true -> is_sql_digit c = false.
Proof. by_ascii c. Qed.

(** A comment function refuses another first character. *)
Lemma comment_refused s offset :
  (char_is s offset "/" = false -> enter_executable_sql_comment s offset = None) /\
  (char_is s offset "-" = false -> skip_dash_sql_comment s offset = None).
Proof.
  unfold enter_executable_sql_comment, skip_dash_sql_comment.
  split; intros ->; by rewrite ?andb_false_r, ?orb_true_r.
Qed.

(** The line comments stop in front of their newline. *)
Lemma lex_hash_comment body s :
  forallb not_newline body = true -> lex (str "#" ++ body ++ char_newline :: s) = lex s.
Proof.
  intros Hb. rewrite app_assoc, (lex_comment (str "#" ++ body)); [by rewrite lex_space|].
  unfold comment_at. rewrite !(proj1 (comment_refused _ _)), !(proj2 (comment_refused _ _)) by done.
  unfold skip_hash_sql_comment, skip_while, str. simpl.
  by rewrite drop_0, count_while_all by (done || by intros ? [= <-]).
Qed.

Lemma lex_dash_comment body s :
  forallb not_newline body = true -> lex (str "--" ++ body ++ char_newline :: s) = lex s.
Proof.
  intros Hb. rewrite app_assoc, (lex_comment (str "--" ++ body)); [by rewrite lex_space|].
  unfold comment_at. rewrite !(proj1 (comment_refused _ _)) by done.
  unfold skip_dash_sql_comment, skip_while, str. simpl.
  by rewrite drop_0, count_while_all by (done || by intros ? [= <-]).
Qed.

Lemma lex_executable_comment digits c s :
  forallb is_sql_digit digits = true -> is_sql_space c = true ->
  lex (str "/*!" ++ digits ++ c :: s) = lex s.
Proof.
  intros Hd Hc. rewrite app_assoc, (lex_comment (str "/*!" ++ digits)); [by rewrite lex_space|].
  unfold comment_at, enter_executable_sql_comment, skip_while, str. rewrite <-app_assoc. simpl.
  by rewrite drop_0, count_while_all by (done || by intros ? [= <-]; apply space_not_digit).
Qed.

Lemma lex_executable_mariadb_comment digits c s :
  forallb is_sql_digit digits = true -> is_sql_space c = true ->
  lex (str "/*M!" ++ digits ++ c :: s) = lex s.
Proof.
  intros Hd Hc. rewrite app_assoc, (lex_comment (str "/*M!" ++ digits)); [by rewrite lex_space|].
  unfold comment_at, enter_executable_sql_comment, skip_while, str. rewrite <-app_assoc. simpl.
  rewrite drop_0, count_while_all by (done || by intros ? [= <-]; apply space_not_digit).
  done.
Qed.

Lemma count_to_comment_end_app body s :
  no_comment_end body -> count_to_comment_end (body ++ str "*/" ++ s) = length body.
Proof.
  unfold no_comment_end, str. induction body as [|c body IH]; [done|]. simpl in *.
  destruct body as [|d body]; simpl in *.
  - destruct (_ || _); [|done]. intros _. by destruct s.
  - destruct (_ || _); [|done]. intros [= H]. f_equal. by apply IH.
Qed.

(** Text appended after a complete comment does not make it executable. *)
Lemma plain_comment_body_app body s :
  plain_comment_body body ->
  enter_executable_sql_comment (str "/*" ++ body ++ str "*/" ++ s) 0 = None.
Proof.
  unfold plain_comment_body, enter_executable_sql_comment, char_is, str.
  destruct body as [|c [|d body]]; simpl; try done. by repeat case_match.
Qed.

Lemma lex_block_comment body s :
  no_comment_end body -> plain_comment_body body ->
  lex (str "/*" ++ body ++ str "*/" ++ s) = lex s.
Proof.
  intros Hn Hp. rewrite !app_assoc, (lex_comment _ s); [done|].
  unfold comment_at. rewrite <-!app_assoc, plain_comment_body_app by done.
  rewrite (proj2 (comment_refused _ _)) by done.
  unfold skip_hash_sql_comment, skip_block_sql_comment, str. simpl.
  change (drop 0 (body ++ "*" :: "/" :: s)%char) with (body ++ str "*/" ++ s).
  rewrite count_to_comment_end_app by done.
  rewrite (proj2 (Nat.ltb_lt _ _)) by (rewrite length_app; simpl; lia).
  rewrite length_app. simpl. apply f_equal. lia.
Qed.

Lemma lex_gap g s : sql_gap g -> lex (g ++ s) = lex s.
Proof.
  induction 1 as [|c g Hc _ IH|body g Hb _ IH|body g Hb _ IH|body g Hn Hp _ IH
    |digits c g Hd Hc _ IH|digits c g Hd Hc _ IH]; rewrite <-?app_assoc; simpl; [done|..];
    rewrite <-IH.
  - by apply lex_space.
  - by apply (lex_hash_comment body (g ++ s)).
  - by apply (lex_dash_comment body (g ++ s)).
  - by apply (lex_block_comment body (g ++ s)).
  - by apply (lex_executable_comment digits c (g ++ s)).
  - by apply (lex_executable_mariadb_comment digits c (g ++ s)).
Qed.

(** The gate as a function of the stored tokens. *)
Lemma reject_unsupported_sql_policy_tokens db sql1 sql2 :
  collect_sql_policy_tokens sql1 = collect_sql_policy_tokens sql2 ->
  reject_unsupported_sql_policy db sql1 = reject_unsupported_sql_policy db sql2.
Proof.
  intros H. unfold reject_unsupported_sql_policy, is_unsupported_oracle_sql_mode_statement,
    is_unsupported_procedure_analyse_statement, is_unsupported_vector_runtime_statement,
    is_unsupported_xml_sql_function_statement, is_unsupported_dynamic_column_statement,
    is_unsupported_server_surface_sql.
  by rewrite H.
Qed.

(** ** Outcomes of the gate *)

Definition rejected (db : mylite_db) (sql : bytes) : Prop :=
  fst (reject_unsupported_sql_policy db sql) = MYLITE_ERROR.

Lemma rejected_spec db sql :
  rejected db sql <->
  is_unsupported_oracle_sql_mode_statement sql = true \/
  is_unsupported_procedure_analyse_statement sql = true \/
  is_unsupported_vector_runtime_statement sql = true \/
  is_unsupported_xml_sql_function_statement sql = true \/
  is_unsupported_dynamic_column_statement sql = true \/
  is_unsupported_server_surface_sql sql (current_schema db) = true.
Proof.
  unfold rejected, reject_unsupported_sql_policy.
  repeat case_match; simpl; split; intros; destruct_or?; try done; auto 10.
Qed.

Lemma rejected_surface db sql :
  is_unsupported_server_surface_sql sql (current_schema db) = true -> rejected db sql.
Proof. intros. apply rejected_spec. auto 10. Qed.

(** ** Statements spelled with given keywords *)

Definition starts_no_identifier (s : bytes) : Prop :=
  forall c, head s = Some c -> is_sql_identifier_char c = false.

(** [text] is the keywords in any letter case, each after a gap, then [rest]. *)
Inductive spells : list string -> bytes -> bytes -> Prop :=
| spells_nil rest : spells [] rest rest
| spells_cons g w kw kws rest text :
    sql_gap g -> upper w = upper (str kw) -> starts_no_identifier text ->
    spells kws rest text -> spells (kw :: kws) rest (g ++ w ++ text).

Definition identifier_word (kw : string) : bool :=
  negb (is_empty (str kw)) && forallb is_sql_identifier_char (str kw).

Lemma forallb_upper w :
  forallb is_sql_identifier_char (upper w) = forallb is_sql_identifier_char w.
Proof.
  induction w as [|c w IH]; [done|]. rewrite upper_cons. simpl.
  by rewrite is_sql_identifier_char_upper, IH.
Qed.

Lemma identifier_word_upper w kw :
  identifier_word kw = true -> upper w = upper (str kw) ->
  w <> [] /\ forallb is_sql_identifier_char w = true /\ is_sql_identifier_token w = true.
Proof.
  unfold identifier_word. intros [Hn Hi]%andb_prop Hw.
  rewrite <-forallb_upper, Hw, forallb_upper, Hi.
  assert (is_sql_identifier_token w = is_sql_identifier_token (str kw)) as ->.
  { by rewrite <-is_sql_identifier_token_upper, Hw, is_sql_identifier_token_upper. }
  destruct (str kw) as [|c s] eqn:E; [done|]. simpl in *. apply andb_prop in Hi as [-> _].
  split_and!; try done. by intros ->.
Qed.

Lemma spells_lex kws rest text :
  forallb identifier_word kws = true -> spells kws rest text ->
  exists ws, lex text = ws ++ lex rest /\ upper <$> ws = (fun kw => upper (str kw)) <$> kws /\
    forallb is_sql_identifier_token ws = true.
Proof.
  intros Hk Hs. induction Hs as [rest|g w kw kws rest text Hg Hw Ht Hs IH]; [by exists []|].
  simpl in Hk. apply andb_prop in Hk as [Hkw Hk]. destruct (IH Hk) as (ws & Hl & Hu & Hi).
  destruct (identifier_word_upper w kw Hkw Hw) as (Hne & Hall & Hit).
  exists (w :: ws). rewrite lex_gap, lex_identifier, Hl by done.
  rewrite !fmap_cons. simpl. rewrite Hit, Hi. split_and!; try done. by rewrite Hw, Hu.
Qed.

(** The first identifiers the gate sees are the keywords, in upper case. *)
Lemma spells_identifiers kws rest text i kw :
  forallb identifier_word kws = true -> spells kws rest text ->
  length kws <= k_sql_policy_token_count -> kws !! i = Some kw ->
  identifier_token_at (upper_tokens (collect_sql_policy_tokens text)) i = upper (str kw).
Proof.
  intros Hk Hs Hlen Hi. destruct (spells_lex _ _ _ Hk Hs) as (ws & Hl & Hu & Hid).
  assert (length ws = length kws) as Hws.
  { apply (f_equal length) in Hu. by rewrite !length_fmap in Hu. }
  rewrite identifier_token_at_upper, identifier_token_at_spec.
  unfold identifiers, stored. rewrite collected_tokens, Hl, take_app_ge by lia.
  rewrite List.filter_app.
  assert (List.filter is_sql_identifier_token ws = ws) as ->.
  { clear -Hid. induction ws as [|w ws IH]; [done|]. simpl in *.
    apply andb_prop in Hid as [-> Hid]. by rewrite IH. }
  assert (exists w, ws !! i = Some w /\ upper w = upper (str kw)) as (w & Hw & <-).
  { assert ((upper <$> ws) !! i = Some (upper (str kw))) as H
      by (rewrite Hu, list_lookup_fmap, Hi; done).
    rewrite list_lookup_fmap in H. destruct (ws !! i) as [w|]; simplify_eq/=; eauto. }
  rewrite (nth_lookup_Some _ _ _ w); [done|]. by apply lookup_app_l_Some.
Qed.

(** The statement families that are decided by their leading keywords. *)

Definition account_families : list (list string) :=
  [ ["GRANT"]; ["REVOKE"]; ["CREATE"; "USER"]; ["CREATE"; "ROLE"]; ["CREATE"; "EVENT"];
    ["CREATE"; "SERVER"]; ["CREATE"; "OR"; "REPLACE"; "USER"]; ["CREATE"; "OR"; "REPLACE";
    "ROLE"]; ["CREATE"; "OR"; "REPLACE"; "EVENT"]; ["CREATE"; "OR"; "REPLACE"; "SERVER"];
    ["ALTER"; "USER"]; ["ALTER"; "EVENT"]; ["ALTER"; "SERVER"]; ["DROP"; "USER"]; ["DROP";
    "ROLE"]; ["DROP"; "EVENT"]; ["DROP"; "SERVER"]; ["RENAME"; "USER"]; ["SHOW";
    "EVENTS"]; ["SHOW"; "CREATE"; "EVENT"] ]%string.

Definition plugin_families : list (list string) :=
  [ ["INSTALL"; "PLUGIN"]; ["INSTALL"; "SONAME"]; ["UNINSTALL"; "PLUGIN"]; ["UNINSTALL";
    "SONAME"] ]%string.

Definition replication_families : list (list string) :=
  [ ["CHANGE"; "MASTER"]; ["CHANGE"; "REPLICATION"]; ["RESET"; "MASTER"]; ["START";
    "SLAVE"]; ["STOP"; "SLAVE"]; ["RESET"; "SLAVE"]; ["START"; "REPLICA"]; ["STOP";
    "REPLICA"]; ["RESET"; "REPLICA"] ]%string.

Definition binlog_families : list (list string) :=
  [ ["BINLOG"]; ["SHOW"; "BINARY"; "LOGS"]; ["SHOW"; "BINARY"; "STATUS"]; ["SHOW";
    "BINLOG"; "EVENTS"]; ["SHOW"; "MASTER"; "STATUS"]; ["SHOW"; "SLAVE"; "STATUS"];
    ["SHOW"; "REPLICA"; "STATUS"]; ["FLUSH"; "BINARY"; "LOGS"]; ["PURGE"; "BINARY"];
    ["PURGE"; "MASTER"] ]%string.

Definition query_log_families : list (list string) :=
  [ ["FLUSH"; "LOGS"]; ["FLUSH"; "GENERAL"; "LOGS"]; ["FLUSH"; "SLOW"; "LOGS"]; ["FLUSH";
    "LOCAL"; "LOGS"]; ["FLUSH"; "NO_WRITE_TO_BINLOG"; "LOGS"] ]%string.

Definition query_cache_families : list (list string) :=
  [ ["FLUSH"; "QUERY"; "CACHE"]; ["RESET"; "QUERY"; "CACHE"] ]%string.

Definition user_variable_families : list (list string) :=
  [ ["SHOW"; "USER_VARIABLES"]; ["FLUSH"; "USER_VARIABLES"]; ["FLUSH"; "LOCAL";
    "USER_VARIABLES"]; ["FLUSH"; "NO_WRITE_TO_BINLOG"; "USER_VARIABLES"] ]%string.

Definition userstat_families : list (list string) :=
  [ ["FLUSH"; "CLIENT_STATISTICS"]; ["FLUSH"; "INDEX_STATISTICS"]; ["FLUSH";
    "TABLE_STATISTICS"]; ["FLUSH"; "USER_STATISTICS"] ]%string.

Definition profiling_families : list (list string) :=
  [ ["SHOW"; "PROFILE"]; ["SHOW"; "PROFILES"] ]%string.

Definition show_info_families : list (list string) :=
  [ ["SHOW"; "AUTHORS"]; ["SHOW"; "CONTRIBUTORS"]; ["SHOW"; "PRIVILEGES"] ]%string.

Definition processlist_families : list (list string) :=
  [ ["SHOW"; "PROCESSLIST"]; ["SHOW"; "FULL"; "PROCESSLIST"] ]%string.

Definition foreign_server_families : list (list string) :=
  [ ["SHOW"; "CREATE"; "SERVER"] ]%string.

Definition import_families : list (list string) :=
  [ ["LOAD"; "DATA"]; ["LOAD"; "XML"] ]%string.

Definition xa_families : list (list string) :=
  [ ["XA"] ]%string.

Definition handler_families : list (list string) :=
  [ ["HANDLER"] ]%string.

Definition help_families : list (list string) :=
  [ ["HELP"] ]%string.

Definition backup_families : list (list string) :=
  [ ["BACKUP"] ]%string.

Definition command_families : list (list string) :=
  account_families ++ plugin_families ++ replication_families ++ binlog_families ++
  query_log_families ++ query_cache_families ++ user_variable_families ++
  userstat_families ++ profiling_families ++ show_info_families ++ processlist_families ++
  foreign_server_families ++ import_families ++ xa_families ++ handler_families ++
  help_families ++ backup_families.

Lemma command_families_words :
  forallb (fun kws => forallb identifier_word kws && (length kws <=? 4) && negb (length kws =? 0))
    command_families = true.
Proof. vm_compute. reflexivity. Qed.

(** The identifiers of [tokens] start with the keywords. *)
Definition led_by (tokens : SqlPolicyTokens) (kws : list string) : Prop :=
  forall i kw, kws !! i = Some kw -> identifier_token_at tokens i = upper (str kw).

(** Evaluates the comparisons of keywords with keywords in the goal. *)
Ltac eval_keywords :=
  repeat match goal with
  | |- context [?f (upper (str ?a)) ?k] =>
      let e := constr:(f (upper (str a)) k) in
      let v := eval vm_compute in e in
      lazymatch v with true => idtac | false => idtac end;
      change e with v
  end.

(** Replaces the leading identifiers by the keywords [H] says they are. *)
Ltac use_keywords H :=
  try rewrite (H 0 _ eq_refl); try rewrite (H 1 _ eq_refl);
  try rewrite (H 2 _ eq_refl); try rewrite (H 3 _ eq_refl);
  eval_keywords; cbn [andb orb negb Nat.add].

(** A family decided by the keywords: one goal per spelling. *)
Ltac by_keywords :=
  repeat apply List.Forall_cons; try apply List.Forall_nil;
  intros tokens schema H; cbv beta delta [flush_target_index token_in2 token_in3 token_in4
    is_userstat_statistics_table_token] zeta;
  do 2 use_keywords H; first [ exact eq_refl | by repeat case_match ].

Lemma account_families_refused :
  Forall (fun kws => forall tokens (schema : bytes), led_by tokens kws ->
    is_unsupported_account_or_event_statement tokens = true) account_families.
Proof. unfold account_families, is_unsupported_account_or_event_statement. by_keywords. Qed.

Lemma plugin_families_refused :
  Forall (fun kws => forall tokens (schema : bytes), led_by tokens kws ->
    is_unsupported_plugin_statement tokens = true) plugin_families.
Proof. unfold plugin_families, is_unsupported_plugin_statement. by_keywords. Qed.

Lemma replication_families_refused :
  Forall (fun kws => forall tokens (schema : bytes), led_by tokens kws ->
    is_unsupported_replication_statement tokens = true) replication_families.
Proof. unfold replication_families, is_unsupported_replication_statement. by_keywords. Qed.

Lemma binlog_families_refused :
  Forall (fun kws => forall tokens (schema : bytes), led_by tokens kws ->
    is_unsupported_binlog_statement tokens = true) binlog_families.
Proof. unfold binlog_families, is_unsupported_binlog_statement. by_keywords. Qed.

Lemma query_log_families_refused :
  Forall (fun kws => forall tokens (schema : bytes), led_by tokens kws ->
    is_unsupported_query_log_statement tokens = true) query_log_families.
Proof. unfold query_log_families, is_unsupported_query_log_statement. by_keywords. Qed.

Lemma query_cache_families_refused :
  Forall (fun kws => forall tokens (schema : bytes), led_by tokens kws ->
    is_unsupported_query_cache_statement tokens = true) query_cache_families.
Proof. unfold query_cache_families, is_unsupported_query_cache_statement. by_keywords. Qed.

Lemma user_variable_families_refused :
  Forall (fun kws => forall tokens (schema : bytes), led_by tokens kws ->
    is_unsupported_user_variable_diagnostics_statement tokens schema = true) user_variable_families.
Proof. unfold user_variable_families, is_unsupported_user_variable_diagnostics_statement. by_keywords. Qed.

Lemma userstat_families_refused :
  Forall (fun kws => forall tokens (schema : bytes), led_by tokens kws ->
    is_unsupported_userstat_diagnostics_statement tokens schema = true) userstat_families.
Proof. unfold userstat_families, is_unsupported_userstat_diagnostics_statement. by_keywords. Qed.

Lemma profiling_families_refused :
  Forall (fun kws => forall tokens (schema : bytes), led_by tokens kws ->
    is_unsupported_statement_profiling_statement tokens schema = true) profiling_families.
Proof. unfold profiling_families, is_unsupported_statement_profiling_statement. by_keywords. Qed.

Lemma show_info_families_refused :
  Forall (fun kws => forall tokens (schema : bytes), led_by tokens kws ->
    is_unsupported_static_show_info_statement tokens = true) show_info_families.
Proof. unfold show_info_families, is_unsupported_static_show_info_statement. by_keywords. Qed.

Lemma processlist_families_refused :
  Forall (fun kws => forall tokens (schema : bytes), led_by tokens kws ->
    is_unsupported_processlist_metadata_statement tokens = true) processlist_families.
Proof. unfold processlist_families, is_unsupported_processlist_metadata_statement. by_keywords. Qed.

Lemma foreign_server_families_refused :
  Forall (fun kws => forall tokens (schema : bytes), led_by tokens kws ->
    is_unsupported_foreign_server_metadata_statement tokens = true) foreign_server_families.
Proof. unfold foreign_server_families, is_unsupported_foreign_server_metadata_statement. by_keywords. Qed.

Lemma import_families_refused :
  Forall (fun kws => forall tokens (schema : bytes), led_by tokens kws ->
    is_unsupported_load_file_import_statement tokens = true) import_families.
Proof. unfold import_families, is_unsupported_load_file_import_statement. by_keywords. Qed.

Lemma xa_families_refused :
  Forall (fun kws => forall tokens (schema : bytes), led_by tokens kws ->
    is_unsupported_xa_statement tokens = true) xa_families.
Proof. unfold xa_families, is_unsupported_xa_statement. by_keywords. Qed.

Lemma handler_families_refused :
  Forall (fun kws => forall tokens (schema : bytes), led_by tokens kws ->
    is_unsupported_sql_handler_statement tokens = true) handler_families.
Proof. unfold handler_families, is_unsupported_sql_handler_statement. by_keywords. Qed.

Lemma help_families_refused :
  Forall (fun kws => forall tokens (schema : bytes), led_by tokens kws ->
    is_unsupported_help_statement tokens = true) help_families.
Proof. unfold help_families, is_unsupported_help_statement. by_keywords. Qed.

Lemma backup_families_refused :
  Forall (fun kws => forall tokens (schema : bytes), led_by tokens kws ->
    is_unsupported_backup_statement tokens = true) backup_families.
Proof. unfold backup_families, is_unsupported_backup_statement. by_keywords. Qed.

(** A statement led by the keywords of a family is part of the refused surface. *)
Lemma command_families_refused kws sql schema :
  In kws command_families -> led_by (upper_tokens (collect_sql_policy_tokens sql)) kws ->
  is_unsupported_server_surface_sql sql schema = true.
Proof.
  intros Hin Hled.
  assert (is_empty (identifier_token_at (collect_sql_policy_tokens sql) 0) = false) as Hne.
  { pose proof command_families_words as Hw. rewrite forallb_forall in Hw.
    specialize (Hw _ Hin). apply andb_prop in Hw as [Hw _]. apply andb_prop in Hw as [Hw _].
    destruct kws as [|kw kws]; [by vm_compute in Hin; destruct_or! Hin|].
    simpl in Hw. apply andb_prop in Hw as [Hw _]. unfold identifier_word in Hw.
    apply andb_prop in Hw as [Hw _].
    rewrite <-is_empty_upper, <-identifier_token_at_upper, (Hled 0 kw eq_refl), is_empty_upper.
    by apply negb_true_iff in Hw. }
  rewrite <-is_unsupported_server_surface_sql_upper. unfold is_unsupported_server_surface_sql.
  rewrite collect_sql_policy_tokens_upper, identifier_token_at_upper, is_empty_upper, Hne.
  unfold command_families in Hin. rewrite !in_app_iff in Hin. rewrite !orb_true_iff.
  pose proof account_families_refused as F1. pose proof plugin_families_refused as F2.
  pose proof replication_families_refused as F3. pose proof binlog_families_refused as F4.
  pose proof query_log_families_refused as F5. pose proof query_cache_families_refused as F6.
  pose proof user_variable_families_refused as F7. pose proof userstat_families_refused as F8.
  pose proof profiling_families_refused as F9. pose proof show_info_families_refused as F10.
  pose proof processlist_families_refused as F11.
  pose proof foreign_server_families_refused as F12. pose proof import_families_refused as F13.
  pose proof xa_families_refused as F14. pose proof handler_families_refused as F15.
  pose proof help_families_refused as F16. pose proof backup_families_refused as F17.
  rewrite List.Forall_forall in *.
  destruct_or! Hin;
    match goal with
    | F : forall x, In x ?l -> _, I : In kws ?l |- _ =>
        pose proof (F kws I _ (upper schema) Hled) as Hyes; clear -Hyes; tauto
    end.
Qed.

(** ** Properties *)

(** The gate decides on the first 32 tokens: two statements whose token
    streams start with the same 32 tokens get the same answer and leave the
    handle in the same state. *)
Theorem policy_gate_window db sql1 sql2 :
  take k_sql_policy_token_count (lex sql1) = take k_sql_policy_token_count (lex sql2) ->
  reject_unsupported_sql_policy db sql1 = reject_unsupported_sql_policy db sql2.
Proof.
  intros H. apply reject_unsupported_sql_policy_tokens.
  by rewrite !collect_sql_policy_tokens_lex, H.
Qed.

Lemma policy_gate_window_witness :
  reject_unsupported_sql_policy (new_db []) (str "GRANT  ALL") =
  reject_unsupported_sql_policy (new_db []) (str "GRANT/**/ALL").
Proof. apply (policy_gate_window (new_db [])). vm_compute. reflexivity. Defined.

(** C28: the gate ignores the case of ASCII letters anywhere in the
    statement: executable-comment markers, keywords, quoted and unquoted names. *)
Theorem policy_gate_ignores_case db sql1 sql2 :
  upper sql1 = upper sql2 ->
  reject_unsupported_sql_policy db sql1 = reject_unsupported_sql_policy db sql2.
Proof.
  intros H.
  assert (forall sql, reject_unsupported_sql_policy db sql =
                      reject_unsupported_sql_policy db (upper sql)) as Hu.
  { intros sql. unfold reject_unsupported_sql_policy.
    rewrite <-(is_unsupported_server_surface_sql_upper sql (current_schema db)),
      <-(is_unsupported_server_surface_sql_upper (upper sql) (current_schema db)), upper_idemp.
    by autorewrite with case_folding. }
  by rewrite Hu, H, <-Hu.
Qed.

Lemma policy_gate_ignores_case_witness :
  reject_unsupported_sql_policy (new_db []) (str "set Sql_Mode='oracle'") =
  reject_unsupported_sql_policy (new_db []) (str "SET sql_mode='ORACLE'").
Proof. apply (policy_gate_ignores_case (new_db [])). vm_compute. reflexivity. Defined.

(** C29: whatever gap of spaces, line comments, block comments and openings of
    executable comments stands in front of a statement, the gate answers as
    without it. *)
Theorem policy_gate_ignores_gaps db g sql :
  sql_gap g ->
  reject_unsupported_sql_policy db (g ++ sql) = reject_unsupported_sql_policy db sql.
Proof.
  intros H. apply reject_unsupported_sql_policy_tokens.
  by rewrite !collect_sql_policy_tokens_lex, lex_gap.
Qed.

Lemma policy_gate_ignores_gaps_witness :
  reject_unsupported_sql_policy (new_db []) ((str "/*!50003 " ++ str "/*x*/" ++ str " ") ++ str "GRANT") =
  reject_unsupported_sql_policy (new_db []) (str "GRANT").
Proof.
  apply (policy_gate_ignores_gaps (new_db [])).
  apply (gap_executable (str "50003") " " (str "/*x*/" ++ str " ")); [reflexivity..|].
  apply (gap_block (str "x") (str " ")); [reflexivity..|].
  apply (gap_space " " []); [reflexivity|constructor].
Defined.

(** C27: a statement that spells the leading keywords of a refused family, in
    any letter case and with any gaps before and between the keywords, is
    refused whatever follows and whatever schema is current. *)
Theorem command_family_rejected db kws rest text :
  In kws command_families -> spells kws rest text ->
  fst (reject_unsupported_sql_policy db text) = MYLITE_ERROR.
Proof.
  intros Hin Hs. apply rejected_surface, (command_families_refused kws); [done|].
  pose proof command_families_words as Hw. rewrite forallb_forall in Hw.
  specialize (Hw _ Hin). apply andb_prop in Hw as [Hw _]. apply andb_prop in Hw as [Hw Hl].
  apply Nat.leb_le in Hl. intros i kw Hi.
  eapply spells_identifiers; eauto. unfold k_sql_policy_token_count. lia.
Qed.

Lemma command_family_rejected_witness :
  fst (reject_unsupported_sql_policy (new_db [])
         (str "/**/" ++ str "Drop" ++ (str " -- c" ++ char_newline :: []) ++ str "uSER" ++ str " x")) =
  MYLITE_ERROR.
Proof.
  apply (command_family_rejected (new_db []) ["DROP"; "USER"]%string (str " x")).
  - vm_compute. tauto.
  - apply (spells_cons (str "/**/") (str "Drop") "DROP").
    + apply (gap_block [] []); [reflexivity..|constructor].
    + reflexivity.
    + intros c [= <-]. reflexivity.
    + apply (spells_cons (str " -- c" ++ char_newline :: []) (str "uSER") "USER").
      * apply (gap_space " " (str "--" ++ str " c" ++ char_newline :: [])); [reflexivity|].
        apply (gap_dash (str " c") []); [reflexivity|constructor].
      * reflexivity.
      * intros c [= <-]. reflexivity.
      * constructor.
Defined.

(** The gate has two outcomes: it answers [MYLITE_OK] and leaves the
    handle as it was, or it answers [MYLITE_ERROR] and changes only the
    diagnostics, to a MyLite error (SQLSTATE HY000, no MariaDB errno) whose
    message ends in "supported by MyLite". *)
Theorem policy_gate_outcome db sql :
  let '(code, db') := reject_unsupported_sql_policy db sql in
  (code = MYLITE_OK /\ db' = db) \/
  (code = MYLITE_ERROR /\ errcode db' = MYLITE_ERROR /\ extended_errcode db' = MYLITE_ERROR /\
   mariadb_errno db' = 0%Z /\ sqlstate db' = k_sqlstate_general /\
   suffix (str "supported by MyLite") (errmsg db') /\
   set_ok db' = set_ok db).
Proof.
  unfold reject_unsupported_sql_policy.
  repeat case_match; simplify_eq; [right..|left; done];
    (split_and!; [done..| |done]); cbn [errmsg set_error set_diag].
  - by exists (str "Oracle SQL mode is not ").
  - by exists (str "PROCEDURE ANALYSE is not ").
  - by exists (str "vector SQL runtime is not ").
  - by exists (str "XML SQL functions are not ").
  - by exists (str "dynamic columns are not ").
  - by exists (str "server-owned SQL surface is not ").
Qed.

