(* ===== verification/System.v ===== *)
(** * The operating system the runtime calls: files, locks, clocks

    What [database.cc] uses of [std::filesystem], [std::ifstream],
    [std::ofstream], [open], [flock], [close] and [std::chrono].  The file
    tree is a finite map from locations (the names on the way from the root)
    to nodes; there are no symbolic links and no other process writes to the
    tree.  What the environment decides is taken from lists: whether a call
    fails for a reason outside the tree ([faults]), what [flock] answers when
    another process may hold the lock ([flock_answers]), and how far the
    clocks advance ([ticks]).  A list that has run out answers [Works],
    [Locked] and 0.  Theorems quantify over these lists. *)

From S2P Require Import Prelude Effects.
From stdpp Require Import pretty.
From stdpp Require Import options.

(** ** The file tree *)

Inductive node : Set :=
| Dir
| File (contents : bytes).

#[global] Instance node_eq_dec : EqDecision node.
Proof. solve_decision. Defined.

Abbreviation location := (list bytes).
Abbreviation filesystem := (gmap location node).

(** A call works, or fails; a failing [remove_all] leaves the entries [keep]
    selects, and the directories above them. *)
Inductive fault : Type :=
| Works
| Fails (keep : location -> bool).

Inductive flock_answer : Set :=
| Locked
| WouldBlock
| FlockError.

(** An open file: where it is, and whether this process locked it through
    this descriptor. *)
Record open_file : Set := mkOpenFile {
  file_location : location;
  locked : bool;
}.

Record system : Type := mkSystem {
  files : filesystem;
  faults : list fault;
  working_directory : bytes;
  temporary_directory : bytes;
  descriptors : gmap Z open_file;
  flock_answers : list flock_answer;
  clock : Z;
  ticks : list N;
}.

Definition set_files (f : filesystem) (s : system) : system :=
  mkSystem f (faults s) (working_directory s) (temporary_directory s) (descriptors s)
    (flock_answers s) (clock s) (ticks s).
Definition set_faults (f : list fault) (s : system) : system :=
  mkSystem (files s) f (working_directory s) (temporary_directory s) (descriptors s)
    (flock_answers s) (clock s) (ticks s).
Definition set_descriptors (d : gmap Z open_file) (s : system) : system :=
  mkSystem (files s) (faults s) (working_directory s) (temporary_directory s) d
    (flock_answers s) (clock s) (ticks s).
Definition set_flock_answers (a : list flock_answer) (s : system) : system :=
  mkSystem (files s) (faults s) (working_directory s) (temporary_directory s) (descriptors s)
    a (clock s) (ticks s).
Definition set_clock (now : Z) (ts : list N) (s : system) : system :=
  mkSystem (files s) (faults s) (working_directory s) (temporary_directory s) (descriptors s)
    (flock_answers s) now ts.

(** ** Paths *)

(** [path / name] for a relative [name]: a separator is added unless the path
    is empty or ends with one. *)
Definition path_append (path : bytes) (name : bytes) : bytes :=
  match last path with
  | None => name
  | Some c => if Ascii.eqb c "/" then path ++ name else path ++ "/"%char :: name
  end.

Definition is_absolute (path : bytes) : bool :=
  match path with c :: _ => Ascii.eqb c "/" | [] => false end.

(** The names between the separators; empty names come from doubled,
    leading and trailing separators. *)
Fixpoint split_path (path : bytes) : list bytes :=
  match path with
  | [] => [[]]
  | c :: path =>
      if Ascii.eqb c "/" then [] :: split_path path
      else match split_path path with
           | name :: names => (c :: name) :: names
           | [] => [[c]]
           end
  end.

Definition enter (dir : location) (name : bytes) : location :=
  if decide (name = [] \/ name = str ".") then dir
  else if decide (name = str "..") then take (length dir - 1) dir
  else dir ++ [name].

(** Path resolution: every name is looked up in a directory. *)
Fixpoint walk (fs : filesystem) (dir : location) (names : list bytes) : option location :=
  match names with
  | [] => Some dir
  | name :: names =>
      match fs !! dir with
      | Some Dir => walk fs (enter dir name) names
      | _ => None
      end
  end.

Definition path_names (s : system) (path : bytes) : list bytes :=
  if is_absolute path then split_path path
  else split_path (working_directory s) ++ split_path path.

Definition resolve (s : system) (path : bytes) : option location :=
  walk (files s) [] (path_names s path).

(** ** Calls *)

Definition take_fault : cmd system fault := fun s =>
  match faults s with
  | [] => (Ret Works, s)
  | f :: fs => (Ret f, set_faults fs s)
  end.

Inductive file_type : Set :=
| ft_none
| ft_not_found
| ft_regular
| ft_directory.

#[global] Instance file_type_eq_dec : EqDecision file_type.
Proof. solve_decision. Defined.

Definition type_of_path (s : system) (path : bytes) : file_type :=
  match resolve s path with
  | None => ft_not_found
  | Some loc =>
      match files s !! loc with
      | None => ft_not_found
      | Some Dir => ft_directory
      | Some (File _) => ft_regular
      end
  end.

(** [std::filesystem::status(path, error)]: the type, and whether [error] is
    set, which it also is when the file is not found. *)
Definition fs_status (path : bytes) : cmd system (file_type * bool) :=
  f ← take_fault;
  match f with
  | Fails _ => mret (ft_none, true)
  | Works =>
      t ← gets (fun s => type_of_path s path);
      mret (t, bool_decide (t = ft_not_found))
  end.

(** The [error_code] overloads, each with the value of [error] after the call:
    [exists] clears it when the status is known. *)
Definition fs_exists (path : bytes) : cmd system (bool * bool) :=
  '(t, error) ← fs_status path;
  mret (if decide (t = ft_none) then (false, error)
        else (negb (bool_decide (t = ft_not_found)), false)).

Definition fs_is_directory (path : bytes) : cmd system (bool * bool) :=
  '(t, error) ← fs_status path; mret (bool_decide (t = ft_directory), error).

Definition fs_is_regular_file (path : bytes) : cmd system (bool * bool) :=
  '(t, error) ← fs_status path; mret (bool_decide (t = ft_regular), error).

(** The missing directories of a path, from the top; the result is [error]. *)
Fixpoint make_directories (dir : location) (names : list bytes) : cmd system bool :=
  match names with
  | [] => mret false
  | name :: names =>
      here ← gets (fun s => files s !! dir);
      match here with
      | Some Dir =>
          next ← gets (fun s => files s !! enter dir name);
          match next with
          | Some Dir => make_directories (enter dir name) names
          | Some (File _) => mret true
          | None =>
              f ← take_fault;
              match f with
              | Fails _ => mret true
              | Works =>
                  modify (fun s => set_files (<[enter dir name := Dir]> (files s)) s) ;;
                  make_directories (enter dir name) names
              end
          end
      | _ => mret true
      end
  end.

(** [std::filesystem::create_directories(path, error)]: the value of [error]. *)
Definition fs_create_directories (path : bytes) : cmd system bool :=
  '(t, _) ← fs_status path;
  match t with
  | ft_directory => mret false
  | ft_none | ft_regular => mret true
  | ft_not_found =>
      names ← gets (fun s => path_names s path);
      make_directories [] names
  end.

(** [std::filesystem::create_directory(path, error)]: whether the directory is
    new, and [error]; an existing directory is no error. *)
Definition fs_create_directory (path : bytes) : cmd system (bool * bool) :=
  f ← take_fault;
  match f with
  | Fails _ => mret (false, true)
  | Works =>
      loc ← gets (fun s => resolve s path);
      match loc with
      | None => mret (false, true)
      | Some loc =>
          here ← gets (fun s => files s !! loc);
          match here with
          | Some Dir => mret (false, false)
          | Some (File _) => mret (false, true)
          | None => modify (fun s => set_files (<[loc := Dir]> (files s)) s) ;; mret (true, false)
          end
      end
  end.

(** What is left of [fs] when the tree at [loc] is removed except for the
    entries [keep] selects and the directories above them. *)
Definition is_kept (fs : filesystem) (keep : location -> bool) (loc : location) : bool :=
  existsb (fun entry => bool_decide (loc `prefix_of` entry.1) && keep entry.1) (map_to_list fs).

Definition without_tree (fs : filesystem) (loc : location) (keep : location -> bool)
    : filesystem :=
  filter (fun entry => ~ loc `prefix_of` entry.1 \/ is_kept fs keep entry.1 = true) fs.

(** [std::filesystem::remove_all(path, ignored)] *)
Definition fs_remove_all (path : bytes) : cmd system unit :=
  f ← take_fault;
  let keep := match f with Works => fun _ => false | Fails keep => keep end in
  loc ← gets (fun s => resolve s path);
  match loc with
  | None => mret tt
  | Some loc => modify (fun s => set_files (without_tree (files s) loc keep) s)
  end.

(** The names in a directory. *)
Definition child_name (dir : location) (loc : location) : option bytes :=
  if decide (take (length dir) loc = dir)
  then match drop (length dir) loc with [name] => Some name | _ => None end
  else None.

Definition children (fs : filesystem) (dir : location) : list bytes :=
  omap (fun entry => child_name dir entry.1) (map_to_list fs).

(** [std::filesystem::directory_iterator entry(path, error)]: the names it
    will yield, or [None] with [error] set. *)
Definition fs_directory_iterator (path : bytes) : cmd system (option (list bytes)) :=
  f ← take_fault;
  match f with
  | Fails _ => mret None
  | Works =>
      gets (fun s =>
        match resolve s path with
        | Some loc =>
            match files s !! loc with Some Dir => Some (children (files s) loc) | _ => None end
        | None => None
        end)
  end.

(** [entry.increment(error)]: whether it sets [error]. *)
Definition fs_increment : cmd system bool :=
  f ← take_fault; mret (match f with Works => false | Fails _ => true end).

(** Opening a stream for reading and reading it to the end. *)
Inductive read_result : Set :=
| CannotOpen
| ReadError
| Contents (b : bytes).

Definition fs_read_file (path : bytes) : cmd system read_result :=
  f ← take_fault;
  match f with
  | Fails _ => mret CannotOpen
  | Works =>
      here ← gets (fun s => loc ← resolve s path; files s !! loc);
      match here with
      | None => mret CannotOpen
      | Some Dir => mret ReadError
      | Some (File contents) =>
          f ← take_fault;
          mret (match f with Works => Contents contents | Fails _ => ReadError end)
      end
  end.

(** [std::ofstream(path, trunc)]: whether the stream is open. *)
Definition fs_create_file (path : bytes) : cmd system bool :=
  f ← take_fault;
  match f with
  | Fails _ => mret false
  | Works =>
      loc ← gets (fun s => resolve s path);
      match loc with
      | None => mret false
      | Some loc =>
          here ← gets (fun s => files s !! loc);
          match here with
          | Some Dir => mret false
          | _ => modify (fun s => set_files (<[loc := File []]> (files s)) s) ;; mret true
          end
      end
  end.

(** The destructor of an [std::ofstream] writes the buffered bytes out and
    has no way to report that this failed. *)
Definition fs_close_file (path : bytes) (buffered : bytes) : cmd system unit :=
  f ← take_fault;
  match f with
  | Fails _ => mret tt
  | Works =>
      modify (fun s =>
        match resolve s path with
        | Some loc => set_files (<[loc := File buffered]> (files s)) s
        | None => s
        end)
  end.

(** [std::filesystem::absolute(path)] *)
Definition fs_absolute (path : bytes) : cmd system bytes :=
  if is_absolute path then mret path
  else
    f ← take_fault;
    match f with
    | Fails _ => throw filesystem_error
    | Works => gets (fun s => path_append (working_directory s) path)
    end.

(** [std::filesystem::temp_directory_path()] *)
Definition fs_temp_directory_path : cmd system bytes :=
  path ← gets temporary_directory;
  '(t, _) ← fs_status path;
  if decide (t = ft_directory) then mret path else throw filesystem_error.

(** ** Descriptors and locks *)

Definition fresh_descriptor (fds : gmap Z open_file) : Z :=
  fresh (dom fds ∪ list_to_set (seqZ 0 3)).

(** [::open(path, O_RDWR | O_CREAT | O_CLOEXEC, 0600)] *)
Definition sys_open (path : bytes) : cmd system Z :=
  f ← take_fault;
  match f with
  | Fails _ => mret (-1)%Z
  | Works =>
      loc ← gets (fun s => resolve s path);
      match loc with
      | None => mret (-1)%Z
      | Some loc =>
          here ← gets (fun s => files s !! loc);
          match here with
          | Some Dir => mret (-1)%Z
          | _ =>
              (if decide (here = None)
               then modify (fun s => set_files (<[loc := File []]> (files s)) s)
               else mret tt) ;;
              fd ← gets (fun s => fresh_descriptor (descriptors s));
              modify (fun s =>
                set_descriptors (<[fd := mkOpenFile loc false]> (descriptors s)) s) ;;
              mret fd
          end
      end
  end.

(** Whether this process holds the lock of a file through another descriptor. *)
Definition locked_elsewhere (fds : gmap Z open_file) (fd : Z) (loc : location) : bool :=
  existsb (fun entry => negb (bool_decide (entry.1 = fd)) && locked entry.2 &&
                        bool_decide (file_location entry.2 = loc)) (map_to_list fds).

(** [::flock(fd, LOCK_EX | LOCK_NB)] *)
Definition sys_flock (fd : Z) : cmd system flock_answer :=
  file ← deref (fun s => descriptors s !! fd);
  elsewhere ← gets (fun s => locked_elsewhere (descriptors s) fd (file_location file));
  if (elsewhere : bool) then mret WouldBlock
  else
    answer ← gets (fun s => match flock_answers s with [] => Locked | a :: _ => a end);
    modify (fun s => set_flock_answers (tail (flock_answers s)) s) ;;
    match answer with
    | Locked =>
        modify (fun s =>
          set_descriptors (<[fd := mkOpenFile (file_location file) true]> (descriptors s)) s) ;;
        mret Locked
    | _ => mret answer
    end.

(** [::flock(fd, LOCK_UN); ::close(fd)] *)
Definition sys_unlock_close (fd : Z) : cmd system unit :=
  modify (fun s => set_descriptors (delete fd (descriptors s)) s).

(** ** Clocks, in nanoseconds *)

Definition advance (n : Z) : cmd system unit := fun s =>
  match ticks s with
  | [] => (Ret tt, set_clock (clock s + n) [] s)
  | t :: ts => (Ret tt, set_clock (clock s + n + Z.of_N t) ts s)
  end.

(** [steady_clock::now()] and [high_resolution_clock::now()] *)
Definition sys_now : cmd system Z := advance 0 ;; gets clock.

(** [std::this_thread::sleep_for(milliseconds(ms))] sleeps at least that long. *)
Definition sys_sleep_ms (ms : Z) : cmd system unit := advance (ms * 1000000)%Z.

(** [std::to_string] *)
Definition to_string (n : Z) : bytes := str (pretty n).
