(* ===== verification/Directory.v ===== *)
(** * The database directory of [packages/libmylite/src/database.cc]

    [prepare_database_directory] decides what an open does with the path it
    is given: create the layout, accept an existing one, or refuse.  A
    [std::filesystem::path] is its text; the parameter a source function
    takes by path is that text. *)

From S2P Require Import Prelude Api Effects SqlLexer System.
From stdpp Require Import options.

Definition k_memory_database_path : bytes := str ":memory:".
Definition k_meta_filename : bytes := str "mylite.meta".
Definition k_lock_filename : bytes := str "mylite.lock".
Definition k_datadir_name : bytes := str "datadir".
Definition k_tmpdir_name : bytes := str "tmp".
Definition k_rundir_name : bytes := str "run".
Definition k_plugin_directory_name : bytes := str "plugins".
Definition k_mariadb_base_ref : bytes := str "mariadb-11.8.6".
Definition k_metadata_format_line : bytes := str "format=1".

(** [database_path] is absolute or [":memory:"] itself, so the comparison of
    the paths is the comparison of their texts. *)
Definition is_memory_database_path (database_path : bytes) : bool :=
  bool_decide (database_path = k_memory_database_path).

Definition normalize_database_path (path : bytes) : cmd system bytes :=
  if decide (path = k_memory_database_path) then mret k_memory_database_path
  else fs_absolute path.

(** ** Metadata *)

Definition mariadb_base_line : bytes := str "mariadb_base=" ++ k_mariadb_base_ref.

(** The lines [std::getline] yields: the text up to each newline, and what
    follows the last newline when it is not empty. *)
Fixpoint getlines_from (line contents : bytes) : list bytes :=
  match contents with
  | [] => match line with [] => [] | _ => [line] end
  | c :: contents =>
      if Ascii.eqb c char_newline then line :: getlines_from [] contents
      else getlines_from (line ++ [c]) contents
  end.

Definition getlines (contents : bytes) : list bytes := getlines_from [] contents.

(** The loop over the lines: [has_format] and [has_mariadb_base]. *)
Fixpoint metadata_flags (lines : list bytes) (has_format has_mariadb_base : bool)
    : bool * bool :=
  match lines with
  | [] => (has_format, has_mariadb_base)
  | line :: lines =>
      if decide (line = k_metadata_format_line) then metadata_flags lines true has_mariadb_base
      else if decide (line = mariadb_base_line) then metadata_flags lines has_format true
      else metadata_flags lines has_format has_mariadb_base
  end.

Definition validate_database_metadata (metadata_path : bytes) : cmd system Z :=
  metadata ← fs_read_file metadata_path;
  match metadata with
  | CannotOpen => mret MYLITE_IOERR
  | ReadError => mret MYLITE_IOERR
  | Contents contents =>
      let '(has_format, has_mariadb_base) := metadata_flags (getlines contents) false false in
      mret (if has_format && has_mariadb_base then MYLITE_OK else MYLITE_CORRUPT)
  end.

(** The bytes the two [<<] statements put into the stream's buffer. *)
Definition metadata_text : bytes :=
  k_metadata_format_line ++ [char_newline] ++
  str "mariadb_base=" ++ k_mariadb_base_ref ++ [char_newline].

(** The text is shorter than the buffer of the stream, so the second check of
    the stream sees no error: the bytes are written when the stream is
    destroyed. *)
Definition write_database_metadata (metadata_path : bytes) : cmd system unit :=
  is_open ← fs_create_file metadata_path;
  if negb is_open then throw filesystem_error
  else fs_close_file metadata_path metadata_text.

(** ** Layout *)

Definition create_layout_directory (directory : bytes) : cmd system unit :=
  error ← fs_create_directories directory;
  if (error : bool) then throw filesystem_error else mret tt.

Definition initialize_database_layout (database_path : bytes) : cmd system unit :=
  create_layout_directory (path_append database_path k_datadir_name) ;;
  create_layout_directory (path_append database_path k_tmpdir_name) ;;
  let metadata_path := path_append database_path k_meta_filename in
  '(exists_, error) ← fs_exists metadata_path;
  if (exists_ : bool) then
    if (error : bool) then throw filesystem_error
    else
      '(is_regular, error) ← fs_is_regular_file metadata_path;
      if negb is_regular || error then throw filesystem_error else mret tt
  else if (error : bool) then throw filesystem_error
  else write_database_metadata metadata_path.

Definition validate_layout_directory (directory : bytes) : cmd system Z :=
  '(exists_, error) ← fs_exists directory;
  if (error : bool) then mret MYLITE_IOERR
  else if negb exists_ then mret MYLITE_CORRUPT
  else
    '(is_directory, error) ← fs_is_directory directory;
    if (error : bool) then mret MYLITE_IOERR
    else mret (if (is_directory : bool) then MYLITE_OK else MYLITE_CORRUPT).

Definition validate_database_layout (database_path : bytes) : cmd system Z :=
  let metadata_path := path_append database_path k_meta_filename in
  '(metadata_is_file, error) ← fs_is_regular_file metadata_path;
  if error || negb metadata_is_file then mret (if (error : bool) then MYLITE_IOERR else MYLITE_CORRUPT)
  else
    metadata_result ← validate_database_metadata metadata_path;
    if negb (metadata_result =? MYLITE_OK)%Z then mret metadata_result
    else
      data_result ← validate_layout_directory (path_append database_path k_datadir_name);
      if negb (data_result =? MYLITE_OK)%Z then mret data_result
      else
        tmp_result ← validate_layout_directory (path_append database_path k_tmpdir_name);
        if negb (tmp_result =? MYLITE_OK)%Z then mret tmp_result
        else mret MYLITE_OK.

(** The result and the value of [error]. *)
Definition database_directory_is_empty (database_path : bytes) : cmd system (bool * bool) :=
  entry ← fs_directory_iterator database_path;
  match entry with
  | None => mret (false, true)
  | Some names => mret (match names with [] => true | _ => false end, false)
  end.

Definition prepare_existing_database_directory (database_path : bytes) (flags : Z)
    : cmd system Z :=
  let metadata_path := path_append database_path k_meta_filename in
  '(metadata_exists, error) ← fs_exists metadata_path;
  if (error : bool) then mret MYLITE_IOERR
  else if negb metadata_exists then
    '(empty, error) ← database_directory_is_empty database_path;
    if (error : bool) then mret MYLITE_IOERR
    else if empty && has_flag flags MYLITE_OPEN_CREATE then
      initialize_database_layout database_path ;; mret MYLITE_OK
    else mret (if (empty : bool) then MYLITE_NOTFOUND else MYLITE_CORRUPT)
  else
    layout_result ← validate_database_layout database_path;
    if negb (layout_result =? MYLITE_OK)%Z then mret layout_result
    else mret MYLITE_OK.

Definition prepare_database_directory (database_path : bytes) (flags : Z) : cmd system Z :=
  if is_memory_database_path database_path then mret MYLITE_OK
  else
    '(exists_, error) ← fs_exists database_path;
    if (error : bool) then mret MYLITE_IOERR
    else if has_flag flags MYLITE_OPEN_EXCLUSIVE && exists_ then mret MYLITE_ERROR
    else if negb exists_ && negb (has_flag flags MYLITE_OPEN_CREATE) then mret MYLITE_NOTFOUND
    else if (exists_ : bool) then
      '(is_directory, error) ← fs_is_directory database_path;
      if error || negb is_directory then mret MYLITE_IOERR
      else prepare_existing_database_directory database_path flags
    else
      error ← fs_create_directories database_path;
      if (error : bool) then mret MYLITE_IOERR
      else initialize_database_layout database_path ;; mret MYLITE_OK.

(** ** Clean-up *)

Definition remove_directory_if_present (directory : bytes) : cmd system unit :=
  match directory with
  | [] => mret tt
  | _ => fs_remove_all directory
  end.

(** The loop over the entries: it ends at the last one, or when the
    increment sets [error]. *)
Fixpoint remove_entries (directory : bytes) (names : list bytes) : cmd system unit :=
  match names with
  | [] => mret tt
  | name :: names =>
      fs_remove_all (path_append directory name) ;;
      error ← fs_increment;
      if (error : bool) then mret tt else remove_entries directory names
  end.

Definition remove_directory_contents_if_present (directory : bytes) : cmd system unit :=
  match directory with
  | [] => mret tt
  | _ =>
      '(is_directory, error) ← fs_is_directory directory;
      if negb is_directory || error then mret tt
      else
        entry ← fs_directory_iterator directory;
        match entry with
        | None => mret tt
        | Some names => remove_entries directory names
        end
  end.
