(* ===== verification/Numbers.v ===== *)
(** * Numbers in C strings: [strtoul], [strtoll], [strtoull], [strtod]

    What [mylite_column_int64], [mylite_column_uint64],
    [mylite_column_double] and [mylite_warning] use of the C library, in the
    "C" locale and in base 10.  A [double] is its 64 bits; its arithmetic is
    that of [SpecFloat], rounding to nearest even. *)

From S2P Require Import Prelude SqlLexer.
From Stdlib Require Import SpecFloat.
From stdpp Require Import options.

Local Open Scope Z_scope.

(** [isspace]: blank, and the characters 9 to 13. *)
Definition isspace (c : ascii) : bool :=
  Ascii.eqb c " " || char_between (ascii_of_N 9) (ascii_of_N 13) c.

Definition isdigit (c : ascii) : bool := char_between "0" "9" c.
Definition digit_value (c : ascii) : Z := Z.of_N (N_of_ascii c) - 48.

Definition digits_value (digits : bytes) : Z :=
  fold_left (fun v c => 10 * v + digit_value c) digits 0.

(** The part of a list that satisfies [p], and the rest. *)
Definition span (p : ascii -> bool) (s : bytes) : bytes * bytes :=
  (take (count_while p s) s, drop (count_while p s) s).

(** An optional sign: whether it is a minus, and the rest. *)
Definition read_sign (s : bytes) : bool * bytes :=
  match s with
  | c :: s' => if Ascii.eqb c "-" then (true, s') else if Ascii.eqb c "+" then (false, s')
               else (false, s)
  | [] => (false, s)
  end.

(** The sign and the magnitude of the number a string starts with. *)
Definition read_integer (s : bytes) : bool * Z :=
  let '(negative, s) := read_sign (snd (span isspace s)) in
  (negative, digits_value (fst (span isdigit s))).

Definition LLONG_MIN : Z := - 2 ^ 63.
Definition LLONG_MAX : Z := 2 ^ 63 - 1.
Definition ULLONG_MAX : Z := 2 ^ 64 - 1.

(** Out of range values are clamped. *)
Definition strtoll (s : bytes) : Z :=
  let '(negative, v) := read_integer s in
  Z.max LLONG_MIN (Z.min LLONG_MAX (if negative then - v else v)).

(** A minus sign negates in the unsigned type. *)
Definition strtoull (s : bytes) : Z :=
  let '(negative, v) := read_integer s in
  if ULLONG_MAX <? v then ULLONG_MAX
  else if negative then (- v) mod 2 ^ 64 else v.

(** [unsigned long] has 64 bits. *)
Definition strtoul (s : bytes) : Z := strtoull s.

(** ** [strtod] *)

Definition double_prec : Z := 53.
Definition double_emax : Z := 1024.

(** The bits of a number. *)
Definition double_bits (x : spec_float) : Z :=
  let sign (s : bool) := if s then 2 ^ 63 else 0 in
  match x with
  | S754_zero s => sign s
  | S754_infinity s => sign s + 2047 * 2 ^ 52
  | S754_nan => 2047 * 2 ^ 52 + 2 ^ 51
  | S754_finite s m e =>
      if Z.pos m <? 2 ^ 52 then sign s + Z.pos m
      else sign s + (e + 1075) * 2 ^ 52 + (Z.pos m - 2 ^ 52)
  end.

(** The double next to [m * 10 ^ e]. *)
Definition decimal_to_double (negative : bool) (m e : Z) : spec_float :=
  match m with
  | Zpos p =>
      if 0 <=? e then
        binary_normalize double_prec double_emax
          ((if negative then -1 else 1) * (m * 10 ^ e)) 0 negative
      else
        let '(q, e', l) := SFdiv_core_binary double_prec double_emax m 0 (10 ^ (- e)) 0 in
        binary_round_aux double_prec double_emax negative q e' l
  | _ => S754_zero negative
  end.

(** The double next to [m * 2 ^ e]. *)
Definition binary_to_double (negative : bool) (m e : Z) : spec_float :=
  binary_normalize double_prec double_emax ((if negative then -1 else 1) * m) e negative.

(** The digits before and after the point, and the rest; there must be one. *)
Definition read_digits (p : ascii -> bool) (s : bytes) : option (bytes * bytes * bytes) :=
  let '(whole, s) := span p s in
  let '(fraction, s) :=
    match s with
    | c :: s' => if Ascii.eqb c "." then span p s' else ([], s)
    | [] => ([], s)
    end in
  match whole, fraction with
  | [], [] => None
  | _, _ => Some (whole, fraction, s)
  end.

(** An exponent after [letter]: 0 when there is none. *)
Definition read_exponent (letter : ascii) (s : bytes) : Z :=
  match s with
  | c :: s =>
      if Ascii.eqb (to_upper c) letter then
        let '(negative, s) := read_sign s in
        let e := digits_value (fst (span isdigit s)) in
        if negative then - e else e
      else 0
  | [] => 0
  end.

Definition isxdigit (c : ascii) : bool := isdigit c || char_between "A" "F" (to_upper c).
Definition hex_value (digits : bytes) : Z :=
  fold_left (fun v c => 16 * v + (if isdigit c then digit_value c
                                  else Z.of_N (N_of_ascii (to_upper c)) - 55)) digits 0.

Definition starts_with (word : string) (s : bytes) : bool :=
  bool_decide (take (String.length word) (upper s) = str word).

Definition strtod (s : bytes) : Z :=
  let '(negative, s) := read_sign (snd (span isspace s)) in
  let hexadecimal :=
    if starts_with "0X" s then read_digits isxdigit (drop 2 s) else None in
  double_bits
    (if starts_with "INF" s then S754_infinity negative
     else if starts_with "NAN" s then S754_nan
     else
       match hexadecimal with
       | Some (whole, fraction, rest) =>
           binary_to_double negative (hex_value (whole ++ fraction))
             (read_exponent "P" rest - 4 * Z.of_nat (length fraction))
       | None =>
           match read_digits isdigit s with
           | Some (whole, fraction, rest) =>
               decimal_to_double negative (digits_value (whole ++ fraction))
                 (read_exponent "E" rest - Z.of_nat (length fraction))
           | None => S754_zero false
           end
       end).
