(* ===== verification/World.v ===== *)
(** * Data of the MariaDB client library and of prepared statements

    The structures of [mariadb/include/mysql.h] and [mysql_com.h] the runtime
    uses ([MYSQL_FIELD], [MYSQL_DATA], [MYSQL_BIND], [MYSQL_STMT], [MYSQL]),
    those of [database.cc] that hold them ([ParameterBinding],
    [ResultColumn], [mylite_stmt], [RuntimeState]), the interface of the SQL
    server ([Server]) and the memory they all live in ([world]).

    Pointers are addresses into the maps of [world].  The storage of a
    [std::vector<unsigned char>] is a buffer with an address of its own, so a
    pointer to storage that has been freed or replaced no longer resolves. *)

From S2P Require Import Prelude Api Effects System.
From stdpp Require Import options.

(** [enum enum_field_types] *)
Inductive enum_field_types : Set :=
| MYSQL_TYPE_DECIMAL
| MYSQL_TYPE_TINY
| MYSQL_TYPE_SHORT
| MYSQL_TYPE_LONG
| MYSQL_TYPE_FLOAT
| MYSQL_TYPE_DOUBLE
| MYSQL_TYPE_NULL
| MYSQL_TYPE_TIMESTAMP
| MYSQL_TYPE_LONGLONG
| MYSQL_TYPE_INT24
| MYSQL_TYPE_DATE
| MYSQL_TYPE_TIME
| MYSQL_TYPE_DATETIME
| MYSQL_TYPE_YEAR
| MYSQL_TYPE_NEWDATE
| MYSQL_TYPE_VARCHAR
| MYSQL_TYPE_BIT
| MYSQL_TYPE_TIMESTAMP2
| MYSQL_TYPE_DATETIME2
| MYSQL_TYPE_TIME2
| MYSQL_TYPE_BLOB_COMPRESSED
| MYSQL_TYPE_VARCHAR_COMPRESSED
| MYSQL_TYPE_NEWDECIMAL
| MYSQL_TYPE_ENUM
| MYSQL_TYPE_SET
| MYSQL_TYPE_TINY_BLOB
| MYSQL_TYPE_MEDIUM_BLOB
| MYSQL_TYPE_LONG_BLOB
| MYSQL_TYPE_BLOB
| MYSQL_TYPE_VAR_STRING
| MYSQL_TYPE_STRING
| MYSQL_TYPE_GEOMETRY.

#[global] Instance enum_field_types_eq_dec : EqDecision enum_field_types.
Proof. solve_decision. Defined.

Definition UNSIGNED_FLAG : Z := 32.
Definition ZEROFILL_FLAG : Z := 64.
Definition BINARY_FLAG : Z := 128.

Definition SERVER_STATUS_IN_TRANS : Z := 1.
Definition SERVER_STATUS_AUTOCOMMIT : Z := 2.
Definition SERVER_MORE_RESULTS_EXISTS : Z := 8.
Definition SERVER_STATUS_CURSOR_EXISTS : Z := 64.

(** [struct st_mysql_field], without the members nothing here reads. *)
Record MYSQL_FIELD : Set := mkField {
  f_name : option bytes;
  f_org_name : option bytes;
  f_table : option bytes;
  f_org_table : option bytes;
  f_length : Z;
  f_flags : Z;
  f_decimals : Z;
  f_charsetnr : Z;
  f_type : enum_field_types;
}.

(** A row of the text protocol is an array of strings, a row of the binary
    protocol a packed record. *)
Inductive MYSQL_ROW : Set :=
| TextRow (values : list (option bytes))
| BinaryRow (packet : bytes).

(** [MYSQL_DATA] with its [embedded_query_result]: one answer of the server.
    An answer without [fields_list] is an OK or error answer. *)
Record MYSQL_DATA : Set := mkData {
  d_rows : list MYSQL_ROW;
  d_fields_list : option (list MYSQL_FIELD);
  d_affected_rows : Z;
  d_insert_id : Z;
  d_warning_count : Z;
  d_server_status : Z;
  d_last_errno : Z;
  d_info : bytes;
  d_sqlstate : bytes;
}.

(** ** [MYSQL_BIND] *)

(** What [MYSQL_BIND::buffer] can point to. *)
Inductive buffer_ptr : Set :=
| Storage (buffer : nat)                     (* the storage of a byte vector *)
| Int64Value (stmt index : nat)              (* [&parameters[index].int64_value] *)
| Uint64Value (stmt index : nat)
| DoubleValue (stmt index : nat).

(** The structure whose [length], [is_null] or [error] member the pointer of
    that name points to.  The columns of a statement are a vector that is
    cleared and filled again: [generation] tells its fillings apart. *)
Inductive member_ptr : Set :=
| OfColumn (stmt generation index : nat)
| OfParameter (stmt index : nat)
| OfBind                                     (* [&bind->length_value] etc. *)
| BufferLength                               (* [&bind->buffer_length] *)
| AlwaysNull                                 (* [&int_is_null_true] *)
| NeverNull.                                 (* [&int_is_null_false] *)

(** The functions [MYSQL_BIND::fetch_result] is set to. *)
Inductive fetch_function : Set :=
| no_fetch_function
| fetch_result_fixed                         (* the numeric and temporal ones *)
| fetch_result_bin
| fetch_result_str
| fetch_result_with_conversion.

#[global] Instance fetch_function_eq_dec : EqDecision fetch_function.
Proof. solve_decision. Defined.

Record MYSQL_BIND : Set := mkBind {
  buffer_type : enum_field_types;
  buffer : option buffer_ptr;
  buffer_length : Z;
  length_ptr : option member_ptr;
  is_null_ptr : option member_ptr;
  error_ptr : option member_ptr;
  is_unsigned : bool;
  bind_offset : Z;
  row_ptr : option bytes;
  fetch_result : fetch_function;
  length_value : Z;
  is_null_value : Z;
  error_value : Z;
}.

(** [MYSQL_BIND bind = {}] *)
Definition zero_bind : MYSQL_BIND :=
  mkBind MYSQL_TYPE_DECIMAL None 0 None None None false 0 None no_fetch_function 0 0 0.

(** [MYSQL_TIME] *)
Inductive mysql_time_type : Set :=
| MYSQL_TIMESTAMP_NONE
| MYSQL_TIMESTAMP_ERROR
| MYSQL_TIMESTAMP_DATE
| MYSQL_TIMESTAMP_DATETIME
| MYSQL_TIMESTAMP_TIME.

Record MYSQL_TIME : Set := mkTime {
  tm_year : Z;
  tm_month : Z;
  tm_day : Z;
  tm_hour : Z;
  tm_minute : Z;
  tm_second : Z;
  tm_second_part : Z;
  tm_neg : bool;
  tm_type : mysql_time_type;
}.

(** ** [MYSQL_STMT] and [MYSQL] *)

(** [enum enum_mysql_stmt_state], from 1. *)
Definition MYSQL_STMT_INIT_DONE : Z := 1.
Definition MYSQL_STMT_PREPARE_DONE : Z := 2.
Definition MYSQL_STMT_EXECUTE_DONE : Z := 3.
Definition MYSQL_STMT_FETCH_DONE : Z := 4.

Inductive read_row_function : Set :=
| stmt_read_row_no_result_set
| stmt_read_row_no_data
| stmt_read_row_unbuffered
| stmt_read_row_buffered.

Record MYSQL_STMT : Set := mkMStmt {
  s_mysql : option nat;
  s_params : list MYSQL_BIND;
  s_bind : list MYSQL_BIND;
  s_fields : list MYSQL_FIELD;
  s_result : list MYSQL_ROW;
  s_data_cursor : list MYSQL_ROW;
  s_read_row_func : read_row_function;
  s_affected_rows : Z;
  s_insert_id : Z;
  s_stmt_id : Z;
  s_server_status : Z;
  s_last_errno : Z;
  s_param_count : Z;
  s_field_count : Z;
  s_state : Z;
  s_last_error : bytes;
  s_sqlstate : bytes;
  s_bind_param_done : bool;
  s_bind_result_done : bool;
  s_report_data_truncation : bool;
  s_unbuffered_fetch_cancelled : bool;
  s_update_max_length : bool;
}.

Inductive mysql_status : Set :=
| MYSQL_STATUS_READY
| MYSQL_STATUS_GET_RESULT
| MYSQL_STATUS_USE_RESULT
| MYSQL_STATUS_STATEMENT_GET_RESULT.

#[global] Instance mysql_status_eq_dec : EqDecision mysql_status.
Proof. solve_decision. Defined.

(** The part of the server's [THD] the client library works on: the queue of
    answers not read yet, the answer being read, the identity and number of
    parameters of the statement prepared last, and its warnings. *)
Record THD : Set := mkThd {
  first_data : list MYSQL_DATA;
  cur_data : option MYSQL_DATA;
  thd_client_stmt_id : Z;
  thd_client_param_count : Z;
  thd_warning_count : Z;
}.

Record MYSQL : Set := mkMysql {
  net_last_errno : Z;
  net_last_error : bytes;
  net_sqlstate : bytes;
  m_thd : option THD;
  m_status : mysql_status;
  m_server_status : Z;
  m_affected_rows : Z;
  m_insert_id : Z;
  m_field_count : Z;
  m_fields : option (list MYSQL_FIELD);
  m_warning_count : Z;
  m_unbuffered_fetch_owner : option nat;
  m_report_data_truncation : bool;
}.

(** ** Structures of [database.cc] *)

Record ParameterBinding : Set := mkParameter {
  p_bind : MYSQL_BIND;
  p_bytes : option nat;
  p_length : Z;
  p_is_null : Z;
  p_error : Z;
  p_int64_value : Z;
  p_uint64_value : Z;
  p_double_value : Z;
}.

Record ResultColumn : Set := mkColumn {
  c_bind : MYSQL_BIND;
  c_field_type : enum_field_types;
  c_flags : Z;
  c_name : bytes;
  c_org_name : bytes;
  c_table : bytes;
  c_org_table : bytes;
  c_buffer : option nat;
  c_retired_buffer : option nat;
  c_length : Z;
  c_is_null : Z;
  c_error : Z;
}.

(** [columns_generation] counts the times [columns] was cleared; [metadata]
    holds the fields of the [MYSQL_RES]. *)
Record mylite_stmt : Set := mkStmt {
  db : option nat;
  stmt : option nat;
  metadata : option (list MYSQL_FIELD);
  parameters : list ParameterBinding;
  parameter_binds : list MYSQL_BIND;
  columns : list ResultColumn;
  columns_generation : nat;
  result_binds : list MYSQL_BIND;
  result_binds_dirty : bool;
  executed : bool;
  has_result : bool;
  has_row : bool;
}.

(** [argv] points into [arguments] and has the same strings. *)
Record RuntimeState : Set := mkRuntime {
  ref_count : Z;
  cleanup_directory : bytes;
  persistent_tmp_directory : bytes;
  runtime_database_path : bytes;
  arguments : list bytes;
  lock_fd : Z;
}.

Definition initial_runtime : RuntimeState := mkRuntime 0 [] [] [] [] (-1).

(** ** The SQL server *)

(** The value of one parameter as [emb_insert_params] reads it. *)
Inductive param_value : Set :=
| ParamNull
| ParamInt (value : Z)
| ParamUint (value : Z)
| ParamDouble (bits : Z)
| ParamText (value : bytes)
| ParamBlob (value : bytes).

Inductive command : Set :=
| COM_QUERY (sql : bytes)
| COM_STMT_PREPARE (sql : bytes)
| COM_STMT_EXECUTE (id : Z) (params : list param_value)
| COM_STMT_CLOSE (id : Z)
| COM_STMT_RESET (id : Z).

(** What [dispatch_command] leaves in the [THD]: its result is non-zero when
    the session is to be closed. *)
Record dispatched : Set := mkDispatched {
  dispatch_result : bool;
  thd_is_error : bool;
  datasets : list MYSQL_DATA;
  client_stmt_id : Z;
  client_param_count : Z;
  current_statement_warn_count : Z;
}.

(** [init_embedded_server] starts the server, or fails; on some of its error
    paths it has called [mysql_server_end] before it returns. *)
Inductive init_result : Set :=
| InitOk
| InitFailed (server_ended : bool).

(** The server proper is outside the model.  It is started and stopped with
    the process, works on its own data and on the file tree, and serves the
    sessions it is given. *)
Class Server : Type := {
  server : Type;
  init_embedded_server : list bytes -> server -> filesystem -> init_result * server * filesystem;
  end_embedded_server : server -> filesystem -> server * filesystem;
  (** [create_embedded_thd] and [check_embedded_connection]: an error and its
      text when the session is refused. *)
  open_session : nat -> server -> filesystem -> option (Z * bytes * bytes) * server * filesystem;
  close_session : nat -> server -> filesystem -> server * filesystem;
  (** [thd->killed >= KILL_CONNECTION] *)
  session_killed : nat -> server -> bool;
  dispatch_command : nat -> command -> server -> filesystem -> dispatched * server * filesystem;
  (** [my_gcvt] and [my_fcvt]: the text of a floating point number of 4 or 8
      bytes that may use [width] characters, and its text with [decimals]
      decimals. *)
  my_gcvt : bytes -> Z -> bytes;
  my_fcvt : bytes -> Z -> bytes;
}.

(** ** Memory *)

Section world.
  Context `{Server}.

(** [allocations] decides which of the next allocations succeed; when it has
    run out they all do. *)
Record world : Type := mkWorld {
  dbs : gmap nat mylite_db;
  connections : gmap nat MYSQL;
  stmts : gmap nat mylite_stmt;
  mysql_stmts : gmap nat MYSQL_STMT;
  buffers : gmap nat bytes;
  runtime : RuntimeState;
  runtime_counter : Z;
  mysql_client_init : bool;
  server_state : server;
  sys : system;
  allocations : list bool;
  next_address : nat;
}.

Definition set_dbs (v : gmap nat mylite_db) (w : world) : world :=
  mkWorld v (connections w) (stmts w) (mysql_stmts w) (buffers w) (runtime w) (runtime_counter w)
    (mysql_client_init w) (server_state w) (sys w) (allocations w) (next_address w).
Definition set_connections (v : gmap nat MYSQL) (w : world) : world :=
  mkWorld (dbs w) v (stmts w) (mysql_stmts w) (buffers w) (runtime w) (runtime_counter w)
    (mysql_client_init w) (server_state w) (sys w) (allocations w) (next_address w).
Definition set_stmts (v : gmap nat mylite_stmt) (w : world) : world :=
  mkWorld (dbs w) (connections w) v (mysql_stmts w) (buffers w) (runtime w) (runtime_counter w)
    (mysql_client_init w) (server_state w) (sys w) (allocations w) (next_address w).
Definition set_mysql_stmts (v : gmap nat MYSQL_STMT) (w : world) : world :=
  mkWorld (dbs w) (connections w) (stmts w) v (buffers w) (runtime w) (runtime_counter w)
    (mysql_client_init w) (server_state w) (sys w) (allocations w) (next_address w).
Definition set_buffers (v : gmap nat bytes) (w : world) : world :=
  mkWorld (dbs w) (connections w) (stmts w) (mysql_stmts w) v (runtime w) (runtime_counter w)
    (mysql_client_init w) (server_state w) (sys w) (allocations w) (next_address w).
Definition set_runtime (v : RuntimeState) (w : world) : world :=
  mkWorld (dbs w) (connections w) (stmts w) (mysql_stmts w) (buffers w) v (runtime_counter w)
    (mysql_client_init w) (server_state w) (sys w) (allocations w) (next_address w).
Definition set_runtime_counter (v : Z) (w : world) : world :=
  mkWorld (dbs w) (connections w) (stmts w) (mysql_stmts w) (buffers w) (runtime w) v
    (mysql_client_init w) (server_state w) (sys w) (allocations w) (next_address w).
Definition set_mysql_client_init (v : bool) (w : world) : world :=
  mkWorld (dbs w) (connections w) (stmts w) (mysql_stmts w) (buffers w) (runtime w)
    (runtime_counter w) v (server_state w) (sys w) (allocations w) (next_address w).
Definition set_sys (v : system) (w : world) : world :=
  mkWorld (dbs w) (connections w) (stmts w) (mysql_stmts w) (buffers w) (runtime w)
    (runtime_counter w) (mysql_client_init w) (server_state w) v (allocations w) (next_address w).
Definition set_server_state (v : server) (fs : filesystem) (w : world) : world :=
  mkWorld (dbs w) (connections w) (stmts w) (mysql_stmts w) (buffers w) (runtime w)
    (runtime_counter w) (mysql_client_init w) v (set_files fs (sys w)) (allocations w)
    (next_address w).
Definition set_allocations (v : list bool) (w : world) : world :=
  mkWorld (dbs w) (connections w) (stmts w) (mysql_stmts w) (buffers w) (runtime w)
    (runtime_counter w) (mysql_client_init w) (server_state w) (sys w) v (next_address w).
Definition set_next_address (v : nat) (w : world) : world :=
  mkWorld (dbs w) (connections w) (stmts w) (mysql_stmts w) (buffers w) (runtime w)
    (runtime_counter w) (mysql_client_init w) (server_state w) (sys w) (allocations w) v.

(** A call to the operating system. *)
Definition on_system {A} (m : cmd system A) : cmd world A := zoom sys set_sys m.

(** Whether the next allocation succeeds. *)
Definition allocate : cmd world bool := fun w =>
  match allocations w with
  | [] => (Ret true, w)
  | a :: rest => (Ret a, set_allocations rest w)
  end.

Definition fresh_address : cmd world nat := fun w =>
  (Ret (next_address w), set_next_address (S (next_address w)) w).

(** Reading and writing through pointers to the four kinds of objects; an
    address that holds no object is undefined behaviour. *)
Definition get_db (d : nat) : cmd world mylite_db := deref (fun w => dbs w !! d).
Definition put_db (d : nat) (x : mylite_db) : cmd world unit :=
  modify (fun w => set_dbs (<[d := x]> (dbs w)) w).
Definition update_db (d : nat) (f : mylite_db -> mylite_db) : cmd world unit :=
  x ← get_db d; put_db d (f x).

Definition get_mysql (d : nat) : cmd world MYSQL := deref (fun w => connections w !! d).
Definition put_mysql (d : nat) (x : MYSQL) : cmd world unit :=
  modify (fun w => set_connections (<[d := x]> (connections w)) w).
Definition update_mysql (d : nat) (f : MYSQL -> MYSQL) : cmd world unit :=
  x ← get_mysql d; put_mysql d (f x).

Definition get_stmt (s : nat) : cmd world mylite_stmt := deref (fun w => stmts w !! s).
Definition put_stmt (s : nat) (x : mylite_stmt) : cmd world unit :=
  modify (fun w => set_stmts (<[s := x]> (stmts w)) w).
Definition update_stmt (s : nat) (f : mylite_stmt -> mylite_stmt) : cmd world unit :=
  x ← get_stmt s; put_stmt s (f x).

Definition get_mstmt (m : nat) : cmd world MYSQL_STMT := deref (fun w => mysql_stmts w !! m).
Definition put_mstmt (m : nat) (x : MYSQL_STMT) : cmd world unit :=
  modify (fun w => set_mysql_stmts (<[m := x]> (mysql_stmts w)) w).
Definition update_mstmt (m : nat) (f : MYSQL_STMT -> MYSQL_STMT) : cmd world unit :=
  x ← get_mstmt m; put_mstmt m (f x).

Definition get_buffer (b : nat) : cmd world bytes := deref (fun w => buffers w !! b).
Definition put_buffer (b : nat) (x : bytes) : cmd world unit :=
  modify (fun w => set_buffers (<[b := x]> (buffers w)) w).
Definition free_buffer (b : option nat) : cmd world unit :=
  match b with
  | None => mret tt
  | Some b => modify (fun w => set_buffers (delete b (buffers w)) w)
  end.
End world.
Arguments world {_}.
