(* ===== verification/Formats.v ===== *)
(** * The text of integers, dates and times

    [int10_to_str] of [mariadb/strings/int2str.c], which is also
    [longlong10_to_str] where [long] has 64 bits, and the functions of
    [mariadb/sql-common/my_time.c] under [my_TIME_to_str].  A function that
    writes at [to] and returns the new end is modelled by the text it writes. *)

From S2P Require Import Prelude System World.
From stdpp Require Import options.

Local Open Scope Z_scope.

(** ** Integers *)

(** [(long)] of an integer. *)
Definition to_long (z : Z) : Z :=
  let u := z mod 2 ^ 64 in if 2 ^ 63 <=? u then u - 2 ^ 64 else u.

(** ['0' + (char) digit] *)
Definition digit_char (digit : Z) : ascii := ascii_of_N (Z.to_N (48 + digit)).

(** The loop that writes digits from the end: [p] is the text from [p] on.  A
    [long] has at most 19 digits. *)
Fixpoint int10_loop (fuel : nat) (val : Z) (p : bytes) : bytes :=
  match fuel with
  | O => p
  | S fuel =>
      if val =? 0 then p
      else
        let new_val := Z.quot val 10 in
        int10_loop fuel new_val (digit_char (val - new_val * 10) :: p)
  end.

Definition int10_to_str (val radix : Z) : bytes :=
  let uval := val mod 2 ^ 64 in
  let negative := (radix <? 0) && (val <? 0) in
  let uval := if negative then (0 - uval) mod 2 ^ 64 else uval in
  let new_val := to_long (uval / 10) in
  let digits := int10_loop 19 new_val [digit_char (uval - new_val * 10)] in
  if negative then "-"%char :: digits else digits.

(** ** Dates and times *)

(** [two_digit_numbers]: the entries from 100 on are ["XX"]. *)
Definition fmt_number2 (val : Z) : bytes :=
  let val := val mod 2 ^ 8 in
  if val <? 100 then [digit_char (val / 10); digit_char (val mod 10)] else str "XX".

Definition fmt_number4 (val : Z) : bytes :=
  let val := val mod 2 ^ 16 in
  fmt_number2 (val / 100) ++ fmt_number2 (val mod 100).

Definition fmt_number6 (val : Z) : bytes :=
  fmt_number2 (val / 10000) ++
  (let val := val mod 10000 in fmt_number2 (val / 100) ++ fmt_number2 (val mod 100)).

(** [None]: the assertion at the end. *)
Definition fmt_usec (val : Z) (digits : Z) : option bytes :=
  if digits =? 1 then Some [digit_char (val mod 10)]
  else if digits =? 2 then Some (fmt_number2 val)
  else if digits =? 3 then Some (digit_char ((val / 100) mod 10) :: fmt_number2 (val mod 100))
  else if digits =? 4 then Some (fmt_number4 val)
  else if digits =? 5 then
    Some (digit_char ((val / 10000) mod 10) :: fmt_number4 (val mod 10000))
  else if digits =? 6 then Some (fmt_number6 val)
  else None.

Definition TIME_SECOND_PART_DIGITS : Z := 6.
Definition AUTO_SEC_PART_DIGITS : Z := 39.

(** [second_part / log_10_int[TIME_SECOND_PART_DIGITS - digits]] *)
Definition sec_part_shift (second_part digits : Z) : Z :=
  Z.quot second_part (10 ^ (TIME_SECOND_PART_DIGITS - digits)).

(** [None]: more digits than [log_10_int] can be read for. *)
Definition my_mmssff_to_str (ltime : MYSQL_TIME) (fsp : Z) : option bytes :=
  let fsp :=
    if fsp =? AUTO_SEC_PART_DIGITS then
      if negb (tm_second_part ltime =? 0) then TIME_SECOND_PART_DIGITS else 0
    else fsp in
  if TIME_SECOND_PART_DIGITS <? fsp then None
  else
    let mmss := fmt_number2 (tm_minute ltime) ++ [":"%char] ++ fmt_number2 (tm_second ltime) in
    if negb (fsp =? 0) then
      usec ← fmt_usec (sec_part_shift (to_long (tm_second_part ltime)) fsp mod 2 ^ 32) fsp;
      Some (mmss ++ ["."%char] ++ usec)
    else Some mmss.

Definition my_time_to_str (l_time : MYSQL_TIME) (digits : Z) : option bytes :=
  let day := if negb (tm_year l_time =? 0) || negb (tm_month l_time =? 0) then 0
             else tm_day l_time in
  let hour := (day * 24 + tm_hour l_time) mod 2 ^ 32 in
  rest ← my_mmssff_to_str l_time digits;
  Some ((if tm_neg l_time then ["-"%char] else []) ++
        (if 99 <? hour then int10_to_str hour 10 else fmt_number2 hour) ++
        [":"%char] ++ rest).

Definition my_date_to_str (l_time : MYSQL_TIME) : bytes :=
  fmt_number4 (tm_year l_time) ++ ["-"%char] ++ fmt_number2 (tm_month l_time) ++
  ["-"%char] ++ fmt_number2 (tm_day l_time).

Definition my_datetime_to_str (l_time : MYSQL_TIME) (digits : Z) : option bytes :=
  rest ← my_mmssff_to_str l_time digits;
  Some (my_date_to_str l_time ++ [" "%char] ++ fmt_number2 (tm_hour l_time) ++
        [":"%char] ++ rest).

Definition my_TIME_to_str (l_time : MYSQL_TIME) (digits : Z) : option bytes :=
  match tm_type l_time with
  | MYSQL_TIMESTAMP_DATETIME => my_datetime_to_str l_time digits
  | MYSQL_TIMESTAMP_DATE => Some (my_date_to_str l_time)
  | MYSQL_TIMESTAMP_TIME => my_time_to_str l_time digits
  | MYSQL_TIMESTAMP_NONE | MYSQL_TIMESTAMP_ERROR => Some []
  end.
