(* ===== verification/FormatsFacts.v ===== *)
(** * Facts about the text of integers, dates and times

    [int10_to_str] writes the decimal number the C++ library writes
    ([int10_to_str_decimal]), the number functions of the C library read it
    back, and no text is longer than the buffer its caller reserves. *)

From S2P Require Import Prelude SqlLexer Numbers System World Formats.
From stdpp Require Import pretty options.

Local Open Scope Z_scope.

(** ** Digits *)

Lemma digit_cases (P : Z -> Prop) :
  P 0 -> P 1 -> P 2 -> P 3 -> P 4 -> P 5 -> P 6 -> P 7 -> P 8 -> P 9 ->
  forall d, 0 <= d < 10 -> P d.
Proof.
  intros H0 H1 H2 H3 H4 H5 H6 H7 H8 H9 d Hd.
  assert (Hcases : d = 0 \/ d = 1 \/ d = 2 \/ d = 3 \/ d = 4 \/ d = 5 \/ d = 6 \/ d = 7 \/ d = 8 \/ d = 9)
    by lia.
  by repeat (destruct Hcases as [->|Hcases]); [..|subst d].
Qed.

Lemma digit_char_digit d : 0 <= d < 10 ->
  isdigit (digit_char d) = true /\ digit_value (digit_char d) = d /\
  isspace (digit_char d) = false.
Proof. revert d. by apply digit_cases. Qed.

Lemma digit_char_pretty d : 0 <= d < 10 -> digit_char d = pretty_N_char (Z.to_N d).
Proof. revert d. by apply digit_cases. Qed.

(** What the loop does: one digit per round, from the end. *)
Lemma int10_loop_step fuel val p :
  0 < val -> int10_loop (S fuel) val p = int10_loop fuel (val / 10) (digit_char (val mod 10) :: p).
Proof.
  intros Hval. simpl. rewrite (proj2 (Z.eqb_neq _ _)), Z.quot_div_nonneg by lia.
  do 3 f_equal. rewrite Z.mod_eq by lia. lia.
Qed.

Lemma int10_loop_0 fuel p : int10_loop fuel 0 p = p.
Proof. by destruct fuel. Qed.

Lemma div10_bound fuel val : 0 < val < 10 ^ Z.of_nat (S fuel) -> 0 <= val / 10 < 10 ^ Z.of_nat fuel.
Proof.
  intros Hval. rewrite Nat2Z.inj_succ, Z.pow_succ_r in Hval by lia.
  split; [apply Z.div_pos; lia|]. apply Z.div_lt_upper_bound; lia.
Qed.

(** Enough rounds write the decimal number. *)
Lemma int10_loop_pretty fuel : forall val s,
  0 <= val < 10 ^ Z.of_nat fuel -> int10_loop fuel val (str s) = str (pretty_N_go (Z.to_N val) s).
Proof.
  induction fuel as [|fuel IH]; intros val s Hval.
  { replace val with 0 by (simpl in Hval; lia). by rewrite pretty_N_go_0. }
  destruct (decide (val = 0)) as [->|Hne]; [by rewrite int10_loop_0, pretty_N_go_0|].
  rewrite int10_loop_step, pretty_N_go_step by lia.
  pose proof (Z.mod_pos_bound val 10) as Hmod.
  rewrite digit_char_pretty, Z2N.inj_mod by lia.
  change (Z.to_N 10) with 10%N.
  change (pretty_N_char (Z.to_N val `mod` 10) :: str s)
    with (str (String (pretty_N_char (Z.to_N val `mod` 10)) s)).
  rewrite IH by (apply div10_bound; lia). by rewrite Z2N.inj_div by lia.
Qed.

Local Arguments int10_loop : simpl never.

Lemma to_long_small z : 0 <= z < 2 ^ 63 -> to_long z = z.
Proof.
  intros Hz. unfold to_long. rewrite Z.mod_small by lia. by rewrite (proj2 (Z.leb_gt _ _)) by lia.
Qed.

(** The digits of an unsigned number. *)
Definition unsigned_digits (uval : Z) : bytes :=
  int10_loop 19 (uval / 10) [digit_char (uval mod 10)].

Lemma unsigned_digits_long uval :
  0 <= uval < 2 ^ 64 ->
  (let new_val := to_long (uval / 10) in
   int10_loop 19 new_val [digit_char (uval - new_val * 10)]) = unsigned_digits uval.
Proof.
  intros Hu. cbv zeta. rewrite to_long_small.
  - unfold unsigned_digits. do 3 f_equal. rewrite Z.mod_eq by lia. lia.
  - split; [apply Z.div_pos; lia|]. apply Z.div_lt_upper_bound; lia.
Qed.

Lemma int10_to_str_digits val radix :
  - 2 ^ 63 <= val < 2 ^ 64 ->
  int10_to_str val radix =
  if (radix <? 0) && (val <? 0) then "-"%char :: unsigned_digits (- val)
  else unsigned_digits (val mod 2 ^ 64).
Proof.
  intros Hval. unfold int10_to_str. destruct ((radix <? 0) && (val <? 0)) eqn:Hn.
  - apply andb_true_iff in Hn as [_ Hn%Z.ltb_lt].
    rewrite unsigned_digits_long by (apply Z.mod_pos_bound; lia).
    rewrite Zminus_mod_idemp_r, Z.sub_0_l, Z.mod_small by lia. done.
  - by rewrite unsigned_digits_long by (apply Z.mod_pos_bound; lia).
Qed.

Lemma unsigned_digits_pretty uval :
  0 <= uval < 2 ^ 64 -> unsigned_digits uval = str (pretty (Z.to_N uval)).
Proof.
  intros Hu. unfold unsigned_digits. pose proof (Z.mod_pos_bound uval 10) as Hmod.
  rewrite digit_char_pretty by lia.
  change [pretty_N_char (Z.to_N (uval mod 10))] with (str (String (pretty_N_char (Z.to_N (uval mod 10))) "")).
  rewrite int10_loop_pretty.
  2: { change (10 ^ Z.of_nat 19) with 10000000000000000000.
       split; [apply Z.div_pos; lia|]. apply Z.div_lt_upper_bound; lia. }
  unfold pretty, pretty_N. destruct (decide (Z.to_N uval = 0%N)) as [H0|Hne].
  - replace uval with 0 by lia. reflexivity.
  - rewrite (pretty_N_go_step (Z.to_N uval)) by lia. by rewrite Z2N.inj_div, Z2N.inj_mod by lia.
Qed.

Lemma to_string_digits z :
  - 2 ^ 63 <= z < 2 ^ 64 ->
  to_string z = if z <? 0 then "-"%char :: unsigned_digits (- z) else unsigned_digits z.
Proof.
  intros Hz. unfold to_string.
  destruct (Z.ltb_spec z 0); rewrite unsigned_digits_pretty by lia; by destruct z; try lia.
Qed.

(** [int10_to_str] writes what [std::to_string] writes: the signed number
    for a negative radix, the unsigned one otherwise. *)
Lemma int10_to_str_decimal val radix :
  - 2 ^ 63 <= val < 2 ^ 63 ->
  int10_to_str val radix = to_string (if radix <? 0 then val else val mod 2 ^ 64).
Proof.
  intros Hval. rewrite int10_to_str_digits by lia. pose proof (Z.mod_pos_bound val (2 ^ 64)).
  destruct (Z.ltb_spec radix 0) as [Hr|Hr]; rewrite to_string_digits by lia; simpl.
  - destruct (Z.ltb_spec val 0); [done|]. by rewrite Z.mod_small by lia.
  - by rewrite (proj2 (Z.ltb_ge (val mod 2 ^ 64) 0)) by lia.
Qed.

(** ** Reading the digits back *)

Lemma digits_value_from ds : forall v,
  fold_left (fun v c => 10 * v + digit_value c) ds v = v * 10 ^ Z.of_nat (length ds) + digits_value ds.
Proof.
  unfold digits_value. induction ds as [|c ds IH]; intros v; [simpl; lia|]. cbn [fold_left length].
  rewrite IH, (IH (10 * 0 + _)), Nat2Z.inj_succ, Z.pow_succ_r by lia. lia.
Qed.

Lemma digits_value_cons c ds :
  digits_value (c :: ds) = digit_value c * 10 ^ Z.of_nat (length ds) + digits_value ds.
Proof. unfold digits_value at 1. cbn [fold_left]. rewrite digits_value_from. lia. Qed.

Lemma digits_value_zeros n ds : digits_value (replicate n "0"%char ++ ds) = digits_value ds.
Proof.
  induction n as [|n IH]; [done|]. cbn [replicate app]. rewrite digits_value_cons, IH.
  by change (digit_value "0") with 0.
Qed.

Lemma int10_loop_value fuel : forall val p,
  0 <= val < 10 ^ Z.of_nat fuel ->
  digits_value (int10_loop fuel val p) = val * 10 ^ Z.of_nat (length p) + digits_value p.
Proof.
  induction fuel as [|fuel IH]; intros val p Hval.
  { replace val with 0 by (simpl in Hval; lia). done. }
  destruct (decide (val = 0)) as [->|Hne]; [by rewrite int10_loop_0|].
  rewrite int10_loop_step by lia. rewrite IH by (apply div10_bound; lia).
  pose proof (Z.mod_pos_bound val 10) as Hmod.
  destruct (digit_char_digit (val mod 10)) as (_ & Hd & _); [lia|].
  rewrite digits_value_cons, Hd. cbn [length]. rewrite Nat2Z.inj_succ, Z.pow_succ_r by lia.
  rewrite (Z.div_mod val 10) at 3 by lia. lia.
Qed.

Definition all_digits (ds : bytes) : Prop := Forall (fun c => isdigit c = true) ds.

Lemma int10_loop_digits fuel : forall val p,
  0 <= val -> all_digits p -> all_digits (int10_loop fuel val p).
Proof.
  induction fuel as [|fuel IH]; intros val p Hval Hp; [done|].
  destruct (decide (val = 0)) as [->|Hne]; [by rewrite int10_loop_0|].
  rewrite int10_loop_step by lia. apply IH; [apply Z.div_pos; lia|].
  constructor; [|done]. apply digit_char_digit, Z.mod_pos_bound. lia.
Qed.

Lemma int10_loop_length fuel : forall k val p,
  0 <= val < 10 ^ Z.of_nat k ->
  (length p <= length (int10_loop fuel val p) <= k + length p)%nat.
Proof.
  induction fuel as [|fuel IH]; intros k val p Hval; [unfold int10_loop; lia|].
  destruct (decide (val = 0)) as [->|Hne]; [rewrite int10_loop_0; lia|].
  destruct k as [|k]; [simpl in Hval; lia|]. rewrite int10_loop_step by lia.
  specialize (IH k (val / 10) (digit_char (val mod 10) :: p)).
  cbn [length] in IH. assert (0 <= val / 10 < 10 ^ Z.of_nat k) by (apply div10_bound; lia). lia.
Qed.

Lemma unsigned_digits_value uval :
  0 <= uval < 2 ^ 64 -> digits_value (unsigned_digits uval) = uval.
Proof.
  intros Hu. unfold unsigned_digits. rewrite int10_loop_value.
  2: { change (10 ^ Z.of_nat 19) with 10000000000000000000.
       split; [apply Z.div_pos; lia|]. apply Z.div_lt_upper_bound; lia. }
  pose proof (Z.mod_pos_bound uval 10) as Hmod.
  destruct (digit_char_digit (uval mod 10)) as (_ & Hd & _); [lia|].
  unfold digits_value. cbn [fold_left length]. rewrite Hd.
  rewrite (Z.div_mod uval 10) at 3 by lia. lia.
Qed.

Lemma unsigned_digits_all uval : 0 <= uval -> all_digits (unsigned_digits uval).
Proof.
  intros Hu. apply int10_loop_digits; [apply Z.div_pos; lia|].
  constructor; [|done]. apply digit_char_digit, Z.mod_pos_bound. lia.
Qed.

Lemma unsigned_digits_length k uval :
  0 <= uval < 10 ^ Z.of_nat (S k) -> (1 <= length (unsigned_digits uval) <= S k)%nat.
Proof.
  intros Hu. unfold unsigned_digits.
  assert (Hd : 0 <= uval / 10 < 10 ^ Z.of_nat k).
  { rewrite Nat2Z.inj_succ, Z.pow_succ_r in Hu by lia.
    split; [apply Z.div_pos; lia|]. apply Z.div_lt_upper_bound; lia. }
  pose proof (int10_loop_length 19 k (uval / 10) [digit_char (uval mod 10)] Hd) as Hlen.
  cbn [length] in Hlen. lia.
Qed.

Lemma count_while_full p s : Forall (fun c => p c = true) s -> count_while p s = length s.
Proof. induction 1 as [|c s Hc _ IH]; [done|]. simpl. by rewrite Hc, IH. Qed.

Lemma digit_neither c :
  isdigit c = true ->
  isspace c = false /\ Ascii.eqb c "-" = false /\ Ascii.eqb c "+" = false.
Proof. destruct c as [[] [] [] [] [] [] [] []]; vm_compute; intros Hc; by split_and!. Qed.

Lemma read_integer_digits ds :
  ds <> [] -> all_digits ds ->
  read_integer ds = (false, digits_value ds) /\
  read_integer ("-"%char :: ds) = (true, digits_value ds).
Proof.
  intros Hne Hds. assert (Hspan : fst (span isdigit ds) = ds).
  { unfold span. rewrite count_while_full by done. simpl. apply firstn_all. }
  unfold read_integer. split.
  - destruct Hds as [|c ds Hc Hds]; [done|]. destruct (digit_neither c Hc) as (Hs & Hm & Hp).
    assert (Hblank : snd (span isspace (c :: ds)) = c :: ds)
      by (unfold span; cbn [count_while]; by rewrite Hs).
    rewrite Hblank. cbn [read_sign]. by rewrite Hm, Hp, Hspan.
  - change (snd (span isspace ("-"%char :: ds))) with ("-"%char :: ds). cbn [read_sign].
    change (Ascii.eqb "-" "-") with true. cbn iota. by rewrite Hspan.
Qed.

(** ** Round trips *)

Lemma unsigned_digits_read uval :
  0 <= uval < 2 ^ 64 ->
  read_integer (unsigned_digits uval) = (false, uval) /\
  read_integer ("-"%char :: unsigned_digits uval) = (true, uval).
Proof.
  intros Hu. destruct (read_integer_digits (unsigned_digits uval)) as [H1 H2].
  - intros Hnil. destruct (unsigned_digits_length 19 uval) as [Hlen _].
    { change (10 ^ Z.of_nat 20) with 100000000000000000000. lia. }
    rewrite Hnil in Hlen. simpl in Hlen. lia.
  - apply unsigned_digits_all. lia.
  - rewrite unsigned_digits_value in H1, H2 by done. by split.
Qed.

(** The decimal text of an integer, with leading zeros if it has no sign. *)
Definition decimal_text (z : Z) (text : bytes) : Prop :=
  text = to_string z \/ 0 <= z /\ exists n, text = replicate n "0"%char ++ to_string z.

Lemma decimal_text_read z text :
  - 2 ^ 63 <= z < 2 ^ 64 -> decimal_text z text -> read_integer text = (z <? 0, Z.abs z).
Proof.
  intros Hz [->|[Hpos [n ->]]]; rewrite to_string_digits by done.
  - destruct (Z.ltb_spec z 0).
    + destruct (unsigned_digits_read (- z)) as [_ ->]; [lia|]. by rewrite Z.abs_neq by lia.
    + destruct (unsigned_digits_read z) as [-> _]; [lia|]. by rewrite Z.abs_eq by lia.
  - rewrite (proj2 (Z.ltb_ge z 0)), Z.abs_eq by lia.
    destruct (read_integer_digits (replicate n "0"%char ++ unsigned_digits z)) as [-> _].
    + intros [_ Hnil]%app_nil. pose proof (unsigned_digits_length 19 z) as Hlen.
      rewrite Hnil in Hlen. simpl in Hlen. change (10 ^ Z.of_nat 20) with 100000000000000000000 in Hlen. lia.
    + apply Forall_app_2; [by apply Forall_replicate|]. by apply unsigned_digits_all.
    + rewrite digits_value_zeros, unsigned_digits_value by lia. done.
Qed.

(** What is written in decimal is read back. *)
Lemma strtoll_decimal z text : - 2 ^ 63 <= z < 2 ^ 63 -> decimal_text z text -> strtoll text = z.
Proof.
  intros Hz Ht. unfold strtoll, LLONG_MIN, LLONG_MAX. rewrite (decimal_text_read z) by (done || lia).
  destruct (Z.ltb_spec z 0); lia.
Qed.

Lemma strtoull_decimal z text : 0 <= z < 2 ^ 64 -> decimal_text z text -> strtoull text = z.
Proof.
  intros Hz Ht. unfold strtoull, ULLONG_MAX. rewrite (decimal_text_read z) by (done || lia).
  rewrite (proj2 (Z.ltb_ge z 0)), Z.abs_eq by lia. by rewrite (proj2 (Z.ltb_ge _ _)) by lia.
Qed.

Lemma decimal_text_chars z text :
  - 2 ^ 63 <= z < 2 ^ 64 -> decimal_text z text ->
  Forall (fun c => isdigit c = true \/ c = "-"%char) text.
Proof.
  intros Hz Ht.
  assert (Hdigits : forall u, 0 <= u -> Forall (fun c => isdigit c = true \/ c = "-"%char) (unsigned_digits u)).
  { intros u Hu. eapply Forall_impl; [by apply unsigned_digits_all|]. by left. }
  destruct Ht as [->|[Hpos [n ->]]]; rewrite to_string_digits by done.
  - destruct (Z.ltb_spec z 0); [constructor; [by right|]|]; apply Hdigits; lia.
  - rewrite (proj2 (Z.ltb_ge z 0)) by lia. apply Forall_app_2; [|by apply Hdigits].
    apply Forall_replicate. by left.
Qed.

(** ** Lengths *)

Lemma int10_to_str_length val radix :
  - 2 ^ 63 <= val < 2 ^ 64 -> (1 <= length (int10_to_str val radix) <= 20)%nat.
Proof.
  intros Hval. rewrite int10_to_str_digits by done. destruct (_ && _) eqn:Hn.
  - apply andb_true_iff in Hn as [_ Hn%Z.ltb_lt]. cbn [length].
    destruct (unsigned_digits_length 18 (- val)); [|lia].
    change (10 ^ Z.of_nat 19) with 10000000000000000000. lia.
  - apply unsigned_digits_length. change (10 ^ Z.of_nat 20) with 100000000000000000000.
    pose proof (Z.mod_pos_bound val (2 ^ 64)). lia.
Qed.

Lemma fmt_number2_length val : length (fmt_number2 val) = 2%nat.
Proof. unfold fmt_number2. by destruct (_ <? _). Qed.
Lemma fmt_number4_length val : length (fmt_number4 val) = 4%nat.
Proof. unfold fmt_number4. by rewrite length_app, !fmt_number2_length. Qed.
Lemma fmt_number6_length val : length (fmt_number6 val) = 6%nat.
Proof. unfold fmt_number6. by rewrite !length_app, !fmt_number2_length. Qed.

Lemma fmt_usec_length val digits text :
  fmt_usec val digits = Some text -> Z.of_nat (length text) = digits /\ 1 <= digits <= 6.
Proof.
  unfold fmt_usec. intros Ht.
  repeat match type of Ht with
  | (if ?d =? ?n then _ else _) = _ => destruct (Z.eqb_spec d n) as [->|_]
  end; simplify_eq; simpl;
    rewrite ?fmt_number2_length, ?fmt_number4_length, ?fmt_number6_length; lia.
Qed.

Lemma my_mmssff_length ltime fsp text :
  my_mmssff_to_str ltime fsp = Some text -> (5 <= length text <= 12)%nat.
Proof.
  unfold my_mmssff_to_str. set (fsp' := if fsp =? _ then _ else _). intros Ht.
  destruct (_ <? fsp'); [done|]. destruct (negb (fsp' =? 0)).
  - destruct (fmt_usec _ _) as [usec|] eqn:Hu; [|done]. simpl in Ht. injection Ht as <-.
    apply fmt_usec_length in Hu. rewrite !length_app. simpl. rewrite ?length_app, !fmt_number2_length. simpl.
    rewrite ?fmt_number2_length. lia.
  - injection Ht as <-. rewrite !length_app. simpl. rewrite ?length_app, !fmt_number2_length. simpl.
    rewrite ?fmt_number2_length. lia.
Qed.

Lemma my_date_length l_time : length (my_date_to_str l_time) = 10%nat.
Proof.
  unfold my_date_to_str. by rewrite !length_app, fmt_number4_length, !fmt_number2_length.
Qed.

(** [MAX_DATE_STRING_REP_LENGTH], the size of the buffer of the callers. *)
Definition MAX_DATE_STRING_REP_LENGTH : nat := 30.

(** Whatever the members are, the text and its terminator fit. *)
Lemma my_TIME_to_str_length l_time digits text :
  my_TIME_to_str l_time digits = Some text ->
  (length text < MAX_DATE_STRING_REP_LENGTH)%nat.
Proof.
  unfold my_TIME_to_str, MAX_DATE_STRING_REP_LENGTH. intros Ht. destruct (tm_type l_time).
  - injection Ht as <-. simpl. lia.
  - injection Ht as <-. simpl. lia.
  - injection Ht as <-. rewrite my_date_length. lia.
  - unfold my_datetime_to_str in Ht.
    destruct (my_mmssff_to_str _ _) as [rest|] eqn:Hr; [|done]. apply my_mmssff_length in Hr.
    simpl in Ht. injection Ht as <-. rewrite !length_app, my_date_length. simpl.
    rewrite ?length_app, fmt_number2_length. simpl. lia.
  - unfold my_time_to_str in Ht. set (hour := (_ + _) mod 2 ^ 32) in Ht.
    destruct (my_mmssff_to_str _ _) as [rest|] eqn:Hr; [|done]. apply my_mmssff_length in Hr.
    simpl in Ht. injection Ht as <-. rewrite !length_app.
    assert (Hhour : 0 <= hour < 2 ^ 32) by (apply Z.mod_pos_bound; lia).
    assert (Hlen : (length (if (99 <? hour)%Z then int10_to_str hour 10 else fmt_number2 hour) <= 10)%nat).
    { destruct (99 <? hour); [|rewrite fmt_number2_length; lia].
      rewrite int10_to_str_digits by lia. cbn [Z.ltb andb]. rewrite Z.mod_small by lia.
      apply unsigned_digits_length. change (10 ^ Z.of_nat 10) with 10000000000. lia. }
    destruct (tm_neg l_time); simpl; rewrite ?length_app; simpl; lia.
Qed.
