(* ===== verification/BinaryRow.v ===== *)
(** * Rows of the binary protocol

    The packed integers of [mariadb/sql-common/pack.c], the row writer
    [Protocol_binary] of [mariadb/sql/protocol.cc], and the readers of
    [mariadb/libmysqld/libmysql.c] that turn a column of a row into the text
    a character buffer receives.  A pointer into a row is the rest of the
    row; reading past its end is [None]. *)

From S2P Require Import Prelude Api System World Formats.
From stdpp Require Import options.

Local Open Scope Z_scope.

(** ** Little-endian integers *)

Definition byte_value (c : ascii) : Z := Z.of_N (N_of_ascii c).
Definition byte_of (z : Z) : ascii := ascii_of_N (Z.to_N (z mod 256)).

(** [int2store], [int3store], [int4store], [int8store] *)
Fixpoint int_store (n : nat) (z : Z) : bytes :=
  match n with
  | O => []
  | S n => byte_of z :: int_store n (z / 256)
  end.

(** [uint2korr], [uint3korr], [uint4korr], [sint8korr] before the sign. *)
Fixpoint uint_korr (b : bytes) : Z :=
  match b with
  | [] => 0
  | c :: b => byte_value c + 256 * uint_korr b
  end.

(** The signed value of a [bits]-bit integer. *)
Definition signed (bits : Z) (z : Z) : Z := if 2 ^ (bits - 1) <=? z then z - 2 ^ bits else z.

(** The first [n] bytes and the rest. *)
Definition read_bytes (n : nat) (row : bytes) : option (bytes * bytes) :=
  if (n <=? length row)%nat then Some (take n row, drop n row) else None.

(** [NULL_LENGTH] *)
Definition NULL_LENGTH : Z := 2 ^ 64 - 1.

Definition net_field_length (packet : bytes) : option (Z * bytes) :=
  match packet with
  | [] => None
  | c :: rest =>
      if byte_value c <? 251 then Some (byte_value c, rest)
      else if byte_value c =? 251 then Some (NULL_LENGTH, rest)
      else if byte_value c =? 252 then
        '(b, rest) ← read_bytes 2 rest; Some (uint_korr b, rest)
      else if byte_value c =? 253 then
        '(b, rest) ← read_bytes 3 rest; Some (uint_korr b, rest)
      else
        '(b, rest) ← read_bytes 8 rest; Some (uint_korr (take 4 b), rest)
  end.

Definition net_store_length (length : Z) : bytes :=
  if length <? 251 then [byte_of length]
  else if length <? 65536 then byte_of 252 :: int_store 2 length
  else if length <? 16777216 then byte_of 253 :: int_store 3 length
  else byte_of 254 :: int_store 8 length.

(** ** The writer: [Protocol_binary] *)

(** The packet without its first byte, which [Protocol_binary::write] drops,
    and the position of the next field. *)
Record Protocol_binary : Set := mkProtocol {
  packet : bytes;
  field_pos : Z;
}.

(** [prepare_for_send] and [prepare_for_resend] *)
Definition prepare_for_resend (field_count : Z) : Protocol_binary :=
  mkProtocol (replicate (Z.to_nat ((field_count + 9) / 8)) (byte_of 0)) 0.

Definition store_null (p : Protocol_binary) : Protocol_binary :=
  let offset := Z.to_nat ((field_pos p + 2) / 8) in
  let bit := Z.shiftl 1 (Z.land (field_pos p + 2) 7) in
  mkProtocol
    (alter (fun c => byte_of (Z.lor (byte_value c) bit)) offset (packet p)) (field_pos p + 1).

Definition append (data : bytes) (p : Protocol_binary) : Protocol_binary :=
  mkProtocol (packet p ++ data) (field_pos p + 1).

Definition store_str (from : bytes) (p : Protocol_binary) : Protocol_binary :=
  append (net_store_length (Z.of_nat (length from)) ++ from) p.
Definition store_tiny (from : Z) (p : Protocol_binary) : Protocol_binary :=
  append (int_store 1 from) p.
Definition store_short (from : Z) (p : Protocol_binary) : Protocol_binary :=
  append (int_store 2 from) p.
Definition store_long (from : Z) (p : Protocol_binary) : Protocol_binary :=
  append (int_store 4 from) p.
Definition store_longlong (from : Z) (p : Protocol_binary) : Protocol_binary :=
  append (int_store 8 from) p.
(** The bytes of the number, 4 or 8. *)
Definition store_float (from : bytes) (p : Protocol_binary) : Protocol_binary := append from p.
Definition store_double (from : bytes) (p : Protocol_binary) : Protocol_binary := append from p.

(** The length and the fields of a date; [second_part] is truncated to
    [decimals] digits by the caller. *)
Definition store_datetime (tm : MYSQL_TIME) (p : Protocol_binary) : Protocol_binary :=
  let buff :=
    int_store 2 (tm_year tm) ++ [byte_of (tm_month tm); byte_of (tm_day tm)] ++
    [byte_of (tm_hour tm); byte_of (tm_minute tm); byte_of (tm_second tm)] ++
    int_store 4 (tm_second_part tm) in
  let length :=
    if negb (tm_second_part tm =? 0) then 11%nat
    else if negb (tm_hour tm =? 0) || negb (tm_minute tm =? 0) || negb (tm_second tm =? 0)
      then 7%nat
    else if negb (tm_year tm =? 0) || negb (tm_month tm =? 0) || negb (tm_day tm =? 0) then 4%nat
    else 0%nat in
  append (byte_of (Z.of_nat length) :: take length buff) p.

Definition store_date (tm : MYSQL_TIME) (p : Protocol_binary) : Protocol_binary :=
  store_datetime (mkTime (tm_year tm) (tm_month tm) (tm_day tm) 0 0 0 0 (tm_neg tm) (tm_type tm)) p.

Definition store_time (tm : MYSQL_TIME) (p : Protocol_binary) : Protocol_binary :=
  let days := if 24 <=? tm_hour tm then tm_hour tm / 24 else 0 in
  let hour := tm_hour tm - days * 24 in
  let day := tm_day tm + days in
  let buff :=
    byte_of (if tm_neg tm then 1 else 0) :: int_store 4 day ++
    [byte_of hour; byte_of (tm_minute tm); byte_of (tm_second tm)] ++
    int_store 4 (tm_second_part tm) in
  let length :=
    if negb (tm_second_part tm =? 0) then 12%nat
    else if negb (hour =? 0) || negb (tm_minute tm =? 0) || negb (tm_second tm =? 0) ||
            negb (day =? 0) then 8%nat
    else 0%nat in
  append (byte_of (Z.of_nat length) :: take length buff) p.

(** ** The readers *)

Definition zero_time (t : mysql_time_type) : MYSQL_TIME := mkTime 0 0 0 0 0 0 0 false t.

(** [(uint)] of a signed 32-bit value, [(ulong)] of one. *)
Definition to_uint (z : Z) : Z := z mod 2 ^ 32.
Definition to_ulong (z : Z) : Z := z mod 2 ^ 64.

(** [to[i]] *)
Definition byte_at (to : bytes) (i : nat) : Z :=
  match to !! i with Some c => byte_value c | None => 0 end.

(** [to[i]] for [0 <= i < need] are the bytes a temporal reader looks at. *)
Definition read_temporal (need : Z -> nat) (pos : bytes) : option (Z * bytes * bytes) :=
  '(len, to) ← net_field_length pos;
  if (len =? 0) || ((need len <=? length to)%nat && (Z.to_nat len <=? length to)%nat)
  then Some (len, to, drop (Z.to_nat len) to) else None.

Definition read_binary_time (pos : bytes) : option (MYSQL_TIME * bytes) :=
  '(len, to, rest) ← read_temporal (fun len => if 8 <? len then 12%nat else 8%nat) pos;
  if len =? 0 then Some (zero_time MYSQL_TIMESTAMP_TIME, rest)
  else
    let day := to_uint (signed 32 (uint_korr (take 4 (drop 1 to)))) in
    let hour := byte_at to 5 in
    let hour := if negb (day =? 0) then to_uint (hour + day * 24) else hour in
    let second_part :=
      if 8 <? len then to_ulong (signed 32 (uint_korr (take 4 (drop 8 to)))) else 0 in
    Some (mkTime 0 0 0 hour (byte_at to 6) (byte_at to 7) second_part
            (negb (byte_at to 0 =? 0)) MYSQL_TIMESTAMP_TIME, rest).

Definition read_binary_datetime (pos : bytes) : option (MYSQL_TIME * bytes) :=
  '(len, to, rest) ← read_temporal
      (fun len => if 7 <? len then 11%nat else if 4 <? len then 7%nat else 4%nat) pos;
  if len =? 0 then Some (zero_time MYSQL_TIMESTAMP_DATETIME, rest)
  else
    let year := to_uint (signed 16 (uint_korr (take 2 to))) in
    let at_time (i : nat) := if 4 <? len then byte_at to i else 0 in
    let second_part :=
      if 7 <? len then to_ulong (signed 32 (uint_korr (take 4 (drop 7 to)))) else 0 in
    Some (mkTime year (byte_at to 2) (byte_at to 3) (at_time 4%nat) (at_time 5%nat)
            (at_time 6%nat) second_part false MYSQL_TIMESTAMP_DATETIME, rest).

Definition read_binary_date (pos : bytes) : option (MYSQL_TIME * bytes) :=
  '(len, to, rest) ← read_temporal (fun _ => 4%nat) pos;
  if len =? 0 then Some (zero_time MYSQL_TIMESTAMP_DATE, rest)
  else
    Some (mkTime (to_uint (signed 16 (uint_korr (take 2 to)))) (byte_at to 2) (byte_at to 3)
            0 0 0 0 false MYSQL_TIMESTAMP_DATE, rest).

Section conversion.
  Context `{Server}.

(** [bmove_upp] and [bfill]: the text filled up with zeros on the left. *)
Definition zero_fill (field : MYSQL_FIELD) (limit : Z) (text : bytes) : bytes :=
  if has_flag (f_flags field) ZEROFILL_FLAG && (Z.of_nat (length text) <? f_length field) &&
     (f_length field <? limit)
  then replicate (Z.to_nat (f_length field) - length text) "0"%char ++ text
  else text.

(** The [default] branch of [fetch_long_with_conversion]: the text it hands to
    [fetch_string_with_conversion]. *)
Definition long_text (field : MYSQL_FIELD) (value : Z) (unsigned : bool) : bytes :=
  zero_fill field 21 (int10_to_str value (if unsigned then 10 else -10)).

Definition FLOATING_POINT_BUFFER : Z := 350.
Definition FLOATING_POINT_DECIMALS : Z := 31.
Definition MAX_DOUBLE_STRING_REP_LENGTH : Z := 331.

(** The [default] branch of [fetch_float_with_conversion]; [width] is
    [param->buffer_length]. *)
Definition float_text (field : MYSQL_FIELD) (width : Z) (value : bytes) : bytes :=
  zero_fill field (MAX_DOUBLE_STRING_REP_LENGTH - 1)
    (if FLOATING_POINT_DECIMALS <=? f_decimals field
     then my_gcvt value (Z.min (FLOATING_POINT_BUFFER - 1) width)
     else my_fcvt value (f_decimals field)).

(** [fetch_result_with_conversion] for a character buffer of [width] bytes:
    the text of the column and the rest of the row. *)
Definition column_text (field : MYSQL_FIELD) (width : Z) (row : bytes) : option (bytes * bytes) :=
  let unsigned := has_flag (f_flags field) UNSIGNED_FLAG in
  let integer bits v := if unsigned then v else signed bits v in
  match f_type field with
  | MYSQL_TYPE_TINY =>
      '(b, row) ← read_bytes 1 row;
      Some (long_text field (integer 8 (uint_korr b)) false, row)
  | MYSQL_TYPE_SHORT | MYSQL_TYPE_YEAR =>
      '(b, row) ← read_bytes 2 row;
      Some (long_text field (integer 16 (uint_korr b)) false, row)
  | MYSQL_TYPE_INT24 | MYSQL_TYPE_LONG =>
      '(b, row) ← read_bytes 4 row;
      Some (long_text field (integer 32 (uint_korr b)) false, row)
  | MYSQL_TYPE_LONGLONG =>
      '(b, row) ← read_bytes 8 row;
      Some (long_text field (signed 64 (uint_korr b)) unsigned, row)
  | MYSQL_TYPE_FLOAT =>
      '(b, row) ← read_bytes 4 row; Some (float_text field width b, row)
  | MYSQL_TYPE_DOUBLE =>
      '(b, row) ← read_bytes 8 row; Some (float_text field width b, row)
  | MYSQL_TYPE_DATE =>
      '(tm, row) ← read_binary_date row;
      text ← my_TIME_to_str tm (f_decimals field); Some (text, row)
  | MYSQL_TYPE_TIME =>
      '(tm, row) ← read_binary_time row;
      text ← my_TIME_to_str tm (f_decimals field); Some (text, row)
  | MYSQL_TYPE_DATETIME | MYSQL_TYPE_TIMESTAMP =>
      '(tm, row) ← read_binary_datetime row;
      text ← my_TIME_to_str tm (f_decimals field); Some (text, row)
  | _ =>
      '(len, row) ← net_field_length row;
      read_bytes (Z.to_nat len) row
  end.
End conversion.
