(* ===== verification/Literals.v ===== *)
(** * String literals: the escaping of callers and the lexer of the server

    [get_text] and [my_unescape] of [mariadb/sql/sql_lex.cc], which read a
    quoted literal, with [my_charlen_utf8mb4] of
    [mariadb/strings/ctype-utf8.c], which tells where a character ends.  The
    stream of the lexer is the text from [m_ptr] to the end of the query; the
    byte after the end is 0.  Allocations from the memory of the statement
    succeed. *)

From S2P Require Import Prelude System World BinaryRow.
From stdpp Require Import options.

Local Open Scope Z_scope.

(** ** Character sets *)

Definition MY_CS_ILSEQ : Z := 0.
Definition MY_CS_TOOSMALL : Z := -101.
Definition MY_CS_TOOSMALL2 : Z := -102.
Definition MY_CS_TOOSMALL3 : Z := -103.
Definition MY_CS_TOOSMALL4 : Z := -104.

(** [((uchar) (c) ^ 0x80) < 0x40] *)
Definition IS_CONTINUATION_BYTE (c : Z) : bool := Z.lxor c 128 <? 64.

Definition IS_UTF8MB3_STEP2 (b0 b1 b2 : Z) : bool :=
  IS_CONTINUATION_BYTE b1 && IS_CONTINUATION_BYTE b2 && ((225 <=? b0) || (160 <=? b1)).

Definition IS_UTF8MB4_STEP2 (b0 b1 b2 b3 : Z) : bool :=
  IS_CONTINUATION_BYTE b1 && IS_CONTINUATION_BYTE b2 && IS_CONTINUATION_BYTE b3 &&
  ((241 <=? b0) || (144 <=? b1)) && ((b0 <=? 243) || (b1 <=? 143)).

(** [s[i]] for an [i] below the end. *)
Definition byte_at (s : bytes) (i : nat) : Z :=
  match s !! i with Some c => byte_value c | None => 0 end.

(** [s] runs up to [e] and is not empty. *)
Definition my_valid_mbcharlen_utf8mb3 (s : bytes) : Z :=
  let c := byte_at s 0 in
  if c <? 128 then 1
  else if c <? 194 then MY_CS_ILSEQ
  else if c <? 224 then
    if Z.of_nat (length s) <? 2 then MY_CS_TOOSMALL2
    else if negb (IS_CONTINUATION_BYTE (byte_at s 1)) then MY_CS_ILSEQ
    else 2
  else if Z.of_nat (length s) <? 3 then MY_CS_TOOSMALL3
  else if negb (IS_UTF8MB3_STEP2 c (byte_at s 1) (byte_at s 2)) then MY_CS_ILSEQ
  else 3.

Definition my_charlen_utf8mb4 (s : bytes) : Z :=
  match s with
  | [] => MY_CS_TOOSMALL
  | _ =>
      let c := byte_at s 0 in
      if c <? 240 then my_valid_mbcharlen_utf8mb3 s
      else if c <? 245 then
        if Z.of_nat (length s) <? 4 then MY_CS_TOOSMALL4
        else if negb (IS_UTF8MB4_STEP2 c (byte_at s 1) (byte_at s 2) (byte_at s 3)) then MY_CS_ILSEQ
        else 4
      else MY_CS_ILSEQ
  end.

(** What the lexer uses of a [CHARSET_INFO]: [use_mb()] and the function
    [cset->charlen] on a text that runs up to [end]. *)
Record CHARSET_INFO : Type := mkCharset {
  use_mb : bool;
  charlen : bytes -> Z;
}.

Definition utf8mb4 : CHARSET_INFO := mkCharset true my_charlen_utf8mb4.

(** A character set of single bytes. *)
Definition single_byte : CHARSET_INFO := mkCharset false (fun _ => 1).

Definition my_ismbchar (cs : CHARSET_INFO) (s : bytes) : nat :=
  let char_length := charlen cs s in
  if 1 <? char_length then Z.to_nat char_length else 0.

(** [cs->use_mb() && (l = my_ismbchar(cs, s, end))]: the value of [l], or 0. *)
Definition mb_length (cs : CHARSET_INFO) (s : bytes) : nat :=
  if use_mb cs then my_ismbchar cs s else 0.

(** ** The lexer *)

(** The byte an escape sequence stands for, with the prefix that is kept for
    the wildcards. *)
Definition unescaped (c : ascii) : bytes :=
  if Ascii.eqb c "n" then [ascii_of_nat 10]
  else if Ascii.eqb c "t" then [ascii_of_nat 9]
  else if Ascii.eqb c "r" then [ascii_of_nat 13]
  else if Ascii.eqb c "b" then [ascii_of_nat 8]
  else if Ascii.eqb c "0" then [ascii_of_nat 0]
  else if Ascii.eqb c "Z" then [ascii_of_nat 26]
  else if Ascii.eqb c "_" || Ascii.eqb c "%" then ["\"%char; c]
  else [c].

(** The loop of [my_unescape] over the text from [str] to [end]; [None] when
    it runs past [end], or when the fuel is used up. *)
Fixpoint my_unescape_loop (fuel : nat) (cs : CHARSET_INFO) (s : bytes) (sep : ascii)
    (backslash_escapes : bool) : option bytes :=
  match fuel with
  | O => None
  | S fuel =>
      match s with
      | [] => Some []
      | c :: s' =>
          let l := mb_length cs s in
          if negb (l =? 0)%nat then
            rest ← my_unescape_loop fuel cs (drop l s) sep backslash_escapes;
            Some (take l s ++ rest)
          else
            match s' with
            | d :: s'' =>
                if backslash_escapes && Ascii.eqb c "\" then
                  rest ← my_unescape_loop fuel cs s'' sep backslash_escapes;
                  Some (unescaped d ++ rest)
                else if Ascii.eqb c sep then
                  rest ← my_unescape_loop fuel cs s'' sep backslash_escapes;
                  Some (c :: rest)
                else
                  rest ← my_unescape_loop fuel cs s' sep backslash_escapes; Some (c :: rest)
            | [] => if Ascii.eqb c sep then None else Some [c]
            end
      end
  end.

Definition my_unescape (cs : CHARSET_INFO) (s : bytes) (sep : ascii) (backslash_escapes : bool)
    : option bytes :=
  my_unescape_loop (S (length s)) cs s sep backslash_escapes.

(** The loop of [get_text]: [raw] is the text since the opening quote, the
    result the raw text of the literal, [found_escape] and what follows the
    closing quote; [None] when the query ends first.  A round reads at least
    one byte. *)
Fixpoint get_text_loop (fuel : nat) (cs : CHARSET_INFO) (s : bytes) (sep : ascii)
    (backslash_escapes : bool) (raw : bytes) (found_escape : bool) : option (bytes * bool * bytes) :=
  match fuel with
  | O => None
  | S fuel =>
      match s with
      | [] => None
      | c :: s' =>
          let l := mb_length cs s in
          if negb (l =? 0)%nat then
            get_text_loop fuel cs (drop l s) sep backslash_escapes (raw ++ take l s) found_escape
          else if Ascii.eqb c "\" && backslash_escapes then
            match s' with
            | [] => None
            | d :: s'' => get_text_loop fuel cs s'' sep backslash_escapes (raw ++ [c; d]) true
            end
          else if Ascii.eqb c sep then
            match s' with
            | d :: s'' =>
                if Ascii.eqb c d
                then get_text_loop fuel cs s'' sep backslash_escapes (raw ++ [c; d]) true
                else Some (raw, found_escape, s')
            | [] => Some (raw, found_escape, s')
            end
          else get_text_loop fuel cs s' sep backslash_escapes (raw ++ [c]) found_escape
      end
  end.

(** The literal after an opening quote [sep], and the rest of the query. *)
Definition get_text (cs : CHARSET_INFO) (s : bytes) (sep : ascii) (backslash_escapes : bool)
    : option (bytes * bytes) :=
  '(raw, found_escape, rest) ← get_text_loop (S (length s)) cs s sep backslash_escapes [] false;
  if (found_escape : bool) then
    text ← my_unescape cs raw sep backslash_escapes; Some (text, rest)
  else Some (raw, rest).

(** ** The escaping of the PHP extensions *)

(** One character of the loop of [pdo_mylite_quote_string] and of
    [php_mylite_mysqli_escape_sql]. *)
Definition escape_char (c : ascii) : bytes :=
  if Ascii.eqb c (ascii_of_nat 0) then ["\"%char; "0"%char]
  else if Ascii.eqb c (ascii_of_nat 10) then ["\"%char; "n"%char]
  else if Ascii.eqb c (ascii_of_nat 13) then ["\"%char; "r"%char]
  else if Ascii.eqb c "\" || Ascii.eqb c "'" || Ascii.eqb c (ascii_of_nat 34) then ["\"%char; c]
  else if Ascii.eqb c (ascii_of_nat 26) then ["\"%char; "Z"%char]
  else [c].

Definition pdo_mylite_quote_string (input : bytes) : bytes := flat_map escape_char input.

Definition php_mylite_mysqli_escape_sql (input : bytes) : bytes := flat_map escape_char input.

Definition pdo_mylite_handle_quoter (unquoted : bytes) : bytes :=
  "'"%char :: pdo_mylite_quote_string unquoted ++ ["'"%char].
