(* ===== verification/BinaryFacts.v ===== *)
(** * Round trips of the binary protocol

    What [Protocol_binary] writes the readers of the client library read
    back: little-endian integers at every width, packed lengths, dates and
    times, and whole rows with their null bitmap. *)

From S2P Require Import Prelude Api System World BinaryRow.
From stdpp Require Import options.
Set Default Proof Using "Type*".

Local Open Scope Z_scope.

(** ** Integers *)

Lemma byte_value_range c : 0 <= byte_value c < 256.
Proof.
  unfold byte_value. pose proof (Ascii.N_ascii_bounded c) as Hc. lia.
Qed.

Lemma byte_value_of z : byte_value (byte_of z) = z mod 256.
Proof.
  unfold byte_value, byte_of. pose proof (Z.mod_pos_bound z 256).
  rewrite N_ascii_embedding by lia. by rewrite Z2N.id by lia.
Qed.

Lemma byte_of_value c : byte_of (byte_value c) = c.
Proof.
  unfold byte_of. rewrite Z.mod_small by apply byte_value_range. unfold byte_value.
  by rewrite N2Z.id, ascii_N_embedding.
Qed.

Lemma int_store_length n z : length (int_store n z) = n.
Proof. revert z. induction n as [|n IH]; intros z; simpl; [done|by rewrite IH]. Qed.

Lemma pow256_S n : 256 ^ Z.of_nat (S n) = 256 * 256 ^ Z.of_nat n.
Proof. by rewrite Nat2Z.inj_succ, Z.pow_succ_r by lia. Qed.

(** Reading what was stored gives the value modulo the width. *)
Lemma uint_korr_store n z : uint_korr (int_store n z) = z mod 256 ^ Z.of_nat n.
Proof.
  revert z. induction n as [|n IH]; intros z; [by rewrite Z.mod_1_r|].
  cbn [int_store uint_korr]. rewrite byte_value_of, IH, pow256_S.
  rewrite (Z.rem_mul_r z 256) by (try lia; apply Z.pow_pos_nonneg; lia). lia.
Qed.

Lemma uint_korr_range b : 0 <= uint_korr b < 256 ^ Z.of_nat (length b).
Proof.
  induction b as [|c b IH]; [done|]. cbn [uint_korr length]. rewrite pow256_S.
  pose proof (byte_value_range c). lia.
Qed.

(** Storing what was read gives the bytes. *)
Lemma int_store_korr b : int_store (length b) (uint_korr b) = b.
Proof.
  induction b as [|c b IH]; [done|]. cbn [length int_store uint_korr].
  pose proof (byte_value_range c) as Hc.
  assert (Hdiv : (byte_value c + 256 * uint_korr b) / 256 = uint_korr b)
    by (symmetry; apply (Z.div_unique _ _ _ (byte_value c)); lia).
  rewrite Hdiv, IH. f_equal. rewrite <- (byte_of_value c) at 2. unfold byte_of. do 2 f_equal.
  rewrite Z.mul_comm, Z.mod_add by lia. done.
Qed.

(** The signed value of a wrapped integer. *)
Lemma signed_mod bits z :
  0 < bits -> - 2 ^ (bits - 1) <= z < 2 ^ (bits - 1) -> signed bits (z mod 2 ^ bits) = z.
Proof.
  intros Hb Hz. unfold signed. set (h := 2 ^ (bits - 1)) in *.
  assert (Hpow : 2 ^ bits = 2 * h) by (unfold h; rewrite <- Z.pow_succ_r by lia; f_equal; lia).
  rewrite Hpow. destruct (Z.neg_nonneg_cases z) as [Hneg|Hpos].
  - assert (Hmod : z mod (2 * h) = z + 2 * h)
      by (symmetry; apply (Z.mod_unique _ _ (-1)); lia).
    rewrite Hmod, (proj2 (Z.leb_le _ _)) by lia. lia.
  - rewrite Z.mod_small, (proj2 (Z.leb_gt _ _)) by lia. done.
Qed.

Lemma signed_range bits z :
  0 < bits -> 0 <= z < 2 ^ bits -> - 2 ^ (bits - 1) <= signed bits z < 2 ^ (bits - 1).
Proof.
  intros Hb Hz. unfold signed.
  assert (Hpow : 2 ^ bits = 2 * 2 ^ (bits - 1)) by (rewrite <- Z.pow_succ_r by lia; f_equal; lia).
  destruct (Z.leb_spec (2 ^ (bits - 1)) z); lia.
Qed.

Lemma read_bytes_app data rest : read_bytes (length data) (data ++ rest) = Some (data, rest).
Proof.
  unfold read_bytes. rewrite length_app, (proj2 (Nat.leb_le _ _)) by lia.
  by rewrite take_app_length, drop_app_length.
Qed.

Lemma read_store n z rest : read_bytes n (int_store n z ++ rest) = Some (int_store n z, rest).
Proof. rewrite <- (int_store_length n z) at 1. apply read_bytes_app. Qed.

Local Arguments int_store : simpl never.
Local Arguments uint_korr : simpl never.
Local Arguments byte_of : simpl never.

(** ** Packed lengths *)

(** The marker byte of a packed length of [n] bytes. *)
Lemma net_field_length_marked marker n z rest :
  252 <= marker <= 254 ->
  n = (if (marker =? 252)%Z then 2 else if (marker =? 253)%Z then 3 else 8)%nat ->
  0 <= z < 2 ^ 32 -> z < 256 ^ Z.of_nat n ->
  net_field_length (byte_of marker :: int_store n z ++ rest) = Some (z, rest).
Proof.
  intros Hm Hn Hz Hlt. unfold net_field_length. rewrite byte_value_of, (Z.mod_small marker) by lia.
  rewrite (proj2 (Z.ltb_ge marker 251)), (proj2 (Z.eqb_neq marker 251)) by lia.
  destruct (Z.eqb_spec marker 252) as [->|H2]; [|destruct (Z.eqb_spec marker 253) as [->|H3]]; subst n.
  - rewrite read_store. simpl. by rewrite uint_korr_store, Z.mod_small by (split; [lia|exact Hlt]).
  - rewrite read_store. simpl. by rewrite uint_korr_store, Z.mod_small by (split; [lia|exact Hlt]).
  - rewrite read_store. change (Some (uint_korr (int_store 4 z), rest) = Some (z, rest)).
    by rewrite uint_korr_store, Z.mod_small by exact Hz.
Qed.

(** A length that fits in 32 bits is read back; a longer one would lose its
    upper bytes. *)
Lemma net_length_roundtrip n rest :
  0 <= n < 2 ^ 32 -> net_field_length (net_store_length n ++ rest) = Some (n, rest).
Proof.
  intros Hn. unfold net_store_length.
  destruct (Z.ltb_spec n 251) as [H1|H1].
  { cbn [app]. unfold net_field_length. rewrite byte_value_of, Z.mod_small by lia.
    by rewrite (proj2 (Z.ltb_lt _ _)) by lia. }
  destruct (Z.ltb_spec n 65536) as [H2|H2]; [|destruct (Z.ltb_spec n 16777216) as [H3|H3]];
    rewrite <- app_comm_cons; apply net_field_length_marked; simpl; lia.
Qed.

(** ** Dates and times *)

(** The bytes after the length of a date. *)
Lemma read_temporal_app need len image rest :
  Z.of_nat (length image) = len -> 0 <= len < 251 ->
  (len <> 0 -> (need len <= length image)%nat) ->
  read_temporal need (byte_of len :: image ++ rest) = Some (len, image ++ rest, rest).
Proof.
  intros Hlen Hr Hneed. unfold read_temporal, net_field_length.
  rewrite byte_value_of, Z.mod_small, (proj2 (Z.ltb_lt _ _)) by lia. simpl.
  assert (Hcond : (len =? 0) || ((need len <=? length (image ++ rest))%nat &&
                                 (Z.to_nat len <=? length (image ++ rest))%nat) = true).
  { destruct (Z.eqb_spec len 0) as [|Hne]; [done|]. specialize (Hneed Hne). simpl.
    rewrite length_app. apply andb_true_iff. split; apply Nat.leb_le; lia. }
  rewrite Hcond, <- Hlen, Nat2Z.id. by rewrite drop_app_length.
Qed.

Definition datetime_ok (tm : MYSQL_TIME) : Prop :=
  0 <= tm_year tm < 2 ^ 15 /\ 0 <= tm_month tm < 256 /\ 0 <= tm_day tm < 256 /\
  0 <= tm_hour tm < 256 /\ 0 <= tm_minute tm < 256 /\ 0 <= tm_second tm < 256 /\
  0 <= tm_second_part tm < 2 ^ 31 /\ tm_neg tm = false /\ tm_type tm = MYSQL_TIMESTAMP_DATETIME.


Lemma uint_korr_2 z : 0 <= z < 2 ^ 15 -> to_uint (signed 16 (uint_korr [byte_of z; byte_of (z / 256)])) = z.
Proof.
  intros Hz. change [byte_of z; byte_of (z / 256)] with (int_store 2 z). rewrite uint_korr_store.
  change (256 ^ Z.of_nat 2) with (2 ^ 16). rewrite signed_mod by lia.
  unfold to_uint. by rewrite Z.mod_small by lia.
Qed.

Definition word4 (z : Z) : bytes :=
  [byte_of z; byte_of (z / 256); byte_of (z / 256 / 256); byte_of (z / 256 / 256 / 256)].

Lemma signed_word4 z : 0 <= z < 2 ^ 31 -> signed 32 (uint_korr (word4 z)) = z.
Proof.
  intros Hz. change (word4 z) with (int_store 4 z). rewrite uint_korr_store.
  change (256 ^ Z.of_nat 4) with (2 ^ 32). by rewrite signed_mod by lia.
Qed.

Lemma byte_small z : 0 <= z < 256 -> byte_value (byte_of z) = z.
Proof. intros Hz. rewrite byte_value_of. by apply Z.mod_small. Qed.

Section temporal.
  Variables (y mo d h mi s sp : Z) (rest : bytes).
  Hypothesis Hy : 0 <= y < 2 ^ 15.
  Hypothesis Hmo : 0 <= mo < 256.
  Hypothesis Hd : 0 <= d < 256.
  Hypothesis Hh : 0 <= h < 256.
  Hypothesis Hmi : 0 <= mi < 256.
  Hypothesis Hs : 0 <= s < 256.
  Hypothesis Hsp : 0 <= sp < 2 ^ 31.

Let ymd : bytes := [byte_of y; byte_of (y / 256); byte_of mo; byte_of d].
Let hms : bytes := [byte_of h; byte_of mi; byte_of s].

Lemma read_datetime_4 :
  read_binary_datetime (byte_of 4 :: ymd ++ rest) =
  Some (mkTime y mo d 0 0 0 0 false MYSQL_TIMESTAMP_DATETIME, rest).
Proof.
  unfold read_binary_datetime. rewrite read_temporal_app by (simpl; lia). simpl.
  unfold byte_at. simpl. by rewrite uint_korr_2, !byte_small.
Qed.

Lemma read_datetime_7 :
  read_binary_datetime (byte_of 7 :: (ymd ++ hms) ++ rest) =
  Some (mkTime y mo d h mi s 0 false MYSQL_TIMESTAMP_DATETIME, rest).
Proof.
  unfold read_binary_datetime. rewrite read_temporal_app by (simpl; lia). simpl.
  unfold byte_at. simpl. by rewrite uint_korr_2, !byte_small.
Qed.

Lemma read_datetime_11 :
  read_binary_datetime (byte_of 11 :: (ymd ++ hms ++ word4 sp) ++ rest) =
  Some (mkTime y mo d h mi s sp false MYSQL_TIMESTAMP_DATETIME, rest).
Proof.
  unfold read_binary_datetime. rewrite read_temporal_app by (simpl; lia). simpl.
  unfold byte_at. simpl. rewrite uint_korr_2, !byte_small by done.
  rewrite take_0. fold (word4 sp). rewrite signed_word4 by done. unfold to_ulong. by rewrite Z.mod_small by lia.
Qed.

Lemma read_date_4 :
  read_binary_date (byte_of 4 :: ymd ++ rest) =
  Some (mkTime y mo d 0 0 0 0 false MYSQL_TIMESTAMP_DATE, rest).
Proof.
  unfold read_binary_date. rewrite read_temporal_app by (simpl; lia). simpl.
  unfold byte_at. simpl. by rewrite uint_korr_2, !byte_small.
Qed.

(** A time of [d] days. *)
Lemma read_time neg day sp' :
  0 <= day < 2 ^ 31 -> h + day * 24 < 2 ^ 32 -> 0 <= sp' < 2 ^ 31 ->
  let tm sp := mkTime 0 0 0 (h + day * 24) mi s sp neg MYSQL_TIMESTAMP_TIME in
  let body := byte_of (if neg then 1 else 0) :: word4 day ++ hms in
  read_binary_time (byte_of 8 :: body ++ rest) = Some (tm 0, rest) /\
  read_binary_time (byte_of 12 :: (body ++ word4 sp') ++ rest) = Some (tm sp', rest).
Proof.
  intros Hday Hhour Hsp' tm body.
  assert (Hneg : negb (byte_value (byte_of (if neg then 1 else 0)) =? 0) = neg).
  { rewrite byte_small by (destruct neg; lia). by destruct neg. }
  assert (Hhours : (if negb (to_uint day =? 0) then to_uint (h + to_uint day * 24) else h) = h + day * 24).
  { unfold to_uint. rewrite (Z.mod_small day) by lia. destruct (Z.eqb_spec day 0) as [->|]; simpl; [lia|].
    by rewrite Z.mod_small by lia. }
  split; unfold read_binary_time; rewrite read_temporal_app by (simpl; lia); simpl;
    unfold byte_at; simpl; rewrite Hneg, !byte_small, ?take_0 by done;
    fold (word4 day); rewrite signed_word4, Hhours by done; [done|].
  fold (word4 sp'). rewrite signed_word4 by done. unfold to_ulong. by rewrite Z.mod_small by lia.
Qed.
End temporal.

Lemma eqb_nonzero a : negb (a =? 0) = false -> a = 0.
Proof. intros Ha%negb_false_iff. by apply Z.eqb_eq. Qed.

(** A date and time the server sends is the one the client reads, in each of
    the four lengths it may have. *)
Lemma datetime_roundtrip tm rest :
  datetime_ok tm ->
  exists image, (forall p, store_datetime tm p = append image p) /\
    read_binary_datetime (image ++ rest) = Some (tm, rest).
Proof.
  destruct tm as [y mo d h mi s sp neg t].
  intros (Hy & Hmo & Hd & Hh & Hmi & Hs & Hsp & Hneg & Ht). simpl in *. subst neg t.
  eexists. split; [intros p; unfold store_datetime; reflexivity|]. cbn [tm_second_part tm_hour
    tm_minute tm_second tm_year tm_month tm_day].
  destruct (negb (sp =? 0)) eqn:Hsp0; [by apply read_datetime_11|].
  destruct (negb (h =? 0) || negb (mi =? 0) || negb (s =? 0)) eqn:Htime.
  { rewrite (eqb_nonzero sp) by done. by apply read_datetime_7. }
  apply orb_false_iff in Htime as [[Hh0 Hmi0]%orb_false_iff Hs0].
  rewrite (eqb_nonzero sp), (eqb_nonzero h), (eqb_nonzero mi), (eqb_nonzero s) by done.
  destruct (negb (y =? 0) || negb (mo =? 0) || negb (d =? 0)) eqn:Hdate.
  { by apply read_datetime_4. }
  apply orb_false_iff in Hdate as [[Hy0 Hmo0]%orb_false_iff Hd0].
  by rewrite (eqb_nonzero y), (eqb_nonzero mo), (eqb_nonzero d) by done.
Qed.

Definition date_ok (tm : MYSQL_TIME) : Prop :=
  0 <= tm_year tm < 2 ^ 15 /\ 0 <= tm_month tm < 256 /\ 0 <= tm_day tm < 256 /\
  tm = mkTime (tm_year tm) (tm_month tm) (tm_day tm) 0 0 0 0 false MYSQL_TIMESTAMP_DATE.

Lemma date_roundtrip tm rest :
  date_ok tm ->
  exists image, (forall p, store_date tm p = append image p) /\
    read_binary_date (image ++ rest) = Some (tm, rest).
Proof.
  destruct tm as [y mo d h mi s sp neg t].
  intros (Hy & Hmo & Hd & Htm). simpl in *. injection Htm as -> -> -> -> -> ->.
  eexists. split; [intros p; unfold store_date, store_datetime; reflexivity|].
  cbn [tm_second_part tm_hour tm_minute tm_second tm_year tm_month tm_day].
  change (negb (0 =? 0)) with false. cbn [orb].
  destruct (negb (y =? 0) || negb (mo =? 0) || negb (d =? 0)) eqn:Hdate.
  { by apply read_date_4. }
  apply orb_false_iff in Hdate as [[Hy0 Hmo0]%orb_false_iff Hd0].
  by rewrite (eqb_nonzero y), (eqb_nonzero mo), (eqb_nonzero d) by done.
Qed.

(** A time the server sends: its days are in the hours, and zero has no sign. *)
Definition time_ok (tm : MYSQL_TIME) : Prop :=
  0 <= tm_hour tm < 2 ^ 32 /\ 0 <= tm_minute tm < 256 /\ 0 <= tm_second tm < 256 /\
  0 <= tm_second_part tm < 2 ^ 31 /\
  (tm_hour tm = 0 -> tm_minute tm = 0 -> tm_second tm = 0 -> tm_second_part tm = 0 ->
   tm_neg tm = false) /\
  tm = mkTime 0 0 0 (tm_hour tm) (tm_minute tm) (tm_second tm) (tm_second_part tm) (tm_neg tm)
         MYSQL_TIMESTAMP_TIME.

Lemma time_roundtrip tm rest :
  time_ok tm ->
  exists image, (forall p, store_time tm p = append image p) /\
    read_binary_time (image ++ rest) = Some (tm, rest).
Proof.
  destruct tm as [y mo d h mi s sp neg t].
  intros (Hh & Hmi & Hs & Hsp & Hneg & Htm). simpl in *. injection Htm as -> -> -> ->.
  eexists. split; [intros p; unfold store_time; reflexivity|].
  cbn [tm_second_part tm_hour tm_minute tm_second tm_day tm_neg].
  set (days := if 24 <=? h then h / 24 else 0).
  assert (Hdays : 0 <= days < 2 ^ 31 /\ 0 <= h - days * 24 < 24).
  { unfold days. destruct (Z.leb_spec 24 h); [|lia].
    pose proof (Z.div_mod h 24). pose proof (Z.mod_pos_bound h 24).
    assert (h / 24 < 2 ^ 31) by (apply Z.div_lt_upper_bound; lia).
    pose proof (Z.div_pos h 24). lia. }
  change (0 + days) with days.
  destruct (read_time (h - days * 24) mi s rest ltac:(lia) Hmi Hs neg days sp) as [H8 H12]; [lia..|].
  replace (h - days * 24 + days * 24) with h in H8, H12 by lia.
  destruct (negb (sp =? 0)) eqn:Hsp0; [exact H12|].
  rewrite (eqb_nonzero sp) by done.
  destruct (negb (h - days * 24 =? 0) || negb (mi =? 0) || negb (s =? 0) || negb (days =? 0)) eqn:Ht0;
    [exact H8|].
  apply orb_false_iff in Ht0 as [[[Hh0 Hmi0]%orb_false_iff Hs0]%orb_false_iff Hd0].
  apply eqb_nonzero in Hh0, Hmi0, Hs0, Hd0, Hsp0.
  rewrite Hneg by lia. replace h with 0 by lia. by rewrite Hmi0, Hs0.
Qed.
