(* ===== verification/LiteralsFacts.v ===== *)
(** * Escaped text is read back

    What the PHP extensions make of a string between quotes is one literal for
    the lexer of the server, with the string as its value, and one token for
    the policy gate, in the SQL modes in which a backslash escapes; in the mode
    [NO_BACKSLASH_ESCAPES] neither holds of the server
    ([gate_trusts_backslashes]). *)

From S2P Require Import Prelude Api SqlLexer SqlLexerFacts SqlPolicy SqlPolicyTheorems System World BinaryRow Literals.
From stdpp Require Import options.

Local Open Scope Z_scope.

(** ** Character sets whose characters of several bytes have no ASCII bytes *)

Definition high (c : ascii) : Prop := 128 <= byte_value c.

Definition ascii_safe (cs : CHARSET_INFO) : Prop :=
  forall s, (mb_length cs s <= length s)%nat /\ Forall high (take (mb_length cs s) s).

Lemma continuation_high c : IS_CONTINUATION_BYTE (byte_value c) = true -> high c.
Proof. unfold high. by_ascii c. Qed.

Lemma single_byte_safe : ascii_safe single_byte.
Proof. intros s. unfold mb_length. simpl. split; [lia|done]. Qed.

Lemma byte_at_cons c s i : byte_at (c :: s) (S i) = byte_at s i.
Proof. done. Qed.

Lemma utf8mb3_safe s l :
  my_valid_mbcharlen_utf8mb3 s = l -> 1 < l ->
  (Z.to_nat l <= length s)%nat /\ Forall high (take (Z.to_nat l) s).
Proof.
  unfold my_valid_mbcharlen_utf8mb3, MY_CS_ILSEQ, MY_CS_TOOSMALL2, MY_CS_TOOSMALL3, IS_UTF8MB3_STEP2.
  destruct s as [|a s]; [by intros <-|]. change (byte_at (a :: s) 0) with (byte_value a).
  intros Hl Hlt. destruct (Z.ltb_spec (byte_value a) 128); [lia|]. destruct (byte_value a <? 194); [lia|].
  destruct (byte_value a <? 224).
  - destruct s as [|b s]; [simpl in Hl; lia|]. change (byte_at (a :: b :: s) 1) with (byte_value b) in Hl.
    destruct (_ <? 2); [lia|]. destruct (IS_CONTINUATION_BYTE (byte_value b)) eqn:Hb; simpl in Hl; [|lia].
    subst l. simpl. split; [lia|]. repeat constructor; [done|by apply continuation_high].
  - destruct s as [|b [|c s]]; [simpl in Hl; lia..|].
    change (byte_at (a :: b :: c :: s) 1) with (byte_value b) in Hl.
    change (byte_at (a :: b :: c :: s) 2) with (byte_value c) in Hl.
    destruct (_ <? 3); [lia|]. destruct (IS_CONTINUATION_BYTE (byte_value b)) eqn:Hb; simpl in Hl; [|lia].
    destruct (IS_CONTINUATION_BYTE (byte_value c)) eqn:Hc; simpl in Hl; [|lia].
    destruct (_ || _); simpl in Hl; [|lia]. subst l. simpl. split; [lia|].
    repeat constructor; [done|by apply continuation_high..].
Qed.

Lemma utf8mb4_safe : ascii_safe utf8mb4.
Proof.
  intros s. unfold mb_length, my_ismbchar. simpl. destruct (Z.ltb_spec 1 (my_charlen_utf8mb4 s)) as [Hlt|];
    [|split; [lia|done]].
  revert Hlt. unfold my_charlen_utf8mb4, IS_UTF8MB4_STEP2, MY_CS_ILSEQ, MY_CS_TOOSMALL, MY_CS_TOOSMALL4.
  destruct s as [|a s]; [simpl; lia|]. change (byte_at (a :: s) 0) with (byte_value a).
  destruct (Z.ltb_spec (byte_value a) 240); [by intros Hlt; eapply utf8mb3_safe|].
  destruct (byte_value a <? 245); [|lia].
  destruct s as [|b [|c [|d s]]]; [simpl; lia..|].
  change (byte_at (a :: b :: c :: d :: s) 1) with (byte_value b).
  change (byte_at (a :: b :: c :: d :: s) 2) with (byte_value c).
  change (byte_at (a :: b :: c :: d :: s) 3) with (byte_value d).
  destruct (_ <? 4); [lia|]. destruct (IS_CONTINUATION_BYTE (byte_value b)) eqn:Hb; simpl; [|lia].
  destruct (IS_CONTINUATION_BYTE (byte_value c)) eqn:Hc; simpl; [|lia].
  destruct (IS_CONTINUATION_BYTE (byte_value d)) eqn:Hd; simpl; [|lia].
  destruct (_ && _); simpl; [|lia]. intros _. split; [lia|].
  repeat constructor; [unfold high; lia|by apply continuation_high..].
Qed.

(** ** Escaped text *)

Abbreviation escaped := (flat_map escape_char).

Definition needs_escape (c : ascii) : bool := negb (length (escape_char c) =? 1)%nat.

(** A separator of literals that is escaped. *)
Definition is_separator (sep : ascii) : Prop := sep = "'"%char \/ sep = ascii_of_nat 34.

Lemma escape_char_cases sep c :
  is_separator sep ->
  (needs_escape c = true /\ exists d, escape_char c = ["\"%char; d] /\ unescaped d = [c] /\
     byte_value c < 128) \/
  (needs_escape c = false /\ escape_char c = [c] /\ Ascii.eqb c "\" = false /\ Ascii.eqb c sep = false).
Proof.
  intros [-> | ->]; unfold needs_escape; ascii_cases c; vm_compute;
    first [ left; split; [reflexivity|]; eexists; split; [reflexivity|]; split; reflexivity
          | right; repeat split; reflexivity ].
Qed.

Lemma high_verbatim c : high c -> escape_char c = [c].
Proof. unfold high. by_ascii c; intros Hc; exfalso; apply Hc; reflexivity. Qed.

(** Bytes of a character that are found in the escaped text are bytes of the
    text itself. *)
Lemma escaped_high s tail l :
  (l <= length (escaped s ++ tail))%nat -> Forall high (take l (escaped s ++ tail)) ->
  (forall c, head tail = Some c -> ~ high c) -> tail <> [] ->
  take l (escaped s ++ tail) = take l s /\ drop l (escaped s ++ tail) = escaped (drop l s) ++ tail /\
  (l <= length s)%nat /\ existsb needs_escape (take l s) = false.
Proof.
  revert s. induction l as [|l IH]; intros s Hlen Hhigh Htail Hne; [by split_and!; [..|lia|]|].
  destruct s as [|c s].
  - simpl in *. destruct tail as [|t tail]; [done|]. simpl in Hhigh. inversion_clear Hhigh.
    by destruct (Htail t).
  - cbn [flat_map] in *. destruct (escape_char_cases "'" c) as [(Hn & d & Hd & _ & Hlow)|(Hn & Hd & _)];
      [by left| |]; rewrite Hd in *; cbn [app take drop length] in *.
    + inversion_clear Hhigh as [|? ? Hb _]. exfalso. revert Hb. unfold high. by vm_compute.
    + inversion_clear Hhigh as [|? ? Hc Hrest]. destruct (IH s) as (H1 & H2 & H3 & H4); [lia|done..|].
      cbn [existsb]. rewrite H1, H2, Hn, H4. by split_and!; [..|lia|].
Qed.

Lemma low_single cs c s : ascii_safe cs -> byte_value c < 128 -> mb_length cs (c :: s) = 0%nat.
Proof.
  intros Hcs Hc. destruct (Hcs (c :: s)) as [_ Hhigh]. destruct (mb_length cs (c :: s)) as [|l]; [done|].
  inversion_clear Hhigh as [|? ? Hb _]. unfold high in Hb. lia.
Qed.

Lemma separator_low sep : is_separator sep -> byte_value sep < 128.
Proof. by intros [-> | ->]. Qed.

Section literal.
  Context (cs : CHARSET_INFO) (Hcs : ascii_safe cs) (sep : ascii) (Hsep : is_separator sep).

Lemma escaped_nothing s : existsb needs_escape s = false -> escaped s = s.
Proof using Hsep.
  induction s as [|c s IH]; [done|]. cbn [existsb flat_map]. intros [Hc Hs]%orb_false_iff.
  destruct (escape_char_cases sep c Hsep) as [(Hn & _)|(_ & -> & _)]; [congruence|]. simpl. by rewrite IH.
Qed.

Lemma existsb_split {A} (p : A -> bool) l xs :
  existsb p xs = existsb p (take l xs) || existsb p (drop l xs).
Proof. by rewrite <- existsb_app, take_drop. Qed.

(** The lexer's scan of escaped text up to the closing quote. *)
Lemma get_text_escaped rest : head rest <> Some sep ->
  forall n s fuel raw found, (length s <= n)%nat -> (length (escaped s) < fuel)%nat ->
  get_text_loop fuel cs (escaped s ++ sep :: rest) sep true raw found =
  Some (raw ++ escaped s, found || existsb needs_escape s, rest).
Proof using Hcs Hsep.
  intros Hrest. induction n as [|n IH]; intros s fuel raw found Hn Hfuel; destruct fuel as [|fuel];
    try lia; (destruct s as [|c s]; [|cbn [length] in Hn; try lia]).
  1-2: cbn [flat_map app get_text_loop];
    rewrite (low_single cs sep rest Hcs (separator_low sep Hsep)); cbn [negb Nat.eqb];
    replace (Ascii.eqb sep "\") with false by (by destruct Hsep as [-> | ->]);
    rewrite Ascii.eqb_refl, app_nil_r, orb_false_r; cbn [andb];
    destruct rest as [|d rest]; [done|]; destruct (Ascii.eqb_spec sep d) as [->|]; [done|done].
  destruct (escaped (c :: s) ++ sep :: rest) as [|b text] eqn:Htext.
  { by apply app_nil in Htext as [_ ?]. }
  cbn [get_text_loop]. rewrite <- Htext.
  destruct (Nat.eqb_spec (mb_length cs (escaped (c :: s) ++ sep :: rest)) 0) as [Hl|Hl]; cbn [negb].
  - cbn [flat_map] in *. cbn [existsb].
    destruct (escape_char_cases sep c Hsep) as [(Hc & d & Hd & _)|(Hc & Hd & Hb & Hs)];
      rewrite Hd in *; cbn [app] in *; injection Htext as <- <-; cbn [Ascii.eqb andb length] in *.
    + change (Ascii.eqb "\" "\") with true. cbn [andb]. rewrite IH by lia.
      by rewrite Hc, <- app_assoc, orb_true_r.
    + rewrite Hb, Hs. cbn [andb]. rewrite IH by lia. by rewrite Hc, <- app_assoc.
  - set (l := mb_length cs _) in *. destruct (Hcs (escaped (c :: s) ++ sep :: rest)) as [Hlen Hhigh].
    destruct (escaped_high (c :: s) (sep :: rest) l Hlen Hhigh) as (H1 & H2 & H3 & H4); [|done|].
    { intros x [= <-]. unfold high. pose proof (separator_low sep Hsep). lia. }
    rewrite H1, H2, IH.
    + rewrite (existsb_split needs_escape l (c :: s)), H4, <- app_assoc. cbn [orb]. do 3 f_equal.
      rewrite <- (escaped_nothing (take l (c :: s)) H4) at 1. by rewrite <- flat_map_app, take_drop.
    + rewrite length_drop. simpl. lia.
    + apply (f_equal length) in H2. rewrite length_drop, !length_app in H2. cbn [length] in H2. lia.
Qed.

(** Undoing the escapes. *)
Lemma unescape_escaped : forall n s fuel, (length s <= n)%nat -> (length (escaped s) < fuel)%nat ->
  my_unescape_loop fuel cs (escaped s) sep true = Some s.
Proof using Hcs Hsep.
  induction n as [|n IH]; intros s fuel Hn Hfuel; destruct fuel as [|fuel]; try lia;
    (destruct s as [|c s]; [done|cbn [length] in Hn; try lia]).
  destruct (escaped (c :: s)) as [|b text] eqn:Htext.
  { cbn [flat_map] in Htext. apply app_nil in Htext as [Htext _].
    by destruct (escape_char_cases sep c Hsep) as [(_ & d & Hd & _)|(_ & Hd & _)]; rewrite Hd in Htext. }
  cbn [my_unescape_loop]. rewrite <- Htext.
  destruct (Nat.eqb_spec (mb_length cs (escaped (c :: s))) 0) as [Hl|Hl]; cbn [negb].
  - cbn [flat_map] in *.
    destruct (escape_char_cases sep c Hsep) as [(Hc & d & Hd & Hun & _)|(Hc & Hd & Hb & Hs)];
      rewrite Hd in *; cbn [app] in *; injection Htext as <- <-; cbn [length] in *.
    + change (Ascii.eqb "\" "\") with true. cbn [andb]. rewrite IH by lia. cbn [mbind option_bind].
      by rewrite Hun.
    + rewrite Hb, Hs. cbn [andb]. destruct (escaped s) as [|x xs] eqn:Hx.
      * destruct s as [|c' s]; [done|]. cbn [flat_map] in Hx. apply app_nil in Hx as [Hx _].
        by destruct (escape_char_cases sep c' Hsep) as [(_ & d & Hd' & _)|(_ & Hd' & _)]; rewrite Hd' in Hx.
      * rewrite <- Hx, IH; [done|lia|]. rewrite Hx. lia.
  - set (l := mb_length cs _) in *. destruct (Hcs (escaped (c :: s))) as [Hlen Hhigh].
    assert (Htail : (l <= length (escaped (c :: s) ++ [sep]))%nat) by (rewrite length_app; lia).
    destruct (escaped_high (c :: s) [sep] l Htail) as (H1 & H2 & H3 & H4).
    { by rewrite take_app_le. }
    { intros x [= <-]. unfold high. pose proof (separator_low sep Hsep). lia. }
    { done. }
    rewrite take_app_le in H1 by done. rewrite drop_app_le in H2 by done. apply app_inj_tail in H2 as [H2 _].
    rewrite H1, H2, IH; cbn [mbind option_bind].
    + by rewrite take_drop.
    + rewrite length_drop. cbn [length]. lia.
    + rewrite <- H2, length_drop, Htext. cbn [length] in *. lia.
Qed.

Lemma get_text_reads s rest :
  head rest <> Some sep -> get_text cs (escaped s ++ sep :: rest) sep true = Some (s, rest).
Proof using Hcs Hsep.
  intros Hrest. unfold get_text, my_unescape.
  rewrite (get_text_escaped rest Hrest (length s)) by (rewrite ?length_app; cbn [length]; lia).
  cbn [mbind option_bind app orb]. destruct (existsb needs_escape s) eqn:Hn.
  - by rewrite (unescape_escaped (length s)) by lia.
  - by rewrite escaped_nothing.
Qed.
End literal.

(** ** The gate *)

Lemma count_quoted_escaped s rest :
  count_quoted "'" (escaped s ++ "'"%char :: rest) = S (length (escaped s)).
Proof.
  induction s as [|c s IH]; [done|]. cbn [flat_map].
  destruct (escape_char_cases "'" c) as [(_ & d & -> & _)|(_ & -> & Hb & Hq)]; [by left|..];
    cbn [app count_quoted length].
  - change (Ascii.eqb "\" "\") with true. cbn iota. rewrite IH. lia.
  - by rewrite Hb, Hq, IH.
Qed.

Lemma quoted_token s rest :
  let quoted := pdo_mylite_handle_quoter s in
  next_sql_token (quoted ++ rest) 0 = Some (length quoted, quoted).
Proof.
  cbv zeta. unfold pdo_mylite_handle_quoter, pdo_mylite_quote_string.
  cbn [app]. rewrite <- app_assoc. cbn [app]. set (text := escaped s ++ "'"%char :: rest).
  assert (Hskip : skip_sql_spacing_and_comments ("'"%char :: text) 0 = 0%nat).
  { unfold skip_sql_spacing_and_comments, enter_executable_sql_comment, skip_dash_sql_comment,
      skip_hash_sql_comment, skip_block_sql_comment. cbn [skip_spacing_loop].
    unfold enter_executable_sql_comment, skip_dash_sql_comment, skip_hash_sql_comment,
      skip_block_sql_comment, skip_while. simpl. by rewrite !andb_false_r, !orb_true_r. }
  unfold next_sql_token. rewrite Hskip. cbn [lookup list_lookup]. change (is_sql_quote "'") with true. cbn iota.
  unfold skip_quoted_sql_token. cbn [lookup list_lookup drop Nat.add]. unfold text.
  rewrite drop_0, count_quoted_escaped, Nat.sub_0_r. cbn [length take]. rewrite length_app. cbn [length].
  rewrite Nat.add_1_r. do 3 f_equal.
  change ("'"%char :: rest) with (["'"%char] ++ rest). rewrite app_assoc, take_app_length'; [done|].
  rewrite length_app. simpl. lia.
Qed.



(** ** Without backslash escapes *)

Lemma if_same (c : bool) : (if c then false else false) = false.
Proof. by destruct c. Qed.

(** The gate as a disjunction; the schema matters only by its name. *)
Ltac gate_cases :=
  rewrite rejected_spec;
  unfold is_unsupported_oracle_sql_mode_statement, is_unsupported_procedure_analyse_statement,
    is_unsupported_vector_runtime_statement, is_unsupported_xml_sql_function_statement,
    is_unsupported_dynamic_column_statement, is_unsupported_server_surface_sql,
    is_unsupported_userstat_diagnostics_statement, is_unsupported_user_variable_diagnostics_statement,
    is_unsupported_statement_profiling_statement, is_unsupported_optimizer_trace_statement,
    has_current_schema_userstat_statistics_table_reference, has_current_schema_table_reference;
  match goal with
  | |- context [identifier_token_equals (current_schema ?db) ?name] =>
      generalize (identifier_token_equals (current_schema db) name)
  end.

(** The gate passes a [SELECT] of one string literal, whatever is in it. *)
Lemma select_literal_passes db sql x :
  collect_sql_policy_tokens sql = push_token (push_token no_tokens (str "SELECT")) ("'"%char :: x) ->
  ~ rejected db sql.
Proof.
  intros Ht. gate_cases. rewrite Ht. clear.
  intros [] Hr; destruct x; destruct_or! Hr; vm_compute in Hr; rewrite ?if_same in Hr; discriminate.
Qed.

Lemma select_quoted_tokens s :
  collect_sql_policy_tokens (str "SELECT " ++ pdo_mylite_handle_quoter s) =
  push_token (push_token no_tokens (str "SELECT")) (pdo_mylite_handle_quoter s).
Proof.
  assert (Hlex : lex (str "SELECT " ++ pdo_mylite_handle_quoter s) = [str "SELECT"; pdo_mylite_handle_quoter s]).
  { change (str "SELECT ") with (str "SELECT" ++ [" "%char]). rewrite <- app_assoc.
    rewrite lex_identifier by (done || (by intros c [= <-])). f_equal.
    rewrite (lex_gap [" "%char]) by (apply gap_space; [done|constructor]).
    rewrite lex_unfold, <- (app_nil_r (pdo_mylite_handle_quoter s)), quoted_token.
    by rewrite app_nil_r, drop_all. }
  rewrite collect_sql_policy_tokens_lex, Hlex. reflexivity.
Qed.

(** A quote after the backslash ends the literal, and the rest is SQL. *)
Lemma get_text_ends_early cs s rest :
  ascii_safe cs -> s <> [] ->
  get_text cs (escaped ("'"%char :: s) ++ rest) "'" false = Some (str "\", escaped s ++ rest).
Proof.
  intros Hcs Hs. cbn [flat_map]. change (escape_char "'") with ["\"%char; "'"%char].
  assert (Hnext : exists c text, escaped s ++ rest = c :: text /\ Ascii.eqb "'" c = false).
  { destruct s as [|c s]; [done|]. cbn [flat_map].
    destruct (escape_char_cases "'" c) as [(_ & d & -> & _)|(_ & -> & _ & Hc)]; [by left|by eexists _, _|].
    eexists _, _. split; [done|]. by rewrite Ascii.eqb_sym. }
  destruct Hnext as (c & text & Hnext & Hc). cbn [app]. rewrite Hnext. unfold get_text. cbn [length get_text_loop].
  rewrite (low_single cs "\"), (low_single cs "'" (c :: text)) by (done || by vm_compute). cbn [negb Nat.eqb].
  change (Ascii.eqb "\" "\") with true. change (Ascii.eqb "\" "'") with false.
  change (Ascii.eqb "'" "\") with false. change (Ascii.eqb "'" "'") with true. cbn [andb]. cbn iota.
  by rewrite Hc.
Qed.

(** C40: the policy gate and the quoting of the PHP extensions take a backslash
    for an escape, whatever the session's SQL mode.  The gate lets a session
    set the mode [NO_BACKSLASH_ESCAPES]; from then on the server ends the
    literal that PDO's [quote] makes of any longer string that starts with a
    quote after one character, a backslash, and reads the rest of the string
    as SQL, while the gate sees a single string literal and passes the
    statement, whatever it is. *)
Theorem gate_trusts_backslashes (cs : CHARSET_INFO) (db : mylite_db) (s : bytes)
    (Hcs : ascii_safe cs) (Hs : s <> []) :
  let sql := str "SELECT " ++ pdo_mylite_handle_quoter ("'"%char :: s) in
  ~ rejected db (str "SET sql_mode = 'NO_BACKSLASH_ESCAPES'") /\ ~ rejected db sql /\
  exists text, sql = str "SELECT '" ++ text /\
    get_text cs text "'" false = Some (str "\", pdo_mylite_quote_string s ++ str "'").
Proof.
  intros sql. split; [|split].
  - gate_cases. intros [] Hr; destruct_or! Hr; vm_compute in Hr; discriminate.
  - eapply select_literal_passes. apply select_quoted_tokens.
  - eexists. split; [done|]. by apply get_text_ends_early.
Qed.

Lemma gate_trusts_backslashes_witness :
  let sql := str "SELECT '\', SLEEP(1) -- '" in
  ~ rejected (new_db []) (str "SET sql_mode = 'NO_BACKSLASH_ESCAPES'") /\ ~ rejected (new_db []) sql /\
  exists text, sql = str "SELECT '" ++ text /\
    get_text utf8mb4 text "'" false = Some (str "\", str ", SLEEP(1) -- '").
Proof. apply (gate_trusts_backslashes utf8mb4 (new_db []) (str ", SLEEP(1) -- ") utf8mb4_safe). discriminate. Defined.
