(* ===== verification/ClientQuery.v ===== *)
(** * The MariaDB client library: connections and text queries

    [mysql_server_init] and [mysql_server_end] of
    [mariadb/libmysqld/libmysql.c], the embedded methods of
    [mariadb/libmysqld/lib_sql.cc], [mysql_real_connect] of
    [mariadb/libmysqld/libmysqld.c] and the query functions of
    [mariadb/sql-common/client.c], for a connection without options, as
    [database.cc] makes it.  A connection is named by the address of the
    [mylite_db] it is part of.  A [my_bool] or [int] result that is only
    tested against zero is a [bool], [true] for non-zero. *)

From S2P Require Import Prelude Api Effects System World.
From stdpp Require Import options.

Local Open Scope Z_scope.

Definition CR_SERVER_GONE_ERROR : Z := 2006.
Definition CR_OUT_OF_MEMORY : Z := 2008.
Definition CR_SERVER_LOST : Z := 2013.
Definition CR_COMMANDS_OUT_OF_SYNC : Z := 2014.
Definition CR_NO_PREPARE_STMT : Z := 2030.
Definition CR_PARAMS_NOT_BOUND : Z := 2031.
Definition CR_INVALID_PARAMETER_NO : Z := 2034.
Definition CR_UNSUPPORTED_PARAM_TYPE : Z := 2036.
Definition CR_FETCH_CANCELED : Z := 2050.
Definition CR_NO_DATA : Z := 2051.
Definition CR_NO_STMT_METADATA : Z := 2052.
Definition CR_NO_RESULT_SET : Z := 2053.
Definition CR_STMT_CLOSED : Z := 2056.
Definition CR_NEW_STMT_METADATA : Z := 2057.

(** [ER(errcode)], the entries of [client_errors] that are used here. *)
Definition ER (errcode : Z) : bytes :=
  if decide (errcode = CR_SERVER_GONE_ERROR) then str "Server has gone away"
  else if decide (errcode = CR_OUT_OF_MEMORY) then str "MariaDB client ran out of memory"
  else if decide (errcode = CR_SERVER_LOST) then str "Lost connection to server during query"
  else if decide (errcode = CR_COMMANDS_OUT_OF_SYNC)
    then str "Commands out of sync; you can't run this command now"
  else if decide (errcode = CR_NO_PREPARE_STMT) then str "Statement not prepared"
  else if decide (errcode = CR_PARAMS_NOT_BOUND)
    then str "No data supplied for parameters in prepared statement"
  else if decide (errcode = CR_INVALID_PARAMETER_NO) then str "Invalid parameter number"
  else if decide (errcode = CR_UNSUPPORTED_PARAM_TYPE)
    then str "Using unsupported buffer type: %d  (parameter: %d)"
  else if decide (errcode = CR_FETCH_CANCELED)
    then str "Row retrieval was canceled by mysql_stmt_close() call"
  else if decide (errcode = CR_NO_DATA) then str "Attempt to read column without prior row fetch"
  else if decide (errcode = CR_NO_STMT_METADATA)
    then str "Prepared statement contains no metadata"
  else if decide (errcode = CR_NO_RESULT_SET)
    then str "Attempt to read a row while there is no result set associated with the statement"
  else if decide (errcode = CR_STMT_CLOSED)
    then str "Statement closed indirectly because of a preceding %s() call"
  else if decide (errcode = CR_NEW_STMT_METADATA)
    then str "The number of columns in the result set differs from the number of bound buffers. You must reset the statement, rebind the result set columns, and execute the statement again"
  else str "Unknown error".

Definition unknown_sqlstate : bytes := str "HY000".
Definition not_error_sqlstate : bytes := str "00000".

(** [~(my_ulonglong) 0] *)
Definition MYSQL_COUNT_ERROR : Z := 2 ^ 64 - 1.

(** ** Assignments to members of [MYSQL] and [THD] *)

Definition with_net (errno : Z) (error state : bytes) (m : MYSQL) : MYSQL :=
  mkMysql errno error state (m_thd m) (m_status m) (m_server_status m) (m_affected_rows m)
    (m_insert_id m) (m_field_count m) (m_fields m) (m_warning_count m)
    (m_unbuffered_fetch_owner m) (m_report_data_truncation m).
Definition with_thd (t : option THD) (m : MYSQL) : MYSQL :=
  mkMysql (net_last_errno m) (net_last_error m) (net_sqlstate m) t (m_status m)
    (m_server_status m) (m_affected_rows m) (m_insert_id m) (m_field_count m) (m_fields m)
    (m_warning_count m) (m_unbuffered_fetch_owner m) (m_report_data_truncation m).
Definition with_status (s : mysql_status) (m : MYSQL) : MYSQL :=
  mkMysql (net_last_errno m) (net_last_error m) (net_sqlstate m) (m_thd m) s
    (m_server_status m) (m_affected_rows m) (m_insert_id m) (m_field_count m) (m_fields m)
    (m_warning_count m) (m_unbuffered_fetch_owner m) (m_report_data_truncation m).
Definition with_server_status (s : Z) (m : MYSQL) : MYSQL :=
  mkMysql (net_last_errno m) (net_last_error m) (net_sqlstate m) (m_thd m) (m_status m)
    s (m_affected_rows m) (m_insert_id m) (m_field_count m) (m_fields m)
    (m_warning_count m) (m_unbuffered_fetch_owner m) (m_report_data_truncation m).
Definition with_affected_rows (n : Z) (m : MYSQL) : MYSQL :=
  mkMysql (net_last_errno m) (net_last_error m) (net_sqlstate m) (m_thd m) (m_status m)
    (m_server_status m) n (m_insert_id m) (m_field_count m) (m_fields m)
    (m_warning_count m) (m_unbuffered_fetch_owner m) (m_report_data_truncation m).
Definition with_insert_id (n : Z) (m : MYSQL) : MYSQL :=
  mkMysql (net_last_errno m) (net_last_error m) (net_sqlstate m) (m_thd m) (m_status m)
    (m_server_status m) (m_affected_rows m) n (m_field_count m) (m_fields m)
    (m_warning_count m) (m_unbuffered_fetch_owner m) (m_report_data_truncation m).
Definition with_fields (n : Z) (f : option (list MYSQL_FIELD)) (m : MYSQL) : MYSQL :=
  mkMysql (net_last_errno m) (net_last_error m) (net_sqlstate m) (m_thd m) (m_status m)
    (m_server_status m) (m_affected_rows m) (m_insert_id m) n f
    (m_warning_count m) (m_unbuffered_fetch_owner m) (m_report_data_truncation m).
Definition with_warning_count (n : Z) (m : MYSQL) : MYSQL :=
  mkMysql (net_last_errno m) (net_last_error m) (net_sqlstate m) (m_thd m) (m_status m)
    (m_server_status m) (m_affected_rows m) (m_insert_id m) (m_field_count m) (m_fields m)
    n (m_unbuffered_fetch_owner m) (m_report_data_truncation m).
Definition with_owner (o : option nat) (m : MYSQL) : MYSQL :=
  mkMysql (net_last_errno m) (net_last_error m) (net_sqlstate m) (m_thd m) (m_status m)
    (m_server_status m) (m_affected_rows m) (m_insert_id m) (m_field_count m) (m_fields m)
    (m_warning_count m) o (m_report_data_truncation m).

Definition with_data (queue : list MYSQL_DATA) (cur : option MYSQL_DATA) (t : THD) : THD :=
  mkThd queue cur (thd_client_stmt_id t) (thd_client_param_count t) (thd_warning_count t).

Definition set_mysql_error (errcode : Z) (state : bytes) (m : MYSQL) : MYSQL :=
  with_net errcode (ER errcode) state m.

Definition net_clear_error (m : MYSQL) : MYSQL := with_net 0 [] not_error_sqlstate m.

(** [mysql->fields = 0; mysql->field_count = 0; mysql->warning_count = 0] *)
Definition free_old_query (m : MYSQL) : MYSQL := with_warning_count 0 (with_fields 0 None m).

(** [bzero] and the defaults of [mysql_init]. *)
Definition zero_mysql : MYSQL :=
  mkMysql 0 [] not_error_sqlstate None MYSQL_STATUS_READY 0 0 0 0 None 0 None true.

Section client.
  Context `{Server}.

(** Running the server on its own state and the file tree. *)
Definition on_server {A} (f : server -> filesystem -> A * server * filesystem) : cmd world A :=
  fun w => let '(a, s, fs) := f (server_state w) (files (sys w)) in (Ret a, set_server_state s fs w).

(** ** The library *)

Definition mysql_server_end : cmd world unit :=
  initialised ← gets mysql_client_init;
  if negb initialised then mret tt
  else
    on_server (fun s fs => let '(s, fs) := end_embedded_server s fs in (tt, s, fs)) ;;
    modify (set_mysql_client_init false).

(** [argv] is the vector of arguments; the result is non-zero on failure.
    [my_init] and [mysql_client_plugin_init] belong to the initialisation
    that [init_embedded_server] may fail. *)
Definition mysql_server_init (argv : list bytes) : cmd world bool :=
  initialised ← gets mysql_client_init;
  if negb initialised then
    modify (set_mysql_client_init true) ;;
    r ← on_server (init_embedded_server argv);
    match r with
    | InitOk => mret false
    | InitFailed true => modify (set_mysql_client_init false) ;; mret true
    | InitFailed false => mret true
    end
  else mret false.

(** ** The embedded methods *)

(** The [THD] of a connection; there is none after the session was killed. *)
Definition get_thd (d : nat) : cmd world THD :=
  deref (fun w => m ← connections w !! d; m_thd m).

Definition put_thd (d : nat) (t : option THD) : cmd world unit := update_mysql d (with_thd t).

(** The session of a connection is closed and [mysql->thd] set to null. *)
Definition free_embedded_thd (d : nat) : cmd world unit :=
  on_server (fun s fs => let '(s, fs) := close_session d s fs in (tt, s, fs)) ;;
  put_thd d None.

(** [mysql_reconnect] of a connection whose [reconnect] option is off. *)
Definition mysql_reconnect (d : nat) : cmd world bool :=
  update_mysql d (fun m =>
    set_mysql_error CR_SERVER_GONE_ERROR unknown_sqlstate
      (with_server_status (Z.ldiff (m_server_status m) SERVER_STATUS_IN_TRANS) m)) ;;
  mret true.

Definition THD_clear_data_list (d : nat) (t : THD) : cmd world unit :=
  put_thd d (Some (with_data [] None t)).

Definition emb_advanced_command (d : nat) (c : command) (skip_check : bool) : cmd world bool :=
  m ← get_mysql d;
  killed ← gets (fun w => session_killed d (server_state w));
  (if bool_decide (is_Some (m_thd m)) && killed then free_embedded_thd d else mret tt) ;;
  m ← get_mysql d;
  match m_thd m with
  | None => mysql_reconnect d
  | Some t =>
      THD_clear_data_list d t ;;
      if negb (bool_decide (m_status m = MYSQL_STATUS_READY)) then
        update_mysql d (set_mysql_error CR_COMMANDS_OUT_OF_SYNC unknown_sqlstate) ;;
        mret true
      else
        update_mysql d (fun m =>
          free_old_query (net_clear_error (with_affected_rows MYSQL_COUNT_ERROR m))) ;;
        r ← on_server (dispatch_command d c);
        put_thd d (Some (mkThd (datasets r) None (client_stmt_id r) (client_param_count r)
                           (current_statement_warn_count r))) ;;
        mret (if skip_check then dispatch_result r else thd_is_error r)
  end.

(** The error of an answer becomes the error of the connection. *)
Definition embedded_get_error (data : MYSQL_DATA) (m : MYSQL) : MYSQL :=
  with_server_status (d_server_status data)
    (with_net (d_last_errno data) (d_info data) (d_sqlstate data) m).

Definition emb_flush_use_result (d : nat) : cmd world unit :=
  t ← get_thd d;
  match cur_data t with
  | Some _ => put_thd d (Some (with_data (first_data t) None t))
  | None => put_thd d (Some (with_data (tail (first_data t)) None t))
  end.

(** The answer must exist, and no other answer may be open: the source
    asserts [!thd->cur_data]. *)
Definition emb_read_query_result (d : nat) : cmd world bool :=
  t ← get_thd d;
  match first_data t, cur_data t with
  | res :: rest, None =>
      put_thd d (Some (with_data rest None t)) ;;
      if negb (d_last_errno res =? 0) && bool_decide (d_fields_list res = None) then
        update_mysql d (embedded_get_error res) ;; mret true
      else
        update_mysql d (fun m =>
          let m := with_server_status (d_server_status res)
                     (with_warning_count (d_warning_count res) m) in
          let m :=
            match d_fields_list res with
            | Some fields => with_fields (Z.of_nat (length fields)) (Some fields) m
            | None => with_insert_id (d_insert_id res)
                        (with_affected_rows (d_affected_rows res) (with_fields 0 None m))
            end in
          net_clear_error m) ;;
        (if decide (d_fields_list res = None) then mret tt
         else
           update_mysql d (with_status MYSQL_STATUS_GET_RESULT) ;;
           put_thd d (Some (with_data rest (Some res) t))) ;;
        mret false
  | _, _ => undefined
  end.

(** [None] with the error of the answer set on the connection. *)
Definition emb_read_rows (d : nat) : cmd world (option MYSQL_DATA) :=
  t ← get_thd d;
  match cur_data t with
  | None => undefined
  | Some result =>
      put_thd d (Some (with_data (first_data t) None t)) ;;
      if negb (d_last_errno result =? 0) then
        update_mysql d (embedded_get_error result) ;; mret None
      else mret (Some result)
  end.

(** ** Connections *)

(** The address of the connection, or null. *)
Definition mysql_init (d : nat) : cmd world bool :=
  error ← mysql_server_init [];
  if (error : bool) then mret false else put_mysql d zero_mysql ;; mret true.

(** Every statement of the connection loses it. *)
Definition mysql_detach_stmt_list (d : nat) : cmd world unit :=
  modify (fun w => set_mysql_stmts
    ((fun s => if decide (s_mysql s = Some d) then
                 mkMStmt None (s_params s) (s_bind s) (s_fields s) (s_result s) (s_data_cursor s)
                   (s_read_row_func s) (s_affected_rows s) (s_insert_id s) (s_stmt_id s)
                   (s_server_status s) CR_STMT_CLOSED (s_param_count s) (s_field_count s)
                   (s_state s) (ER CR_STMT_CLOSED) unknown_sqlstate (s_bind_param_done s)
                   (s_bind_result_done s) (s_report_data_truncation s)
                   (s_unbuffered_fetch_cancelled s) (s_update_max_length s)
               else s) <$> mysql_stmts w) w).

Definition mysql_close (d : nat) : cmd world unit :=
  m ← get_mysql d;
  (if decide (is_Some (m_thd m)) then free_embedded_thd d else mret tt) ;;
  mysql_detach_stmt_list d.

(** The result is [true] for a non-null pointer. *)
Definition mysql_real_connect (d : nat) : cmd world bool :=
  error ← on_server (open_session d);
  put_thd d (Some (mkThd [] None 0 0 0)) ;;
  match error with
  | Some (errno, message, state) =>
      update_mysql d (with_net errno message state) ;;
      update_mysql d free_old_query ;;
      mysql_close d ;;
      mret false
  | None =>
      update_mysql d (with_server_status SERVER_STATUS_AUTOCOMMIT) ;; mret true
  end.

(** ** Text queries *)

(** [mysql_real_query(mysql, query, (uint) strlen(query))]: the length is cut
    to 32 bits. *)
Definition query_text (query : bytes) : bytes :=
  take (Z.to_nat (Z.of_nat (length query) mod 2 ^ 32)) query.

Definition mysql_query (d : nat) (query : bytes) : cmd world bool :=
  error ← emb_advanced_command d (COM_QUERY (query_text query)) true;
  if (error : bool) then mret true else emb_read_query_result d.

(** A stored [MYSQL_RES]: its rows and fields. *)
Record MYSQL_RES : Set := mkRes {
  res_rows : list MYSQL_ROW;
  res_fields : list MYSQL_FIELD;
}.

Definition mysql_store_result (d : nat) : cmd world (option MYSQL_RES) :=
  m ← get_mysql d;
  match m_fields m with
  | None => mret None
  | Some fields =>
      if negb (bool_decide (m_status m = MYSQL_STATUS_GET_RESULT)) then
        update_mysql d (set_mysql_error CR_COMMANDS_OUT_OF_SYNC unknown_sqlstate) ;; mret None
      else
        update_mysql d (with_status MYSQL_STATUS_READY) ;;
        ok ← allocate;
        if negb ok then
          update_mysql d (set_mysql_error CR_OUT_OF_MEMORY unknown_sqlstate) ;; mret None
        else
          data ← emb_read_rows d;
          match data with
          | None => mret None
          | Some data =>
              update_mysql d (fun m =>
                with_owner None
                  (with_fields (m_field_count m) None
                     (with_affected_rows (Z.of_nat (length (d_rows data))) m))) ;;
              mret (Some (mkRes (d_rows data) fields))
          end
  end.

(** The answers a connection has not read yet. *)
Definition queued_answers (d : nat) (w : world) : nat :=
  match connections w !! d with
  | Some c => match m_thd c with Some t => length (first_data t) | None => 0 end
  | None => 0
  end.

(** -1, 0 or an error. *)
Definition mysql_next_result (d : nat) : cmd world Z :=
  m ← get_mysql d;
  if negb (bool_decide (m_status m = MYSQL_STATUS_READY)) then
    update_mysql d (set_mysql_error CR_COMMANDS_OUT_OF_SYNC unknown_sqlstate) ;; mret 1
  else
    update_mysql d (fun m => with_affected_rows MYSQL_COUNT_ERROR (net_clear_error m)) ;;
    if has_flag (m_server_status m) SERVER_MORE_RESULTS_EXISTS then
      error ← emb_read_query_result d; mret (if (error : bool) then 1 else 0)
    else mret (-1).
End client.
