(* ===== verification/ClientStmt.v ===== *)
(** * The MariaDB client library: prepared statements

    The statement functions of [mariadb/libmysqld/libmysql.c] with the
    embedded methods of [mariadb/libmysqld/lib_sql.cc] they call.
    [libmylite] never asks for a cursor, so [stmt->flags] is 0 and rows are
    fetched unbuffered, one by one, from the answer the server left in the
    [THD].  Output buffers are character buffers ([MYSQL_TYPE_STRING]): the
    conversions to other buffer types are not modelled, and neither is
    [MYSQL_FIELD::max_length], which nothing reads. *)

From S2P Require Import Prelude Api Effects System World BinaryRow ClientQuery.
From stdpp Require Import options.

Local Open Scope Z_scope.

Definition MYSQL_NO_DATA : Z := 100.
Definition MYSQL_DATA_TRUNCATED : Z := 101.

Definition RESET_SERVER_SIDE : Z := 1.
Definition RESET_LONG_DATA : Z := 2.
Definition RESET_STORE_RESULT : Z := 4.
Definition RESET_CLEAR_ERROR : Z := 8.
Definition RESET_ALL_BUFFERS : Z := 16.

(** ** Assignments to members of [MYSQL_STMT] and [MYSQL_BIND] *)

Definition with_s_result (rows cursor : list MYSQL_ROW) (s : MYSQL_STMT) : MYSQL_STMT :=
  mkMStmt (s_mysql s) (s_params s) (s_bind s) (s_fields s) rows cursor (s_read_row_func s)
    (s_affected_rows s) (s_insert_id s) (s_stmt_id s) (s_server_status s) (s_last_errno s)
    (s_param_count s) (s_field_count s) (s_state s) (s_last_error s) (s_sqlstate s)
    (s_bind_param_done s) (s_bind_result_done s) (s_report_data_truncation s)
    (s_unbuffered_fetch_cancelled s) (s_update_max_length s).
Definition with_s_read_row_func (f : read_row_function) (s : MYSQL_STMT) : MYSQL_STMT :=
  mkMStmt (s_mysql s) (s_params s) (s_bind s) (s_fields s) (s_result s) (s_data_cursor s) f
    (s_affected_rows s) (s_insert_id s) (s_stmt_id s) (s_server_status s) (s_last_errno s)
    (s_param_count s) (s_field_count s) (s_state s) (s_last_error s) (s_sqlstate s)
    (s_bind_param_done s) (s_bind_result_done s) (s_report_data_truncation s)
    (s_unbuffered_fetch_cancelled s) (s_update_max_length s).
Definition with_s_effects (affected id status : Z) (s : MYSQL_STMT) : MYSQL_STMT :=
  mkMStmt (s_mysql s) (s_params s) (s_bind s) (s_fields s) (s_result s) (s_data_cursor s)
    (s_read_row_func s) affected id (s_stmt_id s) status (s_last_errno s) (s_param_count s)
    (s_field_count s) (s_state s) (s_last_error s) (s_sqlstate s) (s_bind_param_done s)
    (s_bind_result_done s) (s_report_data_truncation s) (s_unbuffered_fetch_cancelled s)
    (s_update_max_length s).
Definition with_s_affected_rows (affected : Z) (s : MYSQL_STMT) : MYSQL_STMT :=
  mkMStmt (s_mysql s) (s_params s) (s_bind s) (s_fields s) (s_result s) (s_data_cursor s)
    (s_read_row_func s) affected (s_insert_id s) (s_stmt_id s) (s_server_status s)
    (s_last_errno s) (s_param_count s) (s_field_count s) (s_state s) (s_last_error s)
    (s_sqlstate s) (s_bind_param_done s) (s_bind_result_done s) (s_report_data_truncation s)
    (s_unbuffered_fetch_cancelled s) (s_update_max_length s).
Definition with_s_error (errno : Z) (error state : bytes) (s : MYSQL_STMT) : MYSQL_STMT :=
  mkMStmt (s_mysql s) (s_params s) (s_bind s) (s_fields s) (s_result s) (s_data_cursor s)
    (s_read_row_func s) (s_affected_rows s) (s_insert_id s) (s_stmt_id s) (s_server_status s)
    errno (s_param_count s) (s_field_count s) (s_state s) error state (s_bind_param_done s)
    (s_bind_result_done s) (s_report_data_truncation s) (s_unbuffered_fetch_cancelled s)
    (s_update_max_length s).
Definition with_s_state (state : Z) (s : MYSQL_STMT) : MYSQL_STMT :=
  mkMStmt (s_mysql s) (s_params s) (s_bind s) (s_fields s) (s_result s) (s_data_cursor s)
    (s_read_row_func s) (s_affected_rows s) (s_insert_id s) (s_stmt_id s) (s_server_status s)
    (s_last_errno s) (s_param_count s) (s_field_count s) state (s_last_error s) (s_sqlstate s)
    (s_bind_param_done s) (s_bind_result_done s) (s_report_data_truncation s)
    (s_unbuffered_fetch_cancelled s) (s_update_max_length s).
Definition with_s_prepared (id params : Z) (s : MYSQL_STMT) : MYSQL_STMT :=
  mkMStmt (s_mysql s) (s_params s) (s_bind s) (s_fields s) (s_result s) (s_data_cursor s)
    (s_read_row_func s) (s_affected_rows s) (s_insert_id s) id (s_server_status s)
    (s_last_errno s) params 0 (s_state s) (s_last_error s) (s_sqlstate s)
    (s_bind_param_done s) (s_bind_result_done s) (s_report_data_truncation s)
    (s_unbuffered_fetch_cancelled s) (s_update_max_length s).
Definition with_s_fields (n : Z) (fields : list MYSQL_FIELD) (s : MYSQL_STMT) : MYSQL_STMT :=
  mkMStmt (s_mysql s) (s_params s) (s_bind s) fields (s_result s) (s_data_cursor s)
    (s_read_row_func s) (s_affected_rows s) (s_insert_id s) (s_stmt_id s) (s_server_status s)
    (s_last_errno s) (s_param_count s) n (s_state s) (s_last_error s) (s_sqlstate s)
    (s_bind_param_done s) (s_bind_result_done s) (s_report_data_truncation s)
    (s_unbuffered_fetch_cancelled s) (s_update_max_length s).
Definition with_s_params (params : list MYSQL_BIND) (done : bool) (s : MYSQL_STMT) : MYSQL_STMT :=
  mkMStmt (s_mysql s) params (s_bind s) (s_fields s) (s_result s) (s_data_cursor s)
    (s_read_row_func s) (s_affected_rows s) (s_insert_id s) (s_stmt_id s) (s_server_status s)
    (s_last_errno s) (s_param_count s) (s_field_count s) (s_state s) (s_last_error s)
    (s_sqlstate s) done (s_bind_result_done s) (s_report_data_truncation s)
    (s_unbuffered_fetch_cancelled s) (s_update_max_length s).
Definition with_s_bind (bind : list MYSQL_BIND) (s : MYSQL_STMT) : MYSQL_STMT :=
  mkMStmt (s_mysql s) (s_params s) bind (s_fields s) (s_result s) (s_data_cursor s)
    (s_read_row_func s) (s_affected_rows s) (s_insert_id s) (s_stmt_id s) (s_server_status s)
    (s_last_errno s) (s_param_count s) (s_field_count s) (s_state s) (s_last_error s)
    (s_sqlstate s) (s_bind_param_done s) (s_bind_result_done s) (s_report_data_truncation s)
    (s_unbuffered_fetch_cancelled s) (s_update_max_length s).
Definition with_s_bind_result_done (done report : bool) (s : MYSQL_STMT) : MYSQL_STMT :=
  mkMStmt (s_mysql s) (s_params s) (s_bind s) (s_fields s) (s_result s) (s_data_cursor s)
    (s_read_row_func s) (s_affected_rows s) (s_insert_id s) (s_stmt_id s) (s_server_status s)
    (s_last_errno s) (s_param_count s) (s_field_count s) (s_state s) (s_last_error s)
    (s_sqlstate s) (s_bind_param_done s) done report (s_unbuffered_fetch_cancelled s)
    (s_update_max_length s).
Definition with_s_cancelled (cancelled : bool) (s : MYSQL_STMT) : MYSQL_STMT :=
  mkMStmt (s_mysql s) (s_params s) (s_bind s) (s_fields s) (s_result s) (s_data_cursor s)
    (s_read_row_func s) (s_affected_rows s) (s_insert_id s) (s_stmt_id s) (s_server_status s)
    (s_last_errno s) (s_param_count s) (s_field_count s) (s_state s) (s_last_error s)
    (s_sqlstate s) (s_bind_param_done s) (s_bind_result_done s) (s_report_data_truncation s)
    cancelled (s_update_max_length s).
Definition with_s_update_max_length (update : bool) (s : MYSQL_STMT) : MYSQL_STMT :=
  mkMStmt (s_mysql s) (s_params s) (s_bind s) (s_fields s) (s_result s) (s_data_cursor s)
    (s_read_row_func s) (s_affected_rows s) (s_insert_id s) (s_stmt_id s) (s_server_status s)
    (s_last_errno s) (s_param_count s) (s_field_count s) (s_state s) (s_last_error s)
    (s_sqlstate s) (s_bind_param_done s) (s_bind_result_done s) (s_report_data_truncation s)
    (s_unbuffered_fetch_cancelled s) update.

Definition with_pointers (length is_null error : option member_ptr) (b : MYSQL_BIND) : MYSQL_BIND :=
  mkBind (buffer_type b) (buffer b) (buffer_length b) length is_null error (is_unsigned b)
    (bind_offset b) (row_ptr b) (fetch_result b) (length_value b) (is_null_value b)
    (error_value b).
Definition with_buffer_length (n : Z) (b : MYSQL_BIND) : MYSQL_BIND :=
  mkBind (buffer_type b) (buffer b) n (length_ptr b) (is_null_ptr b) (error_ptr b)
    (is_unsigned b) (bind_offset b) (row_ptr b) (fetch_result b) (length_value b)
    (is_null_value b) (error_value b).
Definition with_buffer (p : option buffer_ptr) (b : MYSQL_BIND) : MYSQL_BIND :=
  mkBind (buffer_type b) p (buffer_length b) (length_ptr b) (is_null_ptr b) (error_ptr b)
    (is_unsigned b) (bind_offset b) (row_ptr b) (fetch_result b) (length_value b)
    (is_null_value b) (error_value b).
Definition with_bind_offset (n : Z) (b : MYSQL_BIND) : MYSQL_BIND :=
  mkBind (buffer_type b) (buffer b) (buffer_length b) (length_ptr b) (is_null_ptr b)
    (error_ptr b) (is_unsigned b) n (row_ptr b) (fetch_result b) (length_value b)
    (is_null_value b) (error_value b).
Definition with_row_ptr (p : option bytes) (b : MYSQL_BIND) : MYSQL_BIND :=
  mkBind (buffer_type b) (buffer b) (buffer_length b) (length_ptr b) (is_null_ptr b)
    (error_ptr b) (is_unsigned b) (bind_offset b) p (fetch_result b) (length_value b)
    (is_null_value b) (error_value b).
Definition with_fetch_result (f : fetch_function) (b : MYSQL_BIND) : MYSQL_BIND :=
  mkBind (buffer_type b) (buffer b) (buffer_length b) (length_ptr b) (is_null_ptr b)
    (error_ptr b) (is_unsigned b) (bind_offset b) (row_ptr b) f (length_value b)
    (is_null_value b) (error_value b).
Definition with_own_values (length is_null error : Z) (b : MYSQL_BIND) : MYSQL_BIND :=
  mkBind (buffer_type b) (buffer b) (buffer_length b) (length_ptr b) (is_null_ptr b)
    (error_ptr b) (is_unsigned b) (bind_offset b) (row_ptr b) (fetch_result b) length is_null
    error.

(** ** Errors of a statement *)

Definition stmt_clear_error (s : MYSQL_STMT) : MYSQL_STMT :=
  if negb (s_last_errno s =? 0) then with_s_error 0 [] not_error_sqlstate s else s.

Definition set_stmt_error (errcode : Z) (state : bytes) (s : MYSQL_STMT) : MYSQL_STMT :=
  with_s_error errcode (ER errcode) state s.

(** The error of the connection becomes the error of the statement; an empty
    message leaves the old one. *)
Definition set_stmt_errmsg (net : MYSQL) (s : MYSQL_STMT) : MYSQL_STMT :=
  with_s_error (net_last_errno net)
    (match net_last_error net with [] => s_last_error s | error => error end)
    (net_sqlstate net) s.

Section statements.
  Context `{Server}.

(** ** Access through the pointers of a [MYSQL_BIND] *)

Definition with_members (length is_null error : Z) (c : ResultColumn) : ResultColumn :=
  mkColumn (c_bind c) (c_field_type c) (c_flags c) (c_name c) (c_org_name c) (c_table c)
    (c_org_table c) (c_buffer c) (c_retired_buffer c) length is_null error.

Definition with_columns (cs : list ResultColumn) (s : mylite_stmt) : mylite_stmt :=
  mkStmt (db s) (stmt s) (metadata s) (parameters s) (parameter_binds s) cs
    (columns_generation s) (result_binds s) (result_binds_dirty s) (executed s) (has_result s)
    (has_row s).

(** The column a pointer leads to, if the columns have not been cleared since
    the pointer was taken. *)
Definition column_of (w : world) (s g i : nat) : option ResultColumn :=
  st ← stmts w !! s;
  if decide (columns_generation st = g) then columns st !! i else None.

Definition update_column (s g i : nat) (f : ResultColumn -> ResultColumn) : cmd world unit :=
  c ← deref (fun w => column_of w s g i);
  update_stmt s (fun st => with_columns (<[i := f c]> (columns st)) st).

Definition parameter_of (w : world) (s i : nat) : option ParameterBinding :=
  st ← stmts w !! s; parameters st !! i.

(** [*bind->length], [*bind->is_null] and [*bind->error] *)
Definition read_member (p : option member_ptr) (own : Z) (of_column : ResultColumn -> Z)
    (of_parameter : ParameterBinding -> Z) (b : MYSQL_BIND) : cmd world Z :=
  match p with
  | None => undefined
  | Some (OfColumn s g i) => c ← deref (fun w => column_of w s g i); mret (of_column c)
  | Some (OfParameter s i) => p ← deref (fun w => parameter_of w s i); mret (of_parameter p)
  | Some OfBind => mret own
  | Some BufferLength => mret (buffer_length b)
  | Some AlwaysNull => mret 1
  | Some NeverNull => mret 0
  end.

Definition read_length (b : MYSQL_BIND) : cmd world Z :=
  read_member (length_ptr b) (length_value b) c_length p_length b.
Definition read_is_null (b : MYSQL_BIND) : cmd world Z :=
  read_member (is_null_ptr b) (is_null_value b) c_is_null p_is_null b.
Definition read_error (b : MYSQL_BIND) : cmd world Z :=
  read_member (error_ptr b) (error_value b) c_error p_error b.

(** [*bind->length = v] etc.: the bind, whose own member may be the target. *)
Definition write_length (v : Z) (b : MYSQL_BIND) : cmd world MYSQL_BIND :=
  match length_ptr b with
  | Some (OfColumn s g i) =>
      update_column s g i (fun c => with_members v (c_is_null c) (c_error c) c) ;; mret b
  | Some OfBind => mret (with_own_values v (is_null_value b) (error_value b) b)
  | _ => undefined
  end.
Definition write_is_null (v : Z) (b : MYSQL_BIND) : cmd world MYSQL_BIND :=
  match is_null_ptr b with
  | Some (OfColumn s g i) =>
      update_column s g i (fun c => with_members (c_length c) v (c_error c) c) ;; mret b
  | Some OfBind => mret (with_own_values (length_value b) v (error_value b) b)
  | _ => undefined
  end.
Definition write_error (v : Z) (b : MYSQL_BIND) : cmd world MYSQL_BIND :=
  match error_ptr b with
  | Some (OfColumn s g i) =>
      update_column s g i (fun c => with_members (c_length c) (c_is_null c) v c) ;; mret b
  | Some OfBind => mret (with_own_values (length_value b) (is_null_value b) v b)
  | _ => undefined
  end.

(** [memcpy(buffer + offset, data, size)] *)
Definition write_buffer (p : option buffer_ptr) (offset : nat) (data : bytes) : cmd world unit :=
  match data with
  | [] => mret tt
  | _ =>
      match p with
      | Some (Storage b) =>
          old ← get_buffer b;
          if (offset + length data <=? length old)%nat
          then put_buffer b (take offset old ++ data ++ drop (offset + length data) old)
          else undefined
      | _ => undefined
      end
  end.

(** ** Fetching a column into a character buffer *)

(** The [default] branch of [fetch_string_with_conversion]. *)
Definition fetch_string_with_conversion (value : bytes) (b : MYSQL_BIND) : cmd world MYSQL_BIND :=
  let start := drop (Z.to_nat (bind_offset b)) value in
  let copy_length := Z.of_nat (length start) in
  write_buffer (buffer b) 0
    (take (Z.to_nat (Z.min copy_length (buffer_length b))) start) ;;
  (if copy_length <? buffer_length b
   then write_buffer (buffer b) (Z.to_nat copy_length) [byte_of 0] else mret tt) ;;
  b ← write_error (if buffer_length b <? copy_length then 1 else 0) b;
  write_length (Z.of_nat (length value)) b.

(** The rest of the row is the second component; a row that ends early is
    read out of bounds. *)
Definition run_fetch_result_with_conversion (b : MYSQL_BIND) (field : MYSQL_FIELD) (row : bytes)
    : cmd world (MYSQL_BIND * bytes) :=
  match column_text field (buffer_length b) row with
  | None => undefined
  | Some (text, row) => b ← fetch_string_with_conversion text b; mret (b, row)
  end.

(** [fetch_result_bin], and [fetch_result_str] with its terminator. *)
Definition run_fetch_result_string (terminate : bool) (b : MYSQL_BIND) (row : bytes)
    : cmd world (MYSQL_BIND * bytes) :=
  match (len_row ← net_field_length row; read_bytes (Z.to_nat len_row.1) len_row.2) with
  | None => undefined
  | Some (value, row) =>
      let len := Z.of_nat (length value) in
      let copy_length := Z.min len (buffer_length b) in
      write_buffer (buffer b) 0 (take (Z.to_nat copy_length) value) ;;
      (if terminate && negb (copy_length =? buffer_length b)
       then write_buffer (buffer b) (Z.to_nat copy_length) [byte_of 0] else mret tt) ;;
      b ← write_length len b;
      b ← write_error (if copy_length <? len then 1 else 0) b;
      mret (b, row)
  end.

(** [( *my_bind->fetch_result)(my_bind, field, &row)] *)
Definition run_fetch_result (b : MYSQL_BIND) (field : MYSQL_FIELD) (row : bytes)
    : cmd world (MYSQL_BIND * bytes) :=
  match fetch_result b with
  | fetch_result_with_conversion => run_fetch_result_with_conversion b field row
  | fetch_result_bin => run_fetch_result_string false b row
  | fetch_result_str => run_fetch_result_string true b row
  | fetch_result_fixed | no_fetch_function => undefined
  end.

(** ** Binding output buffers *)

Definition compatible_ranges : list (list enum_field_types) :=
  [ [MYSQL_TYPE_SHORT; MYSQL_TYPE_YEAR];
    [MYSQL_TYPE_INT24; MYSQL_TYPE_LONG];
    [MYSQL_TYPE_DATETIME; MYSQL_TYPE_TIMESTAMP];
    [MYSQL_TYPE_ENUM; MYSQL_TYPE_SET; MYSQL_TYPE_TINY_BLOB; MYSQL_TYPE_MEDIUM_BLOB;
     MYSQL_TYPE_LONG_BLOB; MYSQL_TYPE_BLOB; MYSQL_TYPE_VAR_STRING; MYSQL_TYPE_STRING;
     MYSQL_TYPE_GEOMETRY; MYSQL_TYPE_DECIMAL] ].

Fixpoint in_same_range (ranges : list (list enum_field_types)) (type1 type2 : enum_field_types)
    : bool :=
  match ranges with
  | [] => false
  | range :: ranges =>
      let type1_found := bool_decide (type1 ∈ range) in
      let type2_found := bool_decide (type2 ∈ range) in
      if type1_found || type2_found then type1_found && type2_found
      else in_same_range ranges type1 type2
  end.

Definition is_binary_compatible (type1 type2 : enum_field_types) : bool :=
  if decide (type1 = type2) then true else in_same_range compatible_ranges type1 type2.

(** The first [switch] of [setup_one_fetch_function]: the fetch function of a
    buffer type and the length it has, when that is fixed. *)
Definition buffer_fetch_function (t : enum_field_types)
    : option (option fetch_function * option Z) :=
  match t with
  | MYSQL_TYPE_NULL => Some (None, Some 0)
  | MYSQL_TYPE_TINY => Some (Some fetch_result_fixed, Some 1)
  | MYSQL_TYPE_SHORT | MYSQL_TYPE_YEAR => Some (Some fetch_result_fixed, Some 2)
  | MYSQL_TYPE_INT24 | MYSQL_TYPE_LONG => Some (Some fetch_result_fixed, Some 4)
  | MYSQL_TYPE_LONGLONG => Some (Some fetch_result_fixed, Some 8)
  | MYSQL_TYPE_FLOAT => Some (Some fetch_result_fixed, Some 4)
  | MYSQL_TYPE_DOUBLE => Some (Some fetch_result_fixed, Some 8)
  | MYSQL_TYPE_TIME | MYSQL_TYPE_DATE | MYSQL_TYPE_DATETIME | MYSQL_TYPE_TIMESTAMP =>
      Some (Some fetch_result_fixed, Some 40)
  | MYSQL_TYPE_TINY_BLOB | MYSQL_TYPE_MEDIUM_BLOB | MYSQL_TYPE_LONG_BLOB | MYSQL_TYPE_BLOB
  | MYSQL_TYPE_BIT => Some (Some fetch_result_bin, None)
  | MYSQL_TYPE_VAR_STRING | MYSQL_TYPE_STRING | MYSQL_TYPE_DECIMAL | MYSQL_TYPE_NEWDECIMAL
  | MYSQL_TYPE_NEWDATE => Some (Some fetch_result_str, None)
  | _ => None
  end.

(** The field types the second [switch] knows. *)
Definition known_field_type (t : enum_field_types) : bool :=
  match t with
  | MYSQL_TYPE_VARCHAR | MYSQL_TYPE_TIMESTAMP2 | MYSQL_TYPE_DATETIME2 | MYSQL_TYPE_TIME2
  | MYSQL_TYPE_BLOB_COMPRESSED | MYSQL_TYPE_VARCHAR_COMPRESSED => false
  | _ => true
  end.

(** [TRUE] is [None]. *)
Definition setup_one_fetch_function (b : MYSQL_BIND) (field : MYSQL_FIELD)
    : cmd world (option MYSQL_BIND) :=
  match buffer_fetch_function (buffer_type b) with
  | None => mret None
  | Some (f, len) =>
      b ← match len with None => mret b | Some len => write_length len b end;
      let b := match f with None => b | Some f => with_fetch_result f b end in
      let b := if is_binary_compatible (buffer_type b) (f_type field) then b
               else with_fetch_result fetch_result_with_conversion b in
      if known_field_type (f_type field) then mret (Some b) else mret None
  end.

(** The loop of [mysql_stmt_bind_result]: the binds it got to set up, and
    whether all of them succeeded. *)
Fixpoint setup_binds (binds : list MYSQL_BIND) (fields : list MYSQL_FIELD)
    : cmd world (option (list MYSQL_BIND)) :=
  match binds, fields with
  | [], _ => mret (Some [])
  | b :: binds, field :: fields =>
      let default p := match p with None => Some OfBind | _ => p end in
      let b := with_bind_offset 0
                 (with_pointers (default (length_ptr b)) (default (is_null_ptr b))
                    (default (error_ptr b)) b) in
      r ← setup_one_fetch_function b field;
      match r with
      | None => mret None
      | Some b =>
          rest ← setup_binds binds fields;
          mret (match rest with None => None | Some rest => Some (b :: rest) end)
      end
  | _ :: _, [] => undefined
  end.

(** When the loop fails the array is left partly set up; it is not used again
    before it is bound anew, and the model keeps the copied binds. *)
Definition mysql_stmt_bind_result (m : nat) (my_bind : list MYSQL_BIND) : cmd world bool :=
  s ← get_mstmt m;
  if s_field_count s =? 0 then
    update_mstmt m (set_stmt_error
      (if s_state s <? MYSQL_STMT_PREPARE_DONE then CR_NO_PREPARE_STMT else CR_NO_STMT_METADATA)
      unknown_sqlstate) ;;
    mret true
  else if negb (Z.of_nat (length my_bind) =? s_field_count s) then undefined
  else
    r ← setup_binds my_bind (s_fields s);
    match r with
    | None =>
        update_mstmt m (with_s_bind my_bind) ;;
        update_mstmt m (fun s => with_s_error CR_UNSUPPORTED_PARAM_TYPE
                                   (ER CR_UNSUPPORTED_PARAM_TYPE) unknown_sqlstate s) ;;
        mret true
    | Some binds =>
        update_mstmt m (with_s_bind binds) ;;
        report ← match s_mysql s with
                 | None => undefined
                 | Some d => c ← get_mysql d; mret (m_report_data_truncation c)
                 end;
        update_mstmt m (with_s_bind_result_done true report) ;;
        mret false
    end.

(** ** Parameters *)

(** [MAX_TIME_REP_LENGTH], [MAX_DATE_REP_LENGTH], [MAX_DATETIME_REP_LENGTH] *)
Definition MAX_TIME_REP_LENGTH : Z := 13.
Definition MAX_DATE_REP_LENGTH : Z := 5.
Definition MAX_DATETIME_REP_LENGTH : Z := 12.

(** The body of the loop of [mysql_stmt_bind_param]; [None] is an unsupported
    buffer type. *)
Definition setup_param (param : MYSQL_BIND) : option MYSQL_BIND :=
  let null := match is_null_ptr param with None => Some NeverNull | p => p end in
  let param := with_pointers (length_ptr param) null (error_ptr param) param in
  let fixed n := Some (with_buffer_length n
                   (with_pointers (Some BufferLength) (is_null_ptr param) (error_ptr param) param)) in
  let temporal n := Some (with_buffer_length n param) in
  param ←
    match buffer_type param with
    | MYSQL_TYPE_NULL =>
        Some (with_pointers (length_ptr param) (Some AlwaysNull) (error_ptr param) param)
    | MYSQL_TYPE_TINY => fixed 1
    | MYSQL_TYPE_SHORT => fixed 2
    | MYSQL_TYPE_LONG => fixed 4
    | MYSQL_TYPE_LONGLONG => fixed 8
    | MYSQL_TYPE_FLOAT => fixed 4
    | MYSQL_TYPE_DOUBLE => fixed 8
    | MYSQL_TYPE_TIME => temporal MAX_TIME_REP_LENGTH
    | MYSQL_TYPE_DATE => temporal MAX_DATE_REP_LENGTH
    | MYSQL_TYPE_DATETIME | MYSQL_TYPE_TIMESTAMP => temporal MAX_DATETIME_REP_LENGTH
    | MYSQL_TYPE_TINY_BLOB | MYSQL_TYPE_MEDIUM_BLOB | MYSQL_TYPE_LONG_BLOB | MYSQL_TYPE_BLOB
    | MYSQL_TYPE_VARCHAR | MYSQL_TYPE_VAR_STRING | MYSQL_TYPE_STRING | MYSQL_TYPE_DECIMAL
    | MYSQL_TYPE_NEWDECIMAL => Some param
    | _ => None
    end;
  Some (with_pointers (match length_ptr param with None => Some BufferLength | p => p end)
          (is_null_ptr param) (error_ptr param) param).

Definition mysql_stmt_bind_param (m : nat) (my_bind : list MYSQL_BIND) : cmd world bool :=
  s ← get_mstmt m;
  if s_param_count s =? 0 then
    if s_state s <? MYSQL_STMT_PREPARE_DONE then
      update_mstmt m (set_stmt_error CR_NO_PREPARE_STMT unknown_sqlstate) ;; mret true
    else mret false
  else if negb (Z.of_nat (length my_bind) =? s_param_count s) then undefined
  else
    match mapM setup_param my_bind with
    | None =>
        update_mstmt m (fun s => with_s_params my_bind (s_bind_param_done s)
          (with_s_error CR_UNSUPPORTED_PARAM_TYPE (ER CR_UNSUPPORTED_PARAM_TYPE)
             unknown_sqlstate s)) ;;
        mret true
    | Some params => update_mstmt m (with_s_params params true) ;; mret false
    end.

(** The server reads the parameters through the binds when it executes the
    statement ([emb_insert_params]). *)
Definition read_param (b : MYSQL_BIND) : cmd world param_value :=
  is_null ← read_is_null b;
  if negb (is_null =? 0) then mret ParamNull
  else
    let string_value (make : bytes -> param_value) :=
      len ← read_length b;
      if len =? 0 then mret (make [])
      else
        match buffer b with
        | Some (Storage p) =>
            data ← get_buffer p;
            if (Z.to_nat len <=? length data)%nat then mret (make (take (Z.to_nat len) data))
            else undefined
        | _ => undefined
        end in
    match buffer_type b with
    | MYSQL_TYPE_LONGLONG =>
        value ←
          match buffer b with
          | Some (Int64Value s i) => p ← deref (fun w => parameter_of w s i); mret (p_int64_value p)
          | Some (Uint64Value s i) =>
              p ← deref (fun w => parameter_of w s i); mret (p_uint64_value p)
          | _ => undefined
          end;
        mret (if is_unsigned b then ParamUint (value mod 2 ^ 64)
              else ParamInt (signed 64 (value mod 2 ^ 64)))
    | MYSQL_TYPE_DOUBLE =>
        match buffer b with
        | Some (DoubleValue s i) =>
            p ← deref (fun w => parameter_of w s i); mret (ParamDouble (p_double_value p))
        | _ => undefined
        end
    | MYSQL_TYPE_VARCHAR | MYSQL_TYPE_VAR_STRING | MYSQL_TYPE_STRING => string_value ParamText
    | MYSQL_TYPE_TINY_BLOB | MYSQL_TYPE_MEDIUM_BLOB | MYSQL_TYPE_LONG_BLOB | MYSQL_TYPE_BLOB =>
        string_value ParamBlob
    | _ => undefined
    end.

Fixpoint read_params (binds : list MYSQL_BIND) : cmd world (list param_value) :=
  match binds with
  | [] => mret []
  | b :: binds => v ← read_param b; vs ← read_params binds; mret (v :: vs)
  end.

(** ** Reading rows *)

(** [emb_unbuffered_fetch]: [None] on error, else [*row].  At the end of an
    answer the next one becomes the current one without leaving the queue. *)
Definition emb_unbuffered_fetch (d : nat) : cmd world (option (option MYSQL_ROW)) :=
  t ← get_thd d;
  match cur_data t with
  | None => mret (Some None)
  | Some data =>
      if negb (d_last_errno data =? 0) then
        update_mysql d (embedded_get_error data) ;;
        put_thd d (Some (with_data (first_data t) None t)) ;;
        mret None
      else
        match d_rows data with
        | [] => put_thd d (Some (with_data (first_data t) (head (first_data t)) t)) ;;
                mret (Some None)
        | row :: rows =>
            put_thd d (Some (with_data (first_data t)
              (Some (mkData rows (d_fields_list data) (d_affected_rows data) (d_insert_id data)
                       (d_warning_count data) (d_server_status data) (d_last_errno data)
                       (d_info data) (d_sqlstate data))) t)) ;;
            mret (Some (Some row))
        end
  end.

(** The result code and the row. *)
Definition read_row_unbuffered (m : nat) : cmd world (Z * option MYSQL_ROW) :=
  s ← get_mstmt m;
  match s_mysql s with
  | None => update_mstmt m (set_stmt_error CR_SERVER_LOST unknown_sqlstate) ;; mret (1, None)
  | Some d =>
      let disown := update_mysql d (fun c =>
        if decide (m_unbuffered_fetch_owner c = Some m) then with_owner None c else c) in
      c ← get_mysql d;
      if negb (bool_decide (m_status c = MYSQL_STATUS_STATEMENT_GET_RESULT)) then
        update_mstmt m (set_stmt_error
          (if s_unbuffered_fetch_cancelled s then CR_FETCH_CANCELED else CR_COMMANDS_OUT_OF_SYNC)
          unknown_sqlstate) ;;
        disown ;; mret (1, None)
      else
        r ← emb_unbuffered_fetch d;
        match r with
        | None =>
            c ← get_mysql d;
            update_mstmt m (set_stmt_errmsg c) ;;
            update_mysql d (with_status MYSQL_STATUS_READY) ;;
            disown ;; mret (1, None)
        | Some None =>
            update_mysql d (with_status MYSQL_STATUS_READY) ;;
            disown ;; mret (MYSQL_NO_DATA, None)
        | Some (Some row) => mret (0, Some row)
        end
  end.

Definition read_row_buffered (m : nat) : cmd world (Z * option MYSQL_ROW) :=
  s ← get_mstmt m;
  match s_data_cursor s with
  | [] => mret (MYSQL_NO_DATA, None)
  | row :: rows => update_mstmt m (with_s_result (s_result s) rows) ;; mret (0, Some row)
  end.

(** [( *stmt->read_row_func)(stmt, &row)] *)
Definition run_read_row_func (m : nat) : cmd world (Z * option MYSQL_ROW) :=
  s ← get_mstmt m;
  match s_read_row_func s with
  | stmt_read_row_no_result_set =>
      update_mstmt m (set_stmt_error CR_NO_RESULT_SET unknown_sqlstate) ;; mret (1, None)
  | stmt_read_row_no_data => mret (MYSQL_NO_DATA, None)
  | stmt_read_row_unbuffered => read_row_unbuffered m
  | stmt_read_row_buffered => read_row_buffered m
  end.

(** The loop of [stmt_fetch_row]: [nulls] is the rest of the null bitmap from
    [null_ptr], [bit] the mask of the column, [row] the rest of the values.
    The result is the binds after the loop and the number of truncations. *)
Fixpoint fetch_columns (binds : list MYSQL_BIND) (fields : list MYSQL_FIELD) (nulls : bytes)
    (bit : Z) (row : bytes) : cmd world (list MYSQL_BIND * Z) :=
  match binds, fields, nulls with
  | [], _, _ => mret ([], 0)
  | b :: binds, field :: fields, null_byte :: nulls' =>
      b ← write_error 0 b;
      '(b, row, truncated) ←
        (if has_flag (byte_value null_byte) bit then
           b ← write_is_null 1 (with_row_ptr None b);
           mret (b, row, 0)
         else
           b ← write_is_null 0 b;
           '(b, row) ← run_fetch_result (with_row_ptr (Some row) b) field row;
           error ← read_error b;
           mret (b, row, error));
      let next := (bit * 2) mod 256 in
      '(binds, truncations) ←
        (if next =? 0 then fetch_columns binds fields nulls' 1 row
         else fetch_columns binds fields nulls next row);
      mret (b :: binds, truncated + truncations)
  | _, _, _ => undefined
  end.

Definition stmt_fetch_row (m : nat) (row : MYSQL_ROW) : cmd world Z :=
  s ← get_mstmt m;
  if negb (s_bind_result_done s) then mret 0
  else
    match row with
    | TextRow _ => undefined
    | BinaryRow row =>
        '(binds, truncation_count) ←
          fetch_columns (s_bind s) (s_fields s) row 4
            (drop (Z.to_nat ((s_field_count s + 9) / 8)) row);
        update_mstmt m (with_s_bind binds) ;;
        mret (if negb (truncation_count =? 0) && s_report_data_truncation s
              then MYSQL_DATA_TRUNCATED else 0)
    end.

Definition mysql_stmt_fetch (m : nat) : cmd world Z :=
  '(rc, row) ← run_read_row_func m;
  rc ← match row with
       | Some row => if rc =? 0 then stmt_fetch_row m row else mret rc
       | None => mret rc
       end;
  if negb (rc =? 0) && negb (rc =? MYSQL_DATA_TRUNCATED) then
    update_mstmt m (fun s =>
      with_s_read_row_func
        (if rc =? MYSQL_NO_DATA then stmt_read_row_no_data else stmt_read_row_no_result_set)
        (with_s_state MYSQL_STMT_PREPARE_DONE s)) ;;
    mret rc
  else update_mstmt m (with_s_state MYSQL_STMT_FETCH_DONE) ;; mret rc.

(** The result and [*my_bind] after the call. *)
Definition mysql_stmt_fetch_column (m : nat) (my_bind : MYSQL_BIND) (column : nat) (offset : Z)
    : cmd world (bool * MYSQL_BIND) :=
  s ← get_mstmt m;
  if s_state s <? MYSQL_STMT_FETCH_DONE then
    update_mstmt m (set_stmt_error CR_NO_DATA unknown_sqlstate) ;; mret (true, my_bind)
  else if s_field_count s <=? Z.of_nat column then
    update_mstmt m (set_stmt_error CR_INVALID_PARAMETER_NO unknown_sqlstate) ;;
    mret (true, my_bind)
  else
    param ← deref (fun _ => s_bind s !! column);
    field ← deref (fun _ => s_fields s !! column);
    let my_bind := match error_ptr my_bind with
                   | None => with_pointers (length_ptr my_bind) (is_null_ptr my_bind)
                               (Some OfBind) my_bind
                   | Some _ => my_bind
                   end in
    my_bind ← write_error 0 my_bind;
    let write_null v b := match is_null_ptr b with None => mret b | Some _ => write_is_null v b end in
    match row_ptr param with
    | Some row =>
        my_bind ← write_null 0 (with_bind_offset offset my_bind);
        my_bind ←
          match length_ptr my_bind with
          | Some _ => len ← read_length param; write_length len my_bind
          | None => mret (with_pointers (Some OfBind) (is_null_ptr my_bind) (error_ptr my_bind)
                            my_bind)
          end;
        '(my_bind, _) ← run_fetch_result_with_conversion my_bind field row;
        mret (false, my_bind)
    | None => my_bind ← write_null 1 my_bind; mret (false, my_bind)
    end.

(** ** Metadata of the result *)

(** [alloc_stmt_fields]: the fields of the connection, and a new array of
    binds. *)
Definition alloc_stmt_fields (m : nat) (c : MYSQL) : cmd world unit :=
  ok ← allocate;
  if negb ok then update_mstmt m (set_stmt_error CR_OUT_OF_MEMORY unknown_sqlstate)
  else
    match m_fields c with
    | None => undefined
    | Some fields =>
        update_mstmt m (fun s =>
          with_s_bind (replicate (length fields) zero_bind)
            (with_s_fields (s_field_count s) fields s))
    end.

(** [update_stmt_fields], the loop over fields and binds; the result of
    [setup_one_fetch_function] is ignored. *)
Definition update_field (field stmt_field : MYSQL_FIELD) : MYSQL_FIELD :=
  mkField (f_name stmt_field) (f_org_name stmt_field) (f_table stmt_field)
    (f_org_table stmt_field) (f_length field) (f_flags field) (f_decimals field)
    (f_charsetnr field) (f_type field).

Fixpoint refresh_binds (binds : list MYSQL_BIND) (fields : list MYSQL_FIELD)
    : cmd world (list MYSQL_BIND) :=
  match binds, fields with
  | b :: binds, field :: fields =>
      r ← setup_one_fetch_function b field;
      rest ← refresh_binds binds fields;
      mret (match r with Some b => b | None => b end :: rest)
  | _, _ => mret binds
  end.

Definition update_stmt_fields (m : nat) (c : MYSQL) : cmd world unit :=
  s ← get_mstmt m;
  if negb (s_field_count s =? m_field_count c) then
    update_mstmt m (set_stmt_error CR_NEW_STMT_METADATA unknown_sqlstate)
  else
    match m_fields c with
    | None => undefined
    | Some fields =>
        let stmt_fields := zip_with update_field fields (s_fields s) in
        binds ← (if s_bind_result_done s then refresh_binds (s_bind s) stmt_fields
                 else mret (s_bind s));
        update_mstmt m (fun s =>
          with_s_bind binds (with_s_fields (s_field_count s) stmt_fields s))
    end.

Definition reinit_result_set_metadata (m : nat) (c : MYSQL) : cmd world unit :=
  s ← get_mstmt m;
  if s_field_count s =? 0 then
    update_mstmt m (with_s_fields (m_field_count c) (s_fields s)) ;; alloc_stmt_fields m c
  else update_stmt_fields m c.

(** Without a cursor rows are fetched unbuffered. *)
Definition prepare_to_fetch_result (m d : nat) : cmd world unit :=
  update_mysql d (with_owner (Some m)) ;;
  update_mstmt m (fun s => with_s_read_row_func stmt_read_row_unbuffered (with_s_cancelled false s)).

(** The fields of the result; [None] when there are none or memory is short. *)
Definition mysql_stmt_result_metadata (m : nat) : cmd world (option (list MYSQL_FIELD)) :=
  s ← get_mstmt m;
  if s_field_count s =? 0 then mret None
  else
    ok ← allocate;
    if negb ok then
      update_mstmt m (set_stmt_error CR_OUT_OF_MEMORY unknown_sqlstate) ;; mret None
    else mret (Some (s_fields s)).

(** ** Resetting *)

(** The part of [reset_stmt_handle] for a statement that has been executed,
    up to the loop of [RESET_ALL_BUFFERS]. *)
Definition release_connection (m d : nat) : cmd world unit :=
  s ← get_mstmt m;
  update_mysql d (fun c =>
    if decide (m_unbuffered_fetch_owner c = Some m) then with_owner None c else c) ;;
  c ← get_mysql d;
  if negb (s_field_count s =? 0) && negb (bool_decide (m_status c = MYSQL_STATUS_READY)) then
    emb_flush_use_result d ;;
    match m_unbuffered_fetch_owner c with
    | Some owner => update_mstmt owner (with_s_cancelled true)
    | None => mret tt
    end ;;
    update_mysql d (with_status MYSQL_STATUS_READY)
  else mret tt.

(** [reset_stmt_handle]; [drain] is the loop of [RESET_ALL_BUFFERS]. *)
Definition reset_stmt_handle_with (drain : nat -> nat -> cmd world unit) (m : nat) (flags : Z)
    : cmd world bool :=
  s ← get_mstmt m;
  if s_state s <=? MYSQL_STMT_INIT_DONE then mret false
  else
    (if has_flag flags RESET_STORE_RESULT then update_mstmt m (with_s_result [] []) else mret tt) ;;
    update_mstmt m (with_s_read_row_func stmt_read_row_no_result_set) ;;
    error ←
      match s_mysql s with
      | None => mret false
      | Some d =>
          (if MYSQL_STMT_PREPARE_DONE <? s_state s then
             release_connection m d ;;
             if has_flag flags RESET_ALL_BUFFERS then drain m d else mret tt
           else mret tt) ;;
          if has_flag flags RESET_SERVER_SIDE then
            emb_advanced_command d (COM_STMT_RESET (s_stmt_id s)) false
          else mret false
      end;
    match s_mysql s, error with
    | Some d, true =>
        c ← get_mysql d;
        update_mstmt m (fun s => with_s_state MYSQL_STMT_INIT_DONE (set_stmt_errmsg c s)) ;;
        mret true
    | _, _ =>
        (if has_flag flags RESET_CLEAR_ERROR then update_mstmt m stmt_clear_error else mret tt) ;;
        update_mstmt m (with_s_state MYSQL_STMT_PREPARE_DONE) ;;
        mret false
    end.

(** -1, 0 or an error; the reset inside does not drain. *)
Definition mysql_stmt_next_result (m : nat) : cmd world Z :=
  s ← get_mstmt m;
  match s_mysql s with
  | None => mret 1
  | Some d =>
      if negb (s_last_errno s =? 0) then mret (s_last_errno s)
      else
        c ← get_mysql d;
        error ←
          (if has_flag (m_server_status c) SERVER_MORE_RESULTS_EXISTS
           then reset_stmt_handle_with (fun _ _ => mret tt) m RESET_STORE_RESULT
           else mret false);
        if (error : bool) then mret 1
        else
          rc ← mysql_next_result d;
          c ← get_mysql d;
          if negb (rc =? 0) then update_mstmt m (set_stmt_errmsg c) ;; mret rc
          else
            (if decide (m_status c = MYSQL_STATUS_GET_RESULT)
             then update_mysql d (with_status MYSQL_STATUS_STATEMENT_GET_RESULT) else mret tt) ;;
            update_mstmt m (fun s =>
              with_s_fields (m_field_count c) (s_fields s)
                (with_s_bind_result_done false false (with_s_state MYSQL_STMT_EXECUTE_DONE s))) ;;
            if negb (m_field_count c =? 0) then
              alloc_stmt_fields m c ;; prepare_to_fetch_result m d ;; mret 0
            else
              update_mstmt m (with_s_effects (m_affected_rows c) (m_insert_id c)
                                (m_server_status c)) ;;
              mret 0
  end.

(** [while (mysql_more_results(mysql) && mysql_stmt_next_result(stmt) == 0);]:
    every round takes an answer from the queue. *)
Fixpoint drain_results (fuel : nat) (m d : nat) : cmd world unit :=
  match fuel with
  | O => out_of_fuel
  | S fuel =>
      c ← get_mysql d;
      if negb (has_flag (m_server_status c) SERVER_MORE_RESULTS_EXISTS) then mret tt
      else
        rc ← mysql_stmt_next_result m;
        if rc =? 0 then drain_results fuel m d else mret tt
  end.

Definition drain_all_results (m d : nat) : cmd world unit :=
  n ← gets (queued_answers d); drain_results (S n) m d.

Definition reset_stmt_handle : nat -> Z -> cmd world bool :=
  reset_stmt_handle_with drain_all_results.

Definition mysql_stmt_free_result (m : nat) : cmd world bool :=
  reset_stmt_handle m (Z.lor RESET_LONG_DATA (Z.lor RESET_STORE_RESULT RESET_CLEAR_ERROR)).

Definition mysql_stmt_reset (m : nat) : cmd world bool :=
  s ← get_mstmt m;
  match s_mysql s with
  | None => update_mstmt m (set_stmt_error CR_SERVER_LOST unknown_sqlstate) ;; mret true
  | Some _ =>
      reset_stmt_handle m (Z.lor RESET_SERVER_SIDE (Z.lor RESET_LONG_DATA
                             (Z.lor RESET_ALL_BUFFERS RESET_CLEAR_ERROR)))
  end.

(** ** Statements *)

(** The new statement, or null. *)
Definition mysql_stmt_init (d : nat) : cmd world (option nat) :=
  ok ← allocate;
  if negb ok then
    update_mysql d (set_mysql_error CR_OUT_OF_MEMORY unknown_sqlstate) ;; mret None
  else
    m ← fresh_address;
    put_mstmt m (mkMStmt (Some d) [] [] [] [] [] stmt_read_row_no_result_set 0 0 0 0 0 0 0
                   MYSQL_STMT_INIT_DONE [] not_error_sqlstate false false false false false) ;;
    mret (Some m).

(** [mysql_stmt_attr_set(stmt, STMT_ATTR_UPDATE_MAX_LENGTH, &value)] *)
Definition mysql_stmt_attr_update_max_length (m : nat) (value : bool) : cmd world unit :=
  update_mstmt m (with_s_update_max_length value).

Definition emb_read_prepare_result (m d : nat) : cmd world bool :=
  t ← get_thd d;
  update_mstmt m (with_s_prepared (thd_client_stmt_id t) (thd_client_param_count t)) ;;
  update_mysql d (with_warning_count (thd_warning_count t)) ;;
  match first_data t with
  | [] => mret false
  | _ =>
      error ← emb_read_query_result d;
      if (error : bool) then mret true
      else
        c ← get_mysql d;
        update_mysql d (fun c =>
          let status := m_server_status c in
          with_server_status
            (if has_flag status SERVER_STATUS_AUTOCOMMIT then status
             else Z.lor status SERVER_STATUS_IN_TRANS)
            (with_fields (m_field_count c) None (with_status MYSQL_STATUS_READY c))) ;;
        t ← get_thd d;
        match cur_data t, m_fields c with
        | Some _, Some fields =>
            put_thd d (Some (with_data (first_data t) None t)) ;;
            update_mstmt m (with_s_fields (m_field_count c) fields) ;;
            mret false
        | _, _ => undefined
        end
  end.

(** [mysql_stmt_prepare] of a statement that has not been prepared yet;
    [libmylite] prepares a statement once. *)
Definition mysql_stmt_prepare (m : nat) (query : bytes) : cmd world bool :=
  s ← get_mstmt m;
  match s_mysql s with
  | None => update_mstmt m (set_stmt_error CR_SERVER_LOST unknown_sqlstate) ;; mret true
  | Some d =>
      update_mstmt m (fun s => with_s_error 0 [] (s_sqlstate s) s) ;;
      if MYSQL_STMT_INIT_DONE <? s_state s then undefined
      else
        let fail := c ← get_mysql d; update_mstmt m (set_stmt_errmsg c) ;; mret true in
        error ← emb_advanced_command d (COM_STMT_PREPARE query) true;
        if (error : bool) then fail
        else
          error ← emb_read_prepare_result m d;
          if (error : bool) then fail
          else
            ok ← allocate;
            if negb ok then
              update_mstmt m (set_stmt_error CR_OUT_OF_MEMORY unknown_sqlstate) ;; mret true
            else
              update_mstmt m (fun s =>
                with_s_state MYSQL_STMT_PREPARE_DONE
                  (with_s_bind (replicate (Z.to_nat (s_field_count s)) zero_bind)
                     (with_s_params (replicate (Z.to_nat (s_param_count s)) zero_bind) false s))) ;;
              mret false
  end.

Definition emb_stmt_execute (m d : nat) : cmd world bool :=
  s ← get_mstmt m;
  if negb (s_param_count s =? 0) && negb (s_bind_param_done s) then
    update_mstmt m (set_stmt_error CR_PARAMS_NOT_BOUND unknown_sqlstate) ;; mret true
  else
    _ ← get_thd d;                              (* [thd->client_params = stmt->params] *)
    params ← read_params (s_params s);
    error ← emb_advanced_command d (COM_STMT_EXECUTE (s_stmt_id s) params) true;
    error ← (if (error : bool) then mret true else emb_read_query_result d);
    c ← get_mysql d;
    update_mstmt m (with_s_effects (m_affected_rows c) (m_insert_id c) (m_server_status c)) ;;
    if (error : bool) then update_mstmt m (set_stmt_errmsg c) ;; mret true
    else
      (if decide (m_status c = MYSQL_STATUS_GET_RESULT)
       then update_mysql d (with_status MYSQL_STATUS_STATEMENT_GET_RESULT) else mret tt) ;;
      mret false.

Definition mysql_stmt_execute (m : nat) : cmd world bool :=
  s ← get_mstmt m;
  match s_mysql s with
  | None => mret true
  | Some d =>
      error ← reset_stmt_handle m (Z.lor RESET_STORE_RESULT RESET_CLEAR_ERROR);
      if (error : bool) then mret true
      else
        error ← emb_stmt_execute m d;
        if (error : bool) then mret true
        else
          update_mstmt m (with_s_state MYSQL_STMT_EXECUTE_DONE) ;;
          c ← get_mysql d;
          (if negb (m_field_count c =? 0) then
             reinit_result_set_metadata m c ;; prepare_to_fetch_result m d
           else mret tt) ;;
          s ← get_mstmt m;
          mret (negb (s_last_errno s =? 0))
  end.

(** The binds that [mysql_stmt_store_result] sets up to walk over the rows. *)
Definition dummy_bind : MYSQL_BIND :=
  with_buffer_length 1
    (mkBind MYSQL_TYPE_NULL None 0 None None None false 0 None no_fetch_function 0 0 0).

Definition mysql_stmt_store_result (m : nat) : cmd world bool :=
  s ← get_mstmt m;
  match s_mysql s with
  | None => update_mstmt m (set_stmt_error CR_SERVER_LOST unknown_sqlstate) ;; mret true
  | Some d =>
      if s_field_count s =? 0 then mret false
      else if s_state s <? MYSQL_STMT_EXECUTE_DONE then
        update_mstmt m (set_stmt_error CR_COMMANDS_OUT_OF_SYNC unknown_sqlstate) ;; mret true
      else if negb (s_last_errno s =? 0) then mret true
      else
        c ← get_mysql d;
        if negb (bool_decide (m_status c = MYSQL_STATUS_STATEMENT_GET_RESULT)) then
          update_mstmt m (set_stmt_error CR_COMMANDS_OUT_OF_SYNC unknown_sqlstate) ;; mret true
        else
          error ←
            (if s_update_max_length s && negb (s_bind_result_done s) then
               error ← mysql_stmt_bind_result m
                         (replicate (Z.to_nat (s_field_count s)) dummy_bind);
               (if (error : bool) then mret tt
                else update_mstmt m (with_s_bind_result_done false false)) ;;
               mret error
             else mret false);
          if (error : bool) then mret true
          else
            data ← emb_read_rows d;
            c ← get_mysql d;
            match data with
            | None =>
                update_mstmt m (fun s => with_s_result [] (s_data_cursor s) (set_stmt_errmsg c s)) ;;
                update_mysql d (with_status MYSQL_STATUS_READY) ;;
                mret true
            | Some data =>
                let rows := Z.of_nat (length (d_rows data)) in
                update_mstmt m (fun s =>
                  with_s_read_row_func stmt_read_row_buffered
                    (with_s_affected_rows rows
                       (with_s_result (d_rows data) (d_rows data) (set_stmt_errmsg c s)))) ;;
                update_mysql d (fun c =>
                  with_status MYSQL_STATUS_READY (with_owner None (with_affected_rows rows c))) ;;
                mret false
            end
  end.

(** The statement is freed whatever the server answers. *)
Definition mysql_stmt_close (m : nat) : cmd world bool :=
  s ← get_mstmt m;
  error ←
    match s_mysql s with
    | None => mret false
    | Some d =>
        update_mysql d net_clear_error ;;
        if MYSQL_STMT_INIT_DONE <? s_state s then
          reset_stmt_handle m (Z.lor RESET_ALL_BUFFERS RESET_CLEAR_ERROR) ;;
          emb_advanced_command d (COM_STMT_CLOSE (s_stmt_id s)) true
        else mret false
    end;
  modify (fun w => set_mysql_stmts (delete m (mysql_stmts w)) w) ;;
  mret error.
End statements.
