(* ===== verification/Runtime.v ===== *)
(** * Opening and closing databases: [packages/libmylite/src/database.cc]

    [mylite_open] and [mylite_close] with the process-wide runtime they share:
    the runtime directories, the database lock, the embedded server and its
    reference count.  A [mylite_db] pointer is an address in [dbs]; the
    [MYSQL] it contains is at the same address in [connections].  Each
    critical section of [g_runtime.mutex] is one definition. *)

From S2P Require Import Prelude Api Effects System Directory World ClientQuery.
From stdpp Require Import options.

Local Open Scope Z_scope.

Definition k_runtime_directory_attempts : nat := 100.
Definition k_lock_poll_interval_ms : Z := 10.
Definition k_innodb_temp_data_file_path : bytes := str "ibtmp1:12M:autoextend".

Definition k_create_mysql_database_sql : bytes := str "CREATE DATABASE IF NOT EXISTS mysql".

Definition k_create_proc_table_sql : bytes := str (
    "CREATE TABLE IF NOT EXISTS mysql.proc (" ++
    "db char(64) collate utf8mb3_bin DEFAULT '' NOT NULL, " ++
    "name char(64) DEFAULT '' NOT NULL, " ++
    "type enum('FUNCTION','PROCEDURE','PACKAGE','PACKAGE BODY') NOT NULL, " ++
    "specific_name char(64) DEFAULT '' NOT NULL, " ++
    "language enum('SQL') DEFAULT 'SQL' NOT NULL, " ++
    "sql_data_access enum('CONTAINS_SQL','NO_SQL','READS_SQL_DATA','MODIFIES_SQL_DATA') " ++
    "DEFAULT 'CONTAINS_SQL' NOT NULL, " ++
    "is_deterministic enum('YES','NO') DEFAULT 'NO' NOT NULL, " ++
    "security_type enum('INVOKER','DEFINER') DEFAULT 'DEFINER' NOT NULL, " ++
    "param_list blob DEFAULT '' NOT NULL, " ++
    "returns longblob NOT NULL, " ++
    "body longblob NOT NULL, " ++
    "definer varchar(384) collate utf8mb3_bin DEFAULT '' NOT NULL, " ++
    "created timestamp NOT NULL DEFAULT CURRENT_TIMESTAMP ON UPDATE CURRENT_TIMESTAMP, " ++
    "modified timestamp NOT NULL DEFAULT '0000-00-00 00:00:00', " ++
    "sql_mode set('REAL_AS_FLOAT','PIPES_AS_CONCAT','ANSI_QUOTES','IGNORE_SPACE'," ++
    "'IGNORE_BAD_TABLE_OPTIONS','ONLY_FULL_GROUP_BY','NO_UNSIGNED_SUBTRACTION'," ++
    "'NO_DIR_IN_CREATE','POSTGRESQL','ORACLE','MSSQL','DB2','MAXDB','NO_KEY_OPTIONS'," ++
    "'NO_TABLE_OPTIONS','NO_FIELD_OPTIONS','MYSQL323','MYSQL40','ANSI'," ++
    "'NO_AUTO_VALUE_ON_ZERO','NO_BACKSLASH_ESCAPES','STRICT_TRANS_TABLES'," ++
    "'STRICT_ALL_TABLES','NO_ZERO_IN_DATE','NO_ZERO_DATE','INVALID_DATES'," ++
    "'ERROR_FOR_DIVISION_BY_ZERO','TRADITIONAL','NO_AUTO_CREATE_USER'," ++
    "'HIGH_NOT_PRECEDENCE','NO_ENGINE_SUBSTITUTION','PAD_CHAR_TO_FULL_LENGTH'," ++
    "'EMPTY_STRING_IS_NULL','SIMULTANEOUS_ASSIGNMENT','TIME_ROUND_FRACTIONAL') " ++
    "DEFAULT '' NOT NULL, " ++
    "comment text collate utf8mb3_bin NOT NULL, " ++
    "character_set_client char(32) collate utf8mb3_bin, " ++
    "collation_connection char(64) collate utf8mb3_bin, " ++
    "db_collation char(64) collate utf8mb3_bin, " ++
    "body_utf8 longblob, " ++
    "aggregate enum('NONE','GROUP') DEFAULT 'NONE' NOT NULL, " ++
    "PRIMARY KEY (db,name,type)) " ++
    "engine=Aria transactional=1 character set utf8mb3 COLLATE utf8mb3_general_ci " ++
    "comment='Stored Procedures'")%string.

Definition k_create_procs_priv_table_sql : bytes := str (
    "CREATE TABLE IF NOT EXISTS mysql.procs_priv (" ++
    "Host char(255) binary DEFAULT '' NOT NULL, " ++
    "Db char(64) binary DEFAULT '' NOT NULL, " ++
    "User char(128) binary DEFAULT '' NOT NULL, " ++
    "Routine_name char(64) COLLATE utf8mb3_general_ci DEFAULT '' NOT NULL, " ++
    "Routine_type enum('FUNCTION','PROCEDURE','PACKAGE','PACKAGE BODY') NOT NULL, " ++
    "Grantor varchar(384) DEFAULT '' NOT NULL, " ++
    "Proc_priv set('Execute','Alter Routine','Grant','Show Create Routine') " ++
    "COLLATE utf8mb3_general_ci DEFAULT '' NOT NULL, " ++
    "Timestamp timestamp NOT NULL DEFAULT CURRENT_TIMESTAMP ON UPDATE CURRENT_TIMESTAMP, " ++
    "PRIMARY KEY (Host,Db,User,Routine_name,Routine_type), " ++
    "KEY Grantor (Grantor)) " ++
    "engine=Aria transactional=1 CHARACTER SET utf8mb3 COLLATE utf8mb3_bin " ++
    "comment='Procedure privileges'")%string.

(** What the build defines: [MYLITE_MARIADB_MESSAGES_DIR],
    [MYLITE_MARIADB_CHARSETS_DIR], [WITH_PERFSCHEMA_STORAGE_ENGINE] and
    the version of the generated [mylite/version.h]. *)
Class Build : Set := {
  messages_dir : bytes;
  charsets_dir : bytes;
  with_perfschema : bool;
  MYLITE_VERSION_STRING : bytes;
}.

Definition mylite_version `{Build} : bytes := MYLITE_VERSION_STRING.

(** ** Arguments of an open *)

(** [out_db] says whether the caller passed a place for the handle. *)
Definition validate_open_args (path : option bytes) (out_db : bool) (flags : Z)
    (config : option mylite_open_config) : Z :=
  if negb out_db then MYLITE_MISUSE
  else
    match path with
    | None | Some [] => MYLITE_MISUSE
    | Some _ =>
        if has_flag flags (Z.lnot k_known_open_flags) then MYLITE_MISUSE
        else
          let readonly := has_flag flags MYLITE_OPEN_READONLY in
          let readwrite := has_flag flags MYLITE_OPEN_READWRITE in
          if Bool.eqb readonly readwrite then MYLITE_MISUSE
          else if readonly then MYLITE_MISUSE
          else if has_flag flags MYLITE_OPEN_URI then MYLITE_MISUSE
          else
            match config with
            | None => MYLITE_OK
            | Some c =>
                if 0 <? size c then
                  if has_config_field config profile_end &&
                     negb (profile c =? MYLITE_PROFILE_DEFAULT) &&
                     negb (profile c =? MYLITE_PROFILE_STRICT) &&
                     negb (profile c =? MYLITE_PROFILE_COMPAT)
                  then MYLITE_MISUSE
                  else if has_config_field config durability_end &&
                          negb (durability c =? MYLITE_DURABILITY_OFF) &&
                          negb (durability c =? MYLITE_DURABILITY_NORMAL) &&
                          negb (durability c =? MYLITE_DURABILITY_FULL)
                  then MYLITE_MISUSE
                  else MYLITE_OK
                else MYLITE_OK
            end
    end.

Definition configured_busy_timeout_ms (config : option mylite_open_config) : Z :=
  match config with
  | Some c => if has_config_field config busy_timeout_ms_end then busy_timeout_ms c else 0
  | None => 0
  end.

(** ** The database lock *)

(** The loop of [wait_for_database_lock]; [start] and the clock are in
    nanoseconds.  Every round but the last sleeps at least 10 ms, which bounds
    the number of rounds ([wait_for_database_lock_terminates]). *)
Fixpoint wait_loop (fuel : nat) (fd : Z) (timeout_ms : Z) (start : Z) : cmd system Z :=
  match fuel with
  | O => out_of_fuel
  | S fuel =>
      answer ← sys_flock fd;
      match answer with
      | Locked => mret MYLITE_OK
      | FlockError => mret MYLITE_IOERR
      | WouldBlock =>
          if timeout_ms =? 0 then mret MYLITE_BUSY
          else
            now ← sys_now;
            if timeout_ms * 1000000 <=? now - start then mret MYLITE_BUSY
            else
              sys_sleep_ms k_lock_poll_interval_ms ;;
              wait_loop fuel fd timeout_ms start
      end
  end.

Definition wait_for_database_lock (fd : Z) (timeout_ms : Z) : cmd system Z :=
  start ← sys_now;
  wait_loop (Z.to_nat (timeout_ms / k_lock_poll_interval_ms) + 2) fd timeout_ms start.

Definition release_database_lock (fd : Z) : cmd system unit :=
  if 0 <=? fd then sys_unlock_close fd else mret tt.

(** ** Runtime directories *)

Record RuntimeLayout : Set := mkLayout {
  l_cleanup_directory : bytes;
  l_persistent_tmp_directory : bytes;
  l_data_directory : bytes;
  l_tmp_directory : bytes;
  l_plugin_directory : bytes;
}.

Definition runtime_root (config : option mylite_open_config) : cmd system bytes :=
  match config with
  | Some c =>
      match (if has_config_field config temp_directory_end then temp_directory c else None) with
      | Some (_ :: _ as directory) => mret directory
      | _ => fs_temp_directory_path
      end
  | None => fs_temp_directory_path
  end.

Definition create_runtime_subdirectory (directory : bytes) : cmd system unit :=
  error ← fs_create_directories directory;
  if (error : bool) then throw filesystem_error else mret tt.

Definition create_persistent_runtime_layout (path : bytes) : cmd system RuntimeLayout :=
  let cleanup := path_append path k_rundir_name in
  let tmp := path_append path k_tmpdir_name in
  let layout := mkLayout cleanup tmp (path_append path k_datadir_name) tmp
                  (path_append cleanup k_plugin_directory_name) in
  remove_directory_if_present (l_cleanup_directory layout) ;;
  create_runtime_subdirectory (l_cleanup_directory layout) ;;
  create_runtime_subdirectory (l_tmp_directory layout) ;;
  create_runtime_subdirectory (l_plugin_directory layout) ;;
  mret layout.

Section runtime.
  Context `{Server, Build}.

(** The counter is an [unsigned]. *)
Definition unique_runtime_name : cmd world bytes :=
  now ← on_system sys_now;
  modify (fun w => set_runtime_counter ((runtime_counter w + 1) mod 2 ^ 32) w) ;;
  counter ← gets runtime_counter;
  mret (str "mylite-runtime-" ++ to_string now ++ str "-" ++ to_string counter).

(** The loop over the attempts. *)
Fixpoint create_memory_candidate (attempts : nat) (root : bytes) : cmd world RuntimeLayout :=
  match attempts with
  | O => throw filesystem_error
  | S attempts =>
      name ← unique_runtime_name;
      let candidate := path_append root name in
      '(created, error) ← on_system (fs_create_directory candidate);
      if (created : bool) then
        let layout := mkLayout candidate [] (path_append candidate (str "data"))
                        (path_append candidate (str "tmp"))
                        (path_append candidate (str "plugins")) in
        on_system (create_runtime_subdirectory (l_data_directory layout)) ;;
        on_system (create_runtime_subdirectory (l_tmp_directory layout)) ;;
        on_system (create_runtime_subdirectory (l_plugin_directory layout)) ;;
        mret layout
      else if (error : bool) then throw filesystem_error
      else create_memory_candidate attempts root
  end.

Definition create_memory_runtime_layout (config : option mylite_open_config)
    : cmd world RuntimeLayout :=
  root ← on_system (runtime_root config);
  error ← on_system (fs_create_directories root);
  if (error : bool) then throw filesystem_error
  else create_memory_candidate k_runtime_directory_attempts root.

Definition create_runtime_layout (path : bytes) (config : option mylite_open_config)
    : cmd world RuntimeLayout :=
  if is_memory_database_path path then create_memory_runtime_layout config
  else on_system (create_persistent_runtime_layout path).

Definition runtime_arguments (layout : RuntimeLayout) : list bytes :=
  [ str "mylite";
    str "--no-defaults";
    str "--datadir=" ++ l_data_directory layout;
    str "--tmpdir=" ++ l_tmp_directory layout;
    str "--plugin-dir=" ++ l_plugin_directory layout;
    str "--aria-log-dir-path=" ++ l_data_directory layout;
    str "--innodb-data-home-dir=" ++ l_data_directory layout;
    str "--innodb-log-group-home-dir=" ++ l_data_directory layout;
    str "--innodb-undo-directory=" ++ l_data_directory layout;
    str "--innodb-tmpdir=" ++ l_tmp_directory layout;
    str "--innodb-temp-data-file-path=" ++ k_innodb_temp_data_file_path;
    str "--innodb-flush-log-at-trx-commit=1";
    str "--innodb-fast-shutdown=1";
    str "--log-output=NONE";
    str "--max-digest-length=0";
    str "--use-stat-tables=never";
    str "--histogram-size=0";
    str "--skip-log-bin";
    str "--skip-slave-start";
    str "--skip-grant-tables";
    str "--skip-networking" ] ++
  (if with_perfschema then [str "--performance-schema=OFF"] else []) ++
  [ str "--lc-messages-dir=" ++ messages_dir;
    str "--character-sets-dir=" ++ charsets_dir ].

(** [mutable_arguments]: a pointer to each argument. *)
Definition mutable_arguments (arguments : list bytes) : list bytes := arguments.

(** ** The runtime *)

(** Sets the error and returns the descriptor, negative on failure. *)
Definition acquire_database_lock (d : nat) (path : bytes) (config : option mylite_open_config)
    : cmd world Z :=
  fd ← on_system (sys_open (path_append path k_lock_filename));
  if fd <? 0 then
    update_db d (fun x => set_error x MYLITE_IOERR "database lock file could not be opened") ;;
    mret (-1)
  else
    lock_result ← on_system (wait_for_database_lock fd (configured_busy_timeout_ms config));
    if lock_result =? MYLITE_OK then mret fd
    else
      on_system (release_database_lock fd) ;;
      (if lock_result =? MYLITE_BUSY then
         update_db d (fun x =>
           set_error x MYLITE_BUSY "database directory is locked by another process")
       else
         update_db d (fun x => set_error x MYLITE_IOERR "database lock could not be acquired")) ;;
      mret (-1).

Definition validate_runtime_database_path (d : nat) : cmd world Z :=
  x ← get_db d;
  rt ← gets runtime;
  if (0 <? ref_count rt) && negb (bool_decide (runtime_database_path rt = database_path x)) then
    update_db d (fun x =>
      set_error x MYLITE_BUSY "embedded runtime is already open for another database") ;;
    mret MYLITE_BUSY
  else mret MYLITE_OK.

(** The strings of [g_runtime] are cleared; count and lock are not touched. *)
Definition clear_runtime (rt : RuntimeState) : RuntimeState :=
  mkRuntime (ref_count rt) [] [] [] [] (lock_fd rt).

(** The [try] block of [start_runtime] and its [catch (...)]. *)
Definition start_locked (d : nat) (path : bytes) (fd : Z) (config : option mylite_open_config)
    : cmd world Z :=
  try_catch
    (layout ← create_runtime_layout path config;
     modify (fun w => set_runtime
       (mkRuntime (ref_count (runtime w)) (l_cleanup_directory layout)
          (l_persistent_tmp_directory layout) path (runtime_arguments layout)
          (lock_fd (runtime w))) w) ;;
     init_result ← mysql_server_init (mutable_arguments (runtime_arguments layout));
     if (init_result : bool) then
       modify (fun w => set_runtime (clear_runtime (runtime w)) w) ;;
       on_system (remove_directory_if_present (l_cleanup_directory layout)) ;;
       on_system (release_database_lock fd) ;;
       update_db d (fun x =>
         set_error x MYLITE_ERROR "MariaDB embedded runtime initialization failed") ;;
       mret MYLITE_ERROR
     else
       modify (fun w => set_runtime
         (mkRuntime 1 (cleanup_directory (runtime w)) (persistent_tmp_directory (runtime w))
            (runtime_database_path (runtime w)) (arguments (runtime w)) fd) w) ;;
       mret MYLITE_OK)
    (fun e =>
       modify (fun w => set_runtime (clear_runtime (runtime w)) w) ;;
       on_system (release_database_lock fd) ;;
       throw e).

Definition start_runtime (d : nat) (config : option mylite_open_config) : cmd world Z :=
  x ← get_db d;
  rt ← gets runtime;
  if 0 <? ref_count rt then
    if negb (bool_decide (runtime_database_path rt = database_path x)) then
      update_db d (fun x =>
        set_error x MYLITE_BUSY "embedded runtime is already open for another database") ;;
      mret MYLITE_BUSY
    else
      modify (set_runtime (mkRuntime ((ref_count rt + 1) mod 2 ^ 32) (cleanup_directory rt)
        (persistent_tmp_directory rt) (runtime_database_path rt) (arguments rt) (lock_fd rt))) ;;
      mret MYLITE_OK
  else if is_memory_database_path (database_path x) then
    start_locked d (database_path x) (-1) config
  else
    fd ← acquire_database_lock d (database_path x) config;
    if fd <? 0 then x ← get_db d; mret (errcode x)
    else start_locked d (database_path x) fd config.

(** [mysql_thread_end] frees memory of the thread's own, of which the model
    has none. *)
Definition release_runtime : cmd world unit :=
  rt ← gets runtime;
  if ref_count rt =? 0 then mret tt
  else
    let rt := mkRuntime (ref_count rt - 1) (cleanup_directory rt) (persistent_tmp_directory rt)
                (runtime_database_path rt) (arguments rt) (lock_fd rt) in
    modify (set_runtime rt) ;;
    if 0 <? ref_count rt then mret tt
    else
      mysql_server_end ;;
      on_system (remove_directory_if_present (cleanup_directory rt)) ;;
      on_system (remove_directory_contents_if_present (persistent_tmp_directory rt)) ;;
      on_system (release_database_lock (lock_fd rt)) ;;
      modify (set_runtime (mkRuntime (ref_count rt) [] [] [] [] (-1))).

(** ** Connections *)

(** The diagnostics of the connection become those of the handle. *)
Definition set_mariadb_error (d : nat) : cmd world unit :=
  c ← get_mysql d;
  update_db d (fun x =>
    set_diag x MYLITE_ERROR (net_last_errno c) (net_sqlstate c) (net_last_error c)).

(** The loop of [drain_remaining_query_results]; every round takes an answer
    from the queue. *)
Fixpoint drain_query_loop (fuel : nat) (d : nat) : cmd world Z :=
  match fuel with
  | O => out_of_fuel
  | S fuel =>
      next_result ← mysql_next_result d;
      if next_result <? 0 then mret MYLITE_OK
      else if 0 <? next_result then set_mariadb_error d ;; mret MYLITE_ERROR
      else
        result ← mysql_store_result d;
        match result with
        | Some _ => drain_query_loop fuel d
        | None =>
            c ← get_mysql d;
            if negb (m_field_count c =? 0) then set_mariadb_error d ;; mret MYLITE_ERROR
            else drain_query_loop fuel d
        end
  end.

Definition drain_remaining_query_results (d : nat) : cmd world Z :=
  n ← gets (queued_answers d); drain_query_loop (S n) d.

Definition connect_runtime (d : nat) : cmd world Z :=
  ok ← mysql_init d;
  if negb ok then
    update_db d (fun x => set_error x MYLITE_NOMEM "MariaDB connection allocation failed") ;;
    mret MYLITE_NOMEM
  else
    connection ← mysql_real_connect d;
    if negb connection then set_mariadb_error d ;; mret MYLITE_ERROR
    else update_db d (fun x => with_connected x true) ;; mret MYLITE_OK.

Definition execute_system_table_statement (d : nat) (sql : bytes) : cmd world Z :=
  error ← mysql_query d sql;
  if (error : bool) then set_mariadb_error d ;; mret MYLITE_ERROR
  else
    r ← drain_remaining_query_results d;
    if negb (r =? MYLITE_OK) then mret MYLITE_ERROR
    else update_db d set_ok ;; mret MYLITE_OK.

Definition ensure_core_system_tables (d : nat) : cmd world Z :=
  result ← execute_system_table_statement d k_create_mysql_database_sql;
  if negb (result =? MYLITE_OK) then mret result
  else
    result ← execute_system_table_statement d k_create_proc_table_sql;
    if negb (result =? MYLITE_OK) then mret result
    else execute_system_table_statement d k_create_procs_priv_table_sql.

Definition close_connection (d : nat) : cmd world unit :=
  x ← get_db d;
  if connected x then mysql_close d ;; update_db d (fun x => with_connected x false)
  else mret tt.

(** ** Handles *)

(** [MYSQL mysql = {}] *)
Definition blank_mysql : MYSQL :=
  mkMysql 0 [] [] None MYSQL_STATUS_READY 0 0 0 0 None 0 None false.

(** [new mylite_db()] and [delete db] *)
Definition new_mylite_db : cmd world nat :=
  ok ← allocate;
  if negb ok then throw bad_alloc
  else
    d ← fresh_address;
    put_db d (new_db []) ;; put_mysql d blank_mysql ;; mret d.

Definition delete_mylite_db (d : nat) : cmd world unit :=
  modify (fun w => set_dbs (delete d (dbs w)) (set_connections (delete d (connections w)) w)).

Definition with_database_path (x : mylite_db) (path : bytes) : mylite_db :=
  mkDb path (current_schema x) (errcode x) (extended_errcode x) (mariadb_errno x) (sqlstate x)
    (errmsg x) (warning_message x) (changes x) (last_insert_id x) (active_statement_count x)
    (connected x).

(** The [try] block once [db->database_path] is set: the result is [MYLITE_OK]
    when the handle is released to the caller. *)
Definition open_path (d : nat) (database_path : bytes) (flags : Z)
    (config : option mylite_open_config) : cmd world Z :=
  runtime_path_result ← validate_runtime_database_path d;
  if negb (runtime_path_result =? MYLITE_OK) then mret runtime_path_result
  else
    directory_result ← on_system (prepare_database_directory database_path flags);
    if negb (directory_result =? MYLITE_OK) then mret directory_result
    else
      runtime_result ← start_runtime d config;
      if negb (runtime_result =? MYLITE_OK) then mret runtime_result
      else
        connect_result ← connect_runtime d;
        if negb (connect_result =? MYLITE_OK) then
          close_connection d ;; release_runtime ;; mret connect_result
        else
          system_tables_result ← ensure_core_system_tables d;
          if negb (system_tables_result =? MYLITE_OK) then
            close_connection d ;; release_runtime ;; mret system_tables_result
          else mret MYLITE_OK.

(** The [try] block after [new mylite_db()]. *)
Definition open_db (d : nat) (path : bytes) (flags : Z) (config : option mylite_open_config)
    : cmd world Z :=
  database_path ← on_system (normalize_database_path path);
  update_db d (fun x => with_database_path x database_path) ;;
  open_path d database_path flags config.

(** The result code and [*out_db].  The [std::unique_ptr] deletes the handle
    on every way out but the last. *)
Definition open_impl (path : option bytes) (out_db : bool) (flags : Z)
    (config : option mylite_open_config) : cmd world (Z * option nat) :=
  let validation_result := validate_open_args path out_db flags config in
  if negb (validation_result =? MYLITE_OK) then mret (validation_result, None)
  else
    try_catch
      (d ← new_mylite_db;
       result ← try_catch (open_db d (default [] path) flags config)
                  (fun e => delete_mylite_db d ;; throw e);
       if negb (result =? MYLITE_OK) then delete_mylite_db d ;; mret (result, None)
       else mret (MYLITE_OK, Some d))
      (fun e =>
         match e with
         | bad_alloc => mret (MYLITE_NOMEM, None)
         | filesystem_error => mret (MYLITE_IOERR, None)
         | length_error => throw e
         end).

Definition mylite_open (path : option bytes) (out_db : bool) (flags : Z)
    (config : option mylite_open_config) : cmd world (Z * option nat) :=
  open_impl path out_db flags config.

Definition mylite_close (db : option nat) : cmd world Z :=
  match db with
  | None => mret MYLITE_OK
  | Some d =>
      x ← get_db d;
      if 0 <? active_statement_count x then
        update_db d (fun x => set_error x MYLITE_BUSY "database has active statements") ;;
        mret MYLITE_BUSY
      else
        close_connection d ;;
        release_runtime ;;
        delete_mylite_db d ;;
        mret MYLITE_OK
  end.
End runtime.
