(* ===== verification/Exec.v ===== *)
(** * Text queries and warnings: [packages/libmylite/src/database.cc]

    [mylite_exec] with the rows it hands to the callback, and
    [mylite_warning].  The callback is a command of its own: it may call the
    library again, and [ctx] is the state it threads through its calls. *)

From S2P Require Import Prelude Api Effects SqlPolicy System Numbers World ClientQuery Runtime.
From stdpp Require Import options.

Local Open Scope Z_scope.

Definition INT_MAX : Z := 2 ^ 31 - 1.

Definition parse_warning_level (level : option bytes) : Z :=
  if decide (level = Some (str "Note")) then MYLITE_WARNING_NOTE
  else if decide (level = Some (str "Error")) then MYLITE_WARNING_ERROR
  else MYLITE_WARNING_WARNING.

Section exec.
  Context `{Server}.

(** The code, and [*errmsg] when [errmsg] says the caller gave a place for it. *)
Definition copy_error_message (d : nat) (errmsg_out : bool) : cmd world (Z * option bytes) :=
  x ← get_db d;
  if negb errmsg_out then mret (errcode x, None)
  else
    ok ← allocate;
    if negb ok then mret (MYLITE_NOMEM, None)
    else mret (errcode x, Some (errmsg x)).

(** [reject_unsupported_sql_policy( *db, sql)] on the handle in memory. *)
Definition reject_policy (d : nat) (sql : bytes) : cmd world Z :=
  x ← get_db d;
  let '(rejected, x) := reject_unsupported_sql_policy x sql in
  put_db d x ;; mret rejected.

Section callback.
  Context {X : Type}.

(** [mylite_exec_callback]: [ctx], the number of columns, the values and the
    names; a non-zero result asks to stop. *)
Definition mylite_exec_callback : Type :=
    X -> Z -> list (option bytes) -> list (option bytes) -> cmd world (Z * X).

(** The loop over the rows: whether the callback asked to stop. *)
Fixpoint emit_rows (callback : option mylite_exec_callback) (ctx : X) (field_count : Z)
    (column_names : list (option bytes)) (rows : list MYSQL_ROW) : cmd world (bool * X) :=
  match rows with
  | [] => mret (false, ctx)
  | BinaryRow _ :: _ => undefined
  | TextRow row :: rows =>
      match callback with
      | None => emit_rows callback ctx field_count column_names rows
      | Some f =>
          '(stop, ctx) ← f ctx field_count row column_names;
          if negb (stop =? 0) then mret (true, ctx)
          else emit_rows callback ctx field_count column_names rows
      end
  end.

(** The result, [*has_result] and [ctx]. *)
Definition store_and_emit_result (d : nat) (callback : option mylite_exec_callback) (ctx : X)
    : cmd world (Z * bool * X) :=
  result ← mysql_store_result d;
  match result with
  | None =>
      c ← get_mysql d;
      if negb (m_field_count c =? 0) then
        set_mariadb_error d ;; mret (MYLITE_ERROR, false, ctx)
      else r ← drain_remaining_query_results d; mret (r, false, ctx)
  | Some result =>
      let field_count := Z.of_nat (length (res_fields result)) in
      if INT_MAX <? field_count then
        update_db d (fun x => set_error x MYLITE_ERROR "result has too many columns") ;;
        mret (MYLITE_ERROR, true, ctx)
      else
        let column_names := f_name <$> res_fields result in
        '(stop, ctx) ← emit_rows callback ctx field_count column_names (res_rows result);
        if (stop : bool) then
          drain_remaining_query_results d ;;
          update_db d (fun x => set_error x MYLITE_ERROR "query callback requested abort") ;;
          mret (MYLITE_ERROR, true, ctx)
        else r ← drain_remaining_query_results d; mret (r, true, ctx)
  end.

(** [std::min(affected_rows, LLONG_MAX)], or 0 when there is no count. *)
Definition changes_of (has_result : bool) (affected_rows : Z) : Z :=
  if has_result || (affected_rows =? MYSQL_COUNT_ERROR) then 0
  else Z.min affected_rows LLONG_MAX.

(** The result, [*errmsg] and [ctx]. *)
Definition exec_impl (db : option nat) (sql : option bytes) (callback : option mylite_exec_callback)
    (ctx : X) (errmsg_out : bool) : cmd world (Z * option bytes * X) :=
  match db, sql with
  | Some d, Some sql =>
      let fail ctx := '(code, message) ← copy_error_message d errmsg_out;
                      mret (code, message, ctx) in
      update_db d set_ok ;;
      rejected ← reject_policy d sql;
      if negb (rejected =? MYLITE_OK) then fail ctx
      else
        error ← mysql_query d sql;
        if (error : bool) then set_mariadb_error d ;; fail ctx
        else
          c ← get_mysql d;
          let affected_rows := m_affected_rows c in
          let insert_id := m_insert_id c in
          '(result, has_result, ctx) ← store_and_emit_result d callback ctx;
          if negb (result =? MYLITE_OK) then fail ctx
          else
            update_db d (fun x => update_current_schema_after_successful_sql x sql) ;;
            update_db d (fun x => with_effects x (changes_of has_result affected_rows) insert_id) ;;
            mret (MYLITE_OK, None, ctx)
  | _, _ => mret (MYLITE_MISUSE, None, ctx)
  end.

Definition mylite_exec (db : option nat) (sql : option bytes)
    (callback : option mylite_exec_callback) (ctx : X) (errmsg_out : bool)
    : cmd world (Z * option bytes * X) :=
  exec_impl db sql callback ctx errmsg_out.
End callback.

(** ** Warnings *)

Definition mylite_warning_count (db : option nat) : cmd world Z :=
  match db with
  | None => mret 0
  | Some d => c ← get_mysql d; mret (m_warning_count c)
  end.

(** The result, and [*level], [*code] and [*message] when they are set. *)
Definition mylite_warning (db : option nat) (index : Z) : cmd world (Z * option (Z * Z * bytes)) :=
  match db with
  | None => mret (MYLITE_MISUSE, None)
  | Some d =>
      c ← get_mysql d;
      if m_warning_count c <=? index then mret (MYLITE_NOTFOUND, None)
      else
        error ← mysql_query d (str "SHOW WARNINGS LIMIT " ++ to_string index ++ str ", 1");
        if (error : bool) then set_mariadb_error d ;; mret (MYLITE_ERROR, None)
        else
          result ← mysql_store_result d;
          match result with
          | None => set_mariadb_error d ;; mret (MYLITE_ERROR, None)
          | Some result =>
              match res_rows result with
              | [] => mret (MYLITE_NOTFOUND, None)
              | TextRow (level :: code :: message :: _) :: _ =>
                  let level := parse_warning_level (c_str <$> level) in
                  let code := strtoul (c_str (default (str "0") code)) mod 2 ^ 32 in
                  let message := c_str (default [] message) in
                  update_db d (fun x => with_warning_message x message) ;;
                  update_db d set_ok ;;
                  mret (MYLITE_OK, Some (level, code, message))
              | _ => undefined
              end
          end
  end.
End exec.
Arguments mylite_exec_callback {_} X.
