(* ===== verification/Statement.v ===== *)
(** * Prepared statements: [packages/libmylite/src/database.cc]

    [mylite_prepare], the bind functions, [mylite_step] and the column
    accessors.  A [mylite_stmt] pointer is an address in [stmts]; the storage
    of its byte vectors is in [buffers].  A byte vector that is cleared or
    assigned to loses its storage: a pointer into it may not be used again. *)

From S2P Require Import Prelude Api Effects SqlLexer SqlPolicy Numbers System World ClientQuery.
From S2P Require Import ClientStmt Runtime Exec.
From stdpp Require Import options.

Local Open Scope Z_scope.

Definition k_initial_result_buffer_size : Z := 4096.
Definition ULONG_MAX : Z := 2 ^ 64 - 1.
(** [std::vector<unsigned char>::max_size()] *)
Definition vector_max_size : Z := 2 ^ 63 - 1.

(** [MYLITE_STATIC], [MYLITE_TRANSIENT] or a function of the caller. *)
Inductive mylite_destructor : Set :=
| MYLITE_STATIC
| MYLITE_TRANSIENT
| Destructor.

(** ** Assignments to members of [mylite_stmt] and of its vectors *)

Definition with_stmt (m : option nat) (s : mylite_stmt) : mylite_stmt :=
  mkStmt (db s) m (metadata s) (parameters s) (parameter_binds s) (columns s)
    (columns_generation s) (result_binds s) (result_binds_dirty s) (executed s) (has_result s)
    (has_row s).
Definition with_metadata (fields : option (list MYSQL_FIELD)) (s : mylite_stmt) : mylite_stmt :=
  mkStmt (db s) (stmt s) fields (parameters s) (parameter_binds s) (columns s)
    (columns_generation s) (result_binds s) (result_binds_dirty s) (executed s) (has_result s)
    (has_row s).
Definition with_parameters (ps : list ParameterBinding) (s : mylite_stmt) : mylite_stmt :=
  mkStmt (db s) (stmt s) (metadata s) ps (parameter_binds s) (columns s)
    (columns_generation s) (result_binds s) (result_binds_dirty s) (executed s) (has_result s)
    (has_row s).
Definition with_parameter_binds (binds : list MYSQL_BIND) (s : mylite_stmt) : mylite_stmt :=
  mkStmt (db s) (stmt s) (metadata s) (parameters s) binds (columns s)
    (columns_generation s) (result_binds s) (result_binds_dirty s) (executed s) (has_result s)
    (has_row s).
Definition with_result_binds (binds : list MYSQL_BIND) (dirty : bool) (s : mylite_stmt)
    : mylite_stmt :=
  mkStmt (db s) (stmt s) (metadata s) (parameters s) (parameter_binds s) (columns s)
    (columns_generation s) binds dirty (executed s) (has_result s) (has_row s).
Definition with_executed (v : bool) (s : mylite_stmt) : mylite_stmt :=
  mkStmt (db s) (stmt s) (metadata s) (parameters s) (parameter_binds s) (columns s)
    (columns_generation s) (result_binds s) (result_binds_dirty s) v (has_result s) (has_row s).
Definition with_has_result (v : bool) (s : mylite_stmt) : mylite_stmt :=
  mkStmt (db s) (stmt s) (metadata s) (parameters s) (parameter_binds s) (columns s)
    (columns_generation s) (result_binds s) (result_binds_dirty s) (executed s) v (has_row s).
Definition with_has_row (v : bool) (s : mylite_stmt) : mylite_stmt :=
  mkStmt (db s) (stmt s) (metadata s) (parameters s) (parameter_binds s) (columns s)
    (columns_generation s) (result_binds s) (result_binds_dirty s) (executed s) (has_result s) v.

(** [columns.clear()]: the pointers into the vector become invalid. *)
Definition clear_columns (s : mylite_stmt) : mylite_stmt :=
  mkStmt (db s) (stmt s) (metadata s) (parameters s) (parameter_binds s) []
    (S (columns_generation s)) (result_binds s) (result_binds_dirty s) (executed s) (has_result s)
    (has_row s).

Definition with_c_bind (b : MYSQL_BIND) (c : ResultColumn) : ResultColumn :=
  mkColumn b (c_field_type c) (c_flags c) (c_name c) (c_org_name c) (c_table c) (c_org_table c)
    (c_buffer c) (c_retired_buffer c) (c_length c) (c_is_null c) (c_error c).
Definition with_c_buffers (buffer retired : option nat) (c : ResultColumn) : ResultColumn :=
  mkColumn (c_bind c) (c_field_type c) (c_flags c) (c_name c) (c_org_name c) (c_table c)
    (c_org_table c) buffer retired (c_length c) (c_is_null c) (c_error c).

(** [ParameterBinding()] and [ResultColumn()] *)
Definition new_parameter : ParameterBinding := mkParameter zero_bind None 0 0 0 0 0 0.
Definition new_column : ResultColumn :=
  mkColumn zero_bind MYSQL_TYPE_NULL 0 [] [] [] [] None None 0 0 0.

(** [mylite_stmt()] *)
Definition new_stmt (d : nat) : mylite_stmt :=
  mkStmt (Some d) None None [] [] [] 0 [] false false false false.

(** ** Types of values *)

Definition column_type (column : ResultColumn) : mylite_value_type :=
  if negb (c_is_null column =? 0) then MYLITE_TYPE_NULL
  else
    match c_field_type column with
    | MYSQL_TYPE_TINY
    | MYSQL_TYPE_SHORT
    | MYSQL_TYPE_LONG
    | MYSQL_TYPE_INT24
    | MYSQL_TYPE_LONGLONG
    | MYSQL_TYPE_YEAR =>
        if has_flag (c_flags column) UNSIGNED_FLAG then MYLITE_TYPE_UINT64 else MYLITE_TYPE_INT64
    | MYSQL_TYPE_FLOAT
    | MYSQL_TYPE_DOUBLE
    | MYSQL_TYPE_DECIMAL
    | MYSQL_TYPE_NEWDECIMAL => MYLITE_TYPE_DOUBLE
    | MYSQL_TYPE_TINY_BLOB
    | MYSQL_TYPE_MEDIUM_BLOB
    | MYSQL_TYPE_LONG_BLOB
    | MYSQL_TYPE_BLOB
    | MYSQL_TYPE_STRING
    | MYSQL_TYPE_VAR_STRING
    | MYSQL_TYPE_VARCHAR =>
        if has_flag (c_flags column) BINARY_FLAG then MYLITE_TYPE_BLOB else MYLITE_TYPE_TEXT
    | _ => MYLITE_TYPE_TEXT
    end.

Section statement.
  Context `{Server}.

(** [stmt.stmt], which is not null while the statement is in use. *)
Definition mstmt_of (s : nat) : cmd world nat :=
  deref (fun w => st ← stmts w !! s; stmt st).

(** [*stmt.db] *)
Definition db_of (s : nat) : cmd world nat :=
  deref (fun w => st ← stmts w !! s; db st).

Definition set_mariadb_statement_error (s : nat) : cmd world unit :=
  d ← db_of s;
  m ← mstmt_of s;
  ms ← get_mstmt m;
  update_db d (fun x =>
    set_diag x MYLITE_ERROR (s_last_errno ms) (s_sqlstate ms) (s_last_error ms)).

(** ** Parameters *)

(** [parameter_at]: the position in the vector, if [index] is in range. *)
Definition parameter_at (st : mylite_stmt) (index : Z) : option (nat * ParameterBinding) :=
  if (index =? 0) || (Z.of_nat (length (parameters st)) <? index) then None
  else
    let i := Z.to_nat (index - 1) in
    p ← parameters st !! i; Some (i, p).

Definition put_parameter (s : nat) (i : nat) (p : ParameterBinding) : cmd world unit :=
  update_stmt s (fun st => with_parameters (<[i := p]> (parameters st)) st).

(** [bind = {}] with the pointers of a parameter. *)
Definition parameter_bind (t : enum_field_types) (p : option buffer_ptr) (unsigned : bool)
    (s i : nat) : MYSQL_BIND :=
  mkBind t p 0 (Some (OfParameter s i)) (Some (OfParameter s i)) (Some (OfParameter s i)) unsigned
    0 None no_fetch_function 0 0 0.

Definition bind_null_value (s : nat) (index : Z) : cmd world Z :=
  st ← get_stmt s;
  match parameter_at st index with
  | None => mret MYLITE_MISUSE
  | Some (i, p) =>
      if executed st then mret MYLITE_MISUSE
      else
        free_buffer (p_bytes p) ;;
        put_parameter s i
          (mkParameter (parameter_bind MYSQL_TYPE_NULL None false s i) None 0 1 0
             (p_int64_value p) (p_uint64_value p) (p_double_value p)) ;;
        mret MYLITE_OK
  end.

(** [bind_parameter_buffer] *)
Definition bind_parameter_buffer (t : enum_field_types) (bytes : option nat) (length : Z)
    (s i : nat) : MYSQL_BIND :=
  with_buffer_length length (parameter_bind t (Storage <$> bytes) false s i).

(** The result and whether the destructor is called.  [value] is the memory
    the pointer leads to. *)
Definition bind_bytes (s : nat) (index : Z) (value : option bytes) (value_len : Z)
    (buffer_type : enum_field_types) (destructor : mylite_destructor) : cmd world (Z * bool) :=
  st ← get_stmt s;
  match parameter_at st index with
  | None => mret (MYLITE_MISUSE, false)
  | Some (i, p) =>
      if executed st || (ULONG_MAX <? value_len) then mret (MYLITE_MISUSE, false)
      else
        free_buffer (p_bytes p) ;;
        put_parameter s i (mkParameter (p_bind p) None (p_length p) (p_is_null p) (p_error p)
                             (p_int64_value p) (p_uint64_value p) (p_double_value p)) ;;
        (if vector_max_size <? value_len then throw length_error else mret tt) ;;
        ok ← allocate;
        if negb ok then throw bad_alloc
        else
          contents ←
            (if 0 <? value_len then
               deref (fun _ => v ← value;
                 if (Z.to_nat value_len <=? length v)%nat then Some (take (Z.to_nat value_len) v)
                 else None)
             else mret [zero]);
          b ← fresh_address;
          put_buffer b contents ;;
          put_parameter s i
            (mkParameter (bind_parameter_buffer buffer_type (Some b) value_len s i) (Some b)
               value_len 0 0 (p_int64_value p) (p_uint64_value p) (p_double_value p)) ;;
          mret (MYLITE_OK,
                match value, destructor with Some _, Destructor => true | _, _ => false end)
  end.

Definition bind_parameters (s : nat) : cmd world Z :=
  st ← get_stmt s;
  match parameters st with
  | [] => mret MYLITE_OK
  | _ =>
      let binds := p_bind <$> parameters st in
      update_stmt s (with_parameter_binds binds) ;;
      m ← mstmt_of s;
      error ← mysql_stmt_bind_param m binds;
      if (error : bool) then set_mariadb_statement_error s ;; mret MYLITE_ERROR
      else mret MYLITE_OK
  end.

(** [for (index = 1; index <= parameters.size(); ++index) bind_null_value] *)
Fixpoint bind_nulls (s : nat) (indices : list nat) : cmd world Z :=
  match indices with
  | [] => mret MYLITE_OK
  | index :: indices =>
      result ← bind_null_value s (Z.of_nat index);
      if negb (result =? MYLITE_OK) then mret result else bind_nulls s indices
  end.

(** [stmt == nullptr || stmt->db == nullptr] is [MYLITE_MISUSE]. *)
Definition with_statement {A} (misuse : A) (stmt : option nat) (f : nat -> cmd world A)
    : cmd world A :=
  match stmt with
  | None => mret misuse
  | Some s =>
      st ← get_stmt s;
      match db st with None => mret misuse | Some _ => f s end
  end.

Definition mylite_bind_parameter_count (stmt : option nat) : cmd world Z :=
  match stmt with
  | None => mret 0
  | Some s => st ← get_stmt s; mret (Z.of_nat (length (parameters st)) mod 2 ^ 32)
  end.

Definition mylite_clear_bindings (stmt : option nat) : cmd world Z :=
  with_statement MYLITE_MISUSE stmt (fun s =>
    st ← get_stmt s;
    if executed st then mret MYLITE_MISUSE
    else bind_nulls s (seq 1 (length (parameters st)))).

Definition mylite_bind_null (stmt : option nat) (index : Z) : cmd world Z :=
  with_statement MYLITE_MISUSE stmt (fun s => bind_null_value s index).

Definition mylite_bind_int64 (stmt : option nat) (index : Z) (value : Z) : cmd world Z :=
  with_statement MYLITE_MISUSE stmt (fun s =>
    st ← get_stmt s;
    match parameter_at st index with
    | None => mret MYLITE_MISUSE
    | Some (i, p) =>
        if executed st then mret MYLITE_MISUSE
        else
          free_buffer (p_bytes p) ;;
          put_parameter s i
            (mkParameter (parameter_bind MYSQL_TYPE_LONGLONG (Some (Int64Value s i)) false s i)
               None 8 0 0 value (p_uint64_value p) (p_double_value p)) ;;
          mret MYLITE_OK
    end).

Definition mylite_bind_uint64 (stmt : option nat) (index : Z) (value : Z) : cmd world Z :=
  with_statement MYLITE_MISUSE stmt (fun s =>
    st ← get_stmt s;
    match parameter_at st index with
    | None => mret MYLITE_MISUSE
    | Some (i, p) =>
        if executed st then mret MYLITE_MISUSE
        else
          free_buffer (p_bytes p) ;;
          put_parameter s i
            (mkParameter (parameter_bind MYSQL_TYPE_LONGLONG (Some (Uint64Value s i)) true s i)
               None 8 0 0 (p_int64_value p) value (p_double_value p)) ;;
          mret MYLITE_OK
    end).

(** [value] is the bits of the [double]. *)
Definition mylite_bind_double (stmt : option nat) (index : Z) (value : Z) : cmd world Z :=
  with_statement MYLITE_MISUSE stmt (fun s =>
    st ← get_stmt s;
    match parameter_at st index with
    | None => mret MYLITE_MISUSE
    | Some (i, p) =>
        if executed st then mret MYLITE_MISUSE
        else
          free_buffer (p_bytes p) ;;
          put_parameter s i
            (mkParameter (parameter_bind MYSQL_TYPE_DOUBLE (Some (DoubleValue s i)) false s i)
               None 8 0 0 (p_int64_value p) (p_uint64_value p) value) ;;
          mret MYLITE_OK
    end).

(** [strlen] of the memory at a pointer; there must be a terminator. *)
Definition strlen (value : bytes) : cmd world Z :=
  if existsb (Ascii.eqb zero) value then mret (Z.of_nat (length (c_str value))) else undefined.

Definition mylite_bind_text (stmt : option nat) (index : Z) (value : option bytes) (value_len : Z)
    (destructor : mylite_destructor) : cmd world (Z * bool) :=
  with_statement (MYLITE_MISUSE, false) stmt (fun s =>
    match value with
    | None =>
        if negb (value_len =? 0) then mret (MYLITE_MISUSE, false)
        else bind_bytes s index None value_len MYSQL_TYPE_STRING destructor
    | Some v =>
        resolved_len ← (if value_len =? MYLITE_NUL_TERMINATED then strlen v else mret value_len);
        bind_bytes s index value resolved_len MYSQL_TYPE_STRING destructor
    end).

Definition mylite_bind_blob (stmt : option nat) (index : Z) (value : option bytes) (value_len : Z)
    (destructor : mylite_destructor) : cmd world (Z * bool) :=
  with_statement (MYLITE_MISUSE, false) stmt (fun s =>
    if (bool_decide (value = None) && negb (value_len =? 0)) ||
       (value_len =? MYLITE_NUL_TERMINATED)
    then mret (MYLITE_MISUSE, false)
    else bind_bytes s index value value_len MYSQL_TYPE_BLOB destructor).

(** ** Result columns *)

(** The result and the storage of the vector after the call. *)
Definition allocate_column_buffer (buffer : option nat) (buffer_length : Z)
    : cmd world (Z * option nat) :=
  if buffer_length =? ULONG_MAX then mret (MYLITE_NOMEM, buffer)
  else if vector_max_size <? buffer_length + 1 then throw length_error
  else
    ok ← allocate;
    if negb ok then mret (MYLITE_NOMEM, buffer)
    else
      free_buffer buffer ;;
      b ← fresh_address;
      put_buffer b (replicate (Z.to_nat (buffer_length + 1)) zero) ;;
      mret (MYLITE_OK, Some b).

(** The result and the column after the call. *)
Definition configure_column_buffer (column : ResultColumn) (buffer_length : Z)
    : cmd world (Z * ResultColumn) :=
  '(result, buffer) ← allocate_column_buffer (c_buffer column) buffer_length;
  if negb (result =? MYLITE_OK) then mret (result, column)
  else
    mret (MYLITE_OK,
          with_c_bind (with_buffer (Storage <$> buffer)
                         (with_buffer_length buffer_length (c_bind column)))
            (with_c_buffers buffer (c_retired_buffer column) column)).

Fixpoint free_columns (columns : list ResultColumn) : cmd world unit :=
  match columns with
  | [] => mret tt
  | c :: columns =>
      free_buffer (c_buffer c) ;; free_buffer (c_retired_buffer c) ;; free_columns columns
  end.

Definition release_statement_results (s : nat) : cmd world unit :=
  st ← get_stmt s;
  match stmt st with
  | Some m => if has_result st then mysql_stmt_free_result m ;; mret tt else mret tt
  | None => mret tt
  end ;;
  st ← get_stmt s;
  free_columns (columns st) ;;
  update_stmt s (fun st =>
    with_has_row false (with_has_result false
      (with_result_binds [] false (clear_columns (with_metadata None st))))).

(** The column of a field, before its buffer is configured. *)
Definition describe_column (s g index : nat) (field : MYSQL_FIELD) (column : ResultColumn)
    : ResultColumn :=
  let text (t : option bytes) := c_str (default [] t) in
  let here := Some (OfColumn s g index) in
  mkColumn
    (mkBind MYSQL_TYPE_STRING None 0 here here here false 0 None no_fetch_function 0 0 0)
    (f_type field) (f_flags field) (text (f_name field)) (text (f_org_name field))
    (text (f_table field)) (text (f_org_table field)) (c_buffer column) (c_retired_buffer column)
    0 0 0.

(** The loop over the fields. *)
Fixpoint set_up_columns (s g index : nat) (fields : list MYSQL_FIELD) : cmd world Z :=
  match fields with
  | [] => mret MYLITE_OK
  | field :: fields =>
      column ← deref (fun w => column_of w s g index);
      let buffer_length := Z.min (Z.max (f_length field) 1) k_initial_result_buffer_size in
      '(result, column) ← configure_column_buffer (describe_column s g index field column)
                            buffer_length;
      update_stmt s (fun st => with_columns (<[index := column]> (columns st)) st) ;;
      if negb (result =? MYLITE_OK) then
        d ← db_of s;
        update_db d (fun x =>
          set_error x MYLITE_NOMEM "result column buffer could not be allocated") ;;
        mret MYLITE_NOMEM
      else
        update_stmt s (fun st =>
          with_result_binds (<[index := c_bind column]> (result_binds st))
            (result_binds_dirty st) st) ;;
        set_up_columns s g (S index) fields
  end.

Definition initialize_statement_results (s : nat) (release_existing_results : bool)
    : cmd world Z :=
  (if release_existing_results then release_statement_results s else mret tt) ;;
  m ← mstmt_of s;
  fields ← mysql_stmt_result_metadata m;
  update_stmt s (with_metadata fields) ;;
  match fields with
  | None =>
      ms ← get_mstmt m;
      if negb (s_field_count ms =? 0) then set_mariadb_statement_error s ;; mret MYLITE_ERROR
      else update_stmt s (with_has_result false) ;; mret MYLITE_OK
  | Some fields =>
      update_stmt s (fun st =>
        with_result_binds (resize (length fields) zero_bind (result_binds st))
          (result_binds_dirty st)
          (with_columns (resize (length fields) new_column (columns st)) st)) ;;
      st ← get_stmt s;
      result ← set_up_columns s (columns_generation st) 0 fields;
      if negb (result =? MYLITE_OK) then mret result
      else
        st ← get_stmt s;
        error ← mysql_stmt_bind_result m (result_binds st);
        if (error : bool) then set_mariadb_statement_error s ;; mret MYLITE_ERROR
        else update_stmt s (with_has_result true) ;; mret MYLITE_OK
  end.

(** ** Fetching *)

Fixpoint free_retired (columns : list ResultColumn) : cmd world unit :=
  match columns with
  | [] => mret tt
  | c :: columns => free_buffer (c_retired_buffer c) ;; free_retired columns
  end.

Definition refresh_dirty_result_binds (s : nat) : cmd world Z :=
  st ← get_stmt s;
  if negb (result_binds_dirty st) then mret MYLITE_OK
  else
    m ← mstmt_of s;
    error ← mysql_stmt_bind_result m (result_binds st);
    if (error : bool) then set_mariadb_statement_error s ;; mret MYLITE_ERROR
    else
      st ← get_stmt s;
      free_retired (columns st) ;;
      update_stmt s (fun st =>
        with_result_binds (result_binds st) false
          (with_columns ((fun c => with_c_buffers (c_buffer c) None c) <$> columns st) st)) ;;
      mret MYLITE_OK.

(** The body of the loop of [fetch_truncated_statement_columns] for a column
    that was truncated. *)
Definition fetch_truncated_column (s index : nat) (column : ResultColumn) : cmd world Z :=
  if c_length column =? ULONG_MAX then
    d ← db_of s;
    update_db d (fun x => set_error x MYLITE_ERROR "result column is too large") ;;
    mret MYLITE_ERROR
  else
    let buffer_length := Z.max (c_length column) 1 in
    '(result, buffer) ← allocate_column_buffer None buffer_length;
    if negb (result =? MYLITE_OK) then
      d ← db_of s;
      update_db d (fun x =>
        set_error x MYLITE_NOMEM "result column buffer could not be allocated") ;;
      mret MYLITE_NOMEM
    else
      m ← mstmt_of s;
      '(error, fetch_bind) ← mysql_stmt_fetch_column m
          (with_buffer_length buffer_length (with_buffer (Storage <$> buffer) (c_bind column)))
          index 0;
      if (error : bool) then
        set_mariadb_statement_error s ;; free_buffer buffer ;; mret MYLITE_ERROR
      else
        free_buffer (c_retired_buffer column) ;;
        column ← deref (fun w => st ← stmts w !! s; columns st !! index);
        let bind := with_buffer (Storage <$> buffer) fetch_bind in
        update_stmt s (fun st =>
          with_result_binds (<[index := bind]> (result_binds st)) true
            (with_columns
               (<[index := with_c_bind bind (with_c_buffers buffer (c_buffer column) column)]>
                  (columns st)) st)) ;;
        mret MYLITE_OK.

Fixpoint fetch_truncated_from (s : nat) (indices : list nat) : cmd world Z :=
  match indices with
  | [] => mret MYLITE_OK
  | index :: indices =>
      column ← deref (fun w => st ← stmts w !! s; columns st !! index);
      if negb (c_is_null column =? 0) || (c_error column =? 0) then fetch_truncated_from s indices
      else
        result ← fetch_truncated_column s index column;
        if negb (result =? MYLITE_OK) then mret result else fetch_truncated_from s indices
  end.

Definition fetch_truncated_statement_columns (s : nat) : cmd world Z :=
  st ← get_stmt s; fetch_truncated_from s (seq 0 (length (columns st))).

(** The terminator that is written behind, or over the end of, the value. *)
Definition terminate_buffer (length_ : Z) (data : bytes) : bytes :=
  if length_ <? Z.of_nat (length data) then <[Z.to_nat length_ := zero]> data
  else <[(length data - 1)%nat := zero]> data.

Fixpoint terminate_columns (columns : list ResultColumn) : cmd world unit :=
  match columns with
  | [] => mret tt
  | c :: columns =>
      match c_buffer c with
      | None => mret tt
      | Some b => data ← get_buffer b; put_buffer b (terminate_buffer (c_length c) data)
      end ;;
      terminate_columns columns
  end.

(** The loop of [drain_remaining_statement_results]; every round takes an
    answer from the queue. *)
Fixpoint drain_statement_loop (fuel : nat) (s m : nat) : cmd world Z :=
  match fuel with
  | O => out_of_fuel
  | S fuel =>
      next_result ← mysql_stmt_next_result m;
      if next_result <? 0 then mret MYLITE_OK
      else if 0 <? next_result then set_mariadb_statement_error s ;; mret MYLITE_ERROR
      else
        ms ← get_mstmt m;
        if s_field_count ms =? 0 then drain_statement_loop fuel s m
        else
          error ← mysql_stmt_store_result m;
          if (error : bool) then set_mariadb_statement_error s ;; mret MYLITE_ERROR
          else
            error ← mysql_stmt_free_result m;
            if (error : bool) then set_mariadb_statement_error s ;; mret MYLITE_ERROR
            else drain_statement_loop fuel s m
  end.

(** The answers that wait for a statement. *)
Definition statement_answers (m : nat) (w : world) : nat :=
  match (ms ← mysql_stmts w !! m; s_mysql ms) with
  | Some d => queued_answers d w
  | None => 0
  end.

Definition drain_remaining_statement_results (s : nat) : cmd world Z :=
  m ← mstmt_of s;
  n ← gets (statement_answers m);
  drain_statement_loop (S n) s m.

(** The part of [fetch_statement_row] that follows [mysql_stmt_fetch]. *)
Definition finish_fetch (s : nat) (fetch_result : Z) : cmd world Z :=
  if fetch_result =? MYSQL_NO_DATA then
    update_stmt s (with_has_row false) ;;
    drain_result ← drain_remaining_statement_results s;
    if negb (drain_result =? MYLITE_OK) then mret drain_result
    else update_stmt s (with_has_result false) ;; mret MYLITE_DONE
  else if negb (fetch_result =? 0) && negb (fetch_result =? MYSQL_DATA_TRUNCATED) then
    set_mariadb_statement_error s ;; mret MYLITE_ERROR
  else
    truncated_result ← (if fetch_result =? MYSQL_DATA_TRUNCATED
                        then fetch_truncated_statement_columns s else mret MYLITE_OK);
    if negb (truncated_result =? MYLITE_OK) then mret truncated_result
    else
      st ← get_stmt s;
      terminate_columns (columns st) ;;
      update_stmt s (with_has_row true) ;;
      mret MYLITE_ROW.

Definition fetch_statement_row (s : nat) : cmd world Z :=
  bind_result ← refresh_dirty_result_binds s;
  if negb (bind_result =? MYLITE_OK) then mret bind_result
  else
    m ← mstmt_of s;
    fetch_result ← mysql_stmt_fetch m;
    finish_fetch s fetch_result.

(** ** The life of a statement *)

(** [new mylite_stmt()]: nothing catches its exception. *)
Definition new_mylite_stmt (d : nat) : cmd world nat :=
  ok ← allocate;
  if negb ok then throw bad_alloc
  else s ← fresh_address; put_stmt s (new_stmt d) ;; mret s.

Fixpoint free_parameters (parameters : list ParameterBinding) : cmd world unit :=
  match parameters with
  | [] => mret tt
  | p :: parameters => free_buffer (p_bytes p) ;; free_parameters parameters
  end.

(** [delete stmt]: its vectors are freed with it. *)
Definition delete_mylite_stmt (s : nat) : cmd world unit :=
  st ← get_stmt s;
  free_columns (columns st) ;;
  free_parameters (parameters st) ;;
  modify (fun w => set_stmts (delete s (stmts w)) w).

(** [std::string_view(sql, resolved_len)] *)
Definition sql_view (sql : bytes) (len : Z) : cmd world bytes :=
  if len <=? Z.of_nat (length sql) then mret (take (Z.to_nat len) sql) else undefined.

(** The part of [prepare_impl] that follows [new mylite_stmt()]. *)
Definition prepare_allocated (d s : nat) (text : bytes) (resolved_len : Z)
    : cmd world (Z * option nat * option Z) :=
  stmt ← mysql_stmt_init d;
  update_stmt s (with_stmt stmt) ;;
  match stmt with
  | None =>
      update_db d (fun x =>
        set_error x MYLITE_NOMEM "statement could not be allocated") ;;
      delete_mylite_stmt s ;;
      mret (MYLITE_NOMEM, None, None)
  | Some m =>
      mysql_stmt_attr_update_max_length m true ;;
      error ← mysql_stmt_prepare m text;
      if (error : bool) then
        set_mariadb_statement_error s ;;
        mysql_stmt_close m ;;
        update_stmt s (with_stmt None) ;;
        delete_mylite_stmt s ;;
        mret (MYLITE_ERROR, None, None)
      else
        ms ← get_mstmt m;
        let count := Z.to_nat (s_param_count ms) in
        update_stmt s (with_parameters (replicate count new_parameter)) ;;
        result ← bind_nulls s (seq 1 count);
        if negb (result =? MYLITE_OK) then
          mysql_stmt_close m ;;
          update_stmt s (with_stmt None) ;;
          delete_mylite_stmt s ;;
          mret (result, None, None)
        else
          update_db d (fun x =>
            with_active_statement_count x ((active_statement_count x + 1) mod 2 ^ 32)) ;;
          update_db d set_ok ;;
          mret (MYLITE_OK, Some s, Some resolved_len)
  end.

(** The result, [*out_stmt] and [*tail] as an offset from [sql]; [sql] is the
    memory the pointer leads to, [out_stmt] says that the caller gave a place
    for the statement. *)
Definition prepare_impl (db : option nat) (sql : option bytes) (sql_len : Z) (out_stmt : bool)
    : cmd world (Z * option nat * option Z) :=
  if negb out_stmt then mret (MYLITE_MISUSE, None, None)
  else
    match db, sql with
    | Some d, Some sql =>
        resolved_len ← (if sql_len =? MYLITE_NUL_TERMINATED then strlen sql else mret sql_len);
        if ULONG_MAX <? resolved_len then mret (MYLITE_MISUSE, None, None)
        else
          update_db d set_ok ;;
          text ← sql_view sql resolved_len;
          rejected ← reject_policy d text;
          if negb (rejected =? MYLITE_OK) then mret (MYLITE_ERROR, None, None)
          else if token_equals (identifier_token_at (collect_sql_policy_tokens text) 0) "CALL" then
            update_db d (fun x =>
              set_error x MYLITE_ERROR "prepared CALL statements are not supported by MyLite") ;;
            mret (MYLITE_ERROR, None, None)
          else
            s ← new_mylite_stmt d;
            prepare_allocated d s text resolved_len
    | _, _ => mret (MYLITE_MISUSE, None, None)
    end.

Definition mylite_prepare (db : option nat) (sql : option bytes) (sql_len : Z) (out_stmt : bool)
    : cmd world (Z * option nat * option Z) :=
  prepare_impl db sql sql_len out_stmt.

(** The part of [mylite_step] that executes the statement: [None] when the
    rows are to be fetched, else the result. *)
Definition step_execute (s d : nat) : cmd world (option Z) :=
  bind_result ← bind_parameters s;
  if negb (bind_result =? MYLITE_OK) then mret (Some bind_result)
  else
    initial_result_setup ← initialize_statement_results s true;
    if negb (initial_result_setup =? MYLITE_OK) then mret (Some initial_result_setup)
    else
      m ← mstmt_of s;
      error ← mysql_stmt_execute m;
      if (error : bool) then set_mariadb_statement_error s ;; mret (Some MYLITE_ERROR)
      else
        ms ← get_mstmt m;
        update_db d (fun x => with_effects x 0 (s_insert_id ms)) ;;
        update_stmt s (with_executed true) ;;
        st ← get_stmt s;
        result_setup ← (if negb (has_result st) && negb (s_field_count ms =? 0)
                        then initialize_statement_results s false else mret MYLITE_OK);
        if negb (result_setup =? MYLITE_OK) then mret (Some result_setup)
        else
          st ← get_stmt s;
          if has_result st then mret None
          else
            ms ← get_mstmt m;
            update_db d (fun x =>
              with_effects x (changes_of false (s_affected_rows ms)) (last_insert_id x)) ;;
            mret (Some MYLITE_DONE).

Definition mylite_step (stmt : option nat) : cmd world Z :=
  with_statement MYLITE_MISUSE stmt (fun s =>
    d ← db_of s;
    update_db d set_ok ;;
    st ← get_stmt s;
    answer ← (if negb (executed st) then step_execute s d else mret None);
    match answer with
    | Some result => mret result
    | None =>
        st ← get_stmt s;
        if has_result st then fetch_statement_row s else mret MYLITE_DONE
    end).

Definition mylite_reset (stmt : option nat) : cmd world Z :=
  with_statement MYLITE_MISUSE stmt (fun s =>
    d ← db_of s;
    update_db d set_ok ;;
    release_statement_results s ;;
    m ← mstmt_of s;
    error ← mysql_stmt_reset m;
    if (error : bool) then set_mariadb_statement_error s ;; mret MYLITE_ERROR
    else
      update_stmt s (fun st => with_has_row false (with_has_result false (with_executed false st))) ;;
      mret MYLITE_OK).

Definition mylite_finalize (stmt_ : option nat) : cmd world Z :=
  match stmt_ with
  | None => mret MYLITE_OK
  | Some s =>
      release_statement_results s ;;
      st ← get_stmt s;
      match stmt st with
      | Some m => mysql_stmt_close m ;; mret tt
      | None => mret tt
      end ;;
      match db st with
      | Some d =>
          update_db d (fun x =>
            if 0 <? active_statement_count x
            then with_active_statement_count x (active_statement_count x - 1) else x)
      | None => mret tt
      end ;;
      delete_mylite_stmt s ;;
      mret MYLITE_OK
  end.

(** ** Columns *)

Definition metadata_column_at (stmt : option nat) (column : Z) : cmd world (option ResultColumn) :=
  match stmt with
  | None => mret None
  | Some s =>
      st ← get_stmt s;
      mret (if Z.of_nat (length (columns st)) <=? column then None
            else columns st !! Z.to_nat column)
  end.

Definition value_column_at (stmt : option nat) (column : Z) : cmd world (option ResultColumn) :=
  match stmt with
  | None => mret None
  | Some s =>
      st ← get_stmt s;
      mret (if negb (has_row st) || (Z.of_nat (length (columns st)) <=? column) then None
            else columns st !! Z.to_nat column)
  end.

Definition mylite_column_count (stmt_ : option nat) : cmd world Z :=
  match stmt_ with
  | None => mret 0
  | Some s =>
      st ← get_stmt s;
      match stmt st, columns st with
      | None, _ => mret 0
      | Some m, [] => ms ← get_mstmt m; mret (s_field_count ms)
      | Some _, _ => mret (Z.of_nat (length (columns st)) mod 2 ^ 32)
      end
  end.

Definition mylite_column_name (stmt : option nat) (column : Z) : cmd world (option bytes) :=
  c ← metadata_column_at stmt column; mret (c_name <$> c).
Definition mylite_column_org_name (stmt : option nat) (column : Z) : cmd world (option bytes) :=
  c ← metadata_column_at stmt column; mret (c_org_name <$> c).
Definition mylite_column_table (stmt : option nat) (column : Z) : cmd world (option bytes) :=
  c ← metadata_column_at stmt column; mret (c_table <$> c).
Definition mylite_column_org_table (stmt : option nat) (column : Z) : cmd world (option bytes) :=
  c ← metadata_column_at stmt column; mret (c_org_table <$> c).

Definition mylite_column_type (stmt : option nat) (column : Z) : cmd world mylite_value_type :=
  c ← metadata_column_at stmt column;
  mret (match c with Some c => column_type c | None => MYLITE_TYPE_NULL end).

(** A pointer to the storage of the column. *)
Definition mylite_column_text (stmt : option nat) (column : Z) : cmd world (option nat) :=
  c ← value_column_at stmt column;
  mret (match c with
        | Some c => if negb (c_is_null c =? 0) then None else c_buffer c
        | None => None
        end).
Definition mylite_column_blob (stmt : option nat) (column : Z) : cmd world (option nat) :=
  c ← value_column_at stmt column;
  mret (match c with
        | Some c => if negb (c_is_null c =? 0) then None else c_buffer c
        | None => None
        end).

Definition mylite_column_bytes (stmt : option nat) (column : Z) : cmd world Z :=
  c ← value_column_at stmt column;
  mret (match c with
        | Some c => if negb (c_is_null c =? 0) then 0 else c_length c
        | None => 0
        end).

(** The C string at the start of a buffer. *)
Definition read_c_string (b : nat) : cmd world bytes :=
  data ← get_buffer b;
  if existsb (Ascii.eqb zero) data then mret (c_str data) else undefined.

Definition convert_text (convert : bytes -> Z) (stmt : option nat) (column : Z) : cmd world Z :=
  text ← mylite_column_text stmt column;
  match text with
  | Some b => t ← read_c_string b; mret (convert t)
  | None => mret 0
  end.

Definition mylite_column_int64 : option nat -> Z -> cmd world Z := convert_text strtoll.
Definition mylite_column_uint64 : option nat -> Z -> cmd world Z := convert_text strtoull.
Definition mylite_column_double : option nat -> Z -> cmd world Z := convert_text strtod.
End statement.
