(* ===== verification/Frames.v ===== *)
(** * What a command leaves alone

    [steps R m] says that the states before and after [m] are related by the
    preorder [R], however [m] ends.  [client_frame] is what every function of
    the MariaDB client library respects: it works on connections, statements
    and buffers, and leaves the handles, the runtime and the operating system
    apart from the file tree as they are. *)

From S2P Require Import Prelude Api Effects System World BinaryRow ClientQuery ClientStmt.
From stdpp Require Import options.
Set Default Proof Using "Type*".

Definition steps {S A} (R : S -> S -> Prop) (m : cmd S A) : Prop := forall s, R s (snd (m s)).

Section steps.
  Context {S : Type} (R : S -> S -> Prop) `{!PreOrder R}.

Lemma steps_ret {A} (a : A) : steps R (mret a).
Proof. intros s. reflexivity. Qed.
Lemma steps_undefined {A} : steps R (undefined : cmd S A).
Proof. intros s. reflexivity. Qed.
Lemma steps_throw {A} e : steps R (throw e : cmd S A).
Proof. intros s. reflexivity. Qed.
Lemma steps_out_of_fuel {A} : steps R (out_of_fuel : cmd S A).
Proof. intros s. reflexivity. Qed.
Lemma steps_gets {A} (f : S -> A) : steps R (gets f).
Proof. intros s. reflexivity. Qed.
Lemma steps_deref {A} (p : S -> option A) : steps R (deref p).
Proof. intros s. unfold deref. destruct (p s); reflexivity. Qed.
Lemma steps_modify f : (forall s, R s (f s)) -> steps R (modify f).
Proof using Type. intros Hf s. apply Hf. Qed.

Lemma steps_bind {A B} (m : cmd S A) (f : A -> cmd S B) :
  steps R m -> (forall a, steps R (f a)) -> steps R (mbind f m).
Proof.
  intros Hm Hf s. specialize (Hm s). unfold mbind, cmd_bind.
  destruct (m s) as [[a|e| |] s']; simpl in *; try done.
  by transitivity s'; [|apply Hf].
Qed.

Lemma steps_try_catch {A} (m : cmd S A) h :
  steps R m -> (forall e, steps R (h e)) -> steps R (try_catch m h).
Proof.
  intros Hm Hh s. specialize (Hm s). unfold try_catch.
  destruct (m s) as [[a|e| |] s']; simpl in *; try done.
  by transitivity s'; [|apply Hh].
Qed.

Lemma steps_mono {A} (Q : S -> S -> Prop) (m : cmd S A) :
  (forall s s', Q s s' -> R s s') -> steps Q m -> steps R m.
Proof using Type. unfold steps. auto. Qed.
End steps.

Lemma steps_zoom {S T A} (R : S -> S -> Prop) (RT : T -> T -> Prop) (g : S -> T) st (m : cmd T A) :
  (forall s t, RT (g s) t -> R s (st t s)) -> steps RT m -> steps R (zoom g st m).
Proof. intros Hst Hm s. unfold zoom. specialize (Hm (g s)). destruct (m (g s)). by apply Hst. Qed.

Create HintDb steps discriminated.

Ltac steps_leaf :=
  first [ apply steps_ret | apply steps_undefined | apply steps_throw | apply steps_out_of_fuel
        | apply steps_gets | apply steps_deref ]; exact _.

(** Follows the structure of a command; what it cannot do is left. *)
Ltac steps_step :=
  match goal with
  | |- steps _ (mbind _ _) => apply steps_bind; [exact _| |intros ?]
  | |- steps _ (try_catch _ _) => apply steps_try_catch; [exact _| |intros ?]
  | |- steps _ (match ?x with _ => _ end) => destruct x
  | |- steps _ (let '_ := ?x in _) => destruct x
  | |- steps _ _ => first [steps_leaf | solve [auto with steps]]
  end.
Ltac steps_auto := intros; repeat steps_step.

(** ** The frame of the client library *)

Section client_frame.
  Context `{Server}.

Record client_frame (w w' : world) : Prop := mkClientFrame {
  frame_dbs : dbs w' = dbs w;
  frame_runtime : runtime w' = runtime w;
  frame_runtime_counter : runtime_counter w' = runtime_counter w;
  frame_client_init : mysql_client_init w' = mysql_client_init w;
  frame_sys : exists fs, sys w' = set_files fs (sys w);
  frame_stmts : with_columns [] <$> stmts w' = with_columns [] <$> stmts w;
  frame_next : next_address w <= next_address w';
  frame_connections : dom (connections w) ⊆ dom (connections w');
}.

#[global] Instance client_frame_preorder : PreOrder client_frame.
Proof.
  split.
  - intros w. split; try done. exists (files (sys w)). by destruct (sys w).
  - intros w1 w2 w3 [? ? ? ? [fs1 Hs1] ? ? ?] [? ? ? ? [fs2 Hs2] ? ? ?].
    split; try congruence; [|lia|set_solver]. exists fs2. by rewrite Hs2, Hs1.
Qed.

(** States that differ in one component the frame does not mention. *)
Lemma client_frame_put_connection d x w :
  client_frame w (set_connections (<[d := x]> (connections w)) w).
Proof.
  split; try done; [exists (files (sys w)); by destruct w as [? ? ? ? ? ? ? ? ? []]|].
  simpl. rewrite dom_insert. set_solver.
Qed.
Lemma client_frame_set_mysql_stmts v w : client_frame w (set_mysql_stmts v w).
Proof. split; try done. exists (files (sys w)). by destruct w as [? ? ? ? ? ? ? ? ? []]. Qed.
Lemma client_frame_set_buffers v w : client_frame w (set_buffers v w).
Proof. split; try done. exists (files (sys w)). by destruct w as [? ? ? ? ? ? ? ? ? []]. Qed.
Lemma client_frame_set_allocations v w : client_frame w (set_allocations v w).
Proof. split; try done. exists (files (sys w)). by destruct w as [? ? ? ? ? ? ? ? ? []]. Qed.
Lemma client_frame_set_server_state v fs w : client_frame w (set_server_state v fs w).
Proof. split; try done. by exists fs. Qed.
End client_frame.
#[export] Hint Resolve client_frame_preorder client_frame_put_connection
  client_frame_set_mysql_stmts client_frame_set_buffers client_frame_set_allocations
  client_frame_set_server_state : steps.

Section client_frames.
  Context `{Server}.
  Abbreviation framed m := (steps client_frame m).

Lemma framed_put_mysql d x : framed (put_mysql d x).
Proof. apply steps_modify. auto with steps. Qed.
Lemma framed_put_mstmt m x : framed (put_mstmt m x).
Proof. apply steps_modify. auto with steps. Qed.
Lemma framed_put_buffer b x : framed (put_buffer b x).
Proof. apply steps_modify. auto with steps. Qed.
Lemma framed_free_buffer b : framed (free_buffer b).
Proof. destruct b; [apply steps_modify; auto with steps|steps_leaf]. Qed.
Hint Resolve framed_put_mysql framed_put_mstmt framed_put_buffer framed_free_buffer : steps.

Lemma framed_update_mysql d f : framed (update_mysql d f).
Proof. unfold update_mysql, get_mysql. steps_auto. Qed.
Lemma framed_update_mstmt m f : framed (update_mstmt m f).
Proof. unfold update_mstmt, get_mstmt. steps_auto. Qed.
Lemma framed_get_mysql d : framed (get_mysql d).
Proof. unfold get_mysql. steps_auto. Qed.
Lemma framed_get_mstmt m : framed (get_mstmt m).
Proof. unfold get_mstmt. steps_auto. Qed.
Lemma framed_get_buffer b : framed (get_buffer b).
Proof. unfold get_buffer. steps_auto. Qed.
Lemma framed_get_thd d : framed (get_thd d).
Proof. unfold get_thd. steps_auto. Qed.
Lemma framed_allocate : framed allocate.
Proof. intros w. unfold allocate. destruct (allocations w); simpl; auto with steps. reflexivity. Qed.
Lemma framed_fresh_address : framed fresh_address.
Proof.
  intros w. split; simpl; try done; [|lia].
  exists (files (sys w)). by destruct w as [? ? ? ? ? ? ? ? ? []].
Qed.
Lemma framed_on_server {A} (f : server -> filesystem -> A * server * filesystem) :
  framed (on_server f).
Proof.
  intros w. unfold on_server. destruct (f (server_state w) (files (sys w))) as [[a s] fs].
  apply client_frame_set_server_state.
Qed.
Hint Resolve framed_update_mysql framed_update_mstmt framed_get_mysql framed_get_mstmt
  framed_get_buffer framed_get_thd framed_allocate framed_fresh_address framed_on_server : steps.

(** *** Connections and queries *)

Lemma framed_put_thd d t : framed (put_thd d t).
Proof. unfold put_thd. auto with steps. Qed.
Hint Resolve framed_put_thd : steps.
Lemma framed_free_embedded_thd d : framed (free_embedded_thd d).
Proof. unfold free_embedded_thd. steps_auto. Qed.
Lemma framed_emb_flush_use_result d : framed (emb_flush_use_result d).
Proof. unfold emb_flush_use_result. steps_auto. Qed.
Lemma framed_emb_read_query_result d : framed (emb_read_query_result d).
Proof. unfold emb_read_query_result. steps_auto. Qed.
Lemma framed_emb_read_rows d : framed (emb_read_rows d).
Proof. unfold emb_read_rows. steps_auto. Qed.
Hint Resolve framed_free_embedded_thd framed_emb_flush_use_result framed_emb_read_query_result
  framed_emb_read_rows : steps.
Lemma framed_emb_advanced_command d c b : framed (emb_advanced_command d c b).
Proof. unfold emb_advanced_command, mysql_reconnect, THD_clear_data_list. steps_auto. Qed.
Hint Resolve framed_emb_advanced_command : steps.
Lemma framed_mysql_close d : framed (mysql_close d).
Proof.
  unfold mysql_close, mysql_detach_stmt_list. steps_auto. apply steps_modify. auto with steps.
Qed.
Hint Resolve framed_mysql_close : steps.
Lemma framed_mysql_real_connect d : framed (mysql_real_connect d).
Proof. unfold mysql_real_connect. steps_auto. Qed.
Lemma framed_mysql_query d q : framed (mysql_query d q).
Proof. unfold mysql_query. steps_auto. Qed.
Lemma framed_mysql_store_result d : framed (mysql_store_result d).
Proof. unfold mysql_store_result. steps_auto. Qed.
Lemma framed_mysql_next_result d : framed (mysql_next_result d).
Proof. unfold mysql_next_result. steps_auto. Qed.
Hint Resolve framed_mysql_real_connect framed_mysql_query framed_mysql_store_result
  framed_mysql_next_result : steps.
End client_frames.
#[export] Hint Resolve framed_put_mysql framed_put_mstmt framed_put_buffer framed_free_buffer
  framed_update_mysql framed_update_mstmt framed_get_mysql framed_get_mstmt
  framed_get_buffer framed_get_thd framed_allocate framed_fresh_address framed_on_server
  framed_put_thd framed_free_embedded_thd framed_emb_flush_use_result
  framed_emb_read_query_result framed_emb_read_rows framed_emb_advanced_command
  framed_mysql_close framed_mysql_real_connect framed_mysql_query framed_mysql_store_result
  framed_mysql_next_result : steps.

Section statement_frames.
  Context `{Server}.
  Abbreviation framed m := (steps client_frame m).

(** Writing a member of a column keeps everything else of the statement. *)
Lemma framed_update_column s g i f : framed (update_column s g i f).
Proof.
  unfold update_column, update_stmt, get_stmt. intros w.
  unfold mbind, cmd_bind, deref. destruct (column_of w s g i) as [c|]; [|reflexivity].
  destruct (stmts w !! s) as [st|] eqn:Hst; [|reflexivity].
  split; try done.
  - exists (files (sys w)). by destruct w as [? ? ? ? ? ? ? ? ? []].
  - simpl. rewrite fmap_insert. simpl. apply insert_id.
    by rewrite lookup_fmap, Hst.
Qed.
Hint Resolve framed_update_column : steps.

Lemma framed_read_member p own f g b : framed (read_member p own f g b).
Proof. unfold read_member. steps_auto. Qed.
Hint Resolve framed_read_member : steps.
Lemma framed_read_length b : framed (read_length b).
Proof. apply framed_read_member. Qed.
Lemma framed_read_is_null b : framed (read_is_null b).
Proof. apply framed_read_member. Qed.
Lemma framed_read_error b : framed (read_error b).
Proof. apply framed_read_member. Qed.
Lemma framed_write_length v b : framed (write_length v b).
Proof. unfold write_length. steps_auto. Qed.
Lemma framed_write_is_null v b : framed (write_is_null v b).
Proof. unfold write_is_null. steps_auto. Qed.
Lemma framed_write_error v b : framed (write_error v b).
Proof. unfold write_error. steps_auto. Qed.
Lemma framed_write_buffer p o data : framed (write_buffer p o data).
Proof. unfold write_buffer. steps_auto. Qed.
Hint Resolve framed_read_length framed_read_is_null framed_read_error framed_write_length
  framed_write_is_null framed_write_error framed_write_buffer : steps.

Lemma framed_run_fetch_result_with_conversion b f row :
  framed (run_fetch_result_with_conversion b f row).
Proof. unfold run_fetch_result_with_conversion, fetch_string_with_conversion. steps_auto. Qed.
Hint Resolve framed_run_fetch_result_with_conversion : steps.
Lemma framed_run_fetch_result b f row : framed (run_fetch_result b f row).
Proof. unfold run_fetch_result, run_fetch_result_string. steps_auto. Qed.
Hint Resolve framed_run_fetch_result : steps.

Lemma framed_setup_one_fetch_function b f : framed (setup_one_fetch_function b f).
Proof. unfold setup_one_fetch_function. steps_auto. Qed.
Hint Resolve framed_setup_one_fetch_function : steps.
Lemma framed_setup_binds bs fs : framed (setup_binds bs fs).
Proof.
  revert fs. induction bs as [|b bs IH]; intros fs; simpl; [steps_auto|].
  destruct fs; steps_auto.
Qed.
Hint Resolve framed_setup_binds : steps.
Lemma framed_mysql_stmt_bind_result m bs : framed (mysql_stmt_bind_result m bs).
Proof. unfold mysql_stmt_bind_result. steps_auto. Qed.
Lemma framed_mysql_stmt_bind_param m bs : framed (mysql_stmt_bind_param m bs).
Proof. unfold mysql_stmt_bind_param. steps_auto. Qed.
Hint Resolve framed_mysql_stmt_bind_result framed_mysql_stmt_bind_param : steps.
Lemma framed_read_params bs : framed (read_params bs).
Proof. induction bs as [|b bs IH]; simpl; unfold read_param; steps_auto. Qed.
Hint Resolve framed_read_params : steps.

Lemma framed_emb_unbuffered_fetch d : framed (emb_unbuffered_fetch d).
Proof. unfold emb_unbuffered_fetch. steps_auto. Qed.
Hint Resolve framed_emb_unbuffered_fetch : steps.
Lemma framed_read_row_unbuffered m : framed (read_row_unbuffered m).
Proof. unfold read_row_unbuffered. steps_auto. Qed.
Lemma framed_read_row_buffered m : framed (read_row_buffered m).
Proof. unfold read_row_buffered. steps_auto. Qed.
Hint Resolve framed_read_row_unbuffered framed_read_row_buffered : steps.
Lemma framed_fetch_columns bs fs nulls bit row : framed (fetch_columns bs fs nulls bit row).
Proof.
  revert fs nulls bit row. induction bs as [|b bs IH]; intros fs nulls bit row; simpl; [steps_auto|].
  destruct fs, nulls; steps_auto.
Qed.
Hint Resolve framed_fetch_columns : steps.
Lemma framed_mysql_stmt_fetch m : framed (mysql_stmt_fetch m).
Proof. unfold mysql_stmt_fetch, run_read_row_func, stmt_fetch_row. steps_auto. Qed.
Lemma framed_mysql_stmt_fetch_column m b c o : framed (mysql_stmt_fetch_column m b c o).
Proof. unfold mysql_stmt_fetch_column. steps_auto. Qed.
Hint Resolve framed_mysql_stmt_fetch framed_mysql_stmt_fetch_column : steps.

Lemma framed_alloc_stmt_fields m c : framed (alloc_stmt_fields m c).
Proof. unfold alloc_stmt_fields. steps_auto. Qed.
Lemma framed_refresh_binds bs fs : framed (refresh_binds bs fs).
Proof.
  revert fs. induction bs as [|b bs IH]; intros fs; simpl; [steps_auto|]. destruct fs; steps_auto.
Qed.
Hint Resolve framed_alloc_stmt_fields framed_refresh_binds : steps.
Lemma framed_update_stmt_fields m c : framed (update_stmt_fields m c).
Proof. unfold update_stmt_fields. steps_auto. Qed.
Hint Resolve framed_update_stmt_fields : steps.
Lemma framed_reinit_result_set_metadata m c : framed (reinit_result_set_metadata m c).
Proof. unfold reinit_result_set_metadata. steps_auto. Qed.
Lemma framed_prepare_to_fetch_result m d : framed (prepare_to_fetch_result m d).
Proof. unfold prepare_to_fetch_result. steps_auto. Qed.
Lemma framed_mysql_stmt_result_metadata m : framed (mysql_stmt_result_metadata m).
Proof. unfold mysql_stmt_result_metadata. steps_auto. Qed.
Lemma framed_release_connection m d : framed (release_connection m d).
Proof. unfold release_connection. steps_auto. Qed.
Hint Resolve framed_reinit_result_set_metadata framed_prepare_to_fetch_result
  framed_mysql_stmt_result_metadata framed_release_connection : steps.

Lemma framed_reset_stmt_handle_with drain m flags :
  (forall m d, framed (drain m d)) -> framed (reset_stmt_handle_with drain m flags).
Proof. intros Hdrain. unfold reset_stmt_handle_with. steps_auto. Qed.
Lemma framed_mysql_stmt_next_result m : framed (mysql_stmt_next_result m).
Proof.
  unfold mysql_stmt_next_result. steps_auto.
  apply framed_reset_stmt_handle_with. steps_auto.
Qed.
Hint Resolve framed_mysql_stmt_next_result : steps.
Lemma framed_reset_stmt_handle m flags : framed (reset_stmt_handle m flags).
Proof.
  apply framed_reset_stmt_handle_with. intros m' d. unfold drain_all_results. steps_auto.
  generalize (S a). intros fuel. induction fuel; simpl; steps_auto.
Qed.
Hint Resolve framed_reset_stmt_handle : steps.
Lemma framed_mysql_stmt_free_result m : framed (mysql_stmt_free_result m).
Proof. unfold mysql_stmt_free_result. auto with steps. Qed.
Lemma framed_mysql_stmt_reset m : framed (mysql_stmt_reset m).
Proof. unfold mysql_stmt_reset. steps_auto. Qed.
Lemma framed_mysql_stmt_init d : framed (mysql_stmt_init d).
Proof. unfold mysql_stmt_init. steps_auto. Qed.
Lemma framed_mysql_stmt_attr_update_max_length m b :
  framed (mysql_stmt_attr_update_max_length m b).
Proof. unfold mysql_stmt_attr_update_max_length. steps_auto. Qed.
Lemma framed_mysql_stmt_prepare m q : framed (mysql_stmt_prepare m q).
Proof. unfold mysql_stmt_prepare, emb_read_prepare_result. steps_auto. Qed.
Lemma framed_mysql_stmt_execute m : framed (mysql_stmt_execute m).
Proof. unfold mysql_stmt_execute, emb_stmt_execute. steps_auto. Qed.
Lemma framed_mysql_stmt_store_result m : framed (mysql_stmt_store_result m).
Proof. unfold mysql_stmt_store_result. steps_auto. Qed.
Lemma framed_mysql_stmt_close m : framed (mysql_stmt_close m).
Proof. unfold mysql_stmt_close. steps_auto. all: try (apply steps_modify; auto with steps). Qed.
End statement_frames.
#[export] Hint Resolve framed_update_column framed_read_length framed_read_is_null
  framed_mysql_stmt_bind_result framed_mysql_stmt_bind_param framed_mysql_stmt_fetch
  framed_mysql_stmt_fetch_column framed_mysql_stmt_result_metadata framed_mysql_stmt_next_result
  framed_mysql_stmt_free_result framed_mysql_stmt_reset framed_mysql_stmt_init
  framed_mysql_stmt_prepare framed_mysql_stmt_execute framed_mysql_stmt_store_result
  framed_mysql_stmt_close framed_mysql_stmt_attr_update_max_length : steps.
