(* ===== verification/DirectoryFacts.v ===== *)
(** * What an open makes of a database directory

    On a file system that works, a directory that [prepare_database_directory]
    has created or accepted has the full layout, and every later open accepts
    it and leaves it as it is.  Without [MYLITE_OPEN_CREATE] nothing is ever
    written, whatever fails. *)

From S2P Require Import Prelude Api Effects SqlLexer System Directory Frames.
From stdpp Require Import options.

Local Open Scope Z_scope.

(** ** Paths *)

Lemma split_path_cons path : exists name names, split_path path = name :: names.
Proof.
  destruct path as [|c path]; [by do 2 eexists|]. simpl. destruct (Ascii.eqb c "/"); [by do 2 eexists|].
  destruct (split_path path); by do 2 eexists.
Qed.

Lemma split_path_app p q : split_path (p ++ "/"%char :: q) = split_path p ++ split_path q.
Proof.
  induction p as [|c p IH]; [done|]. simpl. destruct (Ascii.eqb c "/"); [by rewrite IH|].
  rewrite IH. by destruct (split_path_cons p) as (name & names & ->).
Qed.

(** A name that stands for itself. *)
Definition plain_name (name : bytes) : Prop :=
  split_path name = [name] /\ name <> [] /\ name <> str "." /\ name <> str "..".

Lemma path_append_names p name :
  plain_name name -> p <> [] ->
  exists names, split_path (path_append p name) = names ++ [name] /\
    (split_path p = names \/ split_path p = names ++ [[]]).
Proof.
  intros (Hname & _) Hp. destruct p as [|c p _] using rev_ind; [done|].
  unfold path_append. rewrite last_snoc. destruct (Ascii.eqb_spec c "/") as [->|Hc].
  - exists (split_path p). rewrite <- app_assoc. simpl. rewrite !split_path_app, Hname. by split; [|right].
  - exists (split_path (p ++ [c])). rewrite split_path_app, Hname. by split; [|left].
Qed.

Lemma walk_app fs dir a b :
  walk fs dir (a ++ b) = match walk fs dir a with Some dir => walk fs dir b | None => None end.
Proof.
  revert dir. induction a as [|name a IH]; intros dir; [done|]. simpl.
  by destruct (fs !! dir) as [[]|].
Qed.

Lemma walk_subset fs fs' dir names loc :
  fs ⊆ fs' -> walk fs dir names = Some loc -> walk fs' dir names = Some loc.
Proof.
  intros Hsub. revert dir. induction names as [|name names IH]; intros dir; [done|]. simpl.
  destruct (fs !! dir) as [[]|] eqn:Hdir; try done. intros Hwalk.
  rewrite (lookup_weaken _ _ _ _ Hdir Hsub). by apply IH.
Qed.

Lemma enter_plain dir name : plain_name name -> enter dir name = dir ++ [name].
Proof.
  intros (_ & H1 & H2 & H3). unfold enter. rewrite decide_False by (by intros [|]).
  by rewrite decide_False.
Qed.

Lemma walk_append fs dir p name loc :
  plain_name name -> p <> [] -> walk fs dir (split_path p) = Some loc -> fs !! loc = Some Dir ->
  walk fs dir (split_path (path_append p name)) = Some (loc ++ [name]).
Proof.
  intros Hname Hp Hwalk Hloc. destruct (path_append_names p name Hname Hp) as (names & -> & Hp').
  rewrite walk_app.
  assert (Hnames : walk fs dir names = Some loc).
  { destruct Hp' as [Hp'|Hp']; rewrite Hp' in Hwalk; [done|]. rewrite walk_app in Hwalk.
    destruct (walk fs dir names) as [d|]; [|done]. simpl in Hwalk.
    by destruct (fs !! d) as [[]|]. }
  rewrite Hnames. simpl. by rewrite Hloc, enter_plain.
Qed.

(** A path after an absolute or relative one, on the same file system. *)
Lemma resolve_append s p name loc :
  plain_name name -> p <> [] -> resolve s p = Some loc -> files s !! loc = Some Dir ->
  resolve s (path_append p name) = Some (loc ++ [name]).
Proof.
  intros Hname Hp. unfold resolve, path_names.
  assert (Habs : is_absolute (path_append p name) = is_absolute p).
  { unfold path_append. destruct p as [|c p]; [done|]. destruct (last (c :: p)) as [c'|] eqn:Hlast.
    - by destruct (Ascii.eqb c' "/").
    - by apply last_None in Hlast. }
  rewrite Habs. destruct (is_absolute p); [by apply walk_append|].
  rewrite !walk_app. destruct (walk (files s) [] (split_path (working_directory s))); [|done].
  by apply walk_append.
Qed.

(** ** Calls on a system where nothing fails *)

Definition reliable (s : system) : Prop := faults s = [].

(** What the calls may do: directories are added, no file appears. *)
Record grown (s s' : system) : Prop := mkGrown {
  gr_faults : reliable s -> reliable s';
  gr_working : working_directory s' = working_directory s;
  gr_files : files s ⊆ files s';
  gr_new : forall loc c, files s' !! loc = Some (File c) -> files s !! loc = Some (File c);
}.

#[global] Instance grown_preorder : PreOrder grown.
Proof.
  split; [by split|]. intros s1 s2 s3 [H1 H2 H3 H4] [H5 H6 H7 H8].
  split; [auto|congruence|by etransitivity|auto].
Qed.

Section reliable.
  Context (s : system) (Hs : reliable s).

Lemma status_reliable p :
  fs_status p s = (Ret (type_of_path s p, bool_decide (type_of_path s p = ft_not_found)), s).
Proof using Hs. unfold fs_status, take_fault, mbind, cmd_bind. by rewrite Hs. Qed.

Lemma exists_reliable p :
  fs_exists p s = (Ret (negb (bool_decide (type_of_path s p = ft_not_found)), false), s).
Proof using Hs.
  unfold fs_exists, mbind, cmd_bind. rewrite status_reliable. unfold type_of_path.
  by repeat case_match.
Qed.

Lemma is_directory_reliable p :
  fs_is_directory p s = (Ret (bool_decide (type_of_path s p = ft_directory),
                              bool_decide (type_of_path s p = ft_not_found)), s).
Proof using Hs. unfold fs_is_directory, mbind, cmd_bind. by rewrite status_reliable. Qed.

Lemma is_regular_reliable p :
  fs_is_regular_file p s = (Ret (bool_decide (type_of_path s p = ft_regular),
                                 bool_decide (type_of_path s p = ft_not_found)), s).
Proof using Hs. unfold fs_is_regular_file, mbind, cmd_bind. by rewrite status_reliable. Qed.
End reliable.

Lemma type_directory s p :
  type_of_path s p = ft_directory <-> exists loc, resolve s p = Some loc /\ files s !! loc = Some Dir.
Proof.
  unfold type_of_path. split.
  - destruct (resolve s p) as [loc|]; [|done]. intros Ht. exists loc. by destruct (files s !! loc) as [[]|].
  - intros (loc & -> & Hloc). by rewrite Hloc.
Qed.

Lemma type_regular s p :
  type_of_path s p = ft_regular <->
  exists loc c, resolve s p = Some loc /\ files s !! loc = Some (File c).
Proof.
  unfold type_of_path. split.
  - destruct (resolve s p) as [loc|]; [|done]. intros Ht. destruct (files s !! loc) as [[|c]|] eqn:Hf; try done.
    by exists loc, c.
  - intros (loc & c & -> & Hloc). by rewrite Hloc.
Qed.

Lemma resolve_grown s s' p loc : grown s s' -> resolve s p = Some loc -> resolve s' p = Some loc.
Proof.
  intros [_ Hw Hf _]. unfold resolve, path_names. rewrite Hw. by apply walk_subset.
Qed.

Lemma insert_directory_grown s loc :
  files s !! loc = None -> grown s (set_files (<[loc := Dir]> (files s)) s).
Proof.
  intros Hloc. split; try done; simpl.
  - by apply insert_subseteq.
  - intros loc' c [[_ ?]|[_ ?]]%lookup_insert_Some; done.
Qed.

Lemma make_directories_reliable names : forall dir s s',
  reliable s -> files s !! dir = Some Dir -> make_directories dir names s = (Ret false, s') ->
  grown s s' /\ exists loc, walk (files s') dir names = Some loc /\ files s' !! loc = Some Dir.
Proof.
  induction names as [|name names IH]; intros dir s s' Hs Hdir; simpl.
  { intros [= <-]. split; [done|]. by exists dir. }
  unfold mbind, cmd_bind, gets. rewrite Hdir.
  destruct (files s !! enter dir name) as [[]|] eqn:Hnext; [| |].
  - intros Hmake. destruct (IH _ _ _ Hs Hnext Hmake) as [Hg (loc & Hwalk & Hloc)]. split; [done|].
    exists loc. by rewrite (lookup_weaken _ _ _ _ Hdir (gr_files _ _ Hg)).
  - done.
  - unfold take_fault. rewrite Hs. simpl. intros Hmake.
    pose proof (insert_directory_grown s _ Hnext) as Hg1.
    destruct (IH _ _ _ (gr_faults _ _ Hg1 Hs) (lookup_insert_eq _ _ _) Hmake) as [Hg2 (loc & Hwalk & Hloc)].
    assert (Hg : grown s s') by (by etransitivity). split; [done|].
    exists loc. by rewrite (lookup_weaken _ _ _ _ Hdir (gr_files _ _ Hg)).
Qed.

Lemma create_directories_reliable p s s' :
  reliable s -> files s !! [] = Some Dir -> fs_create_directories p s = (Ret false, s') ->
  grown s s' /\ type_of_path s' p = ft_directory.
Proof.
  intros Hs Hroot. unfold fs_create_directories, mbind, cmd_bind, gets. rewrite status_reliable by done.
  destruct (type_of_path s p) eqn:Ht; try done.
  - intros Hmake. destruct (make_directories_reliable _ _ _ _ Hs Hroot Hmake) as [Hg (loc & Hwalk & Hloc)].
    split; [done|]. apply type_directory. exists loc. split; [|done].
    unfold resolve, path_names in *. by rewrite (gr_working _ _ Hg).
  - by intros [= <-].
Qed.

(** ** The layout of a database directory *)

Record layout_at (s : system) (p : bytes) (loc : location) : Prop := mkLayoutAt {
  la_resolve : resolve s p = Some loc;
  la_dir : files s !! loc = Some Dir;
  la_datadir : files s !! (loc ++ [k_datadir_name]) = Some Dir;
  la_tmpdir : files s !! (loc ++ [k_tmpdir_name]) = Some Dir;
  la_metadata : exists contents, files s !! (loc ++ [k_meta_filename]) = Some (File contents) /\
    metadata_flags (getlines contents) false false = (true, true);
}.

Definition has_layout (s : system) (p : bytes) : Prop := exists loc, layout_at s p loc.

Lemma layout_names : plain_name k_datadir_name /\ plain_name k_tmpdir_name /\ plain_name k_meta_filename.
Proof. by repeat split. Qed.

(** The layout, read off the paths below [p]. *)
Lemma has_layout_types s p loc :
  p <> [] -> resolve s p = Some loc -> files s !! loc = Some Dir ->
  resolve s (path_append p k_meta_filename) = Some (loc ++ [k_meta_filename]) /\
  (has_layout s p <->
   (exists c, files s !! (loc ++ [k_meta_filename]) = Some (File c) /\
      metadata_flags (getlines c) false false = (true, true)) /\
   type_of_path s (path_append p k_datadir_name) = ft_directory /\
   type_of_path s (path_append p k_tmpdir_name) = ft_directory).
Proof.
  intros Hp Hr Hd. destruct layout_names as (Hdn & Htn & Hmn).
  pose proof (resolve_append s p _ loc Hdn Hp Hr Hd) as Hrd.
  pose proof (resolve_append s p _ loc Htn Hp Hr Hd) as Hrt.
  split; [by apply resolve_append|]. rewrite !type_directory. split.
  - intros [loc' [Hr' _ Hdd Htd Hm]]. rewrite Hr in Hr'. injection Hr' as <-.
    split; [done|]. split; by eexists.
  - intros (Hm & (l1 & H1 & Hd1) & (l2 & H2 & Hd2)). rewrite Hrd in H1. rewrite Hrt in H2.
    injection H1 as <-. injection H2 as <-. by exists loc.
Qed.

Lemma validate_directory_reliable s p :
  reliable s ->
  validate_layout_directory p s =
  (Ret (if decide (type_of_path s p = ft_directory) then MYLITE_OK else MYLITE_CORRUPT), s).
Proof.
  intros Hs. unfold validate_layout_directory, mbind, cmd_bind.
  rewrite exists_reliable by done. destruct (type_of_path s p) eqn:Ht; simpl;
    rewrite ?is_directory_reliable, ?Ht by done; done.
Qed.

Lemma read_reliable s p loc c :
  reliable s -> resolve s p = Some loc -> files s !! loc = Some (File c) ->
  fs_read_file p s = (Ret (Contents c), s).
Proof.
  intros Hs Hr Hf. unfold fs_read_file, take_fault, gets, mbind, cmd_bind. rewrite Hs. simpl.
  rewrite Hr. simpl. by rewrite Hf, Hs.
Qed.

(** On a working file system the validation accepts exactly the layout. *)
Lemma validate_layout_ok s p :
  reliable s -> p <> [] -> type_of_path s p = ft_directory ->
  exists code, validate_database_layout p s = (Ret code, s) /\ (code = MYLITE_OK <-> has_layout s p).
Proof.
  intros Hs Hp (loc & Hr & Hd)%type_directory.
  destruct (has_layout_types s p loc Hp Hr Hd) as [Hrm Hiff]. setoid_rewrite Hiff.
  unfold validate_database_layout, mbind, cmd_bind. rewrite is_regular_reliable by done.
  destruct (decide (type_of_path s (path_append p k_meta_filename) = ft_regular)) as [Hm|Hm].
  2: { exists (if decide (type_of_path s (path_append p k_meta_filename) = ft_not_found)
               then MYLITE_IOERR else MYLITE_CORRUPT).
       split; [by revert Hm; destruct (type_of_path s (path_append p k_meta_filename))|]. split; [by destruct (decide _)|].
       intros [(c & Hc & _) _]. destruct Hm. apply type_regular. by do 2 eexists. }
  rewrite Hm. apply type_regular in Hm as (loc' & c & Hrm' & Hc). rewrite Hrm in Hrm'. injection Hrm' as <-.
  simpl. unfold validate_database_metadata, mbind, cmd_bind. rewrite (read_reliable s _ _ c) by done.
  destruct (metadata_flags (getlines c) false false) as [has_format has_base] eqn:Hflags.
  destruct (has_format && has_base) eqn:Hboth; simpl.
  2: { eexists. split; [done|]. split; [done|]. intros [(c' & Hc' & Hf) _].
       rewrite Hc in Hc'. injection Hc' as <-. rewrite Hf in Hflags. by injection Hflags as <- <-. }
  apply andb_true_iff in Hboth as [-> ->]. rewrite validate_directory_reliable by done.
  destruct (decide (type_of_path s (path_append p k_datadir_name) = _)) as [Hdd|Hdd]; simpl;
    [|by eexists; split; [done|]; split; [done|intros (_ & ? & _)]].
  rewrite validate_directory_reliable by done.
  destruct (decide (type_of_path s (path_append p k_tmpdir_name) = _)) as [Htd|Htd]; simpl;
    [|by eexists; split; [done|]; split; [done|intros (_ & _ & ?)]].
  eexists. split; [done|]. split; [|done]. intros _. split; [by exists c|done].
Qed.

(** ** Creating the layout *)

Lemma create_layout_reliable p s s' :
  reliable s -> files s !! [] = Some Dir -> create_layout_directory p s = (Ret tt, s') ->
  grown s s' /\ type_of_path s' p = ft_directory.
Proof.
  intros Hs Hroot. unfold create_layout_directory, mbind, cmd_bind.
  destruct (fs_create_directories p s) as [[[]|e| |] s1] eqn:Hc; try done.
  intros [= <-]. by apply create_directories_reliable.
Qed.

Lemma type_directory_grown s s' p :
  grown s s' -> type_of_path s p = ft_directory -> type_of_path s' p = ft_directory.
Proof.
  rewrite !type_directory. intros Hg (loc & Hr & Hloc). exists loc. split; [by eapply resolve_grown|].
  by apply (lookup_weaken _ _ _ _ Hloc (gr_files _ _ Hg)).
Qed.

Lemma write_metadata_reliable p s s' loc :
  reliable s -> resolve s p = Some loc -> files s !! loc = None ->
  write_database_metadata p s = (Ret tt, s') ->
  s' = set_files (<[loc := File metadata_text]> (files s)) s.
Proof.
  intros Hs Hr Hloc. unfold write_database_metadata, fs_create_file, fs_close_file, take_fault, gets,
    modify, mbind, cmd_bind. rewrite Hs. simpl. rewrite Hr, Hloc. simpl. rewrite Hs. simpl.
  assert (Hr' : resolve (set_files (<[loc := File []]> (files s)) s) p = Some loc).
  { unfold resolve, path_names in *. simpl. eapply walk_subset; [|exact Hr]. by apply insert_subseteq. }
  rewrite Hr'. intros [= <-]. unfold set_files. simpl. by rewrite insert_insert_eq.
Qed.

Lemma initialize_reliable p s s' loc :
  reliable s -> files s !! [] = Some Dir -> p <> [] -> resolve s p = Some loc ->
  files s !! loc = Some Dir -> (forall c, files s !! (loc ++ [k_meta_filename]) <> Some (File c)) ->
  initialize_database_layout p s = (Ret tt, s') -> has_layout s' p /\ reliable s'.
Proof.
  intros Hs Hroot Hp Hr Hd Hnone. unfold initialize_database_layout, mbind, cmd_bind.
  destruct (create_layout_directory (path_append p k_datadir_name) s) as [[[]|e| |] s1] eqn:H1; try done.
  apply create_layout_reliable in H1 as [Hg1 Ht1]; [|done..].
  destruct (create_layout_directory (path_append p k_tmpdir_name) s1) as [[[]|e| |] s2] eqn:H2; try done.
  apply create_layout_reliable in H2 as [Hg2 Ht2];
    [|by apply (gr_faults _ _ Hg1)|by apply (lookup_weaken _ _ _ _ Hroot (gr_files _ _ Hg1))].
  assert (Hg : grown s s2) by (by etransitivity). pose proof (gr_faults _ _ Hg Hs) as Hs2.
  assert (Hd2 : files s2 !! loc = Some Dir) by (by apply (lookup_weaken _ _ _ _ Hd (gr_files _ _ Hg))).
  destruct (has_layout_types s2 p loc Hp (resolve_grown _ _ _ _ Hg Hr) Hd2) as [Hrm _].
  rewrite exists_reliable by done. pose proof (eq_refl (type_of_path s2 (path_append p k_meta_filename))) as Ht.
  unfold type_of_path in Ht at 2. rewrite Hrm in Ht.
  destruct (files s2 !! (loc ++ [k_meta_filename])) as [[|c]|] eqn:Hm; rewrite Ht; simpl.
  - by rewrite is_regular_reliable, Ht by done.
  - destruct (Hnone c). by apply (gr_new _ _ Hg).
  - intros Hw. pose proof (write_metadata_reliable _ _ _ _ Hs2 Hrm Hm Hw) as ->.
    assert (Hkeep : forall l, files s2 !! l = Some Dir ->
      <[loc ++ [k_meta_filename] := File metadata_text]> (files s2) !! l = Some Dir).
    { intros l Hl. rewrite lookup_insert_ne; [done|]. intros Heq. congruence. }
    assert (Hres : forall q l, resolve s2 q = Some l -> resolve (set_files (<[loc ++ [k_meta_filename] :=
      File metadata_text]> (files s2)) s2) q = Some l).
    { intros q l. apply walk_subset. by apply insert_subseteq. }
    split; [|done]. apply (has_layout_types _ p loc); [done|by eapply Hres, resolve_grown|by apply Hkeep|].
    split; [exists metadata_text; split; [apply lookup_insert_eq|by vm_compute]|].
    apply (type_directory_grown _ _ _ Hg2) in Ht1. rewrite !type_directory in *.
    destruct Ht1 as (l1 & ? & ?), Ht2 as (l2 & ? & ?). split; eexists; eauto.
Qed.

(** ** Opening a directory *)

(** Everything in the tree is in a directory. *)
Definition tree_ok (fs : filesystem) : Prop :=
  fs !! [] = Some Dir /\ forall loc name n, fs !! (loc ++ [name]) = Some n -> fs !! loc = Some Dir.

(** A path that does not go up. *)
Definition straight (s : system) (p : bytes) : Prop := str ".." ∉ path_names s p.

Lemma tree_prefix fs rest : tree_ok fs -> forall dir,
  fs !! (dir ++ rest) = Some Dir -> fs !! dir = Some Dir.
Proof.
  intros [_ Htree]. induction rest as [|name rest IH] using rev_ind; intros dir Hf; [by rewrite app_nil_r in Hf|].
  rewrite app_assoc in Hf. apply IH. by eapply Htree.
Qed.

Lemma enter_straight dir name : name <> str ".." -> exists rest, enter dir name = dir ++ rest.
Proof.
  intros Hname. unfold enter. destruct (decide _); [exists []; by rewrite app_nil_r|].
  rewrite decide_False by done. by exists [name].
Qed.

(** A directory that was there before is where the path led before. *)
Lemma walk_before fs fs' names : tree_ok fs -> forall dir loc,
  str ".." ∉ names -> walk fs' dir names = Some loc -> fs !! loc = Some Dir ->
  walk fs dir names = Some loc /\ fs !! dir = Some Dir.
Proof.
  intros Htree. induction names as [|name names IH]; intros dir loc Hup; simpl; [by intros [= ->]|].
  apply not_elem_of_cons in Hup as [Hname Hup]. destruct (fs' !! dir) as [[]|]; try done.
  intros Hwalk Hloc. destruct (IH _ _ Hup Hwalk Hloc) as [Hwalk' Hnext].
  destruct (enter_straight dir name) as [rest Hrest]; [done|].
  assert (Hdir : fs !! dir = Some Dir) by (rewrite Hrest in Hnext; by eapply tree_prefix).
  by rewrite Hdir.
Qed.

Lemma empty_reliable s p :
  reliable s ->
  exists empty error, database_directory_is_empty p s = (Ret (empty, error), s).
Proof.
  intros Hs. unfold database_directory_is_empty, fs_directory_iterator, take_fault, gets, mbind, cmd_bind.
  rewrite Hs. simpl. destruct (resolve s p) as [loc|]; [|by do 2 eexists].
  destruct (files s !! loc) as [[]|]; by do 2 eexists.
Qed.

Lemma prepare_existing_creates p flags s s' :
  reliable s -> tree_ok (files s) -> p <> [] -> type_of_path s p = ft_directory ->
  prepare_existing_database_directory p flags s = (Ret MYLITE_OK, s') -> has_layout s' p /\ reliable s'.
Proof.
  intros Hs [Hroot _] Hp Hdir. unfold prepare_existing_database_directory, mbind, cmd_bind.
  rewrite exists_reliable by done.
  pose proof Hdir as (loc & Hr & Hloc)%type_directory.
  destruct (has_layout_types s p loc Hp Hr Hloc) as [Hrm _].
  destruct (decide (type_of_path s (path_append p k_meta_filename) = ft_not_found)) as [Hm|Hm].
  - rewrite Hm. simpl. destruct (empty_reliable s p Hs) as (empty & error & ->).
    destruct error; [done|]. destruct empty; simpl; [|done].
    destruct (has_flag flags MYLITE_OPEN_CREATE); [|done].
    destruct (initialize_database_layout p s) as [[[]|e| |] s1] eqn:Hi; try done. intros [= <-].
    eapply (initialize_reliable p s s1 loc); try done.
    intros c Hc. unfold type_of_path in Hm. by rewrite Hrm, Hc in Hm.
  - rewrite bool_decide_eq_false_2 by done. simpl.
    destruct (validate_layout_ok s p Hs Hp Hdir) as (code & -> & Hcode).
    destruct (Z.eqb_spec code MYLITE_OK) as [Heq|Hne]; simpl; [intros [= <-]|intros [= Heq _]; done].
    split; [by apply Hcode|done].
Qed.

Lemma prepare_creates p flags s s' :
  reliable s -> tree_ok (files s) -> straight s p -> p <> [] -> is_memory_database_path p = false ->
  prepare_database_directory p flags s = (Ret MYLITE_OK, s') -> has_layout s' p /\ reliable s'.
Proof.
  intros Hs Htree Hup Hp Hmem. unfold prepare_database_directory, mbind, cmd_bind.
  rewrite Hmem, exists_reliable by done. destruct (_ && _); [done|]. destruct (_ && _); [done|].
  destruct (decide (type_of_path s p = ft_not_found)) as [Hnf|Hf].
  - rewrite Hnf. simpl. destruct (fs_create_directories p s) as [[[]|e| |] s1] eqn:Hc; try done.
    destruct (initialize_database_layout p s1) as [[[]|e| |] s2] eqn:Hi; try done. intros [= <-].
    destruct (create_directories_reliable _ _ _ Hs (proj1 Htree) Hc) as [Hg (loc & Hr & Hd)%type_directory].
    eapply (initialize_reliable p s1 s2 loc); try done; [by apply Hg| |].
    + by apply (lookup_weaken _ _ _ _ (proj1 Htree) (gr_files _ _ Hg)).
    + intros c Hfile%(gr_new _ _ Hg). apply (proj2 Htree) in Hfile.
      unfold resolve in Hr. replace (path_names s1 p) with (path_names s p) in Hr
        by (unfold path_names; by rewrite (gr_working _ _ Hg)).
      destruct (walk_before _ _ _ Htree _ _ Hup Hr Hfile) as [Hwalk _].
      unfold type_of_path, resolve in Hnf. by rewrite Hwalk, Hfile in Hnf.
  - rewrite bool_decide_eq_false_2 by done. simpl. rewrite is_directory_reliable by done.
    destruct (decide (type_of_path s p = ft_directory)) as [Hd|Hd].
    + rewrite Hd. simpl. by apply prepare_existing_creates.
    + rewrite (bool_decide_eq_false_2 _ Hd), orb_true_r. done.
Qed.

Lemma prepare_accepts p flags s :
  reliable s -> p <> [] -> is_memory_database_path p = false -> has_layout s p ->
  prepare_database_directory p flags s =
  (Ret (if has_flag flags MYLITE_OPEN_EXCLUSIVE then MYLITE_ERROR else MYLITE_OK), s).
Proof.
  intros Hs Hp Hmem Hl. destruct Hl as [loc Hl].
  assert (Hd : type_of_path s p = ft_directory) by (apply type_directory; exists loc; split; apply Hl).
  assert (Hm : type_of_path s (path_append p k_meta_filename) = ft_regular).
  { destruct (has_layout_types s p loc Hp) as [Hrm _]; [apply Hl..|].
    destruct (la_metadata _ _ _ Hl) as (c & Hc & _). apply type_regular. by do 2 eexists. }
  unfold prepare_database_directory, mbind, cmd_bind. rewrite Hmem, exists_reliable, Hd by done. simpl.
  destruct (has_flag flags MYLITE_OPEN_EXCLUSIVE); simpl; [done|].
  rewrite is_directory_reliable, Hd by done. simpl.
  unfold prepare_existing_database_directory, mbind, cmd_bind. rewrite exists_reliable, Hm by done. simpl.
  destruct (validate_layout_ok s p Hs Hp Hd) as (code & -> & Hcode).
  by rewrite (proj2 Hcode) by (by exists loc).
Qed.


(** An empty file system. *)
Definition bare_system (faults : list fault) : system :=
  mkSystem {[ [] := Dir ]} faults (str "/") (str "/tmp") ∅ [] 0 [].

Lemma bare_tree_ok : tree_ok {[ [] := Dir ]}.
Proof.
  split; [by vm_compute|]. intros loc name n Hn. apply lookup_singleton_Some in Hn as [Hn _].
  by destruct loc.
Qed.


(** ** Without [MYLITE_OPEN_CREATE] *)

Definition same_files (s s' : system) : Prop := files s' = files s.

#[global] Instance same_files_preorder : PreOrder same_files.
Proof. split; [done|]. unfold same_files. congruence. Qed.

Lemma same_take_fault : steps same_files take_fault.
Proof. intros s. unfold take_fault. by destruct (faults s). Qed.
#[local] Hint Resolve same_take_fault : steps.

Lemma same_status p : steps same_files (fs_status p).
Proof. unfold fs_status. steps_auto. Qed.
#[local] Hint Resolve same_status : steps.

Lemma same_exists p : steps same_files (fs_exists p).
Proof. unfold fs_exists. steps_auto. Qed.
Lemma same_is_directory p : steps same_files (fs_is_directory p).
Proof. unfold fs_is_directory. steps_auto. Qed.
Lemma same_is_regular p : steps same_files (fs_is_regular_file p).
Proof. unfold fs_is_regular_file. steps_auto. Qed.
Lemma same_read p : steps same_files (fs_read_file p).
Proof. unfold fs_read_file. steps_auto. Qed.
Lemma same_iterator p : steps same_files (fs_directory_iterator p).
Proof. unfold fs_directory_iterator. steps_auto. Qed.
#[local] Hint Resolve same_exists same_is_directory same_is_regular same_read same_iterator : steps.

Lemma same_validate_directory p : steps same_files (validate_layout_directory p).
Proof. unfold validate_layout_directory. steps_auto. Qed.
Lemma same_validate_metadata p : steps same_files (validate_database_metadata p).
Proof. unfold validate_database_metadata. steps_auto. Qed.
Lemma same_is_empty p : steps same_files (database_directory_is_empty p).
Proof. unfold database_directory_is_empty. steps_auto. Qed.
#[local] Hint Resolve same_validate_directory same_validate_metadata same_is_empty : steps.

Lemma same_validate p : steps same_files (validate_database_layout p).
Proof. unfold validate_database_layout. steps_auto. Qed.
#[local] Hint Resolve same_validate : steps.

Lemma same_prepare_existing p flags :
  has_flag flags MYLITE_OPEN_CREATE = false -> steps same_files (prepare_existing_database_directory p flags).
Proof.
  intros Hflags. unfold prepare_existing_database_directory. rewrite Hflags.
  apply steps_bind; [exact _|steps_auto|]. intros [metadata_exists error].
  destruct error; [steps_auto|]. destruct metadata_exists; simpl; [steps_auto|].
  apply steps_bind; [exact _|steps_auto|]. intros [empty error]. rewrite andb_false_r. steps_auto.
Qed.
#[local] Hint Resolve same_prepare_existing : steps.

(** C32: an open without [MYLITE_OPEN_CREATE] that reaches the directory of
    the database writes nothing there, whatever is in the directory and
    whichever calls to the file system fail. *)
Theorem open_without_create_writes_nothing (p : bytes) (flags : Z) (s : system)
    (Hflags : has_flag flags MYLITE_OPEN_CREATE = false) :
  files (snd (prepare_database_directory p flags s)) = files s.
Proof.
  change (same_files s (snd (prepare_database_directory p flags s))). revert s.
  change (steps same_files (prepare_database_directory p flags)).
  unfold prepare_database_directory. rewrite Hflags.
  destruct (is_memory_database_path p); [steps_auto|]. apply steps_bind; [exact _|steps_auto|].
  intros [[] error]; simpl; steps_auto.
Qed.

Lemma open_without_create_writes_nothing_witness :
  files (snd (prepare_database_directory (str "/srv") MYLITE_OPEN_READWRITE (bare_system [Fails (fun _ => true)])))
  = {[ [] := Dir ]}.
Proof. apply (open_without_create_writes_nothing (str "/srv") MYLITE_OPEN_READWRITE). reflexivity. Defined.

