(* ===== verification/Rules.v ===== *)
(** * Rules for reasoning about commands

    [ends]: the ways a command can end; [wp] rules for the accesses to memory,
    and the tactic [wp_auto] that runs a command symbolically. *)

From S2P Require Import Prelude Api Effects System World BinaryRow ClientQuery ClientStmt Frames.
From stdpp Require Import options.
Set Default Proof Using "Type*".

(** ** How a command can end *)

(** A command returns, or throws a [filesystem_error] if [fs] allows it, or is
    undefined if [ub] allows it; it never runs out of fuel. *)
Definition allowed {A} (fs ub : bool) (o : outcome A) : Prop :=
  match o with
  | Ret _ => True
  | Throw filesystem_error => fs = true
  | Throw _ => False
  | Undefined => ub = true
  | OutOfFuel => False
  end.

Definition ends {S A} (fs ub : bool) (m : cmd S A) : Prop := forall s, allowed fs ub (fst (m s)).

Abbreviation returning m := (ends false false m).

Section ends.
  Context {S : Type} (fs ub : bool).

Lemma ends_ret {A} (a : A) : ends fs ub (mret a : cmd S A).
Proof. done. Qed.
Lemma ends_gets {A} (f : S -> A) : ends fs ub (gets f).
Proof. done. Qed.
Lemma ends_modify (f : S -> S) : ends fs ub (modify f).
Proof. done. Qed.
Lemma ends_undefined {A} : ends fs true (undefined : cmd S A).
Proof. done. Qed.
Lemma ends_throw {A} : ends true ub (throw filesystem_error : cmd S A).
Proof. done. Qed.
Lemma ends_deref {A} (p : S -> option A) : ends fs true (deref p).
Proof. intros s. unfold deref. by destruct (p s). Qed.
Lemma ends_bind {A B} (m : cmd S A) (f : A -> cmd S B) :
  ends fs ub m -> (forall a, ends fs ub (f a)) -> ends fs ub (mbind f m).
Proof.
  intros Hm Hf s. specialize (Hm s). unfold mbind, cmd_bind.
  destruct (m s) as [[a|e| |] s']; simpl in *; try done. apply Hf.
Qed.
Lemma ends_zoom {T A} (g : S -> T) st (m : cmd T A) : ends fs ub m -> ends fs ub (zoom g st m).
Proof. intros Hm s. unfold zoom. specialize (Hm (g s)). by destruct (m (g s)). Qed.
End ends.

Lemma allowed_mono {A} (fs fs' ub ub' : bool) (o : outcome A) :
  (fs = true -> fs' = true) -> (ub = true -> ub' = true) -> allowed fs ub o -> allowed fs' ub' o.
Proof. destruct o as [|[]| |]; simpl; auto. Qed.

Create HintDb ends discriminated.
#[export] Hint Resolve ends_ret ends_gets ends_modify ends_undefined ends_throw ends_deref : ends.

Ltac ends_step :=
  match goal with
  | |- ends _ _ (mbind _ _) => apply ends_bind; [|intros ?]
  | |- ends _ _ (match ?x with _ => _ end) => destruct x
  | |- ends _ _ _ => solve [auto with ends]
  end.
Ltac ends_auto := intros; repeat ends_step.

Section ends_client.
  Context `{Server} (e : bool).

Lemma ends_allocate ub : ends e ub allocate.
Proof. intros w. unfold allocate. by destruct (allocations w). Qed.
Lemma ends_fresh_address ub : ends e ub fresh_address.
Proof. done. Qed.
Lemma ends_on_server (ub : bool) {A} (f : server -> filesystem -> A * server * filesystem) :
  ends e ub (on_server f).
Proof. intros w. unfold on_server. by destruct (f _ _) as [[]]. Qed.
Lemma ends_update_mysql d f : ends e true (update_mysql d f).
Proof. unfold update_mysql, get_mysql, put_mysql. ends_auto. Qed.
Lemma ends_update_mstmt m f : ends e true (update_mstmt m f).
Proof. unfold update_mstmt, get_mstmt, put_mstmt. ends_auto. Qed.
Lemma ends_update_db d f : ends e true (update_db d f).
Proof. unfold update_db, get_db, put_db. ends_auto. Qed.
Lemma ends_update_stmt d f : ends e true (update_stmt d f).
Proof. unfold update_stmt, get_stmt, put_stmt. ends_auto. Qed.
Hint Resolve ends_allocate ends_fresh_address ends_on_server ends_update_mysql
  ends_update_mstmt ends_update_db ends_update_stmt : ends.
Lemma ends_mysql_server_init ub argv : ends e ub (mysql_server_init argv).
Proof. unfold mysql_server_init. ends_auto. Qed.
Lemma ends_mysql_server_end ub : ends e ub mysql_server_end.
Proof. unfold mysql_server_end. ends_auto. Qed.
Hint Resolve ends_mysql_server_init ends_mysql_server_end : ends.
Lemma ends_mysql_init ub d : ends e ub (mysql_init d).
Proof. unfold mysql_init, put_mysql. ends_auto. Qed.
End ends_client.
#[export] Hint Resolve ends_allocate ends_fresh_address ends_on_server ends_update_mysql
  ends_update_mstmt ends_update_db ends_update_stmt ends_mysql_server_init ends_mysql_server_end
  ends_mysql_init : ends.

(** ** Rules *)

Section rules.
  Context `{Server}.
  Implicit Types w : world.

Lemma wp_get_db d x Q w : dbs w !! d = Some x -> Q (Ret x) w -> wp (get_db d) Q w.
Proof. intros Hx HQ. by eapply wp_deref. Qed.
Lemma wp_get_mysql d x Q w : connections w !! d = Some x -> Q (Ret x) w -> wp (get_mysql d) Q w.
Proof. intros Hx HQ. by eapply wp_deref. Qed.
Lemma wp_get_stmt d x Q w : stmts w !! d = Some x -> Q (Ret x) w -> wp (get_stmt d) Q w.
Proof. intros Hx HQ. by eapply wp_deref. Qed.
Lemma wp_get_mstmt d x Q w : mysql_stmts w !! d = Some x -> Q (Ret x) w -> wp (get_mstmt d) Q w.
Proof. intros Hx HQ. by eapply wp_deref. Qed.
Lemma wp_get_buffer b x Q w : buffers w !! b = Some x -> Q (Ret x) w -> wp (get_buffer b) Q w.
Proof. intros Hx HQ. by eapply wp_deref. Qed.

Lemma wp_update_db d x f Q w :
  dbs w !! d = Some x -> Q (Ret tt) (set_dbs (<[d := f x]> (dbs w)) w) -> wp (update_db d f) Q w.
Proof. intros Hx HQ. apply wp_bind. by apply wp_get_db with x. Qed.
Lemma wp_update_mysql d x f Q w :
  connections w !! d = Some x ->
  Q (Ret tt) (set_connections (<[d := f x]> (connections w)) w) -> wp (update_mysql d f) Q w.
Proof. intros Hx HQ. apply wp_bind. by apply wp_get_mysql with x. Qed.
Lemma wp_update_stmt d x f Q w :
  stmts w !! d = Some x ->
  Q (Ret tt) (set_stmts (<[d := f x]> (stmts w)) w) -> wp (update_stmt d f) Q w.
Proof. intros Hx HQ. apply wp_bind. by apply wp_get_stmt with x. Qed.
Lemma wp_update_mstmt d x f Q w :
  mysql_stmts w !! d = Some x ->
  Q (Ret tt) (set_mysql_stmts (<[d := f x]> (mysql_stmts w)) w) -> wp (update_mstmt d f) Q w.
Proof. intros Hx HQ. apply wp_bind. by apply wp_get_mstmt with x. Qed.

Lemma wp_get_thd d x t Q w :
  connections w !! d = Some x -> m_thd x = Some t -> Q (Ret t) w -> wp (get_thd d) Q w.
Proof. intros Hx Ht HQ. eapply wp_deref; [|done]. by rewrite Hx. Qed.

Lemma wp_allocate Q w :
  (forall b l, Q (Ret b) (set_allocations l w)) -> wp allocate Q w.
Proof.
  intros HQ. unfold wp, allocate. destruct (allocations w) as [|b l] eqn:Hl; simpl; [|apply HQ].
  specialize (HQ true []). destruct w. simpl in *. by subst.
Qed.

Lemma wp_allocate_ok Q w : allocations w = [] -> Q (Ret true) w -> wp allocate Q w.
Proof. intros Hl HQ. unfold wp, allocate. by rewrite Hl. Qed.

(** An allocation that may fail: it does so only if the oracle says so. *)
Lemma wp_allocate_any Q w :
  (allocations w <> [] -> Q (Ret false) (set_allocations (tail (allocations w)) w)) ->
  (forall l, Q (Ret true) (set_allocations l w)) -> wp allocate Q w.
Proof.
  intros Hfail Hok. unfold wp, allocate.
  destruct (allocations w) as [|[] l] eqn:Hl; simpl; [|apply Hok|by apply Hfail].
  specialize (Hok []). destruct w. simpl in *. by subst.
Qed.

Lemma wp_fresh_address Q w :
  Q (Ret (next_address w)) (set_next_address (S (next_address w)) w) -> wp fresh_address Q w.
Proof. done. Qed.

(** All that is known of a framed command. *)
Lemma wp_framed {A} (m : cmd world A) (Q : outcome A -> world -> Prop) w :
  steps client_frame m -> (forall o w', client_frame w w' -> Q o w') -> wp m Q w.
Proof. intros Hm HQ. apply HQ, Hm. Qed.

Lemma wp_on_server {A} (f : server -> filesystem -> A * server * filesystem) Q w :
  (forall a s fs, f (server_state w) (files (sys w)) = (a, s, fs) ->
     Q (Ret a) (set_server_state s fs w)) ->
  wp (on_server f) Q w.
Proof. intros HQ. unfold wp, on_server. destruct (f _ _) as [[a s] fs] eqn:Hf. by apply HQ. Qed.
End rules.

Lemma wp_throw {S A} e (Q : outcome A -> S -> Prop) s : Q (Throw e) s -> wp (throw e) Q s.
Proof. done. Qed.

Lemma bind_post_ret {S A B} (f : A -> cmd S B) Q a (s : S) :
  wp (f a) Q s -> bind_post f Q (Ret a) s.
Proof. done. Qed.

(** A frame of the command may be used in the proof of its postcondition. *)
Lemma wp_steps_of {S A} {R : S -> S -> Prop} (m : cmd S A) (Hm : steps R m) Q s :
  wp m (fun o s' => R s s' -> Q o s') s -> wp m Q s.
Proof. intros HQ. apply HQ, Hm. Qed.

(** All that is known of a command of which the frame and the ways to end are
    known. *)
Lemma wp_ends {S A} (R : S -> S -> Prop) fs ub (m : cmd S A) Q s :
  steps R m -> ends fs ub m -> (forall o s', allowed fs ub o -> R s s' -> Q o s') -> wp m Q s.
Proof. intros Hm He HQ. apply HQ; [apply He|apply Hm]. Qed.

(** ** Symbolic execution *)

(** A lookup in a map that is known, or that was written to. *)
Ltac find_lookup :=
  first [ eassumption
        | simpl; simplify_map_eq; first [reflexivity | eassumption] ].

Ltac wp_step :=
  lazymatch goal with
  | |- bind_post _ _ (Ret _) _ => apply bind_post_ret
  | |- wp (mbind _ _) _ _ => apply wp_bind
  | |- wp (mret _) _ _ => apply wp_ret
  | |- wp (throw _) _ _ => apply wp_throw
  | |- wp (gets _) _ _ => apply wp_gets
  | |- wp (modify _) _ _ => apply wp_modify
  | |- wp (get_db _) _ _ => eapply wp_get_db; [find_lookup|]
  | |- wp (get_mysql _) _ _ => eapply wp_get_mysql; [find_lookup|]
  | |- wp (get_stmt _) _ _ => eapply wp_get_stmt; [find_lookup|]
  | |- wp (get_mstmt _) _ _ => eapply wp_get_mstmt; [find_lookup|]
  | |- wp (get_buffer _) _ _ => eapply wp_get_buffer; [find_lookup|]
  | |- wp (update_db _ _) _ _ => eapply wp_update_db; [find_lookup|]
  | |- wp (update_mysql _ _) _ _ => eapply wp_update_mysql; [find_lookup|]
  | |- wp (put_thd _ _) _ _ => unfold put_thd; eapply wp_update_mysql; [find_lookup|]
  | |- wp (update_stmt _ _) _ _ => eapply wp_update_stmt; [find_lookup|]
  | |- wp (update_mstmt _ _) _ _ => eapply wp_update_mstmt; [find_lookup|]
  | |- wp (put_db _ _) _ _ => apply wp_modify
  | |- wp (put_mysql _ _) _ _ => apply wp_modify
  | |- wp (put_stmt _ _) _ _ => apply wp_modify
  | |- wp (put_mstmt _ _) _ _ => apply wp_modify
  | |- wp (put_buffer _ _) _ _ => apply wp_modify
  | |- wp (get_thd _) _ _ => eapply wp_get_thd; [find_lookup|first [eassumption|reflexivity]|]
  | |- wp fresh_address _ _ => apply wp_fresh_address
  | |- wp allocate _ _ =>
      first [apply wp_allocate_ok; [simpl; congruence|] | apply wp_allocate; intros ? ?]
  | |- wp (on_server _) _ _ => apply wp_on_server; intros ? ? ? ?
  end; cbn beta iota.
Ltac wp_auto := repeat wp_step.
