(* ===== verification/ClientFacts.v ===== *)
(** * The client library between two answers

    What a compliant server guarantees ([Compliant]) and what the query
    functions make of it: a query returns, the queue of answers is consumed
    in order, and reading it never goes wrong. *)

From S2P Require Import Prelude Api Effects System World BinaryRow ClientQuery ClientStmt Frames.
From S2P Require Import Rules.
From stdpp Require Import options.
Set Default Proof Using "Type*".

Local Open Scope Z_scope.

Definition more_results (status : Z) : bool := has_flag status SERVER_MORE_RESULTS_EXISTS.

Definition is_text (row : MYSQL_ROW) : Prop :=
  match row with TextRow _ => True | BinaryRow _ => False end.

(** A result set has columns, and its rows are those of the text protocol. *)
Definition text_answer (data : MYSQL_DATA) : Prop :=
  Forall is_text (d_rows data) /\ d_fields_list data <> Some [].

(** The answers to one command: each but the last announces another one. *)
Fixpoint queue_ok (more : bool) (queue : list MYSQL_DATA) : Prop :=
  match more, queue with
  | false, [] => True
  | true, data :: queue => text_answer data /\ queue_ok (more_results (d_server_status data)) queue
  | _, _ => False
  end.

#[global] Instance is_text_dec row : Decision (is_text row).
Proof. destruct row; simpl; apply _. Defined.
#[global] Instance text_answer_dec data : Decision (text_answer data).
Proof.
  apply and_dec; [apply _|]. destruct (d_fields_list data) as [[|]|];
    [right; auto|left; discriminate|left; discriminate].
Defined.
#[global] Instance queue_ok_dec : forall queue more, Decision (queue_ok more queue).
Proof.
  refine (fix go queue more {struct queue} :=
    match more, queue return Decision (queue_ok more queue) with
    | false, [] => left I
    | true, data :: queue => and_dec _ _
    | false, _ :: _ => right _
    | true, [] => right _
    end); auto.
Defined.

(** The server answers a query it accepts with such a queue. *)
Class Compliant `{Server} : Prop :=
  query_answers : forall d query s fs r s' fs',
    dispatch_command d (COM_QUERY query) s fs = (r, s', fs') ->
    dispatch_result r = false -> queue_ok true (datasets r).

(** A connection that has read the announcement of what is in its queue. *)
Definition reading (c : MYSQL) : Prop :=
  m_status c = MYSQL_STATUS_READY /\
  exists t, m_thd c = Some t /\ cur_data t = None /\
            queue_ok (more_results (m_server_status c)) (first_data t).

(** A connection that holds a result set nobody has fetched yet. *)
Definition holding (data : MYSQL_DATA) (c : MYSQL) : Prop :=
  m_status c = MYSQL_STATUS_GET_RESULT /\
  text_answer data /\
  exists t fields, m_thd c = Some t /\ cur_data t = Some data /\
    d_fields_list data = Some fields /\ m_fields c = Some fields /\
    m_field_count c = Z.of_nat (length fields) /\
    queue_ok (more_results (m_server_status c)) (first_data t).

Definition queue_length (c : MYSQL) : nat :=
  match m_thd c with Some t => length (first_data t) | None => 0 end.

Section facts.
  Context `{Server}.
  Implicit Types w : world.

(** [connections w !! d] satisfies [P]. *)
Definition connection (d : nat) (P : MYSQL -> Prop) (w : world) : Prop :=
  exists c, connections w !! d = Some c /\ P c.

Definition ready (c : MYSQL) : Prop := m_status c = MYSQL_STATUS_READY.

(** What reading an answer from the queue leads to. *)
Definition after_answer (n : nat) (error : bool) (c : MYSQL) : Prop :=
  if error then ready c
  else queue_length c = n /\
       ((reading c /\ m_fields c = None /\ m_field_count c = 0) \/ exists data, holding data c).

Lemma read_query_result_spec d c t res rest w :
  connections w !! d = Some c -> ready c -> m_thd c = Some t ->
  first_data t = res :: rest -> cur_data t = None ->
  text_answer res -> queue_ok (more_results (d_server_status res)) rest ->
  wp (emb_read_query_result d) (fun o w' =>
    exists error, o = Ret error /\ connection d (after_answer (length rest) error) w') w.
Proof.
  intros Hc Hready Ht Hqueue Hcur Htext Hok.
  unfold emb_read_query_result. wp_auto. rewrite Hqueue, Hcur. wp_auto.
  destruct (negb (d_last_errno res =? 0) && bool_decide (d_fields_list res = None)).
  { wp_auto. eexists; split; [done|]. eexists; split; [find_lookup|]. done. }
  wp_auto. destruct (d_fields_list res) as [fields|] eqn:Hf.
  - destruct (decide _); [done|]. wp_auto. eexists; split; [done|]. eexists; split; [find_lookup|].
    split; [done|]. right. exists res. split; [done|]. split; [done|].
    eexists _, fields. split; [done|]. done.
  - destruct (decide _); [|done]. wp_auto. eexists; split; [done|]. eexists; split; [find_lookup|].
    split; [done|]. left. split; [|done]. split; [done|]. eexists. split; [done|]. done.
Qed.

(** Reading the next announced answer takes it from the queue. *)
Lemma mysql_next_result_spec d w :
  connection d reading w ->
  wp (mysql_next_result d) (fun o w' => exists r, o = Ret r /\
    connection d (fun c' =>
      if r <? 0 then ready c'
      else if 0 <? r then ready c'
      else after_answer (queued_answers d w - 1) false c' /\ (0 < queued_answers d w)%nat) w') w.
Proof.
  intros (c & Hc & Hready & t & Ht & Hcur & Hok).
  unfold mysql_next_result. wp_auto. rewrite Hready, bool_decide_eq_true_2 by done. simpl.
  wp_auto. unfold more_results in Hok. destruct (has_flag _ _).
  - destruct (first_data t) as [|res rest] eqn:Hq; [done|]. destruct Hok as [Htext Hok].
    wp_auto. eapply wp_mono; [eapply (read_query_result_spec d _ t); [find_lookup|done|..]; done|].
    intros o w' (error & -> & c' & Hc' & Hafter). wp_auto. eexists; split; [done|].
    exists c'. split; [done|]. unfold queued_answers. rewrite Hc, Ht, Hq. simpl.
    destruct error; [done|]. split; [|lia]. rewrite Nat.sub_0_r. done.
  - wp_auto. eexists; split; [done|]. eexists; split; [find_lookup|]. done.
Qed.

(** Storing a result set leaves the connection ready for the next one. *)
Lemma mysql_store_result_holding d data w :
  connection d (holding data) w ->
  wp (mysql_store_result d) (fun o w' =>
    match o with
    | Ret (Some res) =>
        res_rows res = d_rows data /\ Some (res_fields res) = d_fields_list data /\
        queued_answers d w' = queued_answers d w /\ connection d reading w'
    | Ret None => connection d (fun c => ready c /\
                    forall fields, d_fields_list data = Some fields ->
                    m_field_count c = Z.of_nat (length fields)) w'
    | _ => False
    end) w.
Proof.
  intros (c & Hc & Hstatus & Htext & t & fields & Ht & Hcur & Hdf & Hf & Hcount & Hok).
  unfold mysql_store_result. wp_auto. rewrite Hf, Hstatus, bool_decide_eq_true_2 by done. simpl.
  wp_auto. destruct b; simpl.
  2: { wp_auto. eexists; split; [find_lookup|]. split; [done|]. intros ? [= <-]%(eq_trans (eq_sym Hdf)). done. }
  unfold emb_read_rows. wp_auto. rewrite Hcur. wp_auto.
  destruct (negb (d_last_errno data =? 0)); wp_auto.
  - eexists; split; [find_lookup|]. split; [done|]. intros ? [= <-]%(eq_trans (eq_sym Hdf)). done.
  - split_and!; [done|by rewrite Hdf| |].
    + unfold queued_answers. rewrite Hc, Ht. simpl. by simplify_map_eq.
    + eexists; split; [find_lookup|]. split; [done|]. by eexists.
Qed.

Lemma mysql_store_result_nothing d w :
  connection d (fun c => reading c /\ m_fields c = None /\ m_field_count c = 0) w ->
  wp (mysql_store_result d) (fun o w' => o = Ret None /\ w' = w) w.
Proof. intros (c & Hc & _ & Hf & _). unfold mysql_store_result. wp_auto. rewrite Hf. by wp_auto. Qed.

(** A query on a ready connection. *)
Lemma mysql_query_spec `{!Compliant} d query w :
  connection d ready w ->
  wp (mysql_query d query) (fun o w' =>
    exists error, o = Ret error /\
      connection d (fun c => if error : bool then ready c else exists n, after_answer n false c) w') w.
Proof.
  intros (c & Hc & Hready). unfold mysql_query, emb_advanced_command. wp_auto.
  unfold free_embedded_thd.
  set (killed := bool_decide (is_Some (m_thd c)) && session_killed d (server_state w)).
  destruct killed.
  { wp_auto. simpl. unfold mysql_reconnect. wp_auto. eexists; split; [done|]. by eexists; split; [find_lookup|]. }
  wp_auto. destruct (m_thd c) as [t|] eqn:Ht.
  2: { unfold mysql_reconnect. wp_auto. eexists; split; [done|]. by eexists; split; [find_lookup|]. }
  unfold THD_clear_data_list. wp_auto. rewrite Hready, bool_decide_eq_true_2 by done. simpl.
  wp_auto. destruct (dispatch_result a) eqn:Hresult; wp_auto.
  { eexists; split; [done|]. by eexists; split; [find_lookup|]. }
  match goal with Hd : dispatch_command _ _ _ _ = _ |- _ =>
    pose proof (query_answers _ _ _ _ _ _ _ Hd Hresult) as Hq end.
  destruct (datasets a) as [|res rest] eqn:Hdata; [done|].
  destruct Hq as [Htext Hok].
  eapply wp_mono;
    [eapply (read_query_result_spec d);
       [find_lookup|exact Hready|reflexivity|reflexivity|reflexivity|exact Htext|exact Hok]|].
  intros o w' (error & -> & c' & Hc' & Hafter). exists error. split; [done|].
  exists c'. split; [done|]. destruct error; [done|]. by eexists.
Qed.

End facts.
