(* ===== verification/Scripted.v ===== *)
(** * A scripted server

    An instance of [Server] and [Build] for running the model: it answers each
    command with the next answer of a script, or with an empty OK answer when
    the script has run out, and logs what it was asked.  It closes the session
    rather than give an answer to a query that no server gives.  The witnesses
    of the theorems and the closed runs of the library are on this server. *)

From S2P Require Import Prelude Api Effects System World ClientQuery ClientFacts Runtime.
From stdpp Require Import options.

Local Open Scope Z_scope.

Inductive event : Set :=
| Started (arguments : list bytes)
| Stopped
| Opened (connection : nat)
| Closed (connection : nat)
| Asked (connection : nat) (c : command).

Record scripted : Set := mkScripted {
  script : list dispatched;
  init_script : list init_result;
  log : list event;
  running : bool;
}.

(** An OK answer of a statement that changed [affected] rows. *)
Definition ok_data (affected insert_id : Z) : MYSQL_DATA :=
  mkData [] None affected insert_id 0 SERVER_STATUS_AUTOCOMMIT 0 [] (str "00000").

Definition rows_data (fields : list MYSQL_FIELD) (rows : list MYSQL_ROW) : MYSQL_DATA :=
  mkData rows (Some fields) 0 0 0 SERVER_STATUS_AUTOCOMMIT 0 [] (str "00000").

Definition answer (data : list MYSQL_DATA) : dispatched := mkDispatched false false data 0 0 0.

Definition ok_answer : dispatched := answer [ok_data 0 0].

(** The answer to a prepare: the identity of the statement, the number of its
    parameters, and the columns of its result. *)
Definition prepared (id params : Z) (fields : list MYSQL_FIELD) : dispatched :=
  mkDispatched false false
    (match fields with [] => [] | _ => [rows_data fields []] end) id params 0.

Definition log_event (e : event) (s : scripted) : scripted :=
  mkScripted (script s) (init_script s) (log s ++ [e]) (running s).

Definition checked (c : command) (a : dispatched) : dispatched :=
  match c with
  | COM_QUERY _ => if decide (queue_ok true (datasets a)) then a else mkDispatched true true [] 0 0 0
  | _ => a
  end.

#[global] Instance scripted_server : Server := {
  server := scripted;
  init_embedded_server arguments s fs :=
    match init_script s with
    | InitFailed ended :: rest =>
        (InitFailed ended, mkScripted (script s) rest (log s) false, fs)
    | _ =>
        (InitOk, mkScripted (script s) (tail (init_script s)) (log s ++ [Started arguments]) true,
         fs)
    end;
  end_embedded_server s fs :=
    (mkScripted (script s) (init_script s) (log s ++ [Stopped]) false, fs);
  open_session d s fs := (None, log_event (Opened d) s, fs);
  close_session d s fs := (log_event (Closed d) s, fs);
  session_killed _ _ := false;
  dispatch_command d c s fs :=
    match script s with
    | [] => (ok_answer, log_event (Asked d c) s, fs)
    | a :: rest =>
        (checked c a, mkScripted rest (init_script s) (log s ++ [Asked d c]) (running s), fs)
    end;
  my_gcvt value _ := value;
  my_fcvt value _ := value;
}.

#[global] Instance scripted_compliant : Compliant.
Proof.
  intros d query s fs r s' fs'. simpl. destruct (script s) as [|a rest]; intros [= <- _ _].
  - intros _. simpl. split; [|done]. split; [done|discriminate].
  - simpl. destruct (decide _); [done|discriminate].
Qed.

#[global] Instance plain_build : Build := {
  messages_dir := str "/usr/share/mylite";
  charsets_dir := str "/usr/share/mylite/charsets";
  with_perfschema := false;
  MYLITE_VERSION_STRING := str "0.1.0";
}.

(** The root directory, a directory for databases and one for temporary files. *)
Definition small_files : filesystem :=
  list_to_map [([], Dir); ([str "srv"], Dir); ([str "tmp"], Dir)].

Definition initial_system : system :=
  mkSystem small_files [] (str "/") (str "/tmp") ∅ [] 0 [].

Definition initial_world (script : list dispatched) : world :=
  mkWorld ∅ ∅ ∅ ∅ ∅ initial_runtime 0 false (mkScripted script [] [] false) initial_system [] 0.

(** The value of a command that returns. *)
Definition returned {A} (r : outcome A * world) : option A :=
  match r with (Ret a, _) => Some a | _ => None end.

Definition open_flags : Z := Z.lor MYLITE_OPEN_READWRITE MYLITE_OPEN_CREATE.
