(* ===== verification/RuntimeFacts.v ===== *)
(** * The runtime: locks, reference count and clean-up

    The invariant [runtime_ok] ties the open handles to [g_runtime]: the
    reference count, the database they share, and the lock file, which is the
    only descriptor the library holds.  [mylite_open] and [mylite_close]
    return and preserve it. *)

From S2P Require Import Prelude Api Effects System Directory World ClientQuery ClientStmt Frames.
From S2P Require Import Rules ClientFacts Runtime Scripted.
From stdpp Require Import options.
Set Default Proof Using "Type*".

Local Open Scope Z_scope.

(** ** The file system functions leave the descriptors alone *)

Definition same_descriptors (s s' : system) : Prop := descriptors s' = descriptors s.

#[global] Instance same_descriptors_preorder : PreOrder same_descriptors.
Proof. split; [done|]. intros s1 s2 s3 H1 H2. unfold same_descriptors in *. congruence. Qed.

Abbreviation lockless m := (steps same_descriptors m).

Lemma lockless_take_fault : lockless take_fault.
Proof. intros s. unfold take_fault. by destruct (faults s). Qed.
Lemma lockless_set_files f : lockless (modify (fun s => set_files (f s) s)).
Proof. by apply steps_modify. Qed.
Lemma lockless_advance n : lockless (advance n).
Proof. intros s. unfold advance. by destruct (ticks s). Qed.
#[export] Hint Resolve lockless_take_fault lockless_set_files lockless_advance : steps.

Lemma lockless_fs_status p : lockless (fs_status p).
Proof. unfold fs_status. steps_auto. Qed.
#[export] Hint Resolve lockless_fs_status : steps.
Lemma lockless_fs_exists p : lockless (fs_exists p).
Proof. unfold fs_exists. steps_auto. Qed.
Lemma lockless_fs_is_directory p : lockless (fs_is_directory p).
Proof. unfold fs_is_directory. steps_auto. Qed.
Lemma lockless_fs_is_regular_file p : lockless (fs_is_regular_file p).
Proof. unfold fs_is_regular_file. steps_auto. Qed.
Lemma lockless_make_directories names : forall dir, lockless (make_directories dir names).
Proof.
  induction names as [|name names IH]; intros dir; simpl; [steps_auto|]. steps_auto; apply IH.
Qed.
#[export] Hint Resolve lockless_fs_exists lockless_fs_is_directory lockless_fs_is_regular_file
  lockless_make_directories : steps.
Lemma lockless_fs_create_directories p : lockless (fs_create_directories p).
Proof. unfold fs_create_directories. steps_auto. Qed.
Lemma lockless_fs_create_directory p : lockless (fs_create_directory p).
Proof. unfold fs_create_directory. steps_auto. Qed.
Lemma lockless_fs_remove_all p : lockless (fs_remove_all p).
Proof. unfold fs_remove_all. steps_auto. Qed.
Lemma lockless_fs_directory_iterator p : lockless (fs_directory_iterator p).
Proof. unfold fs_directory_iterator. steps_auto. Qed.
Lemma lockless_fs_increment : lockless fs_increment.
Proof. unfold fs_increment. steps_auto. Qed.
Lemma lockless_fs_read_file p : lockless (fs_read_file p).
Proof. unfold fs_read_file. steps_auto. Qed.
Lemma lockless_fs_create_file p : lockless (fs_create_file p).
Proof. unfold fs_create_file. steps_auto. Qed.
Lemma lockless_fs_close_file p b : lockless (fs_close_file p b).
Proof.
  unfold fs_close_file. steps_auto. apply steps_modify. intros s. by destruct (resolve s p).
Qed.
Lemma lockless_fs_absolute p : lockless (fs_absolute p).
Proof. unfold fs_absolute. steps_auto. Qed.
Lemma lockless_fs_temp_directory_path : lockless fs_temp_directory_path.
Proof. unfold fs_temp_directory_path. steps_auto. Qed.
#[export] Hint Resolve lockless_fs_create_directories lockless_fs_create_directory
  lockless_fs_remove_all lockless_fs_directory_iterator lockless_fs_increment
  lockless_fs_read_file lockless_fs_create_file lockless_fs_close_file lockless_fs_absolute
  lockless_fs_temp_directory_path : steps.

Lemma lockless_normalize_database_path p : lockless (normalize_database_path p).
Proof. unfold normalize_database_path. steps_auto. Qed.
Lemma lockless_initialize_database_layout p : lockless (initialize_database_layout p).
Proof.
  unfold initialize_database_layout, create_layout_directory, write_database_metadata. steps_auto.
Qed.
#[export] Hint Resolve lockless_normalize_database_path lockless_initialize_database_layout : steps.
Lemma lockless_prepare_database_directory p flags : lockless (prepare_database_directory p flags).
Proof.
  unfold prepare_database_directory, prepare_existing_database_directory,
    validate_database_layout, validate_layout_directory, validate_database_metadata,
    database_directory_is_empty. steps_auto.
Qed.
Lemma lockless_remove_directory_if_present p : lockless (remove_directory_if_present p).
Proof. unfold remove_directory_if_present. steps_auto. Qed.
Lemma lockless_remove_entries p names : lockless (remove_entries p names).
Proof. induction names as [|name names IH]; simpl; steps_auto. Qed.
#[export] Hint Resolve lockless_prepare_database_directory lockless_remove_directory_if_present
  lockless_remove_entries : steps.
Lemma lockless_remove_directory_contents p : lockless (remove_directory_contents_if_present p).
Proof. unfold remove_directory_contents_if_present. steps_auto. Qed.
Lemma lockless_create_persistent_runtime_layout p : lockless (create_persistent_runtime_layout p).
Proof. unfold create_persistent_runtime_layout, create_runtime_subdirectory. steps_auto. Qed.
#[export] Hint Resolve lockless_remove_directory_contents
  lockless_create_persistent_runtime_layout : steps.

(** ** How the file system functions end *)

Section fs_ends.
  Context (a b : bool).

Lemma ends_take_fault : ends a b take_fault.
Proof. intros s. unfold take_fault. by destruct (faults s). Qed.
Lemma ends_advance n : ends a b (advance n).
Proof. intros s. unfold advance. by destruct (ticks s). Qed.
Hint Resolve ends_take_fault ends_advance : ends.
Lemma ends_fs_status p : ends a b (fs_status p).
Proof. unfold fs_status. ends_auto. Qed.
Hint Resolve ends_fs_status : ends.
Lemma ends_fs_exists p : ends a b (fs_exists p).
Proof. unfold fs_exists. ends_auto. Qed.
Lemma ends_fs_is_directory p : ends a b (fs_is_directory p).
Proof. unfold fs_is_directory. ends_auto. Qed.
Lemma ends_fs_is_regular_file p : ends a b (fs_is_regular_file p).
Proof. unfold fs_is_regular_file. ends_auto. Qed.
Lemma ends_make_directories names : forall dir, ends a b (make_directories dir names).
Proof.
  induction names as [|name names IH]; intros dir; simpl; [ends_auto|]. ends_auto; apply IH.
Qed.
Hint Resolve ends_fs_exists ends_fs_is_directory ends_fs_is_regular_file ends_make_directories
  : ends.
Lemma ends_fs_create_directories p : ends a b (fs_create_directories p).
Proof. unfold fs_create_directories. ends_auto. Qed.
Lemma ends_fs_create_directory p : ends a b (fs_create_directory p).
Proof. unfold fs_create_directory. ends_auto. Qed.
Lemma ends_fs_remove_all p : ends a b (fs_remove_all p).
Proof. unfold fs_remove_all. ends_auto. Qed.
Lemma ends_fs_directory_iterator p : ends a b (fs_directory_iterator p).
Proof. unfold fs_directory_iterator. ends_auto. Qed.
Lemma ends_fs_increment : ends a b fs_increment.
Proof. unfold fs_increment. ends_auto. Qed.
Lemma ends_fs_read_file p : ends a b (fs_read_file p).
Proof. unfold fs_read_file. ends_auto. Qed.
Lemma ends_fs_create_file p : ends a b (fs_create_file p).
Proof. unfold fs_create_file. ends_auto. Qed.
Lemma ends_fs_close_file p c : ends a b (fs_close_file p c).
Proof. unfold fs_close_file. ends_auto. Qed.
End fs_ends.
#[export] Hint Resolve ends_take_fault ends_advance ends_fs_status ends_fs_exists
  ends_fs_is_directory ends_fs_is_regular_file ends_make_directories ends_fs_create_directories
  ends_fs_create_directory ends_fs_remove_all ends_fs_directory_iterator ends_fs_increment
  ends_fs_read_file ends_fs_create_file ends_fs_close_file : ends.
Lemma ends_fs_absolute b p : ends true b (fs_absolute p).
Proof. unfold fs_absolute. ends_auto. Qed.
Lemma ends_fs_temp_directory_path b : ends true b fs_temp_directory_path.
Proof. unfold fs_temp_directory_path. ends_auto. Qed.
#[export] Hint Resolve ends_fs_absolute ends_fs_temp_directory_path : ends.

Lemma ends_prepare_database_directory b p flags : ends true b (prepare_database_directory p flags).
Proof.
  unfold prepare_database_directory, prepare_existing_database_directory,
    validate_database_layout, validate_layout_directory, validate_database_metadata,
    database_directory_is_empty, initialize_database_layout, create_layout_directory,
    write_database_metadata. ends_auto.
Qed.
Lemma ends_normalize_database_path b p : ends true b (normalize_database_path p).
Proof. unfold normalize_database_path. ends_auto. Qed.
Lemma ends_remove_directory_if_present a b p : ends a b (remove_directory_if_present p).
Proof. unfold remove_directory_if_present. ends_auto. Qed.
Lemma ends_remove_entries a b p names : ends a b (remove_entries p names).
Proof. induction names as [|name names IH]; simpl; ends_auto. Qed.
#[export] Hint Resolve ends_prepare_database_directory ends_normalize_database_path
  ends_remove_directory_if_present ends_remove_entries : ends.
Lemma ends_remove_directory_contents a b p : ends a b (remove_directory_contents_if_present p).
Proof. unfold remove_directory_contents_if_present. ends_auto. Qed.
Lemma ends_create_persistent_runtime_layout b p : ends true b (create_persistent_runtime_layout p).
Proof. unfold create_persistent_runtime_layout, create_runtime_subdirectory. ends_auto. Qed.
#[export] Hint Resolve ends_remove_directory_contents ends_create_persistent_runtime_layout : ends.

(** ** Waiting for the lock *)

(** How a call to wait for a lock ends: with the lock, or without it. *)
Definition lock_outcome (fd : Z) (f : open_file) (s : system) (o : outcome Z) (s' : system)
    : Prop :=
  exists r, o = Ret r /\
    ((r = MYLITE_OK /\
      descriptors s' = <[fd := mkOpenFile (file_location f) true]> (descriptors s)) \/
     ((r = MYLITE_BUSY \/ r = MYLITE_IOERR) /\ descriptors s' = descriptors s)).

Lemma wp_sys_flock fd f Q s :
  descriptors s !! fd = Some f ->
  (forall s', descriptors s' = descriptors s -> clock s' = clock s -> Q (Ret WouldBlock) s') ->
  (forall s', descriptors s' = descriptors s -> Q (Ret FlockError) s') ->
  (forall s', descriptors s' = <[fd := mkOpenFile (file_location f) true]> (descriptors s) ->
     Q (Ret Locked) s') ->
  wp (sys_flock fd) Q s.
Proof.
  intros Hf Hblock Herror Hlocked. unfold sys_flock.
  apply wp_bind. eapply wp_deref; [exact Hf|]. apply bind_post_ret. wp_auto.
  destruct (locked_elsewhere _ _ _); [by apply Hblock|]. wp_auto.
  destruct (flock_answers s) as [|[] answers]; wp_auto; auto.
Qed.

Lemma advance_spec n (Q : outcome unit -> system -> Prop) s :
  (forall s', descriptors s' = descriptors s -> clock s + n <= clock s' -> Q (Ret tt) s') ->
  wp (advance n) Q s.
Proof.
  intros HQ. unfold wp, advance. destruct (ticks s); simpl; apply HQ; simpl; try done; lia.
Qed.

(** Every round of the loop takes at least 10 ms. *)
Lemma wait_loop_spec fuel fd timeout start : forall s f,
  descriptors s !! fd = Some f -> (0 < fuel)%nat ->
  timeout * 1000000 <= clock s - start + (Z.of_nat fuel - 1) * 10000000 ->
  wp (wait_loop fuel fd timeout start) (lock_outcome fd f s) s.
Proof.
  induction fuel as [|fuel IH]; intros s f Hf Hfuel Hleft; [lia|]. simpl.
  apply wp_bind. eapply wp_sys_flock; [exact Hf|..]; intros s1 Hd1.
  - intros Hc1. wp_auto. destruct (timeout =? 0) eqn:Hzero; wp_auto; [exists MYLITE_BUSY; by auto|].
    unfold sys_now. wp_auto. apply advance_spec. intros s2 Hd2 Hc2. wp_auto.
    destruct (timeout * 1000000 <=? clock s2 - start) eqn:Hlate; wp_auto.
    { exists MYLITE_BUSY. split; [done|]. right. split; [by left|congruence]. }
    unfold sys_sleep_ms, k_lock_poll_interval_ms. apply advance_spec. intros s3 Hd3 Hc3. wp_auto.
    assert (Hsame : descriptors s3 = descriptors s) by congruence.
    eapply wp_mono; [apply (IH s3 f); [by rewrite Hsame|lia..]|].
    unfold lock_outcome. by rewrite Hsame.
  - wp_auto. exists MYLITE_IOERR. auto.
  - wp_auto. exists MYLITE_OK. split; [done|]. left. eauto.
Qed.

Lemma wait_for_database_lock_spec fd timeout_ms s f :
  descriptors s !! fd = Some f -> wp (wait_for_database_lock fd timeout_ms) (lock_outcome fd f s) s.
Proof.
  intros Hopen.
  unfold wait_for_database_lock, sys_now. wp_auto. apply advance_spec. intros s1 Hd1 Hc1. wp_auto.
  eapply wp_mono; [apply (wait_loop_spec _ _ _ _ s1 f)|]; rewrite ?Hd1; try done.
  - lia.
  - pose proof (Z.div_mod timeout_ms 10 ltac:(lia)).
    pose proof (Z.mod_pos_bound timeout_ms 10 ltac:(lia)).
    unfold k_lock_poll_interval_ms. lia.
  - unfold lock_outcome. by rewrite Hd1.
Qed.


(** A lock that another process keeps: 25 ms are waited out. *)
Definition contended : system :=
  mkSystem small_files [] (str "/") (str "/tmp") {[ 5 := mkOpenFile [str "lock"] false ]}
    (replicate 9 WouldBlock) 0 [].


(** ** The layout of a runtime *)

Section layout.
  Context `{Server, Build}.

(** What creating a layout may change: the file tree, the clock and the
    counter of the names. *)
Record layout_frame (w w' : world) : Prop := mkLayoutFrame {
  lf_descriptors : descriptors (sys w') = descriptors (sys w);
  lf_rest : w' = set_sys (sys w') (set_runtime_counter (runtime_counter w') w);
}.

#[global] Instance layout_frame_preorder : PreOrder layout_frame.
Proof.
  split; [intros []; by split|]. intros w1 w2 w3 [H1 H2] [H3 H4]. split; [congruence|].
  rewrite H4, H2. done.
Qed.

Lemma layout_frame_on_system {A} (m : cmd system A) :
  steps same_descriptors m -> steps layout_frame (on_system m).
Proof.
  apply steps_zoom. intros w t Ht. split; [done|]. by destruct w.
Qed.
Hint Resolve layout_frame_on_system : steps.

Lemma create_runtime_layout_frame path config : steps layout_frame (create_runtime_layout path config).
Proof.
  unfold create_runtime_layout, create_memory_runtime_layout, runtime_root.
  assert (Hname : steps layout_frame unique_runtime_name).
  { unfold unique_runtime_name, sys_now. steps_auto.
    - apply layout_frame_on_system. steps_auto.
    - apply steps_modify. intros []. by split. }
  assert (Hsub : forall p, steps same_descriptors (create_runtime_subdirectory p)).
  { unfold create_runtime_subdirectory. steps_auto. }
  assert (Hcandidate : forall n root, steps layout_frame (create_memory_candidate n root)).
  { induction n; simpl; steps_auto. }
  steps_auto; apply layout_frame_on_system; steps_auto.
Qed.

Lemma create_runtime_layout_ends b path config : ends true b (create_runtime_layout path config).
Proof.
  unfold create_runtime_layout, create_memory_runtime_layout, runtime_root, on_system.
  assert (Hsub : forall p, ends true b (create_runtime_subdirectory p)).
  { unfold create_runtime_subdirectory. ends_auto. }
  assert (Hcandidate : forall n root, ends true b (create_memory_candidate n root)).
  { induction n; simpl; unfold unique_runtime_name, on_system, sys_now; ends_auto;
      apply ends_zoom; ends_auto. }
  ends_auto; apply ends_zoom; ends_auto.
Qed.
End layout.

(** ** The frame of a call on one handle *)

Section handle_frame.
  Context `{Server}.

(** What a call on a handle keeps of it. *)
Definition handle_core (x : mylite_db) : bytes * Z := (database_path x, active_statement_count x).

(** A call on the handle [d] keeps the other handles, the runtime, the
    statements apart from their columns, and the descriptors. *)
Record handle_frame (d : nat) (w w' : world) : Prop := mkHandleFrame {
  hf_others : delete d (dbs w') = delete d (dbs w);
  hf_core : handle_core <$> dbs w' !! d = handle_core <$> dbs w !! d;
  hf_runtime : runtime w' = runtime w;
  hf_client_init : mysql_client_init w = true -> mysql_client_init w' = true;
  hf_descriptors : descriptors (sys w') = descriptors (sys w);
  hf_stmts : with_columns [] <$> stmts w' = with_columns [] <$> stmts w;
  hf_next : (next_address w <= next_address w')%nat;
}.

#[global] Instance handle_frame_preorder d : PreOrder (handle_frame d).
Proof.
  split; [by split|]. intros w1 w2 w3 [] []. split; try congruence; [auto|lia].
Qed.

Lemma client_handle_frame d w w' : client_frame w w' -> handle_frame d w w'.
Proof. intros [? ? ? ? [fs Hs] ? ? ?]. split; try congruence. by rewrite Hs. Qed.

Lemma handled_framed {A} d (m : cmd world A) : steps client_frame m -> steps (handle_frame d) m.
Proof. apply steps_mono. apply client_handle_frame. Qed.

Lemma handled_update_db d f :
  (forall x, handle_core (f x) = handle_core x) -> steps (handle_frame d) (update_db d f).
Proof.
  intros Hf. unfold update_db, get_db, put_db. intros w. unfold mbind, cmd_bind, deref.
  destruct (dbs w !! d) as [x|] eqn:Hx; [|by split]. split; simpl; try done.
  - by rewrite delete_insert_eq.
  - rewrite lookup_insert_eq, Hx. simpl. by rewrite Hf.
Qed.
End handle_frame.
#[export] Hint Resolve handled_framed handled_update_db handle_frame_preorder : steps.

Section handled.
  Context `{Server, Build}.
  Abbreviation handled d m := (steps (handle_frame d) m).

Lemma handled_set_mariadb_error d : handled d (set_mariadb_error d).
Proof. unfold set_mariadb_error. steps_auto. Qed.
Hint Resolve handled_set_mariadb_error : steps.
Lemma handled_drain_query_loop d fuel : handled d (drain_query_loop fuel d).
Proof. induction fuel; simpl; steps_auto. Qed.
Hint Resolve handled_drain_query_loop : steps.
Lemma handled_drain_remaining_query_results d : handled d (drain_remaining_query_results d).
Proof. unfold drain_remaining_query_results. steps_auto. Qed.
Hint Resolve handled_drain_remaining_query_results : steps.
Lemma handled_ensure_core_system_tables d : handled d (ensure_core_system_tables d).
Proof. unfold ensure_core_system_tables, execute_system_table_statement. steps_auto. Qed.
Lemma handled_mysql_init d : handled d (mysql_init d).
Proof.
  unfold mysql_init. steps_auto. unfold mysql_server_init. intros w.
  unfold mbind, cmd_bind, gets. destruct (mysql_client_init w) eqn:Hinit; simpl; [by split|].
  unfold on_server. simpl. destruct (init_embedded_server _ _ _) as [[[|[]] s] fs]; split; simpl;
    try done; by rewrite Hinit.
Qed.
Hint Resolve handled_mysql_init : steps.
Lemma handled_connect_runtime d : handled d (connect_runtime d).
Proof. unfold connect_runtime. steps_auto. Qed.
Lemma handled_close_connection d : handled d (close_connection d).
Proof. unfold close_connection, get_db. steps_auto. Qed.
End handled.
#[export] Hint Resolve handled_set_mariadb_error handled_drain_remaining_query_results
  handled_ensure_core_system_tables handled_connect_runtime handled_close_connection : steps.

(** ** Queries on a handle *)

Section queries.
  Context `{Server, Build}.

Definition has_handle (d : nat) (w : world) : Prop := is_Some (dbs w !! d).

Lemma has_handle_frame d w w' : client_frame w w' -> has_handle d w -> has_handle d w'.
Proof. intros [Hdbs] ?. unfold has_handle. by rewrite Hdbs. Qed.

(** A command of the client library keeps the handle. *)
Lemma wp_keep_handle {A} d (m : cmd world A) (P : outcome A -> world -> Prop) w :
  steps client_frame m -> has_handle d w -> wp m P w ->
  wp m (fun o w' => P o w' /\ has_handle d w') w.
Proof.
  intros Hm Hd HP. apply wp_and; [done|]. apply wp_framed; [done|].
  intros o w' Hframe. by eapply has_handle_frame.
Qed.

(** Copying the error of a ready connection keeps it ready. *)
Lemma set_mariadb_error_spec d w (P : MYSQL -> Prop) :
  has_handle d w -> connection d P w ->
  wp (set_mariadb_error d) (fun o w' => o = Ret tt /\ connection d P w' /\ has_handle d w') w.
Proof.
  intros [x Hx] (c & Hc & HP). unfold set_mariadb_error. wp_auto. split; [done|].
  split; [by exists c|]. eexists. find_lookup.
Qed.

(** A call that ends with the connection ready for the next command. *)
Definition returns_ready (d : nat) (o : outcome Z) (w' : world) : Prop :=
  (exists r, o = Ret r) /\ connection d ready w' /\ has_handle d w'.

(** Reporting the error of the connection ends such a call. *)
Lemma report_error_spec d w code :
  has_handle d w -> connection d ready w ->
  wp (set_mariadb_error d ;; mret code) (returns_ready d) w.
Proof.
  intros Hd Hc. apply wp_bind. eapply wp_mono; [by apply set_mariadb_error_spec|].
  intros o w' (-> & Hc' & Hd'). wp_auto. split; [by eexists|done].
Qed.

Lemma drain_query_loop_spec d fuel : forall w,
  has_handle d w -> connection d reading w -> (queued_answers d w < fuel)%nat ->
  wp (drain_query_loop fuel d) (returns_ready d) w.
Proof.
  induction fuel as [|fuel IH]; intros w Hd Hc Hfuel; [lia|]. simpl. apply wp_bind.
  eapply wp_mono;
    [apply (wp_keep_handle d); [auto with steps|done|by apply mysql_next_result_spec]|].
  intros o w1 ((r & -> & c1 & Hc1 & Hr) & Hd1). apply bind_post_ret.
  destruct (r <? 0); [wp_auto; split; [by eexists|]; split; [by exists c1|done]|].
  destruct (0 <? r); [apply report_error_spec; [done|by exists c1]|].
  destruct Hr as [[Hlen Hstate] Hpos]. apply wp_bind.
  assert (Hq1 : queued_answers d w1 = queue_length c1) by (unfold queued_answers; by rewrite Hc1).
  destruct Hstate as [Hnone | [data Hdata]].
  - eapply wp_mono; [apply mysql_store_result_nothing; by exists c1|]. intros o w2 [-> ->].
    wp_auto. destruct Hnone as (Hreading & _ & Hzero). rewrite Hzero. simpl.
    apply IH; [done|by exists c1|lia].
  - eapply wp_mono; [apply (wp_keep_handle d); [auto with steps|done|];
      apply mysql_store_result_holding; by exists c1|].
    intros o w2 [Ho Hd2]. destruct o as [[res|]| | |]; try done; wp_auto.
    + destruct Ho as (_ & _ & Hq & Hc2). apply IH; [done|done|lia].
    + destruct Ho as (c2 & Hc2 & Hready & Hcount). wp_auto.
      destruct (negb (m_field_count c2 =? 0)) eqn:Hz; [apply report_error_spec; [done|by exists c2]|].
      exfalso. destruct Hdata as (_ & [_ Hne] & t & fields & _ & _ & Hf & _).
      apply negb_false_iff, Z.eqb_eq in Hz. rewrite (Hcount fields Hf) in Hz.
      destruct fields; [by rewrite Hf in Hne|simpl in Hz; lia].
Qed.

Lemma drain_remaining_query_results_spec d w :
  has_handle d w -> connection d reading w ->
  wp (drain_remaining_query_results d) (returns_ready d) w.
Proof. intros Hd Hc. unfold drain_remaining_query_results. wp_auto. apply drain_query_loop_spec; auto. Qed.

(** A call that succeeds only with the connection ready. *)
Definition succeeds_ready (d : nat) (o : outcome Z) (w' : world) : Prop :=
  exists r, o = Ret r /\ (r = MYLITE_OK -> connection d ready w') /\
    connection d (fun _ => True) w' /\ has_handle d w'.

Lemma returns_succeeds_ready d o w' : returns_ready d o w' -> succeeds_ready d o w'.
Proof. intros ([r ->] & (c & Hc & Hr) & Hd). exists r. split_and!; [done|by exists c..|done]. Qed.

(** A result set that was not fetched stops the draining. *)
Lemma drain_out_of_sync d w c :
  has_handle d w -> connections w !! d = Some c -> m_status c <> MYSQL_STATUS_READY ->
  wp (drain_remaining_query_results d) (fun o w' =>
    o = Ret MYLITE_ERROR /\ connection d (fun _ => True) w' /\ has_handle d w') w.
Proof.
  intros [x Hx] Hc Hbusy. unfold drain_remaining_query_results. wp_auto. simpl.
  unfold mysql_next_result. wp_auto. rewrite bool_decide_eq_false_2 by done. simpl. wp_auto.
  simpl. unfold set_mariadb_error. wp_auto. split_and!; [done|eexists; split; [find_lookup|done]|].
  eexists. find_lookup.
Qed.

Lemma execute_system_table_statement_spec `{!Compliant} d sql w :
  has_handle d w -> connection d ready w ->
  wp (execute_system_table_statement d sql) (succeeds_ready d) w.
Proof.
  intros Hd Hc. unfold execute_system_table_statement. apply wp_bind.
  eapply wp_mono; [apply (wp_keep_handle d); [auto with steps|done|by apply mysql_query_spec]|].
  intros o w1 [(error & -> & Hc1) Hd1]. apply bind_post_ret. destruct error.
  { eapply wp_mono; [by apply report_error_spec|]. apply returns_succeeds_ready. }
  destruct Hc1 as (c1 & Hc1 & n & _ & [(Hreading & _)|[data (Hstatus & _)]]); apply wp_bind.
  - eapply wp_mono; [apply drain_remaining_query_results_spec; [done|by exists c1]|].
    intros o w2 ([r ->] & (c2 & Hc2 & Hready) & [x Hx]). apply bind_post_ret.
    destruct (negb (r =? MYLITE_OK)); wp_auto; eexists; (split; [done|]);
      (split; [by exists c2|]); (split; [by exists c2|]); eexists; find_lookup.
  - eapply wp_mono; [apply (drain_out_of_sync d w1 c1); [done..|by rewrite Hstatus]|].
    intros o w2 (-> & Hc2 & Hd2). wp_auto. simpl. wp_auto. by exists MYLITE_ERROR.
Qed.

Lemma ensure_core_system_tables_spec `{!Compliant} d w :
  has_handle d w -> connection d ready w ->
  wp (ensure_core_system_tables d) (succeeds_ready d) w.
Proof.
  assert (Hthen : forall sql (k : cmd world Z) w1, has_handle d w1 -> connection d ready w1 ->
    (forall w2, has_handle d w2 -> connection d ready w2 -> wp k (succeeds_ready d) w2) ->
    wp (result ← execute_system_table_statement d sql;
        if negb (result =? MYLITE_OK) then mret result else k) (succeeds_ready d) w1).
  { intros sql k w1 Hd1 Hc1 Hk. apply wp_bind.
    eapply wp_mono; [by apply execute_system_table_statement_spec|].
    intros o w2 (r & -> & Hr & Hc2 & Hd2). wp_auto. destruct (r =? MYLITE_OK) eqn:Hok; simpl.
    - apply Z.eqb_eq in Hok. auto.
    - wp_auto. exists r. auto. }
  intros Hd Hc. unfold ensure_core_system_tables. apply Hthen; [done..|]. intros w2 Hd2 Hc2.
  apply Hthen; [done..|]. intros w3 Hd3 Hc3. by apply execute_system_table_statement_spec.
Qed.

(** A new connection is ready. *)
Lemma connect_runtime_spec d w :
  has_handle d w -> mysql_client_init w = true ->
  wp (connect_runtime d) (succeeds_ready d) w.
Proof.
  intros [x Hx] Hinit. unfold connect_runtime, mysql_init, mysql_server_init. wp_auto.
  rewrite Hinit. simpl. wp_auto. simpl. unfold mysql_real_connect. wp_auto.
  destruct a as [[[errno message] state]|].
  - unfold mysql_close, free_embedded_thd, mysql_detach_stmt_list. wp_auto.
    destruct (decide _) as [|Hn]; [|destruct Hn; by eexists]. wp_auto. simpl.
    unfold set_mariadb_error. wp_auto. eexists. split; [done|]. split; [done|].
    split; [by eexists; split; [find_lookup|]|]. eexists. find_lookup.
  - wp_auto. simpl. wp_auto. eexists. split; [done|].
    split; [by eexists; split; [find_lookup|]|].
    split; [by eexists; split; [find_lookup|]|]. eexists. find_lookup.
Qed.

Lemma close_connection_spec d w :
  has_handle d w -> connection d (fun _ => True) w ->
  wp (close_connection d) (fun o w' => o = Ret tt /\ has_handle d w') w.
Proof.
  intros [x Hx] (c & Hc & _). unfold close_connection. wp_auto.
  destruct (connected x); [|wp_auto; split; [done|by eexists]].
  unfold mysql_close, free_embedded_thd, mysql_detach_stmt_list. wp_auto.
  destruct (decide _); wp_auto; (split; [done|eexists; find_lookup]).
Qed.
End queries.
