(* ===== verification/RuntimeTheorems.v ===== *)
(** * Opening and closing: the runtime invariant

    [runtime_ok] relates the open handles to [g_runtime]; it holds before and
    after every [mylite_open] and [mylite_close], however they end. *)

From S2P Require Import Prelude Api Effects System Directory World ClientQuery ClientStmt Frames.
From S2P Require Import Rules ClientFacts Runtime Scripted RuntimeFacts.
From stdpp Require Import options.
Set Default Proof Using "Type*".

Local Open Scope Z_scope.

(** The lock a runtime holds: none for [":memory:"], else the only descriptor
    on top of those, [base], the process has otherwise. *)
Definition lock_ok (base ds : gmap Z open_file) (rt : RuntimeState) : Prop :=
  if is_memory_database_path (runtime_database_path rt) then lock_fd rt = -1 /\ ds = base
  else 0 <= lock_fd rt /\ base !! lock_fd rt = None /\
       exists loc, ds = <[lock_fd rt := mkOpenFile loc true]> base.

Section invariant.
  Context `{Server, Build}.
  Context (base : gmap Z open_file).

(** [handles] are the handles that have been opened and not closed. *)
Record runtime_ok (handles : gmap nat mylite_db) (w : world) : Prop := mkRuntimeOk {
  ro_counted : ref_count (runtime w) = Z.of_nat (stdpp.base.size handles);
  ro_paths : map_Forall (fun _ x => database_path x = runtime_database_path (runtime w)) handles;
  ro_used : handles <> ∅ ->
    mysql_client_init w = true /\ lock_ok base (descriptors (sys w)) (runtime w);
  ro_idle : handles = ∅ -> runtime w = initial_runtime /\ descriptors (sys w) = base;
}.

(** Only these components matter. *)
Lemma runtime_ok_same handles w w' :
  runtime w' = runtime w -> descriptors (sys w') = descriptors (sys w) ->
  (mysql_client_init w = true -> mysql_client_init w' = true) ->
  runtime_ok handles w -> runtime_ok handles w'.
Proof.
  intros Hr Hd Hi [Hc Hp Hu Hn]. split; rewrite ?Hr, ?Hd; auto.
  intros Hne. destruct (Hu Hne). auto.
Qed.

Lemma runtime_ok_frame d handles w w' :
  handle_frame d w w' -> runtime_ok handles w -> runtime_ok handles w'.
Proof. intros []. by apply runtime_ok_same. Qed.

(** A handle that is being opened, beside those that are. *)
Definition opening (d : nat) (path : bytes) (handles : gmap nat mylite_db) (w : world) : Prop :=
  handles !! d = None /\ exists x, dbs w = <[d := x]> handles /\ handle_core x = (path, 0).

Lemma core_path x path n : handle_core x = (path, n) -> database_path x = path.
Proof. by intros [= ? ?]. Qed.

Lemma opening_frame d path handles w w' :
  handle_frame d w w' -> opening d path handles w -> opening d path handles w'.
Proof.
  intros Hframe (Hnew & x & Hdbs & Hpath). split; [done|].
  pose proof (hf_others _ _ _ Hframe) as Hothers. pose proof (hf_core _ _ _ Hframe) as Hcore.
  rewrite Hdbs in Hothers, Hcore. rewrite lookup_insert_eq in Hcore.
  rewrite delete_insert_id in Hothers; [|done].
  destruct (dbs w' !! d) as [x'|] eqn:Hx'; [|done]. exists x'.
  split; [by rewrite <- Hothers, insert_delete_id|]. simpl in Hcore. congruence.
Qed.

Lemma opening_has_handle d path handles w : opening d path handles w -> has_handle d w.
Proof. intros (_ & x & Hdbs & _). exists x. by rewrite Hdbs, lookup_insert_eq. Qed.

(** A count of one more handle. *)
Lemma runtime_ok_insert d x handles w :
  handles !! d = None ->
  ref_count (runtime w) = Z.of_nat (stdpp.base.size handles) + 1 ->
  database_path x = runtime_database_path (runtime w) ->
  map_Forall (fun _ x => database_path x = runtime_database_path (runtime w)) handles ->
  mysql_client_init w = true -> lock_ok base (descriptors (sys w)) (runtime w) ->
  runtime_ok (<[d := x]> handles) w.
Proof.
  intros Hnew Hcount Hx Hpaths Hinit Hlock. split.
  - rewrite map_size_insert_None by done. lia.
  - by apply map_Forall_insert.
  - done.
  - intros Hempty. by apply insert_non_empty in Hempty.
Qed.

Lemma runtime_ok_replace d x x' handles w :
  handles !! d = None -> database_path x' = database_path x ->
  runtime_ok (<[d := x]> handles) w -> runtime_ok (<[d := x']> handles) w.
Proof.
  intros Hnew Hpath [Hc Hp Hu Hi]. rewrite map_size_insert_None in Hc by done.
  apply map_Forall_insert in Hp as [Hx Hp]; [|done]. destruct Hu; [apply insert_non_empty|].
  apply runtime_ok_insert; congruence || lia || done.
Qed.

(** A call on the handle that was opened last. *)
Lemma opened_frame d path handles w w' :
  handle_frame d w w' -> opening d path handles w -> runtime_ok (dbs w) w ->
  opening d path handles w' /\ runtime_ok (dbs w') w'.
Proof.
  intros Hframe Hopen Hok. pose proof (opening_frame _ _ _ _ _ Hframe Hopen) as Hopen'.
  split; [done|]. destruct Hopen as (Hnew & x & Hdbs & Hpath), Hopen' as (_ & x' & Hdbs' & Hpath').
  apply core_path in Hpath, Hpath'.
  rewrite Hdbs'. apply (runtime_ok_replace d x); [done|congruence|].
  rewrite Hdbs in Hok. by eapply runtime_ok_frame.
Qed.

(** ** The lock *)

Lemma fresh_descriptor_fresh fds : fds !! fresh_descriptor fds = None /\ 0 <= fresh_descriptor fds.
Proof.
  unfold fresh_descriptor. split.
  - pose proof (is_fresh (dom fds ∪ list_to_set (seqZ 0 3) : gset Z)) as Hf.
    apply not_elem_of_dom. set_solver.
  - unfold fresh, set_fresh, fresh, infinite_fresh.
    assert (Hpos : forall l, 0 <= foldr (Z.max ∘ Z.succ) 0 l) by (induction l; simpl in *; lia).
    apply Hpos.
Qed.

Lemma wp_sys_open path (Q : outcome Z -> system -> Prop) s :
  (forall s', descriptors s' = descriptors s -> Q (Ret (-1)) s') ->
  (forall s' fd loc, descriptors s !! fd = None -> 0 <= fd ->
     descriptors s' = <[fd := mkOpenFile loc false]> (descriptors s) -> Q (Ret fd) s') ->
  wp (sys_open path) Q s.
Proof.
  intros Hfail Hopen. unfold sys_open. apply wp_bind.
  apply (wp_ends same_descriptors false false); [auto with steps|auto with ends|].
  intros [f|[]| |] s1 Hf Hd1; try done. apply bind_post_ret.
  destruct f; wp_auto; [|by apply Hfail].
  destruct (resolve s1 path) as [loc|]; wp_auto; [|by apply Hfail].
  destruct (fresh_descriptor_fresh (descriptors s1)) as [Hfresh Hpos]. rewrite Hd1 in *.
  destruct (files s1 !! loc) as [[]|]; wp_auto; simpl; [by apply Hfail| |];
    try case_decide; try done; wp_auto; simpl; rewrite ?Hd1;
    apply (Hopen _ _ loc); simpl; rewrite ?Hd1; done.
Qed.

Lemma handle_frame_set_sys d t w :
  descriptors t = descriptors (sys w) -> handle_frame d w (set_sys t w).
Proof. by split. Qed.

Lemma handle_frame_set_db d x x' w :
  dbs w !! d = Some x -> handle_core x' = handle_core x ->
  handle_frame d w (set_dbs (<[d := x']> (dbs w)) w).
Proof.
  intros Hx Hcore. split; simpl; try done; [by rewrite delete_insert_eq|].
  rewrite lookup_insert_eq, Hx. simpl. by rewrite Hcore.
Qed.

Definition lock_failed (d : nat) (w : world) : Prop :=
  exists x, dbs w !! d = Some x /\ (errcode x = MYLITE_BUSY \/ errcode x = MYLITE_IOERR).

(** Either the lock file is held through a new descriptor, or nothing is. *)
Lemma acquire_database_lock_spec d path config w :
  has_handle d w ->
  wp (acquire_database_lock d path config) (fun o w' => exists fd, o = Ret fd /\
    ((0 <= fd /\ descriptors (sys w) !! fd = None /\ w' = set_sys (sys w') w /\
      exists loc, descriptors (sys w') = <[fd := mkOpenFile loc true]> (descriptors (sys w))) \/
     (fd = -1 /\ handle_frame d w w' /\ lock_failed d w'))) w.
Proof.
  intros [x Hx]. unfold acquire_database_lock. apply wp_bind, wp_zoom.
  apply wp_sys_open.
  - intros s1 Hd1. apply bind_post_ret. simpl. wp_auto. exists (-1). split; [done|]. right.
    split; [done|]. split; [|by eexists; split; [find_lookup|auto]].
    transitivity (set_sys s1 w); [by apply handle_frame_set_sys|].
    by eapply (handle_frame_set_db d x).
  - intros s1 fd loc Hfd Hpos Hd1. apply bind_post_ret. rewrite (proj2 (Z.ltb_ge fd 0)) by lia.
    apply wp_bind, wp_zoom. simpl.
    eapply wp_mono; [apply (wait_for_database_lock_spec _ _ s1 (mkOpenFile loc false))|].
    { by rewrite Hd1, lookup_insert_eq. }
    intros o s2 (r & -> & [[-> Hd2]|[Hr Hd2]]); apply bind_post_ret.
    + simpl. wp_auto. exists fd. split; [done|]. left. split_and!; [done..|].
      exists loc. simpl. by rewrite Hd2, Hd1, insert_insert_eq.
    + assert ((r =? MYLITE_OK) = false) as -> by (by destruct Hr; subst). apply wp_bind, wp_zoom.
      unfold release_database_lock, sys_unlock_close. rewrite (proj2 (Z.leb_le 0 fd)) by lia. wp_auto. simpl.
      assert (Hback : delete fd (descriptors s2) = descriptors (sys w))
        by (by rewrite Hd2, Hd1, delete_insert_id).
      destruct Hr as [-> | ->]; simpl; wp_auto; exists (-1); (split; [done|]); right; (split; [done|]);
        (split; [|by eexists; split; [find_lookup|auto]]);
        (etransitivity;
           [apply (handle_frame_set_sys d (set_descriptors (delete fd (descriptors s2)) s2) w), Hback|]);
        by eapply (handle_frame_set_db d x).
Qed.

(** ** Starting and releasing the runtime *)

(** The lock that is held before it is recorded in [g_runtime]. *)
Definition lock_taken (path : bytes) (fd : Z) (ds : gmap Z open_file) : Prop :=
  lock_ok base ds (mkRuntime 0 [] [] path [] fd).

Lemma release_lock_spec path fd w (Q : outcome unit -> world -> Prop) :
  lock_taken path fd (descriptors (sys w)) ->
  (forall t, descriptors t = base -> Q (Ret tt) (set_sys t w)) ->
  wp (on_system (release_database_lock fd)) Q w.
Proof.
  unfold lock_taken, lock_ok. simpl. intros Hlock HQ. apply wp_zoom.
  unfold release_database_lock, sys_unlock_close.
  destruct (is_memory_database_path path).
  - destruct Hlock as [-> Hds]. simpl. wp_auto. by apply HQ.
  - destruct Hlock as (Hpos & Hnew & loc & Hds). rewrite (proj2 (Z.leb_le 0 fd)) by lia. wp_auto.
    apply HQ. simpl. by rewrite Hds, delete_insert_id.
Qed.

(** How starting the runtime for the handle [d] ends, when [handles] are the
    handles that are counted; only [d] changes among the handles there are. *)
Definition started (d : nat) (path : bytes) (handles : gmap nat mylite_db) (w : world)
    (o : outcome Z) (w' : world) : Prop :=
  delete d (dbs w') = delete d (dbs w) /\
  exists x, dbs w' !! d = Some x /\ handle_core x = (path, 0) /\
  match o with
  | Ret r => if r =? MYLITE_OK then runtime_ok (<[d := x]> handles) w' else runtime_ok handles w'
  | Throw filesystem_error => runtime_ok handles w'
  | _ => False
  end.

Lemma runtime_ok_idle w :
  runtime w = initial_runtime -> descriptors (sys w) = base -> runtime_ok ∅ w.
Proof. intros Hr Hd. split; [by rewrite Hr|apply map_Forall_empty|done|done]. Qed.

Lemma opening_dbs d path handles w w' :
  dbs w' = dbs w -> opening d path handles w -> opening d path handles w'.
Proof. unfold opening. by intros ->. Qed.

(** The clean-up of a failed start leaves the runtime idle. *)
Lemma start_failed path fd directory w (k : cmd world Z) (Q : outcome Z -> world -> Prop) :
  ref_count (runtime w) = 0 -> lock_fd (runtime w) = -1 ->
  lock_taken path fd (descriptors (sys w)) ->
  (forall w', dbs w' = dbs w -> runtime_ok ∅ w' -> wp k Q w') ->
  wp (modify (fun w => set_runtime (clear_runtime (runtime w)) w) ;;
      on_system (remove_directory_if_present directory) ;;
      on_system (release_database_lock fd) ;; k) Q w.
Proof.
  intros Hcount Hfd Hlock Hk. wp_auto. apply wp_zoom.
  apply (wp_ends same_descriptors false false); [auto with steps|auto with ends|].
  intros [[]|[]| |] s1 Ho Hd1; try done. wp_auto.
  eapply release_lock_spec; [simpl; rewrite Hd1; exact Hlock|].
  intros t Ht. wp_auto. apply Hk; [done|]. apply runtime_ok_idle; [|done].
  simpl. unfold clear_runtime, initial_runtime. by rewrite Hcount, Hfd.
Qed.

Lemma mysql_server_init_spec argv w :
  wp (mysql_server_init argv) (fun o w' => exists error, o = Ret error /\ dbs w' = dbs w /\
    runtime w' = runtime w /\ descriptors (sys w') = descriptors (sys w) /\
    (error = false -> mysql_client_init w' = true)) w.
Proof.
  unfold mysql_server_init. wp_auto. destruct (mysql_client_init w) eqn:Hinit; simpl; wp_auto.
  - by exists false.
  - destruct a as [|[]]; wp_auto; eexists; split_and!; try done.
Qed.

(** The [try] block, entered with the lock taken. *)
Lemma start_locked_spec d x path fd config w :
  handle_core x = (path, 0) -> dbs w !! d = Some x -> runtime w = initial_runtime ->
  lock_taken path fd (descriptors (sys w)) ->
  wp (start_locked d path fd config) (started d path ∅ w) w.
Proof.
  intros Hcore Hx Hrt Hlock.
  unfold start_locked. apply wp_try_catch, wp_bind.
  apply (wp_ends layout_frame true false);
    [apply create_runtime_layout_frame|apply create_runtime_layout_ends|].
  intros o w1 Hends [Hd1 Hw1]. rewrite <- Hd1 in Hlock.
  assert (Hdbs1 : dbs w1 = dbs w) by (by rewrite Hw1).
  assert (Hrt1 : runtime w1 = initial_runtime) by (by rewrite Hw1). clear Hw1 Hd1 Hrt.
  destruct o as [layout|[]| |]; try done.
  - apply bind_post_ret. wp_auto. eapply wp_mono; [apply mysql_server_init_spec|]. simpl.
    intros o w2 (error & -> & Hdbs2 & Hrt2 & Hd2 & Hinit). apply bind_post_ret.
    rewrite Hdbs1 in Hdbs2. rewrite <- Hd2 in Hlock. rewrite Hrt1 in Hrt2.
    destruct error; simpl.
    + eapply (start_failed path fd); rewrite ?Hrt2; try done. intros w' Hdbs' Hok.
      simpl in Hdbs'. rewrite Hdbs2 in Hdbs'.
      assert (Hx' : dbs w' !! d = Some x) by (by rewrite Hdbs').
      wp_auto. unfold started. simpl. rewrite Hdbs'. split; [by rewrite delete_insert_eq|].
      eexists. split; [apply lookup_insert_eq|]. split; [done|]. by eapply runtime_ok_same, Hok.
    + wp_auto. unfold started. simpl. rewrite Hdbs2. split; [done|]. exists x. split; [done|]. split; [done|].
      apply (runtime_ok_insert d x ∅); simpl; rewrite ?Hrt2;
        first [done | by apply Hinit | exact Hlock | by eapply core_path | apply map_Forall_empty].
  - eapply (start_failed path fd []); rewrite ?Hrt1; try done. intros w' Hdbs' Hok.
    rewrite Hdbs1 in Hdbs'. apply wp_throw. unfold started. rewrite Hdbs'. split; [done|]. by exists x.
Qed.

Lemma start_runtime_started d x path handles config w :
  handles !! d = None -> dbs w !! d = Some x -> handle_core x = (path, 0) ->
  runtime_ok handles w -> Z.of_nat (stdpp.base.size handles) < 2 ^ 32 - 1 ->
  wp (start_runtime d config) (started d path handles w) w.
Proof.
  intros Hnew Hx Hpath Hok Hsize.
  unfold start_runtime. wp_auto. pose proof (ro_counted _ _ Hok) as Hcount.
  destruct (decide (handles = ∅)) as [-> | Hne].
  - (* the first handle *)
    destruct (ro_idle _ _ Hok) as [Hrt Hds]; [done|]. rewrite Hrt. simpl.
    rewrite (core_path _ _ _ Hpath). destruct (is_memory_database_path path) eqn:Hmem.
    { apply (start_locked_spec d x); [done..|]. unfold lock_taken, lock_ok. simpl. by rewrite Hmem. }
    apply wp_bind. eapply wp_mono; [apply acquire_database_lock_spec; by exists x|].
    intros o w1 (fd & -> & [(Hpos & Hfresh & Hw1 & loc & Hd1)|(-> & Hframe & x1 & Hx1 & Hcode)]);
      apply bind_post_ret.
    + rewrite (proj2 (Z.ltb_ge fd 0)) by lia.
      assert (Hdbs1 : dbs w1 = dbs w) by (by rewrite Hw1). unfold started. rewrite <- Hdbs1.
      apply (start_locked_spec d x); [done|by rewrite Hdbs1|by rewrite Hw1|].
      unfold lock_taken, lock_ok. simpl. rewrite Hmem, Hd1, <- Hds. eauto.
    + simpl. wp_auto. split; [apply Hframe|]. exists x1. split; [done|].
      assert ((errcode x1 =? MYLITE_OK) = false) as -> by (by destruct Hcode as [-> | ->]).
      split; [|by eapply runtime_ok_frame]. pose proof (hf_core _ _ _ Hframe) as Hc.
      rewrite Hx, Hx1 in Hc. simpl in Hc. congruence.
  - (* one more handle *)
    assert (Hpos : (0 < stdpp.base.size handles)%nat)
      by (apply Nat.neq_0_lt_0; by intros ->%map_size_empty_inv).
    rewrite (proj2 (Z.ltb_lt 0 _)) by lia.
    destruct (bool_decide_reflect (runtime_database_path (runtime w) = database_path x)) as [Hp|Hp];
      simpl; wp_auto.
    + split; [done|]. exists x. split; [done|]. split; [done|]. simpl. destruct (ro_used _ _ Hok Hne).
      apply runtime_ok_insert; simpl; try done; [|by apply (ro_paths _ _ Hok)].
      rewrite Z.mod_small; lia.
    + unfold started. simpl. split; [by rewrite delete_insert_eq|]. eexists. split; [apply lookup_insert_eq|].
      split; [done|]. by eapply runtime_ok_same, Hok.
Qed.

(** The same for the handle that is opened beside those that are open. *)
Definition start_outcome (d : nat) (path : bytes) (handles : gmap nat mylite_db)
    (o : outcome Z) (w' : world) : Prop :=
  opening d path handles w' /\
  match o with
  | Ret r => if r =? MYLITE_OK then runtime_ok (dbs w') w' else runtime_ok handles w'
  | Throw filesystem_error => runtime_ok handles w'
  | _ => False
  end.

Lemma start_runtime_spec d path handles config w :
  opening d path handles w -> runtime_ok handles w ->
  Z.of_nat (stdpp.base.size handles) < 2 ^ 32 - 1 ->
  wp (start_runtime d config) (start_outcome d path handles) w.
Proof.
  intros (Hnew & x & Hdbs & Hpath) Hok Hsize.
  eapply wp_mono; [apply (start_runtime_started d x); try done; by rewrite Hdbs, lookup_insert_eq|].
  intros o w' (Hothers & x' & Hx' & Hpath' & Ho).
  rewrite Hdbs, delete_insert_id in Hothers by done.
  assert (Hdbs' : dbs w' = <[d := x']> handles) by (by rewrite <- Hothers, insert_delete_id).
  split; [split; [done|by exists x']|]. by rewrite Hdbs'.
Qed.

(** A call to the operating system that always returns. *)
Lemma wp_system {A} fs (m : cmd system A) (Q : outcome A -> world -> Prop) w :
  steps same_descriptors m -> ends fs false m ->
  (forall o t, allowed fs false o -> descriptors t = descriptors (sys w) -> Q o (set_sys t w)) ->
  wp (on_system m) Q w.
Proof. intros Hm He HQ. apply wp_zoom. apply (wp_ends same_descriptors fs false); auto. Qed.

(** Releasing the runtime drops one handle; the last one stops the server and
    gives up the lock. *)
Lemma release_runtime_spec d x handles w :
  handles !! d = None -> runtime_ok (<[d := x]> handles) w ->
  wp release_runtime (fun o w' => o = Ret tt /\ dbs w' = dbs w /\ runtime_ok handles w' /\
    (handles = ∅ -> mysql_client_init w' = false)) w.
Proof.
  intros Hnew [Hcount Hpaths Hused _]. rewrite map_size_insert_None in Hcount by done.
  destruct Hused as [Hinit Hlock]; [apply insert_non_empty|].
  apply map_Forall_insert in Hpaths as [Hx Hpaths]; [|done].
  unfold release_runtime. wp_auto. rewrite (proj2 (Z.eqb_neq _ 0)) by lia. simpl.
  destruct (decide (handles = ∅)) as [-> | Hne].
  - rewrite map_size_empty in Hcount. assert (Hone : ref_count (runtime w) = 1) by lia.
    rewrite Hone. simpl. unfold mysql_server_end. wp_auto. simpl. rewrite Hinit. simpl. wp_auto.
    apply (wp_system false); [auto with steps|auto with ends|]. intros [[]|[]| |] t1 Ho1 Ht1; try done.
    wp_auto. apply (wp_system false); [auto with steps|auto with ends|].
    intros [[]|[]| |] t2 Ho2 Ht2; try done. wp_auto.
    eapply (release_lock_spec (runtime_database_path (runtime w))).
    { simpl. rewrite Ht2. simpl. rewrite Ht1. simpl. exact Hlock. }
    intros t3 Ht3. wp_auto. split; [done|]. split; [done|]. split; [by apply runtime_ok_idle|done].
  - assert (Hpos : (0 < stdpp.base.size handles)%nat)
      by (apply Nat.neq_0_lt_0; by intros ->%map_size_empty_inv).
    wp_auto. simpl. rewrite (proj2 (Z.ltb_lt 0 _)) by lia. wp_auto.
    split; [done|]. split; [done|]. split; [|done]. split; simpl; try done. lia.
Qed.

(** ** Opening *)

Lemma wp_handled {A} d (m : cmd world A) (P : outcome A -> world -> Prop) w :
  steps (handle_frame d) m -> wp m P w -> wp m (fun o w' => P o w' /\ handle_frame d w w') w.
Proof. intros Hm HP. apply wp_and; [done|apply Hm]. Qed.

Definition open_outcome (d : nat) (handles : gmap nat mylite_db) (o : outcome Z) (w' : world)
    : Prop :=
  exists path, opening d path handles w' /\
  match o with
  | Ret r => if r =? MYLITE_OK then runtime_ok (dbs w') w' /\ connection d ready w'
             else runtime_ok handles w'
  | Throw filesystem_error => runtime_ok handles w'
  | _ => False
  end.

(** Giving up an open after the runtime was started. *)
Lemma give_up_spec d path handles code w :
  code <> MYLITE_OK -> opening d path handles w -> runtime_ok (dbs w) w ->
  connection d (fun _ => True) w ->
  wp (close_connection d ;; release_runtime ;; mret code) (open_outcome d handles) w.
Proof.
  intros Hcode Hopen Hok Hc. apply wp_bind.
  eapply wp_mono; [apply wp_handled; [auto with steps|];
    apply close_connection_spec; [by eapply opening_has_handle|done]|].
  intros o w1 [[-> Hd1] Hframe]. apply bind_post_ret, wp_bind.
  destruct (opened_frame _ _ _ _ _ Hframe Hopen Hok) as [Hopen1 Hok1].
  pose proof Hopen1 as (Hnew & x & Hdbs & Hpath). rewrite Hdbs in Hok1.
  eapply wp_mono; [by apply (release_runtime_spec d x handles)|].
  intros o w2 (-> & Hdbs2 & Hok2 & _). wp_auto. exists path.
  split; [by eapply opening_dbs|]. by rewrite (proj2 (Z.eqb_neq _ _) Hcode).
Qed.

(** A step of [open_db] that fails ends it. *)
Lemma open_step d handles (m k : cmd world Z) (P : world -> Prop) w :
  wp m (fun o w' =>
    match o with
    | Ret r => if r =? MYLITE_OK then P w' else open_outcome d handles o w'
    | _ => open_outcome d handles o w'
    end) w ->
  (forall w', P w' -> wp k (open_outcome d handles) w') ->
  wp (r ← m; if negb (r =? MYLITE_OK) then mret r else k) (open_outcome d handles) w.
Proof.
  intros Hm Hk. apply wp_bind. eapply wp_mono; [exact Hm|]. intros [r|e| |] w'; try done.
  intros Hr. apply bind_post_ret. destruct (r =? MYLITE_OK); simpl; auto.
Qed.

(** A step that fails after the runtime was started gives it back. *)
Lemma open_started_step d path handles (m k : cmd world Z) w :
  steps (handle_frame d) m -> opening d path handles w -> runtime_ok (dbs w) w ->
  wp m (succeeds_ready d) w ->
  (forall w', opening d path handles w' -> runtime_ok (dbs w') w' -> connection d ready w' ->
     wp k (open_outcome d handles) w') ->
  wp (r ← m; if negb (r =? MYLITE_OK) then close_connection d ;; release_runtime ;; mret r else k)
    (open_outcome d handles) w.
Proof.
  intros Hframe Hopen Hok Hm Hk. apply wp_bind. eapply wp_mono; [by apply wp_handled|].
  intros o w' [(r & -> & Hready & Hc & Hd) Hw']. apply bind_post_ret.
  destruct (opened_frame _ _ _ _ _ Hw' Hopen Hok) as [Hopen' Hok'].
  destruct (Z.eqb_spec r MYLITE_OK); simpl; [by auto|by eapply give_up_spec].
Qed.

Lemma open_path_spec `{!Compliant} d path flags config handles w :
  opening d path handles w -> runtime_ok handles w ->
  Z.of_nat (stdpp.base.size handles) < 2 ^ 32 - 1 ->
  wp (open_path d path flags config) (open_outcome d handles) w.
Proof.
  intros Hopen Hok Hsize. unfold open_path.
  apply (open_step _ _ _ _ (fun w => opening d path handles w /\ runtime_ok handles w)).
  { destruct (opening_has_handle _ _ _ _ Hopen) as [x Hx]. unfold validate_runtime_database_path.
    wp_auto. destruct (_ && _); wp_auto; [|done]. simpl. exists path.
    assert (Hframe := handle_frame_set_db d x (set_error x MYLITE_BUSY
      "embedded runtime is already open for another database") w Hx eq_refl).
    split; [by eapply opening_frame|by eapply runtime_ok_frame]. }
  clear w Hopen Hok. intros w [Hopen Hok].
  apply (open_step _ _ _ _ (fun w => opening d path handles w /\ runtime_ok handles w)).
  { apply (wp_system true); [auto with steps|auto with ends|].
    assert (Hsame : forall t, descriptors t = descriptors (sys w) ->
      opening d path handles (set_sys t w) /\ runtime_ok handles (set_sys t w)).
    { intros t Ht. split; [by eapply opening_dbs|by eapply runtime_ok_same, Hok]. }
    intros [r|[]| |] t Ho Ht; try done; destruct (Hsame t Ht); [|by exists path].
    destruct (r =? MYLITE_OK) eqn:Hr; [done|]. exists path. by rewrite Hr. }
  clear w Hopen Hok. intros w [Hopen Hok].
  apply (open_step _ _ _ _ (fun w => opening d path handles w /\ runtime_ok (dbs w) w)).
  { eapply wp_mono; [by apply start_runtime_spec|]. intros [r|[]| |] w' [Hopen' Hok']; try done;
      [|by exists path]. destruct (r =? MYLITE_OK) eqn:Hr; [done|]. exists path. by rewrite Hr. }
  clear w Hopen Hok. intros w [Hopen Hok].
  apply (open_started_step d path); [auto with steps|done|done| |].
  { apply connect_runtime_spec; [by eapply opening_has_handle|].
    apply (ro_used _ _ Hok). destruct Hopen as (_ & x & -> & _). apply insert_non_empty. }
  clear w Hopen Hok. intros w Hopen Hok Hc.
  apply (open_started_step d path); [auto with steps|done|done| |].
  { apply ensure_core_system_tables_spec; [by eapply opening_has_handle|done]. }
  clear w Hopen Hok Hc. intros w Hopen Hok Hc. wp_auto. by exists path.
Qed.

Lemma open_db_spec `{!Compliant} d path0 path flags config handles w :
  opening d path0 handles w -> runtime_ok handles w ->
  Z.of_nat (stdpp.base.size handles) < 2 ^ 32 - 1 ->
  wp (open_db d path flags config) (open_outcome d handles) w.
Proof.
  intros Hopen Hok Hsize. unfold open_db. apply wp_bind.
  apply (wp_system true); [auto with steps|auto with ends|].
  intros [p|[]| |] t1 Ho1 Ht1; try done.
  2: { exists path0. split; [by eapply opening_dbs|]. by eapply runtime_ok_same, Hok. }
  pose proof Hopen as (Hnew & x & Hdbs & Hcore). injection Hcore as _ Hactive.
  assert (Hx : dbs w !! d = Some x) by (by rewrite Hdbs, lookup_insert_eq). wp_auto.
  apply open_path_spec; [|by eapply runtime_ok_same, Hok|done].
  split; [done|]. exists (with_database_path x p). simpl. rewrite Hdbs, insert_insert_eq.
  unfold handle_core. simpl. by rewrite Hactive.
Qed.
End invariant.

(** ** What opening and closing keep beside the handles *)

Section outer.
  Context `{Server, Build}.

Record outer_frame (w w' : world) : Prop := mkOuterFrame {
  of_next : (next_address w <= next_address w')%nat;
  of_stmts : with_columns [] <$> stmts w' = with_columns [] <$> stmts w;
  of_connections : dom (connections w) ⊆ dom (connections w');
}.

#[global] Instance outer_frame_preorder : PreOrder outer_frame.
Proof. split; [by split|]. intros w1 w2 w3 [] []. split; [lia|congruence|set_solver]. Qed.

Lemma outer_framed {A} (m : cmd world A) : steps client_frame m -> steps outer_frame m.
Proof. apply steps_mono. intros w w' []. by split. Qed.
Lemma outer_on_system {A} (m : cmd system A) : steps outer_frame (on_system m).
Proof. intros w. unfold on_system, zoom. by destruct (m (sys w)). Qed.
Lemma outer_set_runtime f : steps outer_frame (modify (fun w => set_runtime (f w) w)).
Proof. by apply steps_modify. Qed.
Lemma outer_set_runtime_counter f :
  steps outer_frame (modify (fun w => set_runtime_counter (f w) w)).
Proof. by apply steps_modify. Qed.
Lemma outer_set_mysql_client_init b : steps outer_frame (modify (set_mysql_client_init b)).
Proof. by apply steps_modify. Qed.
Lemma outer_update_db d f : steps outer_frame (update_db d f).
Proof. unfold update_db, get_db, put_db. steps_auto. by apply steps_modify. Qed.
Hint Resolve outer_framed outer_on_system outer_set_runtime outer_set_runtime_counter
  outer_set_mysql_client_init outer_update_db : steps.

Lemma outer_mysql_server_init argv : steps outer_frame (mysql_server_init argv).
Proof. unfold mysql_server_init. steps_auto. Qed.
Lemma outer_drain_remaining_query_results d :
  steps outer_frame (drain_remaining_query_results d).
Proof.
  unfold drain_remaining_query_results. steps_auto. generalize (S a). clear a.
  intros fuel. induction fuel; simpl; unfold set_mariadb_error; steps_auto.
Qed.
Hint Resolve outer_mysql_server_init outer_drain_remaining_query_results : steps.
Lemma outer_connect_runtime d : steps outer_frame (connect_runtime d).
Proof. unfold connect_runtime, mysql_init, set_mariadb_error. steps_auto. Qed.
Lemma outer_ensure_core_system_tables d : steps outer_frame (ensure_core_system_tables d).
Proof.
  unfold ensure_core_system_tables, execute_system_table_statement, set_mariadb_error. steps_auto.
Qed.
Lemma outer_close_connection d : steps outer_frame (close_connection d).
Proof. unfold close_connection, get_db. steps_auto. Qed.
Lemma outer_release_runtime : steps outer_frame release_runtime.
Proof. unfold release_runtime, mysql_server_end. steps_auto; by apply steps_modify. Qed.
Lemma outer_create_memory_candidate n root : steps outer_frame (create_memory_candidate n root).
Proof. induction n; simpl; unfold unique_runtime_name; steps_auto. Qed.
Hint Resolve outer_connect_runtime outer_ensure_core_system_tables outer_close_connection
  outer_release_runtime outer_create_memory_candidate : steps.
Lemma outer_start_runtime d config : steps outer_frame (start_runtime d config).
Proof.
  unfold start_runtime, start_locked, acquire_database_lock, get_db, create_runtime_layout,
    create_memory_runtime_layout. steps_auto. all: by apply steps_modify.
Qed.
Hint Resolve outer_start_runtime : steps.
Lemma outer_open_db d path flags config : steps outer_frame (open_db d path flags config).
Proof. unfold open_db, open_path, validate_runtime_database_path, get_db. steps_auto. Qed.
End outer.

(** ** A start that fails *)

Definition open_twice (path : bytes) : cmd world (Z * Z) :=
  '(first, _) ← mylite_open (Some path) true open_flags None;
  '(second, _) ← mylite_open (Some path) true open_flags None;
  mret (first, second).

(** The server fails once, before it has anything to clean up. *)
Definition failing_world : world :=
  mkWorld ∅ ∅ ∅ ∅ ∅ initial_runtime 0 false (mkScripted [] [InitFailed false] [] false)
    initial_system [] 0.

