(* ===== verification/Library.v ===== *)
(** * The invariant of the library

    [library_ok] is what holds between any two calls of the library: the
    runtime is in step with the open handles ([runtime_ok]), every handle has
    its connection, every live statement belongs to a live handle, and every
    handle counts its statements. *)

From S2P Require Import Prelude Api Effects System Directory World ClientQuery ClientStmt Frames.
From S2P Require Import Rules ClientFacts Runtime Scripted RuntimeFacts RuntimeTheorems.
From stdpp Require Import options.
Set Default Proof Using "Type*".

Local Open Scope Z_scope.

Section library.
  Context `{Server, Build}.
  Context (base : gmap Z open_file).

(** The handle each live statement belongs to. *)
Definition owners (w : world) : gmap nat (option nat) := db <$> stmts w.

Definition owned_by (d : nat) (w : world) : gmap nat (option nat) :=
  filter (fun entry => entry.2 = Some d) (owners w).

(** What holds of the handles and statements, whoever counts the handles. *)
Record tables_ok (w : world) : Prop := mkTablesOk {
  tab_handles : forall d, d ∈ dom (dbs w) -> (d < next_address w)%nat /\ d ∈ dom (connections w);
  tab_statements : forall s o, owners w !! s = Some o ->
    (s < next_address w)%nat /\ exists d, o = Some d /\ d ∈ dom (dbs w);
  tab_counts : forall d x, dbs w !! d = Some x ->
    active_statement_count x = Z.of_nat (stdpp.base.size (owned_by d w));
}.

Record library_ok (w : world) : Prop := mkLibraryOk {
  lib_runtime : runtime_ok base (dbs w) w;
  lib_tables : tables_ok w;
}.

Lemma lib_handles w : library_ok w ->
  forall d, d ∈ dom (dbs w) -> (d < next_address w)%nat /\ d ∈ dom (connections w).
Proof. intros Hok. apply (tab_handles _ (lib_tables _ Hok)). Qed.
Lemma lib_statements w : library_ok w -> forall s o, owners w !! s = Some o ->
  (s < next_address w)%nat /\ exists d, o = Some d /\ d ∈ dom (dbs w).
Proof. intros Hok. apply (tab_statements _ (lib_tables _ Hok)). Qed.
Lemma lib_counts w : library_ok w -> forall d x, dbs w !! d = Some x ->
  active_statement_count x = Z.of_nat (stdpp.base.size (owned_by d w)).
Proof. intros Hok. apply (tab_counts _ (lib_tables _ Hok)). Qed.

Lemma owners_frame w w' :
  with_columns [] <$> stmts w' = with_columns [] <$> stmts w -> owners w' = owners w.
Proof.
  intros Hs. unfold owners.
  assert (Hdb : forall m : gmap nat mylite_stmt, db <$> m = db <$> (with_columns [] <$> m)).
  { intros m. by rewrite <- map_fmap_compose. }
  by rewrite Hdb, Hs, <- Hdb.
Qed.

(** What the calls that neither open nor close handles or statements keep. *)
Record library_frame (w w' : world) : Prop := mkLibraryFrame {
  lf_cores : handle_core <$> dbs w' = handle_core <$> dbs w;
  lf_runtime : runtime w' = runtime w;
  lf_client_init : mysql_client_init w = true -> mysql_client_init w' = true;
  lf_descriptors : descriptors (sys w') = descriptors (sys w);
  lf_owners : owners w' = owners w;
  lf_next : (next_address w <= next_address w')%nat;
  lf_connections : dom (connections w) ⊆ dom (connections w');
}.

#[global] Instance library_frame_preorder : PreOrder library_frame.
Proof.
  split; [by split|]. intros w1 w2 w3 [] []. split; try congruence; [auto|lia|set_solver].
Qed.

Lemma client_library_frame w w' : client_frame w w' -> library_frame w w'.
Proof.
  intros [Hdbs ? ? ? [fs Hs] ? ? ?].
  split; try congruence; [by rewrite Hs|by apply owners_frame|done].
Qed.

Lemma library_frame_update_db d f w :
  (forall x, handle_core (f x) = handle_core x) ->
  library_frame w (snd (update_db d f w)).
Proof.
  intros Hf. unfold update_db, get_db, put_db, mbind, cmd_bind, deref.
  destruct (dbs w !! d) as [x|] eqn:Hx; [|by split]. split; try done.
  simpl. rewrite fmap_insert, Hf. apply insert_id. by rewrite lookup_fmap, Hx.
Qed.

(** The runtime invariant looks at the paths of the handles only. *)
Lemma runtime_ok_paths handles handles' w :
  database_path <$> handles' = database_path <$> handles ->
  runtime_ok base handles w -> runtime_ok base handles' w.
Proof.
  intros Hpaths [Hc Hp Hu Hi].
  assert (Hempty : handles' = ∅ <-> handles = ∅).
  { split; intros ->; rewrite fmap_empty in Hpaths; by eapply fmap_empty_inv. }
  split; [|intros d x' Hx'|tauto|tauto].
  - by rewrite Hc, <- (map_size_fmap database_path handles), <- Hpaths, map_size_fmap.
  - assert (Hx : (database_path <$> handles) !! d = Some (database_path x'))
      by (by rewrite <- Hpaths, lookup_fmap, Hx').
    rewrite lookup_fmap in Hx. destruct (handles !! d) as [x|] eqn:Hd; [|done].
    injection Hx as <-. by apply (Hp d).
Qed.

Lemma cores_paths (handles handles' : gmap nat mylite_db) :
  handle_core <$> handles' = handle_core <$> handles ->
  database_path <$> handles' = database_path <$> handles.
Proof.
  intros Hcores.
  assert (Hfst : forall m : gmap nat mylite_db, database_path <$> m = fst <$> (handle_core <$> m)).
  { intros m. by rewrite <- map_fmap_compose. }
  by rewrite Hfst, Hcores, <- Hfst.
Qed.

(** What the runtime invariant depends on. *)
Record runtime_frame (w w' : world) : Prop := mkRuntimeFrame {
  rf_paths : database_path <$> dbs w' = database_path <$> dbs w;
  rf_runtime : runtime w' = runtime w;
  rf_client_init : mysql_client_init w = true -> mysql_client_init w' = true;
  rf_descriptors : descriptors (sys w') = descriptors (sys w);
}.

#[global] Instance runtime_frame_preorder : PreOrder runtime_frame.
Proof. split; [by split|]. intros w1 w2 w3 [] []. split; try congruence; auto. Qed.

Lemma library_runtime_frame w w' : library_frame w w' -> runtime_frame w w'.
Proof. intros []. split; try done. by apply cores_paths. Qed.

Lemma runtime_ok_kept w w' :
  runtime_frame w w' -> runtime_ok base (dbs w) w -> runtime_ok base (dbs w') w'.
Proof.
  intros [Hp Hr Hi Hd] Hok. eapply runtime_ok_paths; [done|]. by eapply runtime_ok_same, Hok.
Qed.

Lemma cores_dom (handles handles' : gmap nat mylite_db) :
  handle_core <$> handles' = handle_core <$> handles -> dom handles' = dom handles.
Proof. intros Hcores. rewrite <- (dom_fmap_L handle_core handles'), Hcores. apply dom_fmap_L. Qed.

Lemma tables_ok_same w w' :
  handle_core <$> dbs w' = handle_core <$> dbs w -> owners w' = owners w ->
  (next_address w <= next_address w')%nat -> dom (connections w) ⊆ dom (connections w') ->
  tables_ok w -> tables_ok w'.
Proof.
  intros Hcores Howners Hnext Hconns [Hhandles Hstatements Hcounts].
  pose proof (cores_dom _ _ Hcores) as Hdom. split.
  - rewrite Hdom. intros d Hd. destruct (Hhandles d Hd) as [? ?]. split; [lia|by apply Hconns].
  - rewrite Howners, Hdom. intros s o Hs. destruct (Hstatements s o Hs) as [? ?]. split; [lia|done].
  - unfold owned_by. rewrite Howners. intros d x' Hx'.
    assert (Hx : (handle_core <$> dbs w) !! d = Some (handle_core x'))
      by (by rewrite <- Hcores, lookup_fmap, Hx').
    rewrite lookup_fmap in Hx. destruct (dbs w !! d) as [x|] eqn:Hd; [|done].
    injection Hx as _ Hcount. rewrite <- Hcount. by apply Hcounts.
Qed.

Lemma tables_ok_frame w w' : library_frame w w' -> tables_ok w -> tables_ok w'.
Proof. intros []. by apply tables_ok_same. Qed.

Lemma library_ok_frame w w' : library_frame w w' -> library_ok w -> library_ok w'.
Proof.
  intros Hframe [Hrt Htab]. split; [|by eapply tables_ok_frame].
  by eapply runtime_ok_kept, Hrt; apply library_runtime_frame.
Qed.

(** ** Opening and closing handles *)

(** What [mylite_open] promises: a new handle with its connection ready for
    commands, or no handle and the open handles as they were. *)
Definition open_promise (w : world) (o : outcome (Z * option nat)) (w' : world) : Prop :=
  library_ok w' /\ owners w' = owners w /\
  exists code handle, o = Ret (code, handle) /\
    (if code =? MYLITE_OK then
       exists d, handle = Some d /\ (d ∉ dom (dbs w)) /\ d ∈ dom (dbs w') /\
                 delete d (dbs w') = dbs w /\ connection d ready w'
     else handle = None /\ dbs w' = dbs w).

Lemma fresh_not_owner d w : tables_ok w -> (next_address w <= d)%nat -> owned_by d w = ∅.
Proof.
  intros Hok Hd. apply map_empty. intros s. apply map_lookup_filter_None. right.
  intros o Hs Ho. simpl in Ho. subst o.
  destruct (tab_statements _ Hok _ _ Hs) as (_ & d' & [= <-] & Hdom).
  destruct (tab_handles _ Hok d Hdom). lia.
Qed.

Lemma owned_by_same d w w' : owners w' = owners w -> owned_by d w' = owned_by d w.
Proof. intros Ho. unfold owned_by. by rewrite Ho. Qed.

(** The invariant once the handles are again those there were. *)
Lemma library_ok_restored w w' :
  library_ok w -> runtime_ok base (dbs w) w' -> dbs w' = dbs w -> owners w' = owners w ->
  (next_address w <= next_address w')%nat -> dom (dbs w) ⊆ dom (connections w') -> library_ok w'.
Proof.
  intros [Hrt [Hh Hs Hc]] Hrt' Hdbs Howners Hnext Hconns. split; [|split]; rewrite ?Hdbs; try done.
  - intros d Hd. destruct (Hh d Hd) as [? ?]. split; [lia|by apply Hconns].
  - rewrite Howners. intros s o Hso. destruct (Hs s o Hso) as [? ?]. split; [lia|done].
  - unfold owned_by. rewrite Howners. exact Hc.
Qed.

Lemma wp_outer {A} (m : cmd world A) (P : outcome A -> world -> Prop) w :
  steps outer_frame m -> wp m P w -> wp m (fun o w' => P o w' /\ outer_frame w w') w.
Proof. intros Hm HP. apply wp_and; [done|apply Hm]. Qed.

(** Deleting the handle that was being opened. *)
Lemma give_back_spec d path w0 w :
  library_ok w0 -> (next_address w0 <= d)%nat -> opening d path (dbs w0) w ->
  runtime_ok base (dbs w0) w -> owners w = owners w0 ->
  (next_address w0 <= next_address w)%nat -> dom (connections w0) ⊆ dom (connections w) ->
  let w' := set_dbs (delete d (dbs w)) (set_connections (delete d (connections w)) w) in
  library_ok w' /\ dbs w' = dbs w0.
Proof.
  intros Hok Hd (Hnew & x & Hdbs & _) Hrt Howners Hnext Hconns w'.
  assert (Hdbs' : dbs w' = dbs w0) by (simpl; by rewrite Hdbs, delete_insert_id).
  split; [|done]. apply (library_ok_restored w0); try done.
  - by eapply runtime_ok_same, Hrt.
  - simpl. rewrite dom_delete. intros d' Hd'. destruct (lib_handles _ Hok d' Hd') as [Hlt Hc].
    apply elem_of_difference. split; [by apply Hconns|]. rewrite elem_of_singleton. lia.
Qed.

(** The invariant with one more handle. *)
Lemma tables_ok_opened d x w0 w :
  tables_ok w0 -> (next_address w0 <= d)%nat -> (d < next_address w)%nat ->
  dbs w = <[d := x]> (dbs w0) -> active_statement_count x = 0 -> owners w = owners w0 ->
  dom (connections w0) ⊆ dom (connections w) -> d ∈ dom (connections w) -> tables_ok w.
Proof.
  intros Hok Hnew Hd Hdbs Hactive Howners Hconns Hconn. split.
  - rewrite Hdbs, dom_insert_L. intros d' [->%elem_of_singleton|Hd']%elem_of_union; [done|].
    destruct (tab_handles _ Hok d' Hd'). split; [lia|by apply Hconns].
  - rewrite Howners, Hdbs, dom_insert_L. intros s o Hs.
    destruct (tab_statements _ Hok s o Hs) as (? & d' & -> & ?).
    split; [lia|]. exists d'. set_solver.
  - rewrite Hdbs. intros d' x'. rewrite (owned_by_same _ w0), lookup_insert_Some by done.
    intros [[<- <-]|[_ Hx']]; [|by apply (tab_counts _ Hok)].
    by rewrite (fresh_not_owner d w0 Hok).
Qed.

Lemma library_ok_opened d path w0 w :
  library_ok w0 -> d = next_address w0 -> (d < next_address w)%nat ->
  opening d path (dbs w0) w -> runtime_ok base (dbs w) w -> owners w = owners w0 ->
  dom (connections w0) ⊆ dom (connections w) -> d ∈ dom (connections w) -> library_ok w.
Proof.
  intros [_ Hok] -> Hd (Hnew & x & Hdbs & Hcore) Hrt Howners Hconns Hconn.
  injection Hcore as _ Hactive. split; [done|]. by eapply tables_ok_opened.
Qed.

(** An open that gives no handle. *)
Lemma open_promise_failed code w w' :
  code <> MYLITE_OK -> library_ok w' -> owners w' = owners w -> dbs w' = dbs w ->
  open_promise w (Ret (code, None)) w'.
Proof.
  intros Hcode Hok Ho Hdbs. split; [done|]. split; [done|]. exists code, None. split; [done|].
  by rewrite (proj2 (Z.eqb_neq _ _) Hcode).
Qed.

Lemma open_impl_spec `{!Compliant} path out_db flags config w :
  library_ok w -> Z.of_nat (stdpp.base.size (dbs w)) < 2 ^ 32 - 1 ->
  wp (open_impl path out_db flags config) (open_promise w) w.
Proof.
  intros Hok Hsize. unfold open_impl.
  destruct (Z.eqb_spec (validate_open_args path out_db flags config) MYLITE_OK) as [_|Hinvalid].
  2: { wp_auto. by apply open_promise_failed. }
  apply wp_try_catch, wp_bind. unfold new_mylite_db. apply wp_bind, wp_allocate. intros [] l.
  2: { apply open_promise_failed; [done| |done..]. by apply (library_ok_frame w). }
  wp_auto. simpl.
  wp_auto. simpl. set (d := next_address w). set (w1 := set_connections _ _).
  assert (Hfresh : dbs w !! d = None).
  { apply not_elem_of_dom. intros Hd. destruct (lib_handles _ Hok d Hd). lia. }
  assert (Hopen : opening d [] (dbs w) w1) by (split; [done|by eexists]).
  assert (Hrt : runtime_ok base (dbs w) w1) by (by eapply runtime_ok_same, lib_runtime).
  assert (Hw1 : outer_frame w w1).
  { split; simpl; [lia|done|rewrite dom_insert; set_solver]. }
  assert (Hd : (d < next_address w1)%nat) by (simpl; lia).
  clearbody w1.
  apply wp_try_catch.
  eapply wp_mono; [apply wp_outer; [apply outer_open_db|by eapply open_db_spec]|].
  intros o w2 [(path2 & Hopen2 & Hout) Hw2].
  assert (Houter : outer_frame w w2) by (by transitivity w1). destruct Houter as [Hn Hs Hc].
  apply owners_frame in Hs.
  destruct o as [r|[]| |]; try done.
  - apply bind_post_ret. destruct (Z.eqb_spec r MYLITE_OK) as [_|Hr]; simpl; wp_auto.
    + destruct Hout as [Hrt2 Hc2]. split.
      { apply (library_ok_opened d path2 w); try done.
        - pose proof (of_next _ _ Hw2). lia.
        - destruct Hc2 as (c & Hc2 & _). by apply elem_of_dom. }
      split; [done|]. exists MYLITE_OK, (Some d). split; [done|]. simpl. exists d. split; [done|].
      split; [by apply not_elem_of_dom|]. destruct Hopen2 as (_ & x & -> & _).
      split; [rewrite dom_insert_L; set_solver|]. split; [|done]. by apply delete_insert_id.
    + unfold delete_mylite_db. wp_auto.
      destruct (give_back_spec d path2 w w2) as [? ?]; try done. by apply open_promise_failed.
  - unfold delete_mylite_db. wp_auto. simpl. wp_auto.
    destruct (give_back_spec d path2 w w2) as [? ?]; try done. by apply open_promise_failed.
Qed.

(** What [mylite_close] promises of the live handle [d]: it is refused while
    the handle has statements; else the handle is gone, and with the last one
    the server, the lock and everything in [g_runtime]. *)
Definition close_promise (d : nat) (w : world) (o : outcome Z) (w' : world) : Prop :=
  library_ok w' /\ owners w' = owners w /\
  if decide (owned_by d w = ∅) then
    o = Ret MYLITE_OK /\ dbs w' = delete d (dbs w) /\
    (dbs w' = ∅ -> mysql_client_init w' = false /\ runtime w' = initial_runtime /\
                   descriptors (sys w') = base)
  else o = Ret MYLITE_BUSY /\ library_frame w w'.

(** The invariant with one handle less. *)
Lemma tables_ok_closed d w0 w :
  tables_ok w0 -> owned_by d w0 = ∅ -> dbs w = delete d (dbs w0) ->
  owners w = owners w0 -> (next_address w0 <= next_address w)%nat ->
  dom (connections w0) ∖ {[ d ]} ⊆ dom (connections w) -> tables_ok w.
Proof.
  intros Hok Hnone Hdbs Howners Hnext Hconns. split.
  - rewrite Hdbs, dom_delete_L. intros d' [Hd' Hne]%elem_of_difference.
    destruct (tab_handles _ Hok d' Hd'). split; [lia|]. apply Hconns. set_solver.
  - rewrite Howners, Hdbs, dom_delete_L. intros s o Hs.
    destruct (tab_statements _ Hok s o Hs) as (? & d' & -> & ?).
    split; [lia|]. exists d'. split; [done|]. apply elem_of_difference. split; [done|].
    intros ->%elem_of_singleton. by eapply map_filter_empty_not_lookup in Hnone.
  - rewrite Hdbs. intros d' x'. rewrite (owned_by_same _ w0), lookup_delete_Some by done.
    intros [_ Hx']. by apply (tab_counts _ Hok).
Qed.

Lemma mylite_close_spec d w :
  library_ok w -> d ∈ dom (dbs w) -> wp (mylite_close (Some d)) (close_promise d w) w.
Proof.
  intros Hok Hd. pose proof Hd as [x Hx]%elem_of_dom. unfold mylite_close. wp_auto.
  rewrite (lib_counts _ Hok d x Hx). unfold close_promise.
  destruct (decide (owned_by d w = ∅)) as [Hnone|Hsome].
  2: { assert (Hpos : (0 < stdpp.base.size (owned_by d w))%nat)
         by (apply Nat.neq_0_lt_0; by intros ?%map_size_empty_inv).
       rewrite (proj2 (Z.ltb_lt 0 _)) by lia. wp_auto.
       assert (Hframe := library_frame_update_db d (fun x => set_error x MYLITE_BUSY
         "database has active statements") w (fun _ => eq_refl)).
       unfold update_db, get_db, mbind, cmd_bind, deref in Hframe. rewrite Hx in Hframe.
       split; [by eapply library_ok_frame|]. split; [apply Hframe|done]. }
  rewrite Hnone, map_size_empty. simpl.
  destruct (lib_handles _ Hok d Hd) as [Hlt [c Hc]%elem_of_dom]. apply wp_bind.
  eapply wp_mono; [apply wp_outer; [apply outer_close_connection|];
    apply wp_handled; [auto with steps|]; apply close_connection_spec; [by exists x|by exists c]|].
  intros o w1 [[[-> Hd1] Hframe] Houter1]. apply bind_post_ret, wp_bind.
  set (handles := delete d (dbs w)).
  assert (Hnew : handles !! d = None) by apply lookup_delete_eq.
  destruct (opened_frame base d (database_path x) handles w w1) as [Hopen1 Hrt1]; [done| |apply Hok|].
  { split; [done|]. exists x. split; [by unfold handles; rewrite insert_delete_id|]. unfold handle_core.
    by rewrite (lib_counts _ Hok d x Hx), Hnone. }
  pose proof Hopen1 as (_ & x1 & Hdbs1 & _). rewrite Hdbs1 in Hrt1.
  eapply wp_mono; [apply wp_outer; [apply outer_release_runtime|by apply (release_runtime_spec base d x1)]|].
  intros o w2 [(-> & Hdbs2 & Hrt2 & Hlast) Houter2]. unfold delete_mylite_db. wp_auto.
  assert (Houter : outer_frame w w2) by (by transitivity w1). destruct Houter as [Hn Hs Hcs].
  assert (Hdbs' : delete d (dbs w2) = handles) by (rewrite Hdbs2, Hdbs1; by apply delete_insert_id).
  apply owners_frame in Hs. split; [|split; [done|split; [done|split; [done|]]]].
  - split; [simpl; rewrite Hdbs'; by eapply runtime_ok_same, Hrt2|].
    apply (tables_ok_closed d w); simpl; try done; [apply Hok|]. rewrite dom_delete_L. set_solver.
  - simpl. rewrite Hdbs'. intros Hempty. destruct (ro_idle _ _ _ Hrt2 Hempty). auto.
Qed.
End library.

(** ** The promises of open and close *)

(** C11: [mylite_open] returns, whatever its arguments, the file tree, the
    faults of the operating system, the other processes and the allocations
    are: it neither throws nor goes wrong, it gives a new handle whose
    connection is ready, or an error code and no handle with every open handle
    as it was, and in both cases the reference count, the shared database
    path, the one lock descriptor and the statement counts stay in step with
    the open handles; no descriptor and no lock is left behind by a failed
    open. *)
Theorem mylite_open_keeps_library `{Server, !Compliant, Build} (base : gmap Z open_file)
    (path : option bytes) (out_db : bool) (flags : Z) (config : option mylite_open_config)
    (w : world) (Hok : library_ok base w)
    (Hsize : Z.of_nat (stdpp.base.size (dbs w)) < 2 ^ 32 - 1) :
  wp (mylite_open path out_db flags config) (open_promise base w) w.
Proof. by apply open_impl_spec. Qed.

Lemma initial_library_ok script : library_ok ∅ (initial_world script).
Proof.
  split; [by apply runtime_ok_idle|split]; simpl; [set_solver|..].
  - intros s o. unfold owners. simpl. by rewrite fmap_empty, lookup_empty.
  - intros d x. by rewrite lookup_empty.
Qed.

Lemma mylite_open_keeps_library_witness :
  wp (mylite_open (Some (str "/srv/db")) true open_flags None)
    (open_promise ∅ (initial_world [])) (initial_world []).
Proof.
  apply (mylite_open_keeps_library ∅);
    [apply initial_library_ok|vm_compute; reflexivity].
Defined.


(** The world after the first open on the scripted server. *)
Definition opened_world (script : list dispatched) : world :=
  snd (mylite_open (Some (str "/srv/db")) true open_flags None (initial_world script)).

Lemma opened_library_ok script : library_ok ∅ (opened_world script).
Proof.
  assert (Hopen : wp (mylite_open (Some (str "/srv/db")) true open_flags None)
    (open_promise ∅ (initial_world script)) (initial_world script)).
  { apply open_impl_spec; [apply _|apply initial_library_ok|vm_compute; reflexivity]. }
  apply Hopen.
Qed.

