(* ===== verification/ExecFacts.v ===== *)
(** * Text queries: what reaches the server, and what the callback sees *)

From S2P Require Import Prelude Api Effects SqlLexer SqlPolicy SqlPolicyTheorems System Numbers.
From S2P Require Import World ClientQuery ClientStmt Frames Rules ClientFacts Runtime Exec Scripted.
From S2P Require Import RuntimeFacts RuntimeTheorems Library.
From stdpp Require Import options.
Set Default Proof Using "Type*".

Local Open Scope Z_scope.

(** ** Frames *)

Section frames.
  Context `{Server, Build}.

Lemma kept_framed {A} (m : cmd world A) : steps client_frame m -> steps library_frame m.
Proof. apply steps_mono, client_library_frame. Qed.
Lemma kept_update_db d f :
  (forall x, handle_core (f x) = handle_core x) -> steps library_frame (update_db d f).
Proof. intros Hf w. by apply library_frame_update_db. Qed.
Lemma kept_get_db d : steps library_frame (get_db d).
Proof. unfold get_db. steps_auto. Qed.
Hint Resolve kept_framed kept_update_db kept_get_db : steps.

Lemma kept_set_mariadb_error d : steps library_frame (set_mariadb_error d).
Proof. unfold set_mariadb_error. steps_auto. Qed.
Hint Resolve kept_set_mariadb_error : steps.
Lemma kept_drain_remaining_query_results d :
  steps library_frame (drain_remaining_query_results d).
Proof.
  unfold drain_remaining_query_results. steps_auto. generalize (S a). clear a.
  intros fuel. induction fuel; simpl; steps_auto.
Qed.
Lemma kept_copy_error_message d b : steps library_frame (copy_error_message d b).
Proof. unfold copy_error_message. steps_auto. Qed.
Hint Resolve kept_drain_remaining_query_results kept_copy_error_message : steps.

Lemma update_current_schema_core x sql :
  handle_core (update_current_schema_after_successful_sql x sql) = handle_core x.
Proof. unfold update_current_schema_after_successful_sql. by destruct (_ || _). Qed.

(** A refusal only sets the diagnostics; there is no third outcome. *)
Lemma reject_policy_cases x sql :
  (exists message, reject_unsupported_sql_policy x sql =
     (MYLITE_ERROR, set_error x MYLITE_ERROR message)) \/
  reject_unsupported_sql_policy x sql = (MYLITE_OK, x).
Proof. unfold reject_unsupported_sql_policy. repeat case_match; eauto. Qed.

Lemma kept_reject_policy d sql : steps library_frame (reject_policy d sql).
Proof.
  intros w. unfold reject_policy, get_db, put_db, mbind, cmd_bind, deref.
  destruct (dbs w !! d) as [x|] eqn:Hx; [|done].
  assert (Hcore : handle_core (snd (reject_unsupported_sql_policy x sql)) = handle_core x)
    by (by destruct (reject_policy_cases x sql) as [[m ->] | ->]).
  destruct (reject_unsupported_sql_policy x sql) as [r x']. simpl in Hcore. split; try done.
  simpl. rewrite fmap_insert, Hcore. apply insert_id. by rewrite lookup_fmap, Hx.
Qed.
Hint Resolve kept_reject_policy : steps.

(** The callback may call the library again, as long as it keeps the frame. *)
Lemma kept_mylite_exec {X} db sql (callback : option (mylite_exec_callback X)) ctx errmsg_out :
  (forall f, callback = Some f -> forall x n row names, steps library_frame (f x n row names)) ->
  steps library_frame (mylite_exec db sql callback ctx errmsg_out).
Proof.
  intros Hcallback.
  assert (Hrows : forall n names rows ctx, steps library_frame (emit_rows callback ctx n names rows)).
  { intros n names rows. induction rows as [|[]]; intros ctx'; simpl; destruct callback; steps_auto. }
  unfold mylite_exec, exec_impl, store_and_emit_result.
  pose proof update_current_schema_core. steps_auto.
Qed.

Lemma kept_mylite_warning db index : steps library_frame (mylite_warning db index).
Proof. unfold mylite_warning. steps_auto. Qed.
End frames.
#[export] Hint Resolve kept_framed kept_update_db kept_get_db kept_set_mariadb_error
  kept_drain_remaining_query_results kept_copy_error_message kept_reject_policy
  kept_mylite_warning : steps.

(** ** The policy comes before the server *)

Section policy.
  Context `{Server}.

(** The policy looks at the schema of the handle only. *)
Lemma rejected_set_ok x sql : rejected x sql -> rejected (set_ok x) sql.
Proof. rewrite !rejected_spec. done. Qed.

Lemma reject_policy_rejected d x sql w (Q : outcome Z -> world -> Prop) :
  dbs w !! d = Some x -> rejected x sql ->
  (forall message, Q (Ret MYLITE_ERROR)
     (set_dbs (<[d := set_error x MYLITE_ERROR message]> (dbs w)) w)) ->
  wp (reject_policy d sql) Q w.
Proof.
  intros Hx Hrejected HQ. unfold reject_policy. wp_auto. unfold rejected in Hrejected.
  destruct (reject_policy_cases x sql) as [[message Heq] | Heq]; rewrite Heq in *; [|done].
  wp_auto. apply HQ.
Qed.

Lemma reject_policy_accepted d x sql w (Q : outcome Z -> world -> Prop) :
  dbs w !! d = Some x -> ~ rejected x sql -> Q (Ret MYLITE_OK) w -> wp (reject_policy d sql) Q w.
Proof.
  intros Hx Haccepted HQ. unfold reject_policy. wp_auto. unfold rejected in Haccepted.
  destruct (reject_policy_cases x sql) as [[message Heq] | Heq]; rewrite Heq in *; [done|].
  wp_auto. unfold set_dbs. rewrite insert_id by done. by destruct w.
Qed.

(** Only the diagnostics of the handle [d] have changed, and allocations have
    been made. *)
Definition only_diagnostics (d : nat) (x : mylite_db) (message : string) (w w' : world) : Prop :=
  exists l, w' = set_allocations l
    (set_dbs (<[d := set_error (set_ok x) MYLITE_ERROR message]> (dbs w)) w).
End policy.

(** C5: SQL that the policy refuses never gets as far as the client library:
    [mylite_exec] returns [MYLITE_ERROR] (or [MYLITE_NOMEM] when the message
    cannot be copied) without calling the callback, and the server, the
    connection, the file tree and all other state are untouched apart from the
    diagnostics of the handle. *)
Theorem rejected_sql_is_not_executed `{Server} {X} (d : nat) (x : mylite_db) (sql : bytes)
    (callback : option (mylite_exec_callback X)) (ctx : X) (errmsg_out : bool) (w : world)
    (Hlive : dbs w !! d = Some x) (Hrejected : rejected x sql) :
  wp (mylite_exec (Some d) (Some sql) callback ctx errmsg_out) (fun o w' =>
    exists code text message, o = Ret (code, text, ctx) /\
      (code = MYLITE_ERROR \/ code = MYLITE_NOMEM) /\ only_diagnostics d x message w w') w.
Proof.
  unfold mylite_exec, exec_impl. wp_auto.
  eapply reject_policy_rejected; [find_lookup|by apply rejected_set_ok|]. intros message. wp_auto.
  simpl. unfold copy_error_message. wp_auto. rewrite insert_insert_eq.
  destruct errmsg_out; simpl; wp_auto.
  - destruct b; simpl; wp_auto; eexists _, _, message; (split; [done|]); (split; [by auto|]);
      by eexists.
  - eexists _, _, message. split; [done|]. split; [by left|]. exists (allocations w). by destruct w.
Qed.

Definition example_rejected : bytes := str "FLUSH QUERY CACHE".

Lemma rejected_sql_is_not_executed_witness :
  exists x, dbs (opened_world []) !! 0%nat = Some x /\ rejected x example_rejected /\
  wp (mylite_exec (Some 0%nat) (Some example_rejected) None tt true) (fun o w' =>
    exists code text message, o = Ret (code, text, tt) /\
      (code = MYLITE_ERROR \/ code = MYLITE_NOMEM) /\
      only_diagnostics 0 x message (opened_world []) w') (opened_world []).
Proof.
  eexists. split; [vm_compute; reflexivity|]. split; [vm_compute; reflexivity|].
  apply rejected_sql_is_not_executed; vm_compute; reflexivity.
Defined.

(** ** Executing a query *)

(** A callback that only works on its own state. *)
Definition pure_callback `{Server} {X}
    (f : X -> Z -> list (option bytes) -> list (option bytes) -> Z * X) : mylite_exec_callback X :=
  fun ctx n row names => mret (f ctx n row names).

(** What such a callback makes of the rows: it is called on each row in turn,
    until it asks to stop. *)
Fixpoint feed {X} (f : X -> Z -> list (option bytes) -> list (option bytes) -> Z * X) (n : Z)
    (names : list (option bytes)) (rows : list (list (option bytes))) (ctx : X) : bool * X :=
  match rows with
  | [] => (false, ctx)
  | row :: rows =>
      let '(stop, ctx) := f ctx n row names in
      if negb (stop =? 0) then (true, ctx) else feed f n names rows ctx
  end.

Section executing.
  Context `{Server}.

Lemma emit_rows_feed {X} (f : X -> Z -> list (option bytes) -> list (option bytes) -> Z * X)
    n names rows : forall ctx w,
  emit_rows (Some (pure_callback f)) ctx n names (TextRow <$> rows) w =
    (Ret (feed f n names rows ctx), w).
Proof.
  induction rows as [|row rows IH]; intros ctx w; [done|]. simpl.
  unfold pure_callback at 1, mbind, cmd_bind. simpl. destruct (f ctx n row names) as [stop ctx'].
  destruct (negb (stop =? 0)); [done|apply IH].
Qed.

(** The server answers the query on a live session with [data] alone. *)
Definition answers (d : nat) (sql : bytes) (data : MYSQL_DATA) (w : world) : Prop :=
  session_killed d (server_state w) = false /\ connection d (fun c => is_Some (m_thd c)) w /\
  exists r s fs, dispatch_command d (COM_QUERY (query_text sql)) (server_state w) (files (sys w)) =
    (r, s, fs) /\ dispatch_result r = false /\ datasets r = [data] /\
    more_results (d_server_status data) = false /\ d_last_errno data = 0.

(** After such an answer was announced. *)
Lemma mysql_query_single d sql data w :
  connection d ready w -> answers d sql data w -> allocations w = [] ->
  wp (mysql_query d sql) (fun o w' => o = Ret false /\ dbs w' = dbs w /\ allocations w' = [] /\
    connection d (fun c =>
      more_results (m_server_status c) = false /\
      match d_fields_list data with
      | Some fields => m_status c = MYSQL_STATUS_GET_RESULT /\ m_fields c = Some fields /\
          exists t, m_thd c = Some t /\ first_data t = [] /\ cur_data t = Some data
      | None => ready c /\ m_fields c = None /\ m_field_count c = 0 /\
          m_affected_rows c = d_affected_rows data /\ m_insert_id c = d_insert_id data
      end) w') w.
Proof.
  intros (c & Hc & Hready) (Hkilled & (c' & Hc' & [t Ht]) & r & s & fs & Hr & Hresult & Hdata & Hmore & Herrno)
    Halloc.
  rewrite Hc in Hc'. injection Hc' as <-.
  unfold mysql_query, emb_advanced_command. wp_auto. rewrite Hkilled, andb_false_r. wp_auto.
  rewrite Ht. unfold THD_clear_data_list. wp_auto. rewrite Hready, bool_decide_eq_true_2 by done.
  simpl. wp_auto. simpl in *. match goal with Heq : dispatch_command _ _ _ _ = (a, _, _) |- _ =>
    rewrite Hr in Heq; injection Heq as <- <- <- end.
  rewrite Hresult. wp_auto. unfold emb_read_query_result. wp_auto. simpl. rewrite Hdata. wp_auto.
  rewrite Herrno. simpl. wp_auto. destruct (d_fields_list data) as [fields|] eqn:Hf.
  - destruct (decide _); [done|]. wp_auto. split_and!; [done..|]. eexists. split; [find_lookup|].
    simpl. split; [done|]. split; [done|]. split; [done|]. by eexists.
  - destruct (decide _); [|done]. wp_auto. split_and!; [done..|]. eexists. split; [find_lookup|].
    done.
Qed.

(** Storing the rows of such an answer. *)
Lemma mysql_store_result_single d data fields c t w :
  connections w !! d = Some c -> m_status c = MYSQL_STATUS_GET_RESULT ->
  m_fields c = Some fields -> m_thd c = Some t -> cur_data t = Some data ->
  more_results (m_server_status c) = false -> d_last_errno data = 0 -> allocations w = [] ->
  wp (mysql_store_result d) (fun o w' =>
    o = Ret (Some (mkRes (d_rows data) fields)) /\ dbs w' = dbs w /\ allocations w' = [] /\
    connection d (fun c => ready c /\ more_results (m_server_status c) = false) w') w.
Proof.
  intros Hc Hstatus Hf Ht Hcur Hmore Herrno Halloc. unfold mysql_store_result. wp_auto.
  rewrite Hf, Hstatus, bool_decide_eq_true_2 by done. simpl. apply wp_bind. wp_step.
  apply bind_post_ret, wp_bind, wp_allocate_ok; [done|]. wp_auto. simpl. unfold emb_read_rows.
  wp_auto. rewrite Hcur. wp_auto. rewrite Herrno. simpl. wp_auto. split_and!; [done..|].
  by eexists; split; [find_lookup|].
Qed.

(** Draining when nothing was announced. *)
Lemma drain_nothing d w :
  connection d (fun c => ready c /\ more_results (m_server_status c) = false) w ->
  wp (drain_remaining_query_results d) (fun o w' => o = Ret MYLITE_OK /\ dbs w' = dbs w /\
    allocations w' = allocations w /\ connection d ready w') w.
Proof.
  intros (c & Hc & Hready & Hmore). unfold drain_remaining_query_results. wp_auto. simpl.
  unfold mysql_next_result. wp_auto. rewrite Hready, bool_decide_eq_true_2 by done. simpl. wp_auto.
  unfold more_results in Hmore. rewrite Hmore. wp_auto. simpl. wp_auto. split_and!; [done..|].
  by eexists; split; [find_lookup|].
Qed.
End executing.

(** The handle after a query that gave rows to a callback. *)
Definition rows_outcome `{Server} {X} (d : nat) (errmsg_out : bool) (fed : bool * X)
    (o : outcome (Z * option bytes * X)) (w' : world) : Prop :=
  connection d ready w' /\ exists x', dbs w' !! d = Some x' /\
  if fst fed then
    o = Ret (MYLITE_ERROR,
             if errmsg_out then Some (str "query callback requested abort") else None, snd fed) /\
    errcode x' = MYLITE_ERROR
  else o = Ret (MYLITE_OK, None, snd fed) /\ errcode x' = MYLITE_OK /\ changes x' = 0.

(** C6: a query that the policy accepts and the server answers with a result
    set hands every row to the callback, in the order of the result set, with
    the number and the names of the columns, until the callback asks to stop;
    [mylite_exec] then returns [MYLITE_OK] with [changes] 0, or
    [MYLITE_ERROR] with the abort message if it was stopped, and the
    connection is ready for the next query either way. *)
Theorem exec_delivers_rows `{Server} {X} (d : nat) (x : mylite_db) (sql : bytes)
    (data : MYSQL_DATA) (fields : list MYSQL_FIELD) (rows : list (list (option bytes)))
    (f : X -> Z -> list (option bytes) -> list (option bytes) -> Z * X) (ctx : X)
    (errmsg_out : bool) (w : world)
    (Hlive : dbs w !! d = Some x) (Haccepted : ~ rejected x sql) (Hready : connection d ready w)
    (Hanswer : answers d sql data w) (Halloc : allocations w = [])
    (Hfields : d_fields_list data = Some fields) (Hwidth : Z.of_nat (length fields) <= INT_MAX)
    (Hrows : d_rows data = TextRow <$> rows) :
  wp (mylite_exec (Some d) (Some sql) (Some (pure_callback f)) ctx errmsg_out)
    (rows_outcome d errmsg_out
       (feed f (Z.of_nat (length fields)) (f_name <$> fields) rows ctx)) w.
Proof.
  unfold mylite_exec, exec_impl. wp_auto. eapply reject_policy_accepted; [find_lookup| |].
  { intros Hr. apply Haccepted. revert Hr. by rewrite !rejected_spec. }
  wp_auto. simpl. apply wp_bind. eapply wp_mono; [by apply (mysql_query_single d sql data)|].
  intros o w1 (-> & Hdbs & Halloc1 & c & Hc & Hmore & Hstate). rewrite Hfields in Hstate.
  destruct Hstate as (Hstatus & Hf & t & Ht & Hq & Hcur). wp_auto.
  unfold store_and_emit_result. apply wp_bind.
  assert (Herrno : d_last_errno data = 0) by (by destruct Hanswer as (_ & _ & ? & ? & ? & _ & _ & _ & _ & ?)).
  eapply wp_mono; [by apply (mysql_store_result_single d data fields c t)|].
  intros o w2 (-> & Hdbs2 & Halloc2 & Hc2). apply bind_post_ret. simpl.
  rewrite (proj2 (Z.ltb_ge _ _)) by done. apply wp_bind. unfold wp. rewrite Hrows, emit_rows_feed.
  destruct (feed _ _ _ _ _) as [stop ctx']. simpl.
  assert (Hx2 : dbs w2 !! d = Some (set_ok x)) by (rewrite Hdbs2, Hdbs; apply lookup_insert_eq).
  destruct stop; apply wp_bind; (eapply wp_mono; [by apply drain_nothing|]);
    intros o w3 (-> & Hdbs3 & Halloc3 & Hc3); rewrite <- Hdbs3 in Hx2; wp_auto; simpl.
  - unfold copy_error_message. wp_auto. destruct errmsg_out; simpl; wp_auto.
    + simpl. wp_auto. split; [done|]. eexists. split; [find_lookup|done].
    + split; [done|]. eexists. split; [find_lookup|done].
  - wp_auto. split; [done|]. eexists. split; [find_lookup|]. simpl.
    split; [done|]. unfold update_current_schema_after_successful_sql. by destruct (_ || _).
Qed.

Definition example_field : MYSQL_FIELD :=
  mkField (Some (str "a")) (Some (str "a")) (Some (str "t")) (Some (str "t")) 11 0 0 0
    MYSQL_TYPE_LONG.

(** The scripted server answers the three statements of an open, then this. *)
Definition after_open (rest : list dispatched) : list dispatched :=
  [ok_answer; ok_answer; ok_answer] ++ rest.

(** When the next answer in the script is a single one. *)
Lemma scripted_answers d sql data rest (w : world) :
  script (server_state w) = answer [data] :: rest -> queue_ok true [data] ->
  connection d (fun c => is_Some (m_thd c)) w -> d_last_errno data = 0 -> answers d sql data w.
Proof.
  intros Hscript Hok Hc Herrno. split; [done|]. split; [done|]. do 3 eexists.
  split; [simpl; by rewrite Hscript|]. simpl. destruct (decide _) as [|Hn]; [|by destruct Hn].
  split; [done|]. split; [done|]. destruct Hok as [_ Hmore].
  by destruct (more_results (d_server_status data)).
Qed.

Definition two_rows : MYSQL_DATA :=
  rows_data [example_field] [TextRow [Some (str "1")]; TextRow [None]].

Lemma exec_delivers_rows_witness :
  let w := opened_world (after_open [answer [two_rows]]) in
  let collect (log : list (list (option bytes))) (_ : Z) row (_ : list (option bytes)) :=
    (0, log ++ [row]) in
  wp (mylite_exec (Some 0%nat) (Some (str "SELECT a FROM t")) (Some (pure_callback collect)) [] true)
    (rows_outcome 0 true (feed collect 1 [Some (str "a")] [[Some (str "1")]; [None]] [])) w.
Proof.
  intros w collect.
  eapply (exec_delivers_rows 0 _ (str "SELECT a FROM t") two_rows [example_field]
            [[Some (str "1")]; [None]] collect [] true w).
  - vm_compute. reflexivity.
  - vm_compute. discriminate.
  - eexists. split; vm_compute; reflexivity.
  - eapply scripted_answers; [vm_compute; reflexivity| |eexists; split; [vm_compute; reflexivity|by eexists]|done].
    split; [split; [repeat constructor|discriminate]|done].
  - vm_compute. reflexivity.
  - reflexivity.
  - vm_compute. discriminate.
  - reflexivity.
Defined.

(** C24: a statement that the server answers without a result set makes
    [mylite_exec] return [MYLITE_OK] and record the effects: [changes] is the
    number of affected rows, cut to the range of [long long] and 0 when the
    server gives no count, and [last_insert_id] is the insert id of the
    answer; the callback is not called. *)
Theorem exec_records_effects `{Server} {X} (d : nat) (x : mylite_db) (sql : bytes)
    (data : MYSQL_DATA) (callback : option (mylite_exec_callback X)) (ctx : X)
    (errmsg_out : bool) (w : world)
    (Hlive : dbs w !! d = Some x) (Haccepted : ~ rejected x sql) (Hready : connection d ready w)
    (Hanswer : answers d sql data w) (Halloc : allocations w = [])
    (Hfields : d_fields_list data = None) (Hrows : 0 <= d_affected_rows data < 2 ^ 64) :
  wp (mylite_exec (Some d) (Some sql) callback ctx errmsg_out) (fun o w' =>
    o = Ret (MYLITE_OK, None, ctx) /\ connection d ready w' /\
    exists x', dbs w' !! d = Some x' /\ errcode x' = MYLITE_OK /\
      last_insert_id x' = d_insert_id data /\
      0 <= changes x' <= LLONG_MAX /\
      changes x' = (if d_affected_rows data =? 2 ^ 64 - 1 then 0
                    else Z.min (d_affected_rows data) LLONG_MAX)) w.
Proof.
  unfold mylite_exec, exec_impl. wp_auto. eapply reject_policy_accepted; [find_lookup| |].
  { intros Hr. apply Haccepted. revert Hr. by rewrite !rejected_spec. }
  wp_auto. simpl. apply wp_bind. eapply wp_mono; [by apply (mysql_query_single d sql data)|].
  intros o w1 (-> & Hdbs & Halloc1 & c & Hc & Hmore & Hstate). rewrite Hfields in Hstate.
  destruct Hstate as (Hready1 & Hf & Hcount & Haffected & Hinsert). wp_auto.
  unfold store_and_emit_result, mysql_store_result. wp_auto. rewrite Hf. wp_auto. rewrite Hcount.
  simpl. apply wp_bind. eapply wp_mono; [apply drain_nothing; by exists c|].
  intros o w2 (-> & Hdbs2 & Halloc2 & Hc2). simpl in Hdbs.
  assert (Hx2 : dbs w2 !! d = Some (set_ok x)) by (rewrite Hdbs2, Hdbs; apply lookup_insert_eq).
  wp_auto. simpl. wp_auto. split; [done|]. split; [done|]. eexists. split; [find_lookup|].
  rewrite Haffected, Hinsert. unfold changes_of, MYSQL_COUNT_ERROR, LLONG_MAX in *. simpl.
  split; [unfold update_current_schema_after_successful_sql; by destruct (_ || _)|].
  destruct (d_affected_rows data =? 2 ^ 64 - 1) eqn:Hmax; lia.
Qed.

Lemma exec_records_effects_witness :
  let w := opened_world (after_open [answer [ok_data (2 ^ 63) 9]]) in
  wp (mylite_exec (Some 0%nat) (Some (str "DELETE FROM t")) None tt true) (fun o w' =>
    o = Ret (MYLITE_OK, None, tt) /\ connection 0 ready w' /\
    exists x', dbs w' !! 0%nat = Some x' /\ errcode x' = MYLITE_OK /\
      last_insert_id x' = 9 /\ 0 <= changes x' <= LLONG_MAX /\
      changes x' = (if 2 ^ 63 =? 2 ^ 64 - 1 then 0 else Z.min (2 ^ 63) LLONG_MAX)) w.
Proof.
  intros w. eapply (exec_records_effects 0 _ (str "DELETE FROM t") (ok_data (2 ^ 63) 9) None tt true w).
  - vm_compute. reflexivity.
  - vm_compute. discriminate.
  - eexists. split; vm_compute; reflexivity.
  - eapply scripted_answers; [vm_compute; reflexivity| |eexists; split; [vm_compute; reflexivity|by eexists]|done].
    split; [split; [repeat constructor|discriminate]|done].
  - vm_compute. reflexivity.
  - reflexivity.
  - simpl. lia.
Defined.

Section total.
  Context `{Server}.

(** Any call that ends in one of these ways leaves the connection ready. *)
Definition ends_ready {X} (d : nat) (o : outcome (Z * option bytes * X)) (w' : world) : Prop :=
  (exists r, o = Ret r) /\ connection d ready w' /\ has_handle d w'.

Lemma copy_error_message_ready {X} d errmsg_out (ctx : X) w :
  connection d ready w -> has_handle d w ->
  wp ('(code, message) ← copy_error_message d errmsg_out; mret (code, message, ctx))
    (ends_ready d) w.
Proof.
  intros Hc [x Hx]. unfold copy_error_message. wp_auto.
  destruct errmsg_out; simpl; wp_auto; [destruct b; simpl; wp_auto|];
    (split; [by eexists|]); (split; [done|by exists x]).
Qed.

Lemma text_rows (rows : list MYSQL_ROW) : Forall is_text rows -> exists values, rows = TextRow <$> values.
Proof.
  induction 1 as [|[v|] rows Hv _ [values ->]]; [by exists []| |done]. by exists (v :: values).
Qed.

(** Storing and emitting a result, and draining what follows it. *)
Lemma store_and_emit_result_ready {X} d
    (f : X -> Z -> list (option bytes) -> list (option bytes) -> Z * X) ctx n w :
  connection d (after_answer n false) w -> has_handle d w ->
  wp (store_and_emit_result d (Some (pure_callback f)) ctx) (fun o w' =>
    (exists r, o = Ret r) /\ connection d ready w' /\ has_handle d w') w.
Proof.
  intros (c & Hc & _ & [Hnone|[data Hdata]]) Hd; unfold store_and_emit_result; apply wp_bind.
  - eapply wp_mono; [apply mysql_store_result_nothing; by exists c|]. intros o w1 [-> ->]. wp_auto.
    destruct Hnone as (Hreading & _ & ->). simpl. apply wp_bind.
    eapply wp_mono; [apply drain_remaining_query_results_spec; [done|by exists c]|].
    intros o w2 ([r ->] & Hc2 & Hd2). wp_auto. split; [by eexists|done].
  - eapply wp_mono; [apply (wp_keep_handle d); [auto with steps|done|];
      apply mysql_store_result_holding; by exists c|].
    intros o w1 [Ho Hd1]. destruct o as [[res|]| | |]; try done; wp_auto.
    + destruct Ho as (Hrows & _ & _ & Hc1).
      destruct Hdata as (_ & [Htext _] & _). rewrite <- Hrows in Htext.
      apply text_rows in Htext as [values Hvalues].
      destruct (INT_MAX <? _).
      { destruct Hd1 as [x Hx]. destruct Hc1 as (c1 & Hc1 & Hr1 & _). wp_auto.
        split; [by eexists|]. split; [by exists c1|]. eexists. find_lookup. }
      apply wp_bind. unfold wp. rewrite Hvalues, emit_rows_feed. destruct (feed _ _ _ _ _) as [stop ctx'].
      simpl. destruct stop; apply wp_bind;
        (eapply wp_mono; [by apply drain_remaining_query_results_spec|]);
        intros o w2 ([r ->] & Hc2 & [x Hx]); wp_auto; (split; [by eexists|]);
        (split; [done|eexists; find_lookup]).
    + destruct Ho as (c1 & Hc1 & Hready & Hcount). wp_auto.
      destruct (negb _) eqn:Hz.
      { apply wp_bind. eapply wp_mono; [apply (set_mariadb_error_spec d _ ready); [done|by exists c1]|].
        intros o w2 (-> & Hc2 & Hd2). wp_auto. split; [by eexists|done]. }
      exfalso. destruct Hdata as (_ & [_ Hne] & t & fields & _ & _ & Hf & _).
      apply negb_false_iff, Z.eqb_eq in Hz. rewrite (Hcount fields Hf) in Hz.
      destruct fields; [by rewrite Hf in Hne|simpl in Hz; lia].
Qed.
End total.

(** C25: with a server that keeps to the protocol, [mylite_exec] of any SQL on
    a live handle whose connection is ready, with a callback that works on its
    own state, returns a code: no answer is read past the end of the queue,
    the draining loop terminates, nothing is thrown, and the connection is
    ready again, also when memory runs out, the session was killed, the query
    fails or the callback stops it. *)
Theorem exec_returns_ready `{Server, !Compliant} {X} (d : nat) (sql : bytes)
    (f : X -> Z -> list (option bytes) -> list (option bytes) -> Z * X) (ctx : X)
    (errmsg_out : bool) (w : world) (Hlive : d ∈ dom (dbs w)) (Hready : connection d ready w) :
  wp (mylite_exec (Some d) (Some sql) (Some (pure_callback f)) ctx errmsg_out) (ends_ready d) w.
Proof.
  apply elem_of_dom in Hlive as [x Hx]. unfold mylite_exec, exec_impl. wp_auto.
  destruct (decide (fst (reject_unsupported_sql_policy (set_ok x) sql) = MYLITE_ERROR)) as [Hr|Ha].
  { eapply reject_policy_rejected; [find_lookup|done|]. intros message. wp_auto. simpl.
    apply copy_error_message_ready; [done|]. eexists. find_lookup. }
  eapply reject_policy_accepted; [find_lookup|done|]. wp_auto. simpl. apply wp_bind.
  eapply wp_mono; [apply (wp_keep_handle d); [auto with steps|by eexists; find_lookup|];
    by apply mysql_query_spec|].
  intros o w1 [(error & -> & Hc1) Hd1]. apply bind_post_ret. destruct error.
  { apply wp_bind. eapply wp_mono; [by apply (set_mariadb_error_spec d _ ready)|].
    intros o w2 (-> & Hc2 & Hd2). apply bind_post_ret. by apply copy_error_message_ready. }
  destruct Hc1 as (c1 & Hc1 & n & Hafter). wp_auto.
  eapply wp_mono; [apply (store_and_emit_result_ready d f ctx n); [by exists c1|done]|].
  intros o w2 ([[[r has_result] ctx'] ->] & Hc2 & Hd2). apply bind_post_ret.
  destruct (negb (r =? MYLITE_OK)); [by apply copy_error_message_ready|].
  destruct Hd2 as [x2 Hx2]. wp_auto. split; [by eexists|]. split; [done|]. eexists. find_lookup.
Qed.

Lemma exec_returns_ready_witness :
  let w := opened_world [] in
  wp (mylite_exec (Some 0%nat) (Some (str "SELECT 1"))
        (Some (pure_callback (fun (n : Z) _ _ _ => (0, n + 1)))) 0 true) (ends_ready 0) w.
Proof.
  intros w. apply exec_returns_ready.
  - apply elem_of_dom. vm_compute. by eexists.
  - eexists. split; vm_compute; reflexivity.
Defined.
