(* ===== verification/Termination.v ===== *)
(** * The loops terminate

    Every loop of the library and of the client library that waits for the
    server to run out of answers takes an answer from the queue in each round,
    so its fuel, one more than the length of the queue, is never used up. *)

From S2P Require Import Prelude Api Effects SqlLexer SqlPolicy System Directory Numbers World.
From S2P Require Import BinaryRow ClientQuery ClientStmt Runtime Exec Statement Frames Rules.
From S2P Require Import ClientFacts Scripted RuntimeFacts.
From stdpp Require Import options.
Set Default Proof Using "Type*".

Local Open Scope Z_scope.

(** ** The queue only gets shorter *)

Section queue.
  Context `{Server} (d : nat).

(** The queue of [d] is no longer than before, and every statement has the
    connection it had. *)
Definition queue_le (w w' : world) : Prop :=
  (queued_answers d w' <= queued_answers d w)%nat /\
  s_mysql <$> mysql_stmts w' = s_mysql <$> mysql_stmts w.

#[global] Instance queue_le_preorder : PreOrder queue_le.
Proof.
  split; [done|]. intros w1 w2 w3 [? ?] [? ?]. split; [lia|congruence].
Qed.

Lemma queue_le_connections w w' :
  connections w' = connections w -> mysql_stmts w' = mysql_stmts w -> queue_le w w'.
Proof. unfold queue_le, queued_answers. by intros -> ->. Qed.

Lemma shorter_update_mysql d' f :
  (forall c, m_thd (f c) = m_thd c) -> steps queue_le (update_mysql d' f).
Proof.
  intros Hf w. unfold update_mysql, get_mysql, put_mysql, mbind, cmd_bind, deref.
  destruct (connections w !! d') as [c|] eqn:Hc; [|done].
  split; [|done]. unfold queued_answers. simpl. destruct (decide (d' = d)) as [->|].
  - by rewrite lookup_insert_eq, Hc, Hf.
  - by rewrite lookup_insert_ne.
Qed.
Lemma shorter_update_mstmt m f :
  (forall s, s_mysql (f s) = s_mysql s) -> steps queue_le (update_mstmt m f).
Proof.
  intros Hf w. unfold update_mstmt, get_mstmt, put_mstmt, mbind, cmd_bind, deref.
  destruct (mysql_stmts w !! m) as [s|] eqn:Hs; [|done]. split; [done|]. simpl.
  rewrite fmap_insert, Hf. apply insert_id. by rewrite lookup_fmap, Hs.
Qed.
Lemma shorter_get_mysql d' : steps queue_le (get_mysql d').
Proof. unfold get_mysql. steps_auto. Qed.
Lemma shorter_get_mstmt m : steps queue_le (get_mstmt m).
Proof. unfold get_mstmt. steps_auto. Qed.
Lemma shorter_allocate : steps queue_le allocate.
Proof.
  intros w. unfold allocate. destruct (allocations w); simpl; by apply queue_le_connections.
Qed.

Lemma shorter_emb_flush_use_result d' : steps queue_le (emb_flush_use_result d').
Proof.
  intros w. unfold emb_flush_use_result, get_thd, mbind, cmd_bind, deref.
  destruct (connections w !! d') as [c|] eqn:Hc; simpl; [|done].
  destruct (m_thd c) as [t|] eqn:Ht; [|done].
  unfold queue_le, queued_answers.
  destruct (cur_data t), (decide (d' = d)) as [->|];
    unfold put_thd, update_mysql, get_mysql, put_mysql, mbind, cmd_bind, deref; rewrite Hc; simpl;
    rewrite ?lookup_insert_eq, ?lookup_insert_ne, ?Hc, ?Ht by done; simpl; (split; [|done]); try lia.
  destruct (first_data t); simpl; lia.
Qed.
Hint Resolve shorter_update_mysql shorter_update_mstmt shorter_get_mysql shorter_get_mstmt
  shorter_allocate shorter_emb_flush_use_result : steps.

Lemma shorter_release_connection m d' : steps queue_le (release_connection m d').
Proof.
  unfold release_connection. steps_auto; try (apply shorter_update_mysql; intros c; by case_decide).
Qed.
Hint Resolve shorter_release_connection : steps.
Lemma shorter_alloc_stmt_fields m c : steps queue_le (alloc_stmt_fields m c).
Proof. unfold alloc_stmt_fields. steps_auto. Qed.
Lemma shorter_prepare_to_fetch_result m d' : steps queue_le (prepare_to_fetch_result m d').
Proof. unfold prepare_to_fetch_result. steps_auto. Qed.

(** The reset inside [mysql_stmt_next_result]. *)
Lemma shorter_reset_store m :
  steps queue_le (reset_stmt_handle_with (fun _ _ => mret tt) m RESET_STORE_RESULT).
Proof. unfold reset_stmt_handle_with. simpl. steps_auto. Qed.
End queue.
#[export] Hint Resolve shorter_update_mysql shorter_update_mstmt shorter_get_mysql
  shorter_get_mstmt shorter_allocate shorter_emb_flush_use_result shorter_release_connection
  shorter_alloc_stmt_fields shorter_prepare_to_fetch_result shorter_reset_store : steps.

(** ** How the functions of the client library end *)

Section client_ends.
  Context `{Server} (e : bool).

Lemma ends_get_mysql d : ends e true (get_mysql d).
Proof. unfold get_mysql. ends_auto. Qed.
Lemma ends_get_mstmt m : ends e true (get_mstmt m).
Proof. unfold get_mstmt. ends_auto. Qed.
Lemma ends_get_buffer m : ends e true (get_buffer m).
Proof. unfold get_buffer. ends_auto. Qed.
Lemma ends_get_thd d : ends e true (get_thd d).
Proof. unfold get_thd. ends_auto. Qed.
Lemma ends_put_thd d t : ends e true (put_thd d t).
Proof. unfold put_thd. ends_auto. Qed.
Hint Resolve ends_get_mysql ends_get_mstmt ends_get_buffer ends_get_thd ends_put_thd : ends.
Lemma ends_emb_flush_use_result d : ends e true (emb_flush_use_result d).
Proof. unfold emb_flush_use_result. ends_auto. Qed.
Lemma ends_emb_read_query_result d : ends e true (emb_read_query_result d).
Proof. unfold emb_read_query_result. ends_auto. Qed.
Lemma ends_emb_read_rows d : ends e true (emb_read_rows d).
Proof. unfold emb_read_rows. ends_auto. Qed.
Lemma ends_emb_advanced_command d c b : ends e true (emb_advanced_command d c b).
Proof.
  unfold emb_advanced_command, free_embedded_thd, mysql_reconnect, THD_clear_data_list. ends_auto.
Qed.
Hint Resolve ends_emb_flush_use_result ends_emb_read_query_result ends_emb_read_rows
  ends_emb_advanced_command : ends.
Lemma ends_mysql_close d : ends e true (mysql_close d).
Proof. unfold mysql_close, free_embedded_thd, mysql_detach_stmt_list. ends_auto. Qed.
Hint Resolve ends_mysql_close : ends.
Lemma ends_mysql_real_connect d : ends e true (mysql_real_connect d).
Proof. unfold mysql_real_connect. ends_auto. Qed.
Lemma ends_mysql_query d q : ends e true (mysql_query d q).
Proof. unfold mysql_query. ends_auto. Qed.
Lemma ends_mysql_store_result d : ends e true (mysql_store_result d).
Proof. unfold mysql_store_result. ends_auto. Qed.
Lemma ends_mysql_next_result d : ends e true (mysql_next_result d).
Proof. unfold mysql_next_result. ends_auto. Qed.
Hint Resolve ends_mysql_real_connect ends_mysql_query ends_mysql_store_result
  ends_mysql_next_result : ends.
End client_ends.
#[export] Hint Resolve ends_get_mysql ends_get_mstmt ends_get_buffer ends_get_thd ends_put_thd
  ends_emb_flush_use_result ends_emb_read_query_result ends_emb_read_rows
  ends_emb_advanced_command ends_mysql_close ends_mysql_real_connect ends_mysql_query
  ends_mysql_store_result ends_mysql_next_result : ends.

(** ** A round takes an answer *)

Section rounds.
  Context `{Server}.

(** A command that ends properly, and has taken an answer from the queue of
    [d] if it returns [r] with [p r]. *)
Definition takes_answer {A} (d : nat) (p : A -> bool) (w : world) (o : outcome A) (w' : world)
    : Prop :=
  allowed false true o /\
  match o with
  | Ret r => (p r = true -> (queued_answers d w' < queued_answers d w)%nat) /\
             s_mysql <$> mysql_stmts w' = s_mysql <$> mysql_stmts w
  | _ => True
  end.

Lemma emb_read_query_result_takes d w :
  wp (emb_read_query_result d) (takes_answer d (fun _ => true) w) w.
Proof.
  unfold emb_read_query_result, get_thd. apply wp_bind. unfold wp at 1, deref.
  destruct (connections w !! d) as [c|] eqn:Hc; simpl; [|done].
  destruct (m_thd c) as [t|] eqn:Ht; simpl; [|done].
  destruct (first_data t) as [|res rest] eqn:Hq; [done|]. destruct (cur_data t); [done|]. wp_auto.
  assert (Hlen : queued_answers d w = S (length rest)).
  { unfold queued_answers. by rewrite Hc, Ht, Hq. }
  destruct (negb _ && _).
  { wp_auto. split; [done|]. split; [|done]. intros _. unfold queued_answers at 1. simpl.
    rewrite !lookup_insert_eq. simpl. lia. }
  wp_auto. case_decide; wp_auto; (split; [done|]); (split; [|done]); intros _; unfold queued_answers at 1; simpl;
    rewrite !lookup_insert_eq; destruct (d_fields_list res); simpl; lia.
Qed.

Lemma mysql_next_result_takes d w :
  wp (mysql_next_result d) (takes_answer d (fun r => r =? 0) w) w.
Proof.
  unfold mysql_next_result. apply wp_bind. unfold wp at 1, get_mysql, deref.
  destruct (connections w !! d) as [c|] eqn:Hc; simpl; [|done].
  destruct (negb _); wp_auto; [done|].
  assert (Hle : queue_le d w (snd (update_mysql d (fun m =>
    with_affected_rows MYSQL_COUNT_ERROR (net_clear_error m)) w))) by (by apply shorter_update_mysql).
  unfold update_mysql, get_mysql, put_mysql, mbind, cmd_bind, deref in Hle. rewrite Hc in Hle.
  destruct (has_flag _ _); wp_auto; [|done].
  eapply wp_mono; [apply emb_read_query_result_takes|].
  intros [error|ex| |] w' [Ha Ht]; try (by split). apply bind_post_ret. wp_auto.
  destruct Ht as [Ht Hm], Hle as [Hle _]. split; [done|]. split; [|done]. intros _.
  specialize (Ht eq_refl). simpl in Hle. lia.
Qed.

(** A command that does not lengthen the queue, before one that takes an
    answer. *)
Lemma takes_after {A B} d (p : B -> bool) (m : cmd world A) (k : A -> cmd world B) w :
  steps (queue_le d) m -> ends false true m ->
  (forall a w', wp (k a) (takes_answer d p w') w') -> wp (m ≫= k) (takes_answer d p w) w.
Proof.
  intros Hm He Hk. apply wp_bind. apply (wp_ends (queue_le d) false true); [done..|].
  intros [a|[]| |] w1 Ha Hle; try (by split). apply bind_post_ret.
  eapply wp_mono; [apply Hk|]. intros [b|[]| |] w2 [Hb Ht]; split; try done.
  destruct Ht as [Ht Hm2], Hle as [Hle Hm1]. split; [|congruence]. intros Hp. specialize (Ht Hp). lia.
Qed.

(** ... and after it: a command that keeps the queue short if an answer was
    taken, and else says so. *)
Lemma takes_before {A B} d (p : A -> bool) (q : B -> bool) (m : cmd world A)
    (k : A -> cmd world B) w :
  wp m (takes_answer d p w) w ->
  (forall a, ends false true (k a)) -> (forall a, steps (queue_le d) (k a)) ->
  (forall a w', p a = false -> match fst (k a w') with Ret b => q b = false | _ => True end) ->
  wp (m ≫= k) (takes_answer d q w) w.
Proof.
  intros Hm He Hle Hq. apply wp_bind. eapply wp_mono; [exact Hm|].
  intros [a|[]| |] w1 [Ha Ht]; try (by split). apply bind_post_ret. unfold wp.
  specialize (He a w1). specialize (Hle a w1). specialize (Hq a w1).
  destruct (k a w1) as [[b|ex| |] w2] eqn:Hk; simpl in *; split; try done.
  destruct Ht as [Ht Hm1], Hle as [Hle Hm2]. split; [|congruence].
  destruct (p a) eqn:Hp; [|by rewrite Hq]. specialize (Ht eq_refl). lia.
Qed.

Lemma ends_release_connection e m d : ends e true (release_connection m d).
Proof. unfold release_connection. ends_auto. Qed.
Hint Resolve ends_release_connection : ends.
Lemma ends_reset_store e m :
  ends e true (reset_stmt_handle_with (fun _ _ => mret tt) m RESET_STORE_RESULT).
Proof. unfold reset_stmt_handle_with. simpl. ends_auto. Qed.
Lemma ends_alloc_stmt_fields e m c : ends e true (alloc_stmt_fields m c).
Proof. unfold alloc_stmt_fields. ends_auto. Qed.
Lemma ends_prepare_to_fetch_result e m d : ends e true (prepare_to_fetch_result m d).
Proof. unfold prepare_to_fetch_result. ends_auto. Qed.
Hint Resolve ends_reset_store ends_alloc_stmt_fields ends_prepare_to_fetch_result : ends.

Lemma ends_mysql_stmt_next_result e m : ends e true (mysql_stmt_next_result m).
Proof. unfold mysql_stmt_next_result. ends_auto. Qed.

Lemma mysql_stmt_next_result_takes m d s w :
  mysql_stmts w !! m = Some s -> s_mysql s = Some d ->
  wp (mysql_stmt_next_result m) (takes_answer d (fun r => r =? 0) w) w.
Proof.
  intros Hs Hd. unfold mysql_stmt_next_result. wp_auto. rewrite Hd.
  destruct (negb (s_last_errno s =? 0)) eqn:Herr.
  { wp_auto. split; [done|]. split; [|done]. simpl in Herr. by destruct (s_last_errno s =? 0). }
  apply takes_after; [auto with steps|auto with ends|]. intros c w1.
  apply takes_after; [steps_auto|ends_auto|]. intros error w2.
  destruct error; [wp_auto; by split|].
  apply takes_before with (fun r => r =? 0); [apply mysql_next_result_takes|ends_auto|steps_auto|].
  intros r w3 Hr. unfold get_mysql, update_mstmt, get_mstmt, put_mstmt, mbind, cmd_bind, deref.
  destruct (connections w3 !! d); [|done]. rewrite Hr. simpl. by destruct (mysql_stmts w3 !! m).
Qed.

(** ** The loops *)

(** The connection of the statement [m] is [d]. *)
Definition bound_to (m d : nat) (w : world) : Prop :=
  exists s, mysql_stmts w !! m = Some s /\ s_mysql s = Some d.

Lemma bound_to_same m d w w' :
  s_mysql <$> mysql_stmts w' = s_mysql <$> mysql_stmts w -> bound_to m d w -> bound_to m d w'.
Proof.
  intros Hm (s & Hs & Hd). assert (Hs' : (s_mysql <$> mysql_stmts w') !! m = Some (Some d))
    by (rewrite Hm, lookup_fmap, Hs; simpl; by rewrite Hd).
  rewrite lookup_fmap in Hs'. destruct (mysql_stmts w' !! m) as [s'|] eqn:Hs''; [|done].
  exists s'. split; [done|]. by injection Hs'.
Qed.

Definition proper {A} (o : outcome A) (_ : world) : Prop := allowed false true o.

Lemma wp_proper {A} (m : cmd world A) w : ends false true m -> wp m proper w.
Proof. intros Hm. apply Hm. Qed.

Lemma proper_after {A B} (R : world -> world -> Prop) (m : cmd world A) (k : A -> cmd world B) w :
  steps R m -> ends false true m -> (forall a w', R w w' -> wp (k a) proper w') ->
  wp (m ≫= k) proper w.
Proof.
  intros Hm He Hk. apply wp_bind, (wp_ends R false true); [done..|].
  intros [a|[]| |] w1 Ha HR; try done. by apply bind_post_ret, Hk.
Qed.

Lemma drain_results_proper m d fuel : forall w,
  bound_to m d w -> (queued_answers d w < fuel)%nat -> wp (drain_results fuel m d) proper w.
Proof.
  induction fuel as [|fuel IH]; intros w Hb Hfuel; [lia|]. simpl.
  apply (proper_after (queue_le d)); [auto with steps|auto with ends|]. intros c w1 [Hle Hm].
  apply (bound_to_same _ _ _ _ Hm) in Hb as (s & Hs & Hd).
  destruct (negb _); [by apply wp_proper; ends_auto|]. apply wp_bind.
  eapply wp_mono; [by eapply mysql_stmt_next_result_takes|].
  intros [r|[]| |] w2 [Ha Ht]; try done. apply bind_post_ret. destruct Ht as [Ht Hm2].
  destruct (r =? 0); [|by wp_auto]. specialize (Ht eq_refl).
  apply IH; [|lia]. eapply bound_to_same; [exact Hm2|]. by exists s.
Qed.

Lemma drain_all_results_proper m d w : bound_to m d w -> wp (drain_all_results m d) proper w.
Proof. intros Hb. unfold drain_all_results. wp_auto. apply drain_results_proper; auto. Qed.

Lemma ends_reset_stmt_handle m flags : ends false true (reset_stmt_handle m flags).
Proof.
  intros w. change (wp (reset_stmt_handle m flags) proper w).
  unfold reset_stmt_handle, reset_stmt_handle_with, get_mstmt. apply wp_bind. unfold wp at 1, deref.
  destruct (mysql_stmts w !! m) as [s|] eqn:Hs; simpl; [|done].
  destruct (s_state s <=? MYSQL_STMT_INIT_DONE); [by wp_auto|].
  apply (proper_after (queue_le 0)); [steps_auto|ends_auto|]. intros _ w1 [_ Hm1].
  apply (proper_after (queue_le 0)); [steps_auto|ends_auto|]. intros _ w2 [_ Hm2].
  apply wp_bind. destruct (s_mysql s) as [d|] eqn:Hd; [|apply wp_ret, bind_post_ret, wp_proper; ends_auto].
  assert (Hb : bound_to m d w2).
  { eapply bound_to_same, bound_to_same; [exact Hm2|exact Hm1|]. by exists s. }
  apply wp_bind. eapply wp_mono with (P := proper).
  { destruct (_ <? _); [|by apply wp_proper; ends_auto].
    apply (proper_after (queue_le 0)); [steps_auto|ends_auto|]. intros _ w3 [_ Hm3].
    destruct (has_flag _ _); [|by apply wp_proper; ends_auto].
    apply drain_all_results_proper. by eapply bound_to_same. }
  intros [[]|[]| |] w3 Ho; try done. apply bind_post_ret. apply wp_mono with (P := proper).
  { apply wp_proper. ends_auto. }
  intros [error|[]| |] w4 Ho'; try done. apply bind_post_ret, wp_proper. ends_auto.
Qed.
End rounds.
#[export] Hint Resolve ends_release_connection ends_reset_store ends_alloc_stmt_fields
  ends_prepare_to_fetch_result ends_mysql_stmt_next_result ends_reset_stmt_handle : ends.

(** ** How the statement functions of the client library end *)

Section stmt_ends.
  Context `{Server}.
  Abbreviation fine m := (ends false true m).

Lemma fine_update_column s g i f : fine (update_column s g i f).
Proof. unfold update_column. ends_auto. Qed.
Hint Resolve fine_update_column : ends.
Lemma fine_read_member p own f g b : fine (read_member p own f g b).
Proof. unfold read_member. ends_auto. Qed.
Lemma fine_write_length v b : fine (write_length v b).
Proof. unfold write_length. ends_auto. Qed.
Lemma fine_write_is_null v b : fine (write_is_null v b).
Proof. unfold write_is_null. ends_auto. Qed.
Lemma fine_write_error v b : fine (write_error v b).
Proof. unfold write_error. ends_auto. Qed.
Lemma fine_write_buffer p o data : fine (write_buffer p o data).
Proof. unfold write_buffer, put_buffer. ends_auto. Qed.
Hint Resolve fine_read_member fine_write_length fine_write_is_null fine_write_error
  fine_write_buffer : ends.
Lemma fine_read_length b : fine (read_length b).
Proof. apply fine_read_member. Qed.
Lemma fine_read_is_null b : fine (read_is_null b).
Proof. apply fine_read_member. Qed.
Lemma fine_read_error b : fine (read_error b).
Proof. apply fine_read_member. Qed.
Hint Resolve fine_read_length fine_read_is_null fine_read_error : ends.
Lemma fine_run_fetch_result_with_conversion b f row :
  fine (run_fetch_result_with_conversion b f row).
Proof. unfold run_fetch_result_with_conversion, fetch_string_with_conversion. ends_auto. Qed.
Hint Resolve fine_run_fetch_result_with_conversion : ends.
Lemma fine_run_fetch_result b f row : fine (run_fetch_result b f row).
Proof. unfold run_fetch_result, run_fetch_result_string. ends_auto. Qed.
Hint Resolve fine_run_fetch_result : ends.
Lemma fine_setup_one_fetch_function b f : fine (setup_one_fetch_function b f).
Proof. unfold setup_one_fetch_function. ends_auto. Qed.
Hint Resolve fine_setup_one_fetch_function : ends.
Lemma fine_setup_binds bs fs : fine (setup_binds bs fs).
Proof.
  revert fs. induction bs as [|b bs IH]; intros fs; simpl; [ends_auto|]. destruct fs; ends_auto.
Qed.
Hint Resolve fine_setup_binds : ends.
Lemma fine_mysql_stmt_bind_result m bs : fine (mysql_stmt_bind_result m bs).
Proof. unfold mysql_stmt_bind_result. ends_auto. Qed.
Lemma fine_mysql_stmt_bind_param m bs : fine (mysql_stmt_bind_param m bs).
Proof. unfold mysql_stmt_bind_param. ends_auto. Qed.
Hint Resolve fine_mysql_stmt_bind_result fine_mysql_stmt_bind_param : ends.
Lemma fine_read_params bs : fine (read_params bs).
Proof. induction bs as [|b bs IH]; simpl; unfold read_param; ends_auto. Qed.
Hint Resolve fine_read_params : ends.
Lemma fine_fetch_columns bs fs nulls bit row : fine (fetch_columns bs fs nulls bit row).
Proof.
  revert fs nulls bit row. induction bs as [|b bs IH]; intros fs nulls bit row; simpl; [ends_auto|].
  destruct fs, nulls; ends_auto.
Qed.
Hint Resolve fine_fetch_columns : ends.
Lemma fine_mysql_stmt_fetch m : fine (mysql_stmt_fetch m).
Proof.
  unfold mysql_stmt_fetch, run_read_row_func, stmt_fetch_row, read_row_unbuffered,
    read_row_buffered, emb_unbuffered_fetch. ends_auto.
Qed.
Lemma fine_mysql_stmt_fetch_column m b c o : fine (mysql_stmt_fetch_column m b c o).
Proof. unfold mysql_stmt_fetch_column. ends_auto. Qed.
Lemma fine_refresh_binds bs fs : fine (refresh_binds bs fs).
Proof.
  revert fs. induction bs as [|b bs IH]; intros fs; simpl; [ends_auto|]. destruct fs; ends_auto.
Qed.
Hint Resolve fine_mysql_stmt_fetch fine_mysql_stmt_fetch_column fine_refresh_binds : ends.
Lemma fine_reinit_result_set_metadata m c : fine (reinit_result_set_metadata m c).
Proof. unfold reinit_result_set_metadata, update_stmt_fields. ends_auto. Qed.
Hint Resolve fine_reinit_result_set_metadata : ends.
Lemma fine_mysql_stmt_result_metadata m : fine (mysql_stmt_result_metadata m).
Proof. unfold mysql_stmt_result_metadata. ends_auto. Qed.
Lemma fine_mysql_stmt_free_result m : fine (mysql_stmt_free_result m).
Proof. unfold mysql_stmt_free_result. auto with ends. Qed.
Lemma fine_mysql_stmt_reset m : fine (mysql_stmt_reset m).
Proof. unfold mysql_stmt_reset. ends_auto. Qed.
Lemma fine_mysql_stmt_init d : fine (mysql_stmt_init d).
Proof. unfold mysql_stmt_init, put_mstmt. ends_auto. Qed.
Lemma fine_mysql_stmt_attr_update_max_length m b : fine (mysql_stmt_attr_update_max_length m b).
Proof. unfold mysql_stmt_attr_update_max_length. ends_auto. Qed.
Lemma fine_mysql_stmt_prepare m q : fine (mysql_stmt_prepare m q).
Proof. unfold mysql_stmt_prepare, emb_read_prepare_result. ends_auto. Qed.
Lemma fine_mysql_stmt_execute m : fine (mysql_stmt_execute m).
Proof. unfold mysql_stmt_execute, emb_stmt_execute. ends_auto. Qed.
Lemma fine_mysql_stmt_store_result m : fine (mysql_stmt_store_result m).
Proof. unfold mysql_stmt_store_result. ends_auto. Qed.
Lemma fine_mysql_stmt_close m : fine (mysql_stmt_close m).
Proof. unfold mysql_stmt_close. ends_auto. Qed.
End stmt_ends.
#[export] Hint Resolve fine_mysql_stmt_bind_result fine_mysql_stmt_bind_param fine_mysql_stmt_fetch
  fine_mysql_stmt_fetch_column fine_mysql_stmt_result_metadata fine_mysql_stmt_free_result
  fine_mysql_stmt_reset fine_mysql_stmt_init fine_mysql_stmt_attr_update_max_length
  fine_mysql_stmt_prepare fine_mysql_stmt_execute fine_mysql_stmt_store_result
  fine_mysql_stmt_close : ends.

(** ** Storing and freeing a result keeps the queue *)

Section keep_queue.
  Context `{Server} (d : nat).
  Abbreviation short m := (steps (queue_le d) m).

(** Putting back a [THD] whose queue is no longer. *)
Lemma short_thd {A} d' (f : THD -> option THD) (k : THD -> cmd world A) :
  (forall t t', f t = Some t' -> (length (first_data t') <= length (first_data t))%nat) ->
  (forall t, short (k t)) ->
  short (t ← get_thd d'; put_thd d' (f t) ;; k t).
Proof.
  intros Hf Hk w. unfold get_thd, mbind at 1, cmd_bind at 1, deref.
  destruct (connections w !! d') as [c|] eqn:Hc; simpl; [|done].
  destruct (m_thd c) as [t|] eqn:Ht; [|done].
  set (w1 := set_connections (<[d' := with_thd (f t) c]> (connections w)) w).
  assert (Heq : (put_thd d' (f t) ;; k t) w = k t w1).
  { unfold put_thd, update_mysql, get_mysql, put_mysql, mbind, cmd_bind, deref. by rewrite Hc. }
  rewrite Heq. transitivity w1; [|apply Hk]. split; [|done]. unfold queued_answers. simpl.
  destruct (decide (d' = d)) as [->|]; [|by rewrite lookup_insert_ne].
  rewrite lookup_insert_eq, Hc, Ht. simpl. specialize (Hf t). destruct (f t); [by apply Hf|lia].
Qed.

Lemma short_emb_read_rows d' : short (emb_read_rows d').
Proof.
  unfold emb_read_rows. intros w. unfold get_thd, mbind at 1, cmd_bind at 1, deref.
  destruct (connections w !! d') as [c|] eqn:Hc; simpl; [|done].
  destruct (m_thd c) as [t|] eqn:Ht; [|done]. destruct (cur_data t) as [data|] eqn:Hcur; [|done].
  assert (Hs := short_thd d' (fun t => Some (with_data (first_data t) None t))
    (fun _ => if negb (d_last_errno data =? 0) then
       update_mysql d' (embedded_get_error data) ;; mret None else mret (Some data))).
  specialize (Hs ltac:(by intros ? ? [= <-]) ltac:(intros; cbn beta; steps_auto) w).
  unfold get_thd, mbind at 1, cmd_bind at 1, deref in Hs. rewrite Hc in Hs. simpl in Hs.
  by rewrite Ht in Hs.
Qed.
Hint Resolve short_emb_read_rows : steps.
Lemma short_update_column s g i f : short (update_column s g i f).
Proof.
  unfold update_column, update_stmt, get_stmt, put_stmt. steps_auto. by apply steps_modify.
Qed.
Hint Resolve short_update_column : steps.
Lemma short_write_length v b : short (write_length v b).
Proof. unfold write_length. steps_auto. Qed.
Hint Resolve short_write_length : steps.
Lemma short_setup_binds bs fs : short (setup_binds bs fs).
Proof.
  revert fs. induction bs as [|b bs IH]; intros fs; simpl; [steps_auto|].
  destruct fs; unfold setup_one_fetch_function; steps_auto.
Qed.
Hint Resolve short_setup_binds : steps.
Lemma short_mysql_stmt_store_result m : short (mysql_stmt_store_result m).
Proof. unfold mysql_stmt_store_result, mysql_stmt_bind_result. steps_auto. Qed.
Lemma short_mysql_store_result d' : short (mysql_store_result d').
Proof. unfold mysql_store_result. steps_auto. Qed.
Lemma short_update_db d' f : short (update_db d' f).
Proof. unfold update_db, get_db, put_db. steps_auto. by apply steps_modify. Qed.
Lemma short_mysql_stmt_free_result m : short (mysql_stmt_free_result m).
Proof.
  assert (Hclear : short (update_mstmt m stmt_clear_error)).
  { apply shorter_update_mstmt. intros s. unfold stmt_clear_error. by destruct (negb _). }
  unfold mysql_stmt_free_result, reset_stmt_handle, reset_stmt_handle_with. simpl. steps_auto.
Qed.
End keep_queue.
#[export] Hint Resolve short_mysql_stmt_store_result short_mysql_store_result short_update_db
  short_mysql_stmt_free_result : steps.

(** ** The loops of [database.cc] *)

Section loops.
  Context `{Server}.

Lemma ends_set_mariadb_error d : ends false true (set_mariadb_error d).
Proof. unfold set_mariadb_error. ends_auto. Qed.
Hint Resolve ends_set_mariadb_error : ends.

Lemma drain_query_loop_proper d fuel : forall w,
  (queued_answers d w < fuel)%nat -> wp (drain_query_loop fuel d) proper w.
Proof.
  induction fuel as [|fuel IH]; intros w Hfuel; [lia|]. simpl. apply wp_bind.
  eapply wp_mono; [apply mysql_next_result_takes|].
  intros [r|[]| |] w1 [Ha Ht]; try done. apply bind_post_ret. destruct Ht as [Ht _].
  destruct (r <? 0) eqn:Hneg; [by wp_auto|]. destruct (0 <? r) eqn:Hpos.
  { apply wp_proper. ends_auto. }
  specialize (Ht ltac:(simpl; lia)).
  apply (proper_after (queue_le d)); [auto with steps|auto with ends|]. intros result w2 [Hle2 _].
  destruct result; [apply IH; lia|].
  apply (proper_after (queue_le d)); [auto with steps|auto with ends|]. intros c w3 [Hle3 _].
  destruct (negb _); [by apply wp_proper; ends_auto|]. apply IH. lia.
Qed.

Lemma ends_drain_remaining_query_results d : ends false true (drain_remaining_query_results d).
Proof.
  intros w. apply (drain_query_loop_proper d (S (queued_answers d w)) w). lia.
Qed.

Lemma ends_db_of s : ends false true (db_of s).
Proof. unfold db_of. ends_auto. Qed.
Lemma ends_mstmt_of s : ends false true (mstmt_of s).
Proof. unfold mstmt_of. ends_auto. Qed.
Lemma ends_get_stmt s : ends false true (get_stmt s).
Proof. unfold get_stmt. ends_auto. Qed.
Lemma ends_get_db s : ends false true (get_db s).
Proof. unfold get_db. ends_auto. Qed.
Hint Resolve ends_db_of ends_mstmt_of ends_get_stmt ends_get_db : ends.
Lemma ends_set_mariadb_statement_error s : ends false true (set_mariadb_statement_error s).
Proof. unfold set_mariadb_statement_error. ends_auto. Qed.
Hint Resolve ends_set_mariadb_statement_error : ends.

Lemma drain_statement_loop_proper s m d fuel : forall w,
  bound_to m d w -> (queued_answers d w < fuel)%nat -> wp (drain_statement_loop fuel s m) proper w.
Proof.
  induction fuel as [|fuel IH]; intros w Hb Hfuel; [lia|]. simpl. apply wp_bind.
  pose proof Hb as (ms & Hms & Hd). eapply wp_mono; [by eapply mysql_stmt_next_result_takes|].
  intros [r|[]| |] w1 [Ha Ht]; try done. apply bind_post_ret. destruct Ht as [Ht Hm1].
  apply (bound_to_same _ _ _ _ Hm1) in Hb.
  destruct (r <? 0) eqn:Hneg; [by wp_auto|]. destruct (0 <? r) eqn:Hpos.
  { apply wp_proper. ends_auto. }
  specialize (Ht ltac:(simpl; lia)).
  apply (proper_after (queue_le d)); [auto with steps|auto with ends|]. intros ms' w2 [Hle2 Hm2].
  apply (bound_to_same _ _ _ _ Hm2) in Hb. destruct (_ =? 0); [apply IH; [done|lia]|].
  apply (proper_after (queue_le d)); [auto with steps|auto with ends|]. intros [] w3 [Hle3 Hm3].
  { apply wp_proper. ends_auto. }
  apply (bound_to_same _ _ _ _ Hm3) in Hb.
  apply (proper_after (queue_le d)); [auto with steps|auto with ends|]. intros [] w4 [Hle4 Hm4].
  { apply wp_proper. ends_auto. }
  apply (bound_to_same _ _ _ _ Hm4) in Hb. apply IH; [done|lia].
Qed.

Lemma ends_drain_remaining_statement_results s :
  ends false true (drain_remaining_statement_results s).
Proof.
  unfold drain_remaining_statement_results. apply ends_bind; [auto with ends|]. intros m w.
  change (wp (drain_statement_loop (S (statement_answers m w)) s m) proper w).
  unfold statement_answers. destruct (mysql_stmts w !! m) as [ms|] eqn:Hms.
  - change (Some ms ≫= fun ms => s_mysql ms) with (s_mysql ms).
    destruct (s_mysql ms) as [d|] eqn:Hd.
    + apply (drain_statement_loop_proper s m d); [by exists ms|lia].
    + simpl. unfold mysql_stmt_next_result. wp_auto. rewrite Hd. wp_auto. simpl. apply wp_proper. ends_auto.
  - simpl. unfold mysql_stmt_next_result, get_mstmt. apply wp_bind, wp_bind. unfold wp, deref. by rewrite Hms.
Qed.
End loops.
#[export] Hint Resolve ends_set_mariadb_error ends_drain_remaining_query_results ends_db_of
  ends_mstmt_of ends_get_stmt ends_get_db ends_set_mariadb_statement_error
  ends_drain_remaining_statement_results : ends.
