(* ===== verification/StatementFacts.v ===== *)
(** * Statements: frames, and the calls that create and destroy them *)

From S2P Require Import Prelude Api Effects SqlLexer SqlPolicy SqlPolicyTheorems System Numbers.
From S2P Require Import World ClientQuery ClientStmt Runtime Exec Statement Frames Rules.
From S2P Require Import ClientFacts Scripted RuntimeFacts RuntimeTheorems Library ExecFacts.
From S2P Require Import Termination.
From stdpp Require Import options.
Set Default Proof Using "Type*".

Local Open Scope Z_scope.

Section frames.
  Context `{Server}.
  Abbreviation kept m := (steps library_frame m).

Lemma kept_update_stmt s f : (forall st, db (f st) = db st) -> kept (update_stmt s f).
Proof.
  intros Hf w. unfold update_stmt, get_stmt, put_stmt, mbind, cmd_bind, deref.
  destruct (stmts w !! s) as [st|] eqn:Hst; [|done]. split; try done.
  unfold owners. simpl. rewrite fmap_insert, Hf. apply insert_id. by rewrite lookup_fmap, Hst.
Qed.
Lemma kept_get_stmt s : kept (get_stmt s).
Proof. unfold get_stmt. steps_auto. Qed.
Hint Resolve kept_update_stmt kept_get_stmt : steps.
Lemma kept_db_of s : kept (db_of s).
Proof. unfold db_of. steps_auto. Qed.
Lemma kept_mstmt_of s : kept (mstmt_of s).
Proof. unfold mstmt_of. steps_auto. Qed.
Lemma kept_put_parameter s i p : kept (put_parameter s i p).
Proof. unfold put_parameter. auto with steps. Qed.
Hint Resolve kept_db_of kept_mstmt_of kept_put_parameter : steps.
Lemma kept_set_mariadb_statement_error s : kept (set_mariadb_statement_error s).
Proof. unfold set_mariadb_statement_error. steps_auto. Qed.
Hint Resolve kept_set_mariadb_statement_error : steps.
Lemma kept_bind_null_value s index : kept (bind_null_value s index).
Proof. unfold bind_null_value. steps_auto. Qed.
Lemma kept_bind_bytes s index v n t d : kept (bind_bytes s index v n t d).
Proof. unfold bind_bytes. steps_auto. Qed.
Lemma kept_bind_parameters s : kept (bind_parameters s).
Proof. unfold bind_parameters. steps_auto. Qed.
Hint Resolve kept_bind_null_value kept_bind_bytes kept_bind_parameters : steps.
Lemma kept_bind_nulls s indices : kept (bind_nulls s indices).
Proof. induction indices; simpl; steps_auto. Qed.
Hint Resolve kept_bind_nulls : steps.
Lemma kept_free_columns columns : kept (free_columns columns).
Proof. induction columns; simpl; steps_auto. Qed.
Lemma kept_free_retired columns : kept (free_retired columns).
Proof. induction columns; simpl; steps_auto. Qed.
Lemma kept_free_parameters parameters : kept (free_parameters parameters).
Proof. induction parameters; simpl; steps_auto. Qed.
Lemma kept_terminate_columns columns : kept (terminate_columns columns).
Proof. induction columns; simpl; steps_auto. Qed.
Hint Resolve kept_free_columns kept_free_retired kept_free_parameters kept_terminate_columns : steps.
Lemma kept_allocate_column_buffer b n : kept (allocate_column_buffer b n).
Proof. unfold allocate_column_buffer. steps_auto. Qed.
Hint Resolve kept_allocate_column_buffer : steps.
Lemma kept_release_statement_results s : kept (release_statement_results s).
Proof. unfold release_statement_results. steps_auto. Qed.
Hint Resolve kept_release_statement_results : steps.
Lemma kept_set_up_columns s g fields : forall index, kept (set_up_columns s g index fields).
Proof.
  induction fields; intros index; simpl; unfold configure_column_buffer; steps_auto.
Qed.
Hint Resolve kept_set_up_columns : steps.
Lemma kept_initialize_statement_results s b : kept (initialize_statement_results s b).
Proof. unfold initialize_statement_results. steps_auto. Qed.
Lemma kept_refresh_dirty_result_binds s : kept (refresh_dirty_result_binds s).
Proof. unfold refresh_dirty_result_binds. steps_auto. Qed.
Hint Resolve kept_initialize_statement_results kept_refresh_dirty_result_binds : steps.
Lemma kept_fetch_truncated_from s indices : kept (fetch_truncated_from s indices).
Proof. induction indices; simpl; unfold fetch_truncated_column; steps_auto. Qed.
Hint Resolve kept_fetch_truncated_from : steps.
Lemma kept_drain_statement_loop s m fuel : kept (drain_statement_loop fuel s m).
Proof. induction fuel; simpl; steps_auto. Qed.
Hint Resolve kept_drain_statement_loop : steps.
Lemma kept_fetch_statement_row s : kept (fetch_statement_row s).
Proof.
  unfold fetch_statement_row, finish_fetch, fetch_truncated_statement_columns,
    drain_remaining_statement_results.
  steps_auto.
Qed.
Hint Resolve kept_fetch_statement_row : steps.

Lemma kept_with_statement {A} (misuse : A) stmt (f : nat -> cmd world A) :
  (forall s, kept (f s)) -> kept (with_statement misuse stmt f).
Proof. intros Hf. unfold with_statement. steps_auto. Qed.

(** ** The calls on a statement *)

Lemma kept_mylite_step stmt : kept (mylite_step stmt).
Proof. apply kept_with_statement. intros s. unfold step_execute. steps_auto. Qed.
Lemma kept_mylite_reset stmt : kept (mylite_reset stmt).
Proof. apply kept_with_statement. steps_auto. Qed.
Lemma kept_mylite_clear_bindings stmt : kept (mylite_clear_bindings stmt).
Proof. apply kept_with_statement. steps_auto. Qed.
Lemma kept_mylite_bind_null stmt index : kept (mylite_bind_null stmt index).
Proof. apply kept_with_statement. steps_auto. Qed.
Lemma kept_mylite_bind_int64 stmt index v : kept (mylite_bind_int64 stmt index v).
Proof. apply kept_with_statement. steps_auto. Qed.
Lemma kept_mylite_bind_uint64 stmt index v : kept (mylite_bind_uint64 stmt index v).
Proof. apply kept_with_statement. steps_auto. Qed.
Lemma kept_mylite_bind_double stmt index v : kept (mylite_bind_double stmt index v).
Proof. apply kept_with_statement. steps_auto. Qed.
Lemma kept_mylite_bind_text stmt index v n d : kept (mylite_bind_text stmt index v n d).
Proof. apply kept_with_statement. unfold strlen. steps_auto. Qed.
Lemma kept_mylite_bind_blob stmt index v n d : kept (mylite_bind_blob stmt index v n d).
Proof. apply kept_with_statement. steps_auto. Qed.
End frames.
#[export] Hint Resolve kept_update_stmt kept_get_stmt kept_db_of kept_mstmt_of kept_put_parameter
  kept_set_mariadb_statement_error kept_bind_nulls kept_free_columns kept_free_parameters
  kept_release_statement_results kept_mylite_step kept_mylite_reset kept_mylite_clear_bindings
  kept_mylite_bind_null kept_mylite_bind_int64 kept_mylite_bind_uint64 kept_mylite_bind_double
  kept_mylite_bind_text kept_mylite_bind_blob : steps.

(** ** Creating and destroying statements *)

Section ends.
  Context `{Server}.

Lemma fine_free_buffer b : ends false true (free_buffer b).
Proof. unfold free_buffer. ends_auto. Qed.
Hint Resolve fine_free_buffer : ends.
Lemma fine_free_columns columns : ends false true (free_columns columns).
Proof. induction columns; simpl; ends_auto. Qed.
Lemma fine_free_parameters parameters : ends false true (free_parameters parameters).
Proof. induction parameters; simpl; ends_auto. Qed.
Lemma fine_put_parameter s i p : ends false true (put_parameter s i p).
Proof. unfold put_parameter. ends_auto. Qed.
Hint Resolve fine_free_columns fine_free_parameters fine_put_parameter : ends.
Lemma fine_bind_null_value s i : ends false true (bind_null_value s i).
Proof. unfold bind_null_value. ends_auto. Qed.
Hint Resolve fine_bind_null_value : ends.
Lemma fine_bind_nulls s indices : ends false true (bind_nulls s indices).
Proof. induction indices; simpl; ends_auto. Qed.
Lemma fine_release_statement_results s : ends false true (release_statement_results s).
Proof. unfold release_statement_results. ends_auto. Qed.
Lemma fine_set_mariadb_statement_error s : ends false true (set_mariadb_statement_error s).
Proof. unfold set_mariadb_statement_error. ends_auto. Qed.
Hint Resolve fine_bind_nulls fine_release_statement_results fine_set_mariadb_statement_error : ends.
End ends.
#[export] Hint Resolve fine_free_buffer fine_free_columns fine_free_parameters fine_put_parameter
  fine_bind_null_value fine_bind_nulls fine_release_statement_results
  fine_set_mariadb_statement_error : ends.
