(* ===== verification/Lifetime.v ===== *)
(** * The lifetime of statements

    [mylite_prepare] adds a statement to those of its handle and
    [mylite_finalize] takes it away: both keep the invariant [library_ok], in
    which the handle counts its statements, whatever the calls return. *)

From S2P Require Import Prelude Api Effects SqlLexer SqlPolicy SqlPolicyTheorems System Directory.
From S2P Require Import Numbers World ClientQuery ClientStmt Runtime Exec Statement Frames Rules.
From S2P Require Import ClientFacts Scripted RuntimeFacts RuntimeTheorems Library ExecFacts.
From S2P Require Import Termination StatementFacts.
From stdpp Require Import options.
Set Default Proof Using "Type*".

Local Open Scope Z_scope.

Section lifetime.
  Context `{Server, Build}.
  Context (base : gmap Z open_file).

(** What [mylite_prepare] on the handle [d] promises: a new statement of [d],
    or none and the statements as they were; a failed [new] is thrown. *)
Definition prepare_outcome (good : world -> Prop) (d : nat) (w : world)
    (o : outcome (Z * option nat * option Z)) (w' : world) : Prop :=
  match o with
  | Ret (code, Some s, _) =>
      code = MYLITE_OK /\ good w' /\ owners w !! s = None /\
      owners w' = <[s := Some d]> (owners w)
  | Ret (code, None, _) => code <> MYLITE_OK /\ good w' /\ owners w' = owners w
  | Throw _ => good w' /\ owners w' = owners w
  | _ => True
  end.
Definition prepare_promise : nat -> world -> outcome (Z * option nat * option Z) -> world -> Prop :=
  prepare_outcome (library_ok base).

(** The handles and statements are in order, and the runtime is untouched. *)
Definition tables_kept (w w' : world) : Prop := tables_ok w' /\ runtime_frame w w'.

Lemma tables_kept_frame w w' : tables_ok w -> library_frame w w' -> tables_kept w w'.
Proof.
  intros Hok Hframe. split; [by eapply tables_ok_frame|by apply library_runtime_frame].
Qed.
Lemma library_ok_tables_kept w w' : library_ok base w -> tables_kept w w' -> library_ok base w'.
Proof. intros Hok [Htab Hrt]. split; [|done]. by eapply runtime_ok_kept, lib_runtime. Qed.

Lemma promise_none d code tail w w' :
  code <> MYLITE_OK -> tables_ok w -> library_frame w w' ->
  prepare_outcome (tables_kept w) d w (Ret (code, None, tail)) w'.
Proof.
  intros Hcode Hok Hframe. split; [done|]. split; [by apply tables_kept_frame|]. apply Hframe.
Qed.

(** The world with the new statement [s] of [d], not counted yet. *)
Definition with_new_stmt (s d : nat) (w : world) : world :=
  set_stmts (<[s := new_stmt d]> (stmts w)) (set_next_address (S s) w).

Lemma pending_owners s d w w' :
  library_frame (with_new_stmt s d w) w' -> owners w' = <[s := Some d]> (owners w).
Proof. intros Hframe. rewrite (lf_owners _ _ Hframe). unfold owners. simpl. by rewrite fmap_insert. Qed.

(** A command that keeps the library and throws nothing. *)
Lemma wp_fine {A} (m : cmd world A) (Q : outcome A -> world -> Prop) w0 w :
  steps library_frame m -> ends false true m -> library_frame w0 w ->
  (forall a w', library_frame w0 w' -> Q (Ret a) w') -> (forall w', Q Undefined w') -> wp m Q w.
Proof.
  intros Hm He Hw HQ Hu. apply (wp_ends library_frame false true); [exact Hm|exact He|].
  intros o w' Ho Hf. destruct o as [a|e| |]; [|by destruct e|apply Hu|done]. apply HQ. by etransitivity.
Qed.

Ltac fine w0 :=
  apply wp_bind, (wp_fine _ _ w0); [solve [steps_auto]|solve [ends_auto]|done| |done].

(** Deleting a statement. *)
Lemma delete_mylite_stmt_spec s (Q : outcome unit -> world -> Prop) w0 w :
  library_frame w0 w ->
  (forall w', library_frame w0 w' -> Q (Ret tt) (set_stmts (delete s (stmts w')) w')) ->
  (forall w', Q Undefined w') -> wp (delete_mylite_stmt s) Q w.
Proof.
  intros Hw Hret Hu. unfold delete_mylite_stmt.
  fine w0. intros st w1 H1. apply bind_post_ret. fine w0. intros [] w2 H2. apply bind_post_ret.
  fine w0. intros [] w3 H3. wp_auto. by apply Hret.
Qed.

Lemma new_stmt_fresh w : tables_ok w -> owners w !! next_address w = None.
Proof.
  intros Hok. apply eq_None_not_Some. intros [o Ho].
  destruct (tab_statements _ Hok _ _ Ho). lia.
Qed.

Lemma frame_handle d x w w' :
  library_frame w w' -> dbs w' !! d = Some x ->
  exists x0, dbs w !! d = Some x0 /\ handle_core x = handle_core x0.
Proof.
  intros Hf Hx. assert (Hc : (handle_core <$> dbs w') !! d = Some (handle_core x))
    by (by rewrite lookup_fmap, Hx).
  rewrite (lf_cores _ _ Hf), lookup_fmap in Hc. destruct (dbs w !! d) as [x0|]; [|done].
  exists x0. split; [done|]. simpl in Hc. congruence.
Qed.

(** The statements of [d] when the statement [s] has come or gone. *)
Lemma owned_by_insert s d (o : gmap nat (option nat)) :
  o !! s = None ->
  stdpp.base.size (filter (fun entry : nat * option nat => entry.2 = Some d) (<[s := Some d]> o)) =
  S (stdpp.base.size (filter (fun entry : nat * option nat => entry.2 = Some d) o)).
Proof.
  intros Hs. rewrite map_filter_insert_True by done. apply map_size_insert_None.
  apply map_lookup_filter_None. by left.
Qed.
Lemma owned_by_insert_other s d d' (o : gmap nat (option nat)) :
  o !! s = None -> d <> d' ->
  filter (fun entry : nat * option nat => entry.2 = Some d') (<[s := Some d]> o) =
  filter (fun entry : nat * option nat => entry.2 = Some d') o.
Proof.
  intros Hs Hd. rewrite map_filter_insert_False by (simpl; congruence). by rewrite delete_id.
Qed.

(** One more statement of [d], and the handle's count of them with it. *)
Lemma tables_ok_prepared s d x x' w w' :
  tables_ok w -> s = next_address w -> library_frame (with_new_stmt s d w) w' ->
  dbs w' !! d = Some x -> handle_core x' = (database_path x, active_statement_count x + 1) ->
  tables_kept w (set_dbs (<[d := x']> (dbs w')) w').
Proof.
  intros Hok -> Hw Hx Hx'. pose proof (new_stmt_fresh w Hok) as Hfresh.
  pose proof (pending_owners _ _ _ _ Hw) as Ho.
  destruct (frame_handle d x _ _ Hw Hx) as (x0 & Hx0 & Hcore). simpl in Hx0.
  injection Hx' as Hpath' Hcount'. injection Hcore as Hpath Hcount.
  pose proof (cores_dom _ _ (lf_cores _ _ Hw)) as Hdom. simpl in Hdom.
  assert (Hin : d ∈ dom (dbs w)) by (by apply elem_of_dom; exists x0).
  assert (Hdom' : dom (<[d:=x']> (dbs w')) = dom (dbs w)) by (by rewrite dom_insert_lookup_L, Hdom by (by exists x)).
  pose proof (lf_next _ _ Hw) as Hnext. simpl in Hnext. split; [split; simpl|].
  - rewrite Hdom'. intros e He. destruct (tab_handles _ Hok e He). split; [lia|].
    by apply (lf_connections _ _ Hw).
  - unfold owners in *. simpl. rewrite Ho, Hdom'. intros s o.
    rewrite lookup_insert_Some. intros [[<- <-]|[_ Hs]]; [split; [lia|by exists d]|].
    destruct (tab_statements _ Hok s o Hs). split; [lia|done].
  - unfold owned_by, owners in *. simpl. rewrite Ho. intros e y.
    rewrite lookup_insert_Some. intros [[<- <-]|[Hne Hy]].
    + rewrite owned_by_insert, Hcount', Hcount, (tab_counts _ Hok d x0 Hx0) by done.
      unfold owned_by, owners. lia.
    + destruct (frame_handle e y _ _ Hw Hy) as (y0 & Hy0 & Hcy). injection Hcy as _ Hcy.
      rewrite owned_by_insert_other, Hcy by done. by apply (tab_counts _ Hok).
  - split; [|apply Hw..]. simpl.
    rewrite fmap_insert, <- (cores_paths (dbs w) _ (lf_cores _ _ Hw)), Hpath'. apply insert_id.
    by rewrite lookup_fmap, Hx.
Qed.

(** The statement that was not given is gone again. *)
Lemma tables_ok_dropped s d w w' :
  tables_ok w -> s = next_address w -> library_frame (with_new_stmt s d w) w' ->
  let w2 := set_stmts (delete s (stmts w')) w' in
  tables_kept w w2 /\ owners w2 = owners w.
Proof.
  intros Hok -> Hw w2. pose proof (new_stmt_fresh w Hok) as Hfresh.
  assert (Ho : owners w2 = owners w).
  { pose proof (pending_owners _ _ _ _ Hw) as Ho. unfold owners in *. simpl.
    by rewrite fmap_delete, Ho, delete_insert_id. }
  split; [|done]. apply tables_kept_frame; [done|].
  destruct Hw as [? ? ? ? _ Hn ?]. split; try done. simpl in *. lia.
Qed.

Lemma prepare_failed d w s code tail w' :
  tables_ok w -> s = next_address w -> code <> MYLITE_OK -> library_frame (with_new_stmt s d w) w' ->
  wp (delete_mylite_stmt s ;; mret (code, None, tail)) (prepare_outcome (tables_kept w) d w) w'.
Proof.
  intros Hok Hs Hcode Hw. apply wp_bind, (delete_mylite_stmt_spec _ _ _ _ Hw); [|done].
  intros w1 H1. apply bind_post_ret, wp_ret. simpl.
  destruct (tables_ok_dropped s d w w1) as [? ?]; [done..|]. auto.
Qed.

Lemma prepare_close_failed d w s m code tail w' :
  tables_ok w -> s = next_address w -> code <> MYLITE_OK -> library_frame (with_new_stmt s d w) w' ->
  wp (mysql_stmt_close m ;; update_stmt s (with_stmt None) ;; delete_mylite_stmt s ;;
      mret (code, None, tail)) (prepare_outcome (tables_kept w) d w) w'.
Proof.
  intros Hok Hs Hcode Hw. fine (with_new_stmt s d w). intros ? w1 H1. apply bind_post_ret.
  fine (with_new_stmt s d w). intros ? w2 H2. by apply bind_post_ret, prepare_failed.
Qed.

(** The number of statements of [d] fits its [unsigned] counter. *)
Definition countable (d : nat) (w : world) : Prop :=
  (Z.of_nat (stdpp.base.size (owned_by d w)) < 2 ^ 32 - 1)%Z.

Lemma prepare_counted d w s tail w' :
  tables_ok w -> countable d w -> s = next_address w ->
  library_frame (with_new_stmt s d w) w' ->
  wp (update_db d (fun x =>
        with_active_statement_count x ((active_statement_count x + 1) mod 2 ^ 32)) ;;
      update_db d set_ok ;;
      mret (MYLITE_OK, Some s, tail)) (prepare_outcome (tables_kept w) d w) w'.
Proof.
  intros Hok Hcount -> Hw. destruct (dbs w' !! d) as [x|] eqn:Hx.
  2: { unfold update_db, get_db, wp, mbind, cmd_bind, deref. by rewrite Hx. }
  wp_auto. simpl. rewrite insert_insert_eq.
  destruct (frame_handle d x _ _ Hw Hx) as (x0 & Hx0 & Hcore). injection Hcore as Hpath Hc.
  pose proof (tab_counts _ Hok d x0 Hx0) as Hc0. unfold countable in Hcount.
  split; [done|split; [|split; [by apply new_stmt_fresh|by apply pending_owners in Hw]]].
  apply (tables_ok_prepared (next_address w) d x _ w w'); [done..|]. unfold handle_core. simpl.
  by rewrite Z.mod_small by lia.
Qed.

(** The part of [prepare_impl] that follows the allocation of the statement. *)
Lemma prepare_allocated_spec d w text tail w' s :
  tables_ok w -> countable d w -> s = next_address w ->
  library_frame (with_new_stmt s d w) w' ->
  wp (prepare_allocated d s text tail) (prepare_outcome (tables_kept w) d w) w'.
Proof.
  intros Hok Hcount Hs Hw. unfold prepare_allocated.
  fine (with_new_stmt s d w). intros stmt w1 H1. apply bind_post_ret.
  fine (with_new_stmt s d w). intros [] w2 H2. apply bind_post_ret.
  destruct stmt as [m|].
  2: { fine (with_new_stmt s d w). intros ? w3 H3. by apply bind_post_ret, prepare_failed. }
  fine (with_new_stmt s d w). intros [] w3 H3. apply bind_post_ret.
  fine (with_new_stmt s d w). intros error w4 H4. apply bind_post_ret. destruct error.
  { fine (with_new_stmt s d w). intros ? w5 H5. by apply bind_post_ret, prepare_close_failed. }
  fine (with_new_stmt s d w). intros ms w5 H5. apply bind_post_ret.
  fine (with_new_stmt s d w). intros [] w6 H6. apply bind_post_ret.
  fine (with_new_stmt s d w). intros result w7 H7. apply bind_post_ret.
  destruct (Z.eqb_spec result MYLITE_OK) as [->|Hr]; simpl.
  - by apply prepare_counted.
  - by apply prepare_close_failed.
Qed.

Lemma prepare_outcome_mono (good good' : world -> Prop) d w w' o w2 :
  (forall w, good w -> good' w) -> owners w' = owners w ->
  prepare_outcome good d w' o w2 -> prepare_outcome good' d w o w2.
Proof.
  intros Hgood Ho. unfold prepare_outcome. rewrite Ho. destruct o as [[[c [s|]] t]|e| |]; naive_solver.
Qed.

Lemma owned_by_frame d w w' : library_frame w w' -> owned_by d w' = owned_by d w.
Proof. intros Hf. unfold owned_by. by rewrite (lf_owners _ _ Hf). Qed.

Lemma prepare_new d text len w w' :
  tables_ok w -> countable d w -> library_frame w w' ->
  wp (s ← new_mylite_stmt d; prepare_allocated d s text len) (prepare_outcome (tables_kept w) d w) w'.
Proof.
  intros Hok Hcount Hw. unfold new_mylite_stmt. apply wp_bind, wp_bind, wp_allocate. intros [] l.
  2: { simpl. split; [|apply Hw]. apply tables_kept_frame; [done|]. etransitivity; [done|by split]. }
  set (wa := set_allocations l w').
  assert (Hwa : library_frame w wa) by (etransitivity; [done|by split]).
  apply bind_post_ret. simpl. apply wp_bind, wp_fresh_address, bind_post_ret. wp_auto.
  eapply wp_mono; [apply (prepare_allocated_spec d wa); [by eapply tables_ok_frame| |done|by split]|].
  { unfold countable. by rewrite (owned_by_frame d w wa). }
  intros o w2. apply prepare_outcome_mono, Hwa. intros w3 [? ?]. split; [done|].
  etransitivity; [by apply library_runtime_frame|done].
Qed.

Lemma wp_kept {A} (m : cmd world A) (Q : outcome A -> world -> Prop) w0 w :
  steps library_frame m -> library_frame w0 w ->
  (forall o w', library_frame w0 w' -> Q o w') -> wp m Q w.
Proof. intros Hm Hw HQ. apply HQ. by transitivity w. Qed.

Ltac kept w0 :=
  apply wp_bind, (wp_kept _ _ w0); [solve [steps_auto]|done|];
  let o := fresh "o" in
  intros o; destruct o; intros ? ?; [apply bind_post_ret|simpl; split; [by apply tables_kept_frame|by apply lf_owners]|done..].

Lemma kept_strlen sql : steps library_frame (strlen sql).
Proof. unfold strlen. steps_auto. Qed.
Lemma kept_sql_view sql len : steps library_frame (sql_view sql len).
Proof. unfold sql_view. steps_auto. Qed.
Hint Resolve kept_strlen kept_sql_view : steps.

Lemma prepare_impl_tables d sql len out w :
  tables_ok w -> d ∈ dom (dbs w) -> countable d w ->
  wp (prepare_impl (Some d) sql len out) (prepare_outcome (tables_kept w) d w) w.
Proof.
  intros Hok Hd Hcount. unfold prepare_impl. destruct out; [|by apply wp_ret, promise_none].
  destruct sql as [sql|]; [|by apply wp_ret, promise_none]. simpl.
  assert (Hw : library_frame w w) by done.
  kept w.
  destruct (_ <? _); [by apply wp_ret, promise_none|].
  kept w. kept w. kept w. destruct (negb _); [by apply wp_ret, promise_none|].
  destruct (token_equals _ _); [|by apply prepare_new].
  kept w. by apply wp_ret, promise_none.
Qed.

Lemma prepare_impl_spec d sql len out w :
  library_ok base w -> d ∈ dom (dbs w) -> countable d w ->
  wp (prepare_impl (Some d) sql len out) (prepare_promise d w) w.
Proof.
  intros Hok Hd Hcount. eapply wp_mono; [apply prepare_impl_tables; [apply Hok|done..]|].
  intros o w'. apply prepare_outcome_mono; [|done]. intros w2. by apply library_ok_tables_kept.
Qed.

(** ** Finalizing *)

Definition finalize_outcome (good : world -> Prop) (s : nat) (w : world) (o : outcome Z) (w' : world)
    : Prop :=
  match o with
  | Ret code => code = MYLITE_OK /\ good w' /\ owners w' = delete s (owners w)
  | Undefined => True
  | _ => False
  end.
Definition finalize_promise : nat -> world -> outcome Z -> world -> Prop :=
  finalize_outcome (library_ok base).

Lemma owned_by_delete s d (o : gmap nat (option nat)) :
  o !! s = Some (Some d) ->
  S (stdpp.base.size (filter (fun entry : nat * option nat => entry.2 = Some d) (delete s o))) =
  stdpp.base.size (filter (fun entry : nat * option nat => entry.2 = Some d) o).
Proof.
  intros Hs. rewrite <- (owned_by_insert s d (delete s o)) by apply lookup_delete_eq.
  by rewrite insert_delete_id.
Qed.
Lemma owned_by_delete_other s d d' (o : gmap nat (option nat)) :
  o !! s = Some (Some d) -> d <> d' ->
  filter (fun entry : nat * option nat => entry.2 = Some d') (delete s o) =
  filter (fun entry : nat * option nat => entry.2 = Some d') o.
Proof.
  intros Hs Hd. rewrite <- (owned_by_insert_other s d d' (delete s o)) by (done || apply lookup_delete_eq).
  by rewrite insert_delete_id.
Qed.

Lemma tables_ok_finalized s d x x' w w' w3 :
  tables_ok w -> owners w !! s = Some (Some d) -> library_frame w w' ->
  dbs w' !! d = Some x -> handle_core x' = (database_path x, active_statement_count x - 1) ->
  library_frame (set_dbs (<[d := x']> (dbs w')) w') w3 ->
  tables_kept w (set_stmts (delete s (stmts w3)) w3) /\
  owners (set_stmts (delete s (stmts w3)) w3) = delete s (owners w).
Proof.
  intros Hok Hs Hw Hx Hx' H3. injection Hx' as Hpath' Hcount'.
  assert (Ho : owners (set_stmts (delete s (stmts w3)) w3) = delete s (owners w)).
  { pose proof (lf_owners _ _ H3) as H3o. pose proof (lf_owners _ _ Hw) as Hwo.
    unfold owners in *. simpl in *. by rewrite fmap_delete, H3o, Hwo. }
  pose proof (tables_ok_frame _ _ Hw Hok) as [Hh Hst Hc]. split; [|done].
  assert (Hdom : dom (dbs w3) = dom (dbs w')).
  { rewrite <- (dom_fmap_L handle_core (dbs w3)), (lf_cores _ _ H3), dom_fmap_L. simpl.
    by rewrite dom_insert_lookup_L by (by exists x). }
  pose proof (lf_next _ _ H3) as Hnext. simpl in Hnext. split; [split; simpl|].
  - rewrite Hdom. intros e He. destruct (Hh e He). split; [lia|]. by apply (lf_connections _ _ H3).
  - rewrite Ho, <- (lf_owners _ _ Hw), Hdom. intros t o [_ Ht]%lookup_delete_Some.
    destruct (Hst t o Ht). split; [lia|done].
  - unfold owned_by. rewrite Ho. intros e y Hy.
    destruct (frame_handle e y _ _ H3 Hy) as (y0 & Hy0 & Hcy). injection Hcy as _ ->.
    simpl in Hy0. unfold owned_by in Hc. rewrite (lf_owners _ _ Hw) in Hc.
    apply lookup_insert_Some in Hy0 as [[<- <-]|[Hne Hy0]].
    + rewrite Hcount', (Hc d x Hx). pose proof (owned_by_delete s d (owners w) Hs). lia.
    + by rewrite (owned_by_delete_other s d e), (Hc e y0 Hy0).
  - transitivity w'; [by apply library_runtime_frame|]. split; [|apply H3..]. simpl.
    rewrite (cores_paths _ (dbs w3) (lf_cores _ _ H3)). simpl. rewrite fmap_insert, Hpath'.
    apply insert_id. by rewrite lookup_fmap, Hx.
Qed.

Lemma mylite_finalize_tables s w :
  tables_ok w -> is_Some (owners w !! s) ->
  wp (mylite_finalize (Some s)) (finalize_outcome (tables_kept w) s w) w.
Proof.
  intros Hok [o Hs]. destruct (tab_statements _ Hok s o Hs) as (_ & d & -> & Hd).
  assert (Hw : library_frame w w) by done. unfold mylite_finalize.
  fine w. intros [] w1 H1. apply bind_post_ret. 
  assert (Hst : exists st, stmts w1 !! s = Some st /\ db st = Some d).
  { rewrite <- (lf_owners _ _ H1) in Hs. unfold owners in Hs. rewrite lookup_fmap in Hs.
    destruct (stmts w1 !! s) as [st|]; [|done]. exists st. split; [done|]. simpl in Hs. congruence. }
  destruct Hst as (st & Hst & Hdb). apply wp_bind, (wp_get_stmt _ st _ _ Hst), bind_post_ret.
  fine w. intros [] w2 H2. apply bind_post_ret. rewrite Hdb.
  destruct (dbs w2 !! d) as [x|] eqn:Hx.
  2: { unfold update_db, get_db, wp, mbind, cmd_bind, deref. by rewrite Hx. }
  destruct (frame_handle d x _ _ H2 Hx) as (x0 & Hx0 & Hcore). injection Hcore as _ Hc.
  pose proof (owned_by_delete s d (owners w) Hs) as Hsize.
  pose proof (tab_counts _ Hok d x0 Hx0) as Hc0. unfold owned_by in Hc0.
  apply wp_bind. wp_auto. rewrite (proj2 (Z.ltb_lt 0 _)) by lia.
  eapply delete_mylite_stmt_spec; [reflexivity| |done].
  intros w3 H3. wp_auto. split; [done|].
  by apply (tables_ok_finalized s d x _ w w2 w3) in H3.
Qed.

Lemma mylite_finalize_spec s w :
  library_ok base w -> is_Some (owners w !! s) ->
  wp (mylite_finalize (Some s)) (finalize_promise s w) w.
Proof.
  intros Hok Hs. eapply wp_mono; [apply mylite_finalize_tables; [apply Hok|done]|].
  intros [code|e| |] w'; try done. intros (-> & Hkept & Ho). split; [done|]. split; [|done].
  by eapply library_ok_tables_kept.
Qed.
End lifetime.

(** C15: [mylite_prepare] on an open handle keeps the library's invariant,
    whatever the SQL, its length, the server's answer and the allocations: it
    gives a new statement of the handle, which the handle counts, and
    [MYLITE_OK]; or no statement and another code, with the statements as they
    were.  A failed [new mylite_stmt()] leaves them as they were too.  Nothing
    is said of an execution that is [Undefined], such as one that reads past
    the end of the SQL text. *)
Theorem mylite_prepare_keeps_library `{Server, Build} (base : gmap Z open_file) (d : nat)
    (sql : option bytes) (sql_len : Z) (out_stmt : bool) (w : world)
    (Hok : library_ok base w) (Hd : d ∈ dom (dbs w)) (Hcount : countable d w) :
  wp (mylite_prepare (Some d) sql sql_len out_stmt) (prepare_promise base d w) w.
Proof. by apply prepare_impl_spec. Qed.
Lemma mylite_prepare_keeps_library_witness :
  wp (mylite_prepare (Some 0%nat) (Some (str "SELECT 1")) 8 true)
    (prepare_promise ∅ 0 (opened_world [])) (opened_world []).
Proof.
  apply (mylite_prepare_keeps_library ∅); [apply opened_library_ok| |vm_compute; reflexivity].
  apply elem_of_dom. vm_compute. by eexists.
Defined.

(** The world after a first statement was prepared. *)
Definition prepared_world : world :=
  snd (mylite_prepare (Some 0%nat) (Some (str "SELECT 1")) 8 true (opened_world (after_open [prepared 7 0 []]))).

Lemma prepared_library_ok : library_ok ∅ prepared_world.
Proof.
  assert (Hprepare : wp (mylite_prepare (Some 0%nat) (Some (str "SELECT 1")) 8 true)
    (prepare_promise ∅ 0 (opened_world (after_open [prepared 7 0 []])))
    (opened_world (after_open [prepared 7 0 []]))).
  { apply prepare_impl_spec; [apply opened_library_ok| |vm_compute; reflexivity].
    apply elem_of_dom. vm_compute. by eexists. }
  unfold wp in Hprepare.
  assert (Hret : fst (mylite_prepare (Some 0%nat) (Some (str "SELECT 1")) 8 true
    (opened_world (after_open [prepared 7 0 []]))) = Ret (MYLITE_OK, Some 1%nat, Some 8))
    by (vm_compute; reflexivity).
  rewrite Hret in Hprepare. apply Hprepare.
Qed.

(** C16: [mylite_finalize] on a live statement, whatever state the statement
    and its connection are in, removes exactly that statement, takes it off
    its handle's count, keeps the library's invariant and returns
    [MYLITE_OK]; no error is thrown.  Nothing is said of an execution that is
    [Undefined]. *)
Theorem mylite_finalize_keeps_library `{Server, Build} (base : gmap Z open_file) (s : nat)
    (w : world) (Hok : library_ok base w) (Hs : is_Some (owners w !! s)) :
  wp (mylite_finalize (Some s)) (finalize_promise base s w) w.
Proof. by apply mylite_finalize_spec. Qed.
Lemma mylite_finalize_keeps_library_witness :
  wp (mylite_finalize (Some 1%nat)) (finalize_promise ∅ 1 prepared_world) prepared_world.
Proof.
  apply (mylite_finalize_keeps_library ∅); [apply prepared_library_ok|].
  vm_compute. by eexists.
Defined.
