(* ===== verification/Calls.v ===== *)
(** * The library as a state machine

    A [call] is any call that changes state; [reaches] relates the worlds
    before and after a sequence of calls.  Every call terminates, and every
    world that calls lead to satisfies [library_ok]. *)

From S2P Require Import Prelude Api Effects SqlLexer SqlPolicy SqlPolicyTheorems System Directory.
From S2P Require Import Numbers World ClientQuery ClientStmt Runtime Exec Statement Frames Rules.
From S2P Require Import ClientFacts Scripted RuntimeFacts RuntimeTheorems Library ExecFacts.
From S2P Require Import Termination StatementFacts Lifetime.
From stdpp Require Import options.
Set Default Proof Using "Type*".

Local Open Scope Z_scope.

(** ** Termination *)

Definition terminates {S A} (m : cmd S A) : Prop := forall s, fst (m s) <> OutOfFuel.

Section terminates.
  Context {S : Type}.

Lemma terminates_ends {A} fs ub (m : cmd S A) : ends fs ub m -> terminates m.
Proof. intros Hm s Heq. specialize (Hm s). by rewrite Heq in Hm. Qed.
Lemma terminates_throw {A} e : terminates (throw e : cmd S A).
Proof. done. Qed.
Lemma terminates_bind {A B} (m : cmd S A) (f : A -> cmd S B) :
  terminates m -> (forall a, terminates (f a)) -> terminates (mbind f m).
Proof.
  intros Hm Hf s. specialize (Hm s). unfold mbind, cmd_bind.
  destruct (m s) as [[a|e| |] s']; simpl in *; try done. apply Hf.
Qed.
Lemma terminates_try_catch {A} (m : cmd S A) h :
  terminates m -> (forall e, terminates (h e)) -> terminates (try_catch m h).
Proof.
  intros Hm Hh s. specialize (Hm s). unfold try_catch.
  destruct (m s) as [[a|e| |] s']; simpl in *; try done. apply Hh.
Qed.
Lemma terminates_zoom {T A} (g : S -> T) st (m : cmd T A) :
  terminates m -> terminates (zoom g st m).
Proof. intros Hm s. unfold zoom. specialize (Hm (g s)). by destruct (m (g s)). Qed.
End terminates.

Create HintDb terminates discriminated.
#[export] Hint Resolve terminates_throw : terminates.

Ltac terminates_step :=
  match goal with
  | |- terminates (mbind _ _) => apply terminates_bind; [|intros ?]
  | |- terminates (try_catch _ _) => apply terminates_try_catch; [|intros ?]
  | |- terminates (match ?x with _ => _ end) => destruct x
  | |- terminates (on_system _) => apply terminates_zoom
  | |- terminates _ => solve [auto with terminates]
  | |- terminates _ =>
      solve [apply (terminates_ends true true); auto with ends
            |apply (terminates_ends false true); auto with ends]
  end.
Ltac terminates_auto := intros; repeat terminates_step.

Lemma terminates_wait_for_database_lock fd timeout_ms :
  terminates (wait_for_database_lock fd timeout_ms).
Proof.
  intros s. destruct (descriptors s !! fd) as [f|] eqn:Hf.
  { destruct (wait_for_database_lock_spec fd timeout_ms s f) as (r & -> & _); done. }
  unfold wait_for_database_lock, sys_now. rewrite Nat.add_comm. simpl.
  unfold mbind, cmd_bind. pose proof (lockless_advance 0 s) as Hd.
  destruct (advance 0 s) as [[[]|e| |] s'] eqn:Ha; try done.
  - unfold gets, sys_flock, mbind, cmd_bind, deref. unfold same_descriptors in Hd. simpl in Hd.
    by rewrite Hd, Hf.
  - pose proof (ends_advance false false 0 s) as He. by rewrite Ha in He.
Qed.

Section library_terminates.
  Context `{Server, Build}.

Lemma terminates_create_memory_candidate n root : terminates (create_memory_candidate n root).
Proof.
  induction n; simpl; unfold unique_runtime_name, create_runtime_subdirectory, sys_now;
    terminates_auto.
Qed.
Hint Resolve terminates_wait_for_database_lock terminates_create_memory_candidate : terminates.
Lemma terminates_start_runtime d config : terminates (start_runtime d config).
Proof.
  unfold start_runtime, start_locked, acquire_database_lock, release_database_lock,
    sys_unlock_close, create_runtime_layout, create_memory_runtime_layout, runtime_root.
  terminates_auto.
  unfold sys_open. terminates_auto.
Qed.
Hint Resolve terminates_start_runtime : terminates.
Lemma terminates_release_runtime : terminates release_runtime.
Proof. unfold release_runtime, release_database_lock, sys_unlock_close. terminates_auto. Qed.
Hint Resolve terminates_release_runtime : terminates.
Lemma terminates_mylite_close db : terminates (mylite_close db).
Proof. unfold mylite_close, close_connection, delete_mylite_db. terminates_auto. Qed.
Lemma terminates_mylite_open path out_db flags config :
  terminates (mylite_open path out_db flags config).
Proof.
  unfold mylite_open, open_impl, new_mylite_db, open_db, open_path, delete_mylite_db,
    validate_runtime_database_path, connect_runtime, close_connection, ensure_core_system_tables,
    execute_system_table_statement, put_db, put_mysql. terminates_auto.
Qed.
Lemma terminates_copy_error_message d b : terminates (copy_error_message d b).
Proof. unfold copy_error_message. terminates_auto. Qed.
Hint Resolve terminates_copy_error_message : terminates.
Lemma terminates_reject_policy d sql : terminates (reject_policy d sql).
Proof. unfold reject_policy, put_db. terminates_auto. Qed.
Hint Resolve terminates_reject_policy : terminates.

(** The callback must terminate itself. *)
Lemma terminates_mylite_exec {X} db sql (callback : option (mylite_exec_callback X)) ctx b :
  (forall f, callback = Some f -> forall x n row names, terminates (f x n row names)) ->
  terminates (mylite_exec db sql callback ctx b).
Proof.
  intros Hcallback.
  assert (Hrows : forall n names rows ctx, terminates (emit_rows callback ctx n names rows)).
  { intros n names rows. induction rows as [|[]]; intros ctx'; simpl; destruct callback;
      terminates_auto. }
  unfold mylite_exec, exec_impl, store_and_emit_result. terminates_auto.
Qed.
Lemma terminates_mylite_warning db index : terminates (mylite_warning db index).
Proof. unfold mylite_warning. terminates_auto. Qed.

Lemma terminates_free_buffer b : terminates (free_buffer b).
Proof. unfold free_buffer. terminates_auto. Qed.
Hint Resolve terminates_free_buffer : terminates.
Lemma terminates_free_columns columns : terminates (free_columns columns).
Proof. induction columns; simpl; terminates_auto. Qed.
Lemma terminates_free_retired columns : terminates (free_retired columns).
Proof. induction columns; simpl; terminates_auto. Qed.
Lemma terminates_free_parameters parameters : terminates (free_parameters parameters).
Proof. induction parameters; simpl; terminates_auto. Qed.
Lemma terminates_terminate_columns columns : terminates (terminate_columns columns).
Proof. induction columns; simpl; unfold put_buffer; terminates_auto. Qed.
Lemma terminates_put_parameter s i p : terminates (put_parameter s i p).
Proof. unfold put_parameter. terminates_auto. Qed.
Hint Resolve terminates_free_columns terminates_free_retired terminates_free_parameters
  terminates_terminate_columns terminates_put_parameter : terminates.
Lemma terminates_release_statement_results s : terminates (release_statement_results s).
Proof. unfold release_statement_results. terminates_auto. Qed.
Lemma terminates_bind_null_value s index : terminates (bind_null_value s index).
Proof. unfold bind_null_value. terminates_auto. Qed.
Lemma terminates_bind_bytes s index v n t x : terminates (bind_bytes s index v n t x).
Proof. unfold bind_bytes, put_buffer. terminates_auto. Qed.
Lemma terminates_bind_parameters s : terminates (bind_parameters s).
Proof. unfold bind_parameters. terminates_auto. Qed.
Hint Resolve terminates_release_statement_results terminates_bind_null_value terminates_bind_bytes
  terminates_bind_parameters : terminates.
Lemma terminates_bind_nulls s indices : terminates (bind_nulls s indices).
Proof. induction indices; simpl; terminates_auto. Qed.
Lemma terminates_allocate_column_buffer b n : terminates (allocate_column_buffer b n).
Proof. unfold allocate_column_buffer, put_buffer. terminates_auto. Qed.
Hint Resolve terminates_bind_nulls terminates_allocate_column_buffer : terminates.
Lemma terminates_set_up_columns s g fields : forall index, terminates (set_up_columns s g index fields).
Proof.
  induction fields; intros index; simpl; unfold configure_column_buffer; terminates_auto.
Qed.
Hint Resolve terminates_set_up_columns : terminates.
Lemma terminates_initialize_statement_results s b : terminates (initialize_statement_results s b).
Proof. unfold initialize_statement_results. terminates_auto. Qed.
Lemma terminates_fetch_truncated_from s indices : terminates (fetch_truncated_from s indices).
Proof. induction indices; simpl; unfold fetch_truncated_column; terminates_auto. Qed.
Hint Resolve terminates_initialize_statement_results terminates_fetch_truncated_from : terminates.
Lemma terminates_fetch_statement_row s : terminates (fetch_statement_row s).
Proof.
  unfold fetch_statement_row, finish_fetch, refresh_dirty_result_binds,
    fetch_truncated_statement_columns.
  terminates_auto.
Qed.
Hint Resolve terminates_fetch_statement_row : terminates.
Lemma terminates_delete_mylite_stmt s : terminates (delete_mylite_stmt s).
Proof. unfold delete_mylite_stmt. terminates_auto. Qed.
Hint Resolve terminates_delete_mylite_stmt : terminates.
End library_terminates.
#[export] Hint Resolve terminates_mylite_open terminates_mylite_close terminates_mylite_warning
  terminates_reject_policy terminates_release_statement_results terminates_bind_null_value
  terminates_bind_bytes terminates_bind_parameters terminates_bind_nulls terminates_free_buffer
  terminates_put_parameter terminates_initialize_statement_results terminates_fetch_statement_row
  terminates_delete_mylite_stmt : terminates.

Section statement_terminates.
  Context `{Server, Build}.

Lemma terminates_with_statement {A} (misuse : A) stmt (f : nat -> cmd world A) :
  (forall s, terminates (f s)) -> terminates (with_statement misuse stmt f).
Proof. unfold with_statement. intros. terminates_auto. Qed.
Lemma terminates_strlen sql : terminates (strlen sql).
Proof. unfold strlen. terminates_auto. Qed.
Hint Resolve terminates_strlen : terminates.
Lemma terminates_mylite_prepare db sql len out : terminates (mylite_prepare db sql len out).
Proof.
  unfold mylite_prepare, prepare_impl, sql_view, new_mylite_stmt, put_stmt, prepare_allocated.
  terminates_auto.
Qed.
Lemma terminates_mylite_step stmt : terminates (mylite_step stmt).
Proof. apply terminates_with_statement. unfold step_execute. terminates_auto. Qed.
Lemma terminates_mylite_reset stmt : terminates (mylite_reset stmt).
Proof. apply terminates_with_statement. terminates_auto. Qed.
Lemma terminates_mylite_finalize stmt : terminates (mylite_finalize stmt).
Proof. unfold mylite_finalize. terminates_auto. Qed.
Lemma terminates_mylite_clear_bindings stmt : terminates (mylite_clear_bindings stmt).
Proof. apply terminates_with_statement. terminates_auto. Qed.
Lemma terminates_mylite_bind_null stmt index : terminates (mylite_bind_null stmt index).
Proof. apply terminates_with_statement. terminates_auto. Qed.
Lemma terminates_mylite_bind_int64 stmt index v : terminates (mylite_bind_int64 stmt index v).
Proof. apply terminates_with_statement. terminates_auto. Qed.
Lemma terminates_mylite_bind_uint64 stmt index v : terminates (mylite_bind_uint64 stmt index v).
Proof. apply terminates_with_statement. terminates_auto. Qed.
Lemma terminates_mylite_bind_double stmt index v : terminates (mylite_bind_double stmt index v).
Proof. apply terminates_with_statement. terminates_auto. Qed.
Lemma terminates_mylite_bind_text stmt index v n x : terminates (mylite_bind_text stmt index v n x).
Proof. apply terminates_with_statement. terminates_auto. Qed.
Lemma terminates_mylite_bind_blob stmt index v n x : terminates (mylite_bind_blob stmt index v n x).
Proof. apply terminates_with_statement. terminates_auto. Qed.
End statement_terminates.
#[export] Hint Resolve terminates_mylite_prepare terminates_mylite_step terminates_mylite_reset
  terminates_mylite_finalize terminates_mylite_clear_bindings terminates_mylite_bind_null
  terminates_mylite_bind_int64 terminates_mylite_bind_uint64 terminates_mylite_bind_double
  terminates_mylite_bind_text terminates_mylite_bind_blob : terminates.

(** ** Calls and what they lead to *)

(** The calls of [mylite.h] that change state, with their arguments; the
    other functions of the interface only read. *)
Inductive call : Type :=
| CallOpen (path : option bytes) (out_db : bool) (flags : Z) (config : option mylite_open_config)
| CallClose (db : option nat)
| CallExec {X : Type} (db : option nat) (sql : option bytes)
    (callback : option (X -> Z -> list (option bytes) -> list (option bytes) -> Z * X)) (ctx : X)
    (errmsg : bool)
| CallWarning (db : option nat) (index : Z)
| CallPrepare (db : option nat) (sql : option bytes) (sql_len : Z) (out_stmt : bool)
| CallStep (stmt : option nat)
| CallReset (stmt : option nat)
| CallFinalize (stmt : option nat)
| CallClearBindings (stmt : option nat)
| CallBindNull (stmt : option nat) (index : Z)
| CallBindInt64 (stmt : option nat) (index value : Z)
| CallBindUint64 (stmt : option nat) (index value : Z)
| CallBindDouble (stmt : option nat) (index value : Z)
| CallBindText (stmt : option nat) (index : Z) (value : option bytes) (value_len : Z)
    (destructor : mylite_destructor)
| CallBindBlob (stmt : option nat) (index : Z) (value : option bytes) (value_len : Z)
    (destructor : mylite_destructor).

Definition ignored {S A} (m : cmd S A) : cmd S unit := m ;; mret tt.
Lemma ignored_snd {S A} (m : cmd S A) w : snd (ignored m w) = snd (m w).
Proof. unfold ignored, mbind, cmd_bind. by destruct (m w) as [[] ?]. Qed.
Lemma ignored_fst {S A} (m : cmd S A) w : fst (m w) = Undefined -> fst (ignored m w) = Undefined.
Proof. unfold ignored, mbind, cmd_bind. destruct (m w) as [[] ?]; simpl; congruence. Qed.

Definition run_call `{Server, Build} (c : call) : cmd world unit :=
  match c with
  | CallOpen path out_db flags config => ignored (mylite_open path out_db flags config)
  | CallClose db => ignored (mylite_close db)
  | CallExec db sql callback ctx errmsg =>
      ignored (mylite_exec db sql (pure_callback <$> callback) ctx errmsg)
  | CallWarning db index => ignored (mylite_warning db index)
  | CallPrepare db sql sql_len out_stmt => ignored (mylite_prepare db sql sql_len out_stmt)
  | CallStep stmt => ignored (mylite_step stmt)
  | CallReset stmt => ignored (mylite_reset stmt)
  | CallFinalize stmt => ignored (mylite_finalize stmt)
  | CallClearBindings stmt => ignored (mylite_clear_bindings stmt)
  | CallBindNull stmt index => ignored (mylite_bind_null stmt index)
  | CallBindInt64 stmt index value => ignored (mylite_bind_int64 stmt index value)
  | CallBindUint64 stmt index value => ignored (mylite_bind_uint64 stmt index value)
  | CallBindDouble stmt index value => ignored (mylite_bind_double stmt index value)
  | CallBindText stmt index value len destructor =>
      ignored (mylite_bind_text stmt index value len destructor)
  | CallBindBlob stmt index value len destructor =>
      ignored (mylite_bind_blob stmt index value len destructor)
  end.

(** What the caller must respect: the pointers given are null or live, and
    the 32-bit counters of handles and statements do not overflow. *)
Definition call_ok `{Server} (c : call) (w : world) : Prop :=
  match c with
  | CallOpen _ _ _ _ => Z.of_nat (stdpp.base.size (dbs w)) < 2 ^ 32 - 1
  | CallClose db => forall d, db = Some d -> d ∈ dom (dbs w)
  | CallPrepare db _ _ _ => forall d, db = Some d -> d ∈ dom (dbs w) /\ countable d w
  | CallFinalize stmt => forall s, stmt = Some s -> is_Some (owners w !! s)
  | _ => True
  end.

(** The handle a call works on. *)
Definition statement_handle `{Server} (stmt : option nat) (w : world) : option nat :=
  s ← stmt; o ← owners w !! s; o.
Definition call_handle `{Server} (c : call) (w : world) : option nat :=
  match c with
  | CallOpen _ _ _ _ => None
  | CallClose db | CallExec db _ _ _ _ | CallWarning db _ | CallPrepare db _ _ _ => db
  | CallStep stmt | CallReset stmt | CallFinalize stmt | CallClearBindings stmt
  | CallBindNull stmt _ | CallBindInt64 stmt _ _ | CallBindUint64 stmt _ _
  | CallBindDouble stmt _ _ | CallBindText stmt _ _ _ _ | CallBindBlob stmt _ _ _ _ =>
      statement_handle stmt w
  end.

Definition opens_or_closes (c : call) : bool :=
  match c with CallOpen _ _ _ _ | CallClose _ => true | _ => false end.

(** The worlds a sequence of defined calls leads to, whatever each of them
    returned. *)
Inductive reaches `{Server, Build} (w0 : world) : world -> Prop :=
| reaches_refl : reaches w0 w0
| reaches_call c w :
    reaches w0 w -> call_ok c w -> fst (run_call c w) <> Undefined ->
    reaches w0 (snd (run_call c w)).

Lemma terminates_run_call `{Server, Build} c : terminates (run_call c).
Proof.
  destruct c; simpl; unfold ignored; terminates_auto.
  apply terminates_mylite_exec. destruct callback; [|done]. intros f [= <-] **. done.
Qed.

(** C3: every call of the library terminates, from every world and with any
    arguments, whatever the server answers: the loops that wait for the lock,
    look for a free directory name, drain results and fetch rows all end. *)
Theorem calls_terminate `{Server, Build} (c : call) (w : world) :
  fst (run_call c w) <> OutOfFuel.
Proof. apply terminates_run_call. Qed.

Section reachable.
  Context `{Server, Build, !Compliant}.
  Context (base : gmap Z open_file).

Lemma call_kept_frame {A} e (m : cmd world A) w :
  steps library_frame m -> tables_ok w ->
  tables_kept w (snd (ignored m w)) /\ owned_by e (snd (ignored m w)) = owned_by e w.
Proof.
  intros Hm Hok. rewrite ignored_snd. specialize (Hm w).
  split; [by apply tables_kept_frame|by apply owned_by_frame].
Qed.

Lemma call_kept_prepare d sql len out w :
  tables_ok w -> d ∈ dom (dbs w) -> countable d w ->
  fst (ignored (mylite_prepare (Some d) sql len out) w) <> Undefined ->
  tables_kept w (snd (ignored (mylite_prepare (Some d) sql len out) w)) /\
  forall e, d <> e -> owned_by e (snd (ignored (mylite_prepare (Some d) sql len out) w)) = owned_by e w.
Proof.
  intros Hok Hd Hcount Hdef. pose proof (prepare_impl_tables d sql len out w Hok Hd Hcount) as Hp.
  pose proof (terminates_mylite_prepare (Some d) sql len out w) as Hfuel.
  rewrite ignored_snd. unfold wp in Hp. change prepare_impl with mylite_prepare in Hp.
  pose proof (ignored_fst (mylite_prepare (Some d) sql len out) w) as Hu.
  destruct (mylite_prepare _ _ _ _ w) as [[[[c [s|]] t]|e| |] w']; simpl in *; try tauto; try by destruct Hu.
  - destruct Hp as (_ & Hkept & Hs & Ho). split; [done|]. intros e He. unfold owned_by. rewrite Ho.
    by apply owned_by_insert_other.
  - destruct Hp as (_ & Hkept & Ho). split; [done|]. intros e _. by apply owned_by_same.
  - destruct Hp as [Hkept Ho]. split; [done|]. intros e' _. by apply owned_by_same.
Qed.

Lemma call_kept_finalize s d w :
  tables_ok w -> owners w !! s = Some (Some d) ->
  fst (ignored (mylite_finalize (Some s)) w) <> Undefined ->
  tables_kept w (snd (ignored (mylite_finalize (Some s)) w)) /\
  forall e, d <> e -> owned_by e (snd (ignored (mylite_finalize (Some s)) w)) = owned_by e w.
Proof.
  intros Hok Hs Hdef. pose proof (mylite_finalize_tables s w Hok (mk_is_Some _ _ Hs)) as Hp.
  rewrite ignored_snd. unfold wp in Hp.
  pose proof (ignored_fst (mylite_finalize (Some s)) w) as Hu.
  destruct (mylite_finalize (Some s) w) as [[c|e| |] w']; simpl in *; try tauto; try by destruct Hu.
  destruct Hp as (_ & Hkept & Ho). split; [done|]. intros e He. unfold owned_by. rewrite Ho.
  by apply (owned_by_delete_other s d).
Qed.

(** A call that neither opens nor closes a handle keeps the runtime and the
    statements of the handles it does not work on. *)
Lemma call_kept c w :
  opens_or_closes c = false -> tables_ok w -> call_ok c w -> fst (run_call c w) <> Undefined ->
  tables_kept w (snd (run_call c w)) /\
  forall e, call_handle c w <> Some e -> owned_by e (snd (run_call c w)) = owned_by e w.
Proof.
  intros Hother Hok Hc Hdef.
  assert (Hframe : forall A (m : cmd world A), steps library_frame m ->
    tables_kept w (snd (ignored m w)) /\
    forall e, call_handle c w <> Some e -> owned_by e (snd (ignored m w)) = owned_by e w).
  { intros A m Hm. split; [by apply (call_kept_frame 0)|]. intros e _. by apply call_kept_frame. }
  destruct c as [path out flags config|[d|]|X db sql callback ctx errmsg|db index
    |[d|] sql len out|stmt|stmt|[s|]| | | | | | |];
    simpl in Hother, Hc, Hdef |- *; try discriminate Hother; try (apply Hframe; solve [steps_auto]).
  - apply Hframe, kept_mylite_exec. destruct callback; [|done]. intros f [= <-] **. apply steps_ret, _.
  - destruct (Hc d eq_refl) as [Hd Hcount].
    destruct (call_kept_prepare d sql len out w) as [Hkept Howned]; [done..|].
    split; [done|]. intros e He. apply Howned. congruence.
  - apply Hframe. unfold mylite_prepare, prepare_impl. steps_auto.
  - destruct (Hc s eq_refl) as [o Hs]. destruct (tab_statements _ Hok s o Hs) as (_ & d & -> & _).
    destruct (call_kept_finalize s d w) as [Hkept Howned]; [done..|].
    split; [done|]. unfold statement_handle. simpl. rewrite Hs. simpl. intros e He. apply Howned. congruence.
  - split; [by apply tables_kept_frame|done].
Qed.

Lemma library_ok_call c w :
  library_ok base w -> call_ok c w -> fst (run_call c w) <> Undefined ->
  library_ok base (snd (run_call c w)).
Proof.
  intros Hok Hc Hdef. destruct (opens_or_closes c) eqn:Hother.
  2: { eapply library_ok_tables_kept; [done|]. apply call_kept; [done|apply Hok|done..]. }
  destruct c as [path out flags config|[d|]| | | | | | | | | | | | |]; try discriminate Hother; simpl in *.
  - rewrite ignored_snd. by apply (open_impl_spec base path out flags config w).
  - rewrite ignored_snd. by apply (mylite_close_spec base d w); [|apply Hc].
  - done.
Qed.
End reachable.

(** C1: from a world in which the library is idle, or in any other good state,
    every sequence of calls on live pointers keeps the invariant: the runtime
    is started and its lock held exactly while handles are open, all open
    handles have the path of the runtime, every statement belongs to an open
    handle, and every handle counts its statements.  The calls may return any
    code or fail with an exception, and be interleaved in any order. *)
Theorem reachable_library_ok `{Server, Build, !Compliant} (base : gmap Z open_file)
    (w0 w : world) (Hok : library_ok base w0) (Hreach : reaches w0 w) :
  library_ok base w.
Proof. induction Hreach; [done|]. by apply library_ok_call. Qed.
Lemma reachable_library_ok_witness :
  library_ok ∅ (snd (run_call (CallPrepare (Some 0%nat) (Some (str "SELECT 1")) 8 true)
    (opened_world (after_open [prepared 7 0 []])))).
Proof.
  eapply (reachable_library_ok ∅); [apply opened_library_ok|].
  eapply reaches_call; [apply reaches_refl| |vm_compute; discriminate].
  intros d [= <-]. split; [|vm_compute; reflexivity]. apply elem_of_dom. vm_compute. by eexists.
Defined.
