(* ===== verification/Bindings.v ===== *)
(** * Bindings of a statement

    The parameters of a statement are, seen from outside, a list of values:
    [bindings s d vs w] says that the parameters of the statement [s] in the
    memory of [w] stand for the list [vs].  Every bind call updates one
    element of that list or changes nothing, [mylite_clear_bindings] and a
    new statement have all values null, and the first [mylite_step] hands the
    server exactly that list. *)

From S2P Require Import Prelude Api Effects SqlLexer SqlPolicy System Numbers World BinaryRow.
From S2P Require Import ClientQuery ClientStmt Runtime Exec Statement Frames Rules ClientFacts.
From S2P Require Import Scripted RuntimeFacts Library ExecFacts Termination StatementFacts.
From S2P Require Import Lifetime.
From stdpp Require Import options.
Set Default Proof Using "Type*".

Local Open Scope Z_scope.

(** ** The values parameters stand for *)

(** The storage of a string: the bytes of the value, one byte when it is
    empty. *)
Definition stored (value : bytes) : bytes := match value with [] => [zero] | _ => value end.

Definition string_ok (bufs : gmap nat bytes) (s i : nat) (p : ParameterBinding)
    (t : enum_field_types) (value : bytes) : Prop :=
  exists b, p_bytes p = Some b /\ bufs !! b = Some (stored value) /\
    p_bind p = bind_parameter_buffer t (Some b) (Z.of_nat (length value)) s i /\
    p_length p = Z.of_nat (length value).

(** The parameter [p] at position [i] of the statement [s] stands for [v]. *)
Definition param_ok (bufs : gmap nat bytes) (s i : nat) (p : ParameterBinding) (v : param_value)
    : Prop :=
  p_is_null p = (match v with ParamNull => 1 | _ => 0 end) /\
  match v with
  | ParamNull => p_bytes p = None /\ p_bind p = parameter_bind MYSQL_TYPE_NULL None false s i
  | ParamInt z =>
      p_bytes p = None /\ p_int64_value p = z /\ LLONG_MIN <= z <= LLONG_MAX /\
      p_bind p = parameter_bind MYSQL_TYPE_LONGLONG (Some (Int64Value s i)) false s i
  | ParamUint z =>
      p_bytes p = None /\ p_uint64_value p = z /\ 0 <= z <= ULLONG_MAX /\
      p_bind p = parameter_bind MYSQL_TYPE_LONGLONG (Some (Uint64Value s i)) true s i
  | ParamDouble bits =>
      p_bytes p = None /\ p_double_value p = bits /\
      p_bind p = parameter_bind MYSQL_TYPE_DOUBLE (Some (DoubleValue s i)) false s i
  | ParamText value => string_ok bufs s i p MYSQL_TYPE_STRING value
  | ParamBlob value => string_ok bufs s i p MYSQL_TYPE_BLOB value
  end.

(** The first parameters of [ps] stand for the values [vs]; no two of them
    all share storage, and all of it is below [next]. *)
Record bound_prefix (s : nat) (vs : list param_value) (ps : list ParameterBinding)
    (bufs : gmap nat bytes) (next : nat) : Prop := mkBound {
  bp_length : (length vs <= length ps)%nat;
  bp_values : forall i p v, ps !! i = Some p -> vs !! i = Some v -> param_ok bufs s i p v;
  bp_apart : forall i j p q b, ps !! i = Some p -> ps !! j = Some q ->
    p_bytes p = Some b -> p_bytes q = Some b -> i = j;
  bp_fresh : forall i p b, ps !! i = Some p -> p_bytes p = Some b -> (b < next)%nat;
}.

(** The statement [s] of the handle [d] has not been executed yet, and its
    [n] parameters start with some that stand for [vs]. *)
Definition bindings_from `{Server} (s d n : nat) (vs : list param_value) (w : world) : Prop :=
  exists st, stmts w !! s = Some st /\ db st = Some d /\ executed st = false /\
    length (parameters st) = n /\ bound_prefix s vs (parameters st) (buffers w) (next_address w).

(** All of them stand for [vs]. *)
Definition bindings `{Server} (s d : nat) (vs : list param_value) (w : world) : Prop :=
  bindings_from s d (length vs) vs w.

Lemma param_ok_buffers bufs bufs' s i p v :
  param_ok bufs s i p v -> (forall b, p_bytes p = Some b -> bufs' !! b = bufs !! b) ->
  param_ok bufs' s i p v.
Proof.
  intros [Hnull Hv] Hb. split; [done|].
  destruct v; try done; destruct Hv as (b & ? & ? & ? & ?); exists b; rewrite Hb; auto.
Qed.

(** One parameter is replaced: its storage is freed, the new one has none or
    fresh storage. *)
Lemma bound_prefix_insert s vs vs' ps bufs bufs' next next' i p p' v :
  bound_prefix s vs ps bufs next -> ps !! i = Some p -> param_ok bufs' s i p' v ->
  (forall b, (b < next)%nat -> p_bytes p <> Some b -> bufs' !! b = bufs !! b) ->
  (forall b, p_bytes p' = Some b -> (next <= b < next')%nat) -> (next <= next')%nat ->
  (length vs' <= length ps)%nat ->
  (forall j u, vs' !! j = Some u -> if decide (j = i) then u = v else vs !! j = Some u) ->
  bound_prefix s vs' (<[i := p']> ps) bufs' next'.
Proof.
  intros [Hlen Hvs Hapart Hfresh] Hp Hp' Hbufs Hnew Hle Hlen' Hvs'.
  assert (Hi : (i < length ps)%nat) by (by eapply lookup_lt_Some).
  split.
  - by rewrite length_insert.
  - intros j q u Hq Hu. apply list_lookup_insert_Some in Hq. apply Hvs' in Hu.
    destruct Hq as [(<- & <- & _)|[Hne Hq]].
    { rewrite decide_True in Hu by done. by subst u. }
    rewrite decide_False in Hu by done.
    eapply param_ok_buffers; [by eapply Hvs|]. intros b Hb. apply Hbufs; [by eapply Hfresh|].
    intros Hb'. by destruct Hne; eapply Hapart.
  - intros j k q r b. rewrite !list_lookup_insert_Some.
    intros [(<- & <- & _)|[Hne Hq]] [(<- & <- & _)|[Hne' Hr]] Hb Hb'; try done.
    + specialize (Hnew b Hb). specialize (Hfresh k r b Hr Hb'). lia.
    + specialize (Hnew b Hb'). specialize (Hfresh j q b Hq Hb). lia.
    + by eapply Hapart.
  - intros j q b. rewrite list_lookup_insert_Some. intros [(<- & <- & _)|[Hne Hq]] Hb.
    + specialize (Hnew b Hb). lia.
    + specialize (Hfresh j q b Hq Hb). lia.
Qed.

(** [vs'] is [vs] with the value [v] at position [i], perhaps a new one. *)
Definition puts (i : nat) (v : param_value) (vs vs' : list param_value) : Prop :=
  (length vs' <= S i \/ length vs' <= length vs)%nat /\
  forall j u, vs' !! j = Some u -> if decide (j = i) then u = v else vs !! j = Some u.

Lemma puts_insert i v vs : puts i v vs (<[i := v]> vs).
Proof.
  split; [rewrite length_insert; lia|]. intros j u Hu. apply list_lookup_insert_Some in Hu.
  destruct Hu as [(<- & <- & _)|[Hne Hu]]; [by rewrite decide_True|by rewrite decide_False].
Qed.
Lemma puts_snoc v vs : puts (length vs) v vs (vs ++ [v]).
Proof.
  split; [rewrite length_app; simpl; lia|]. intros j u Hu. apply lookup_snoc_Some in Hu.
  destruct Hu as [[Hj Hu]|[-> <-]]; [by rewrite decide_False by lia|by rewrite decide_True].
Qed.

(** [parameter_at] is defined from 1 to the number of parameters. *)
Lemma parameter_at_in st index p :
  1 <= index -> parameters st !! Z.to_nat (index - 1) = Some p ->
  parameter_at st index = Some (Z.to_nat (index - 1), p).
Proof.
  intros Hi Hp. unfold parameter_at. rewrite Hp.
  apply lookup_lt_Some in Hp. rewrite (proj2 (Z.eqb_neq index 0)) by lia. simpl.
  by rewrite (proj2 (Z.ltb_ge _ index)) by lia.
Qed.
Lemma parameter_at_out st index :
  index = 0 \/ Z.of_nat (length (parameters st)) < index -> parameter_at st index = None.
Proof.
  intros Hi. unfold parameter_at.
  destruct (Z.eqb_spec index 0); [done|]. by rewrite (proj2 (Z.ltb_lt _ index)) by lia.
Qed.

(** ** The bind calls *)

Inductive bind_call : Set :=
| BindNull
| BindInt64 (value : Z)
| BindUint64 (value : Z)
| BindDouble (bits : Z)
| BindText (value : option bytes) (value_len : Z) (destructor : mylite_destructor)
| BindBlob (value : option bytes) (value_len : Z) (destructor : mylite_destructor).

Definition run_bind `{Server} (c : bind_call) (stmt : option nat) (index : Z) : cmd world Z :=
  match c with
  | BindNull => mylite_bind_null stmt index
  | BindInt64 value => mylite_bind_int64 stmt index value
  | BindUint64 value => mylite_bind_uint64 stmt index value
  | BindDouble bits => mylite_bind_double stmt index bits
  | BindText value len destructor =>
      '(result, _) ← mylite_bind_text stmt index value len destructor; mret result
  | BindBlob value len destructor =>
      '(result, _) ← mylite_bind_blob stmt index value len destructor; mret result
  end.

(** The length of a text argument: up to its terminator when it is
    [MYLITE_NUL_TERMINATED]. *)
Definition text_length (v : bytes) (len : Z) : Z :=
  if len =? MYLITE_NUL_TERMINATED then Z.of_nat (length (c_str v)) else len.

(** The value a call with good arguments binds. *)
Inductive binds_value : bind_call -> param_value -> Prop :=
| binds_null : binds_value BindNull ParamNull
| binds_int64 z : LLONG_MIN <= z <= LLONG_MAX -> binds_value (BindInt64 z) (ParamInt z)
| binds_uint64 z : 0 <= z <= ULLONG_MAX -> binds_value (BindUint64 z) (ParamUint z)
| binds_double bits : binds_value (BindDouble bits) (ParamDouble bits)
| binds_no_text x : binds_value (BindText None 0 x) (ParamText [])
| binds_text v len x :
    (len = MYLITE_NUL_TERMINATED -> zero ∈ v) -> 0 <= text_length v len <= vector_max_size ->
    (Z.to_nat (text_length v len) <= length v)%nat ->
    binds_value (BindText (Some v) len x) (ParamText (take (Z.to_nat (text_length v len)) v))
| binds_no_blob x : binds_value (BindBlob None 0 x) (ParamBlob [])
| binds_blob v len x :
    0 <= len <= vector_max_size -> (Z.to_nat len <= length v)%nat ->
    binds_value (BindBlob (Some v) len x) (ParamBlob (take (Z.to_nat len) v)).

Section calls.
  Context `{Server}.

(** The world after the parameter [i], which was [p], has become [p']. *)
Definition replaced (s i : nat) (st : mylite_stmt) (p p' : ParameterBinding) (w : world) : world :=
  set_stmts (<[s := with_parameters (<[i := p']> (parameters st)) st]> (stmts w))
    (set_buffers (match p_bytes p with None => buffers w | Some b => delete b (buffers w) end) w).

Lemma wp_free_buffer b (Q : outcome unit -> world -> Prop) w :
  Q (Ret tt) (set_buffers (match b with None => buffers w | Some b => delete b (buffers w) end) w) ->
  wp (free_buffer b) Q w.
Proof. destruct b; [done|]. by destruct w. Qed.

Lemma bindings_replaced s d vs vs' st i p p' v w :
  stmts w !! s = Some st -> db st = Some d -> executed st = false ->
  bound_prefix s vs (parameters st) (buffers w) (next_address w) ->
  parameters st !! i = Some p -> puts i v vs vs' -> p_bytes p' = None ->
  (forall bufs, param_ok bufs s i p' v) ->
  bindings_from s d (length (parameters st)) vs' (replaced s i st p p' w).
Proof.
  intros Hst Hdb Hex Hbound Hp [Hlen Hputs] Hnone Hp'. eexists. split; [apply lookup_insert_eq|].
  simpl. rewrite length_insert. do 3 (split; [done|]).
  eapply bound_prefix_insert; [done|done|apply Hp'| |congruence|done| |done].
  - intros b _ Hb. destruct (p_bytes p) as [b'|]; [|done]. apply lookup_delete_ne. congruence.
  - apply lookup_lt_Some in Hp. pose proof (bp_length _ _ _ _ _ Hbound). lia.
Qed.

(** What a bind call with good arguments promises: [vs'] are the values
    after it. *)
Definition binds (s d n : nat) (vs' : list param_value) (o : outcome Z) (w' : world) : Prop :=
  o = Ret MYLITE_OK /\ bindings_from s d n vs' w'.

(** A text or blob may not fit in memory. *)
Definition bind_promise (s d : nat) (vs' : list param_value) (w : world) (o : outcome Z)
    (w' : world) : Prop :=
  match o with
  | Ret code => code = MYLITE_OK /\ bindings s d vs' w'
  | Throw e => e = bad_alloc /\ allocations w <> []
  | _ => False
  end.

Lemma binds_promise (m : cmd world Z) s d n vs' w :
  n = length vs' -> wp m (binds s d n vs') w -> wp m (bind_promise s d vs' w) w.
Proof. intros -> Hm. eapply wp_mono; [exact Hm|]. by intros o w' [-> ?]. Qed.

(** The calls that bind a value of fixed size. *)
Lemma bind_fixed_spec s d i st p p' v vs vs' w :
  stmts w !! s = Some st -> db st = Some d -> executed st = false ->
  bound_prefix s vs (parameters st) (buffers w) (next_address w) ->
  parameters st !! i = Some p -> puts i v vs vs' -> p_bytes p' = None ->
  (forall bufs, param_ok bufs s i p' v) ->
  wp (free_buffer (p_bytes p) ;; put_parameter s i p' ;; mret MYLITE_OK)
    (binds s d (length (parameters st)) vs') w.
Proof.
  intros Hst Hdb Hex Hbound Hp Hputs Hnone Hp'. apply wp_bind, wp_free_buffer, bind_post_ret.
  unfold put_parameter. wp_auto. split; [done|].
  by apply (bindings_replaced s d vs vs' st i p p' v w).
Qed.

Lemma bind_null_value_spec s d n index vs vs' w :
  bindings_from s d n vs w -> 1 <= index <= Z.of_nat n ->
  puts (Z.to_nat (index - 1)) ParamNull vs vs' ->
  wp (bind_null_value s index) (binds s d n vs') w.
Proof.
  intros (st & Hst & Hdb & Hex & <- & Hbound) Hi Hputs. unfold bind_null_value. wp_auto.
  destruct (lookup_lt_is_Some_2 (parameters st) (Z.to_nat (index - 1))) as [p Hp]; [lia|].
  rewrite (parameter_at_in _ _ p), Hex by (done || lia). by apply (bind_fixed_spec s d _ st p _ ParamNull vs).
Qed.

(** [bytes.assign(value, value + value_len)], or one zero byte. *)
Lemma wp_copied value len contents (Q : outcome bytes -> world -> Prop) w :
  0 <= len -> Z.of_nat (length contents) = len ->
  contents = take (Z.to_nat len) (default [] value) -> Q (Ret (stored contents)) w ->
  wp (if 0 <? len then
        deref (fun _ => v ← value;
          if (Z.to_nat len <=? length v)%nat then Some (take (Z.to_nat len) v) else None)
      else mret [zero]) Q w.
Proof.
  intros Hlen Hcontents Htake HQ. destruct (Z.ltb_spec 0 len) as [Hpos|Hzero].
  - eapply wp_deref; [|exact HQ]. destruct value as [v|]; simpl in *.
    + assert (Hl : (Z.to_nat len <=? length v)%nat = true).
      { apply Nat.leb_le. apply (f_equal length) in Htake. rewrite length_take in Htake. lia. }
      rewrite Hl, <- Htake. destruct contents; [simpl in Hcontents; lia|done].
    + rewrite take_nil in Htake. subst contents. simpl in Hcontents. lia.
  - destruct contents; [done|simpl in Hcontents; lia].
Qed.

(** The calls that copy a string: [contents] is what they copy. *)
Lemma bind_bytes_spec s d index st p vs value len t x contents v w :
  stmts w !! s = Some st -> db st = Some d -> executed st = false -> 1 <= index ->
  length (parameters st) = length vs ->
  bound_prefix s vs (parameters st) (buffers w) (next_address w) ->
  parameters st !! Z.to_nat (index - 1) = Some p ->
  0 <= len <= vector_max_size -> Z.of_nat (length contents) = len ->
  contents = take (Z.to_nat len) (default [] value) ->
  (forall bufs p', p_is_null p' = 0 -> string_ok bufs s (Z.to_nat (index - 1)) p' t contents ->
     param_ok bufs s (Z.to_nat (index - 1)) p' v) ->
  wp (bind_bytes s index value len t x)
    (bind_post (fun '(result, _) => mret result)
       (bind_promise s d (<[Z.to_nat (index - 1) := v]> vs) w)) w.
Proof.
  intros Hst Hdb Hex Hi Hn Hbound Hp Hlen Hcontents Htake Hv. unfold vector_max_size in Hlen.
  unfold bind_bytes. wp_auto. rewrite (parameter_at_in _ _ p), Hex by done. simpl.
  rewrite (proj2 (Z.ltb_ge ULONG_MAX len)) by (unfold ULONG_MAX; lia).
  apply wp_bind, wp_free_buffer, bind_post_ret. unfold put_parameter. wp_auto.
  rewrite (proj2 (Z.ltb_ge vector_max_size len)) by (unfold vector_max_size; lia).
  apply wp_ret, bind_post_ret, wp_bind, wp_allocate_any; simpl.
  { intros Hshort. by apply bind_post_ret. }
  intros l. apply bind_post_ret. cbn [negb].
  apply wp_bind, wp_copied with contents; [lia|done|done|]. apply bind_post_ret. wp_auto.
  set (b := next_address w). split; [done|]. eexists. split; [apply lookup_insert_eq|]. simpl.
  rewrite list_insert_insert_eq, !length_insert. do 3 (split; [done|]).
  destruct (puts_insert (Z.to_nat (index - 1)) v vs) as [_ Hputs].
  eapply bound_prefix_insert; [done|done| | | | | |exact Hputs].
  - apply Hv; [done|]. exists b. split; [done|]. split; [apply lookup_insert_eq|].
    by rewrite Hcontents.
  - intros b' Hb' Hne. rewrite lookup_insert_ne by (unfold b; lia).
    destruct (p_bytes p) as [b''|]; [|done]. apply lookup_delete_ne. congruence.
  - intros b' [= <-]. unfold b. lia.
  - lia.
  - rewrite length_insert. lia.
Qed.

Lemma with_statement_spec {A} (misuse : A) s st d (f : nat -> cmd world A) Q w :
  stmts w !! s = Some st -> db st = Some d -> wp (f s) Q w ->
  wp (with_statement misuse (Some s) f) Q w.
Proof. intros Hst Hdb Hf. unfold with_statement. wp_auto. by rewrite Hdb. Qed.

Lemma strlen_spec v Q w :
  zero ∈ v -> Q (Ret (Z.of_nat (length (c_str v)))) w -> wp (strlen v) Q w.
Proof.
  intros Hv HQ. unfold strlen.
  rewrite (proj2 (existsb_exists _ _)); [done|]. exists zero.
  split; [by apply list_elem_of_In|apply Ascii.eqb_refl].
Qed.

Lemma run_bind_spec c v s d index vs w :
  bindings s d vs w -> 1 <= index <= Z.of_nat (length vs) -> binds_value c v ->
  wp (run_bind c (Some s) index) (bind_promise s d (<[Z.to_nat (index - 1) := v]> vs) w) w.
Proof.
  intros Hb Hindex Hv. pose proof Hb as (st & Hst & Hdb & Hex & Hn & Hbound).
  pose proof (puts_insert (Z.to_nat (index - 1)) v vs) as Hputs.
  assert (Hlen : length vs = length (<[Z.to_nat (index - 1) := v]> vs)) by (by rewrite length_insert).
  destruct (lookup_lt_is_Some_2 (parameters st) (Z.to_nat (index - 1))) as [p Hp]; [lia|].
  destruct Hv as [|z Hz|z Hz|bits|x|v len x Hzero Hl Hv|x|v len x Hl Hv]; cbn [run_bind];
    lazymatch goal with |- wp (mbind _ _) _ _ => apply wp_bind | _ => idtac end;
    (eapply with_statement_spec; [done|done|]);
    try (wp_auto; rewrite (parameter_at_in _ _ p), Hex by (done || lia);
         apply (binds_promise _ _ _ _ _ _ (eq_trans Hn Hlen)); by eapply (bind_fixed_spec s d _ st p _ _ vs)).
  - apply (binds_promise _ _ _ _ _ _ Hlen). by apply (bind_null_value_spec _ _ _ _ vs).
  - simpl. eapply (bind_bytes_spec s d index st p _ _ _ _ _ []); try done; lia.
  - apply wp_bind. unfold text_length in *.
    destruct (Z.eqb_spec len MYLITE_NUL_TERMINATED) as [->|Hne].
    + apply strlen_spec; [auto|]. apply bind_post_ret.
      apply (bind_bytes_spec s d index st p _ _ _ _ _ (take (Z.to_nat (Z.of_nat (length (c_str v)))) v));
        try done; rewrite ?length_take; lia.
    + apply wp_ret, bind_post_ret.
      apply (bind_bytes_spec s d index st p _ _ _ _ _ (take (Z.to_nat len) v));
        try done; rewrite ?length_take; lia.
  - simpl. eapply (bind_bytes_spec s d index st p _ _ _ _ _ []); try done; lia.
  - rewrite bool_decide_eq_false_2 by done. simpl.
    rewrite (proj2 (Z.eqb_neq len _)) by (unfold MYLITE_NUL_TERMINATED, vector_max_size in *; lia).
    apply (bind_bytes_spec s d index st p _ _ _ _ _ (take (Z.to_nat len) v));
      try done; rewrite ?length_take; lia.
Qed.

(** Arguments that are refused whatever the statement is. *)
Definition bad_value (c : bind_call) : Prop :=
  match c with
  | BindText None len _ => len <> 0
  | BindBlob None len _ => len <> 0
  | BindBlob (Some _) len _ => len = MYLITE_NUL_TERMINATED
  | _ => False
  end.

(** A string without a length has a terminator. *)
Definition terminated (c : bind_call) : Prop :=
  match c with
  | BindText (Some v) len _ => len = MYLITE_NUL_TERMINATED -> zero ∈ v
  | _ => True
  end.

Definition misused (c : bind_call) (st : mylite_stmt) (index : Z) : Prop :=
  db st = None \/ index = 0 \/ Z.of_nat (length (parameters st)) < index \/
  executed st = true \/ bad_value c.

Lemma bind_bytes_misused s st index value len t x w :
  stmts w !! s = Some st ->
  index = 0 \/ Z.of_nat (length (parameters st)) < index \/ executed st = true ->
  bind_bytes s index value len t x w = (Ret (MYLITE_MISUSE, false), w).
Proof.
  intros Hst Hm. unfold bind_bytes, get_stmt, mbind, cmd_bind, deref. rewrite Hst.
  destruct Hm as [Hm|[Hm|Hex]]; [rewrite parameter_at_out by auto; done..|].
  destruct (parameter_at st index) as [[i p]|]; [by rewrite Hex|done].
Qed.

Lemma with_statement_run {A} (misuse : A) s st (f : nat -> cmd world A) w :
  stmts w !! s = Some st ->
  with_statement misuse (Some s) f w =
  match db st with None => (Ret misuse, w) | Some _ => f s w end.
Proof.
  intros Hst. unfold with_statement, get_stmt, mbind, cmd_bind, deref. rewrite Hst.
  by destruct (db st).
Qed.

Lemma misused_parameter st index :
  index = 0 \/ Z.of_nat (length (parameters st)) < index \/ executed st = true ->
  match parameter_at st index with Some _ => executed st = true | None => True end.
Proof.
  intros [Hm|[Hm|Hex]]; [rewrite parameter_at_out by auto; done..|]. by destruct (parameter_at _ _).
Qed.

(** The calls that bind a value of fixed size. *)
Lemma bind_fixed_misused s st index (f : nat -> ParameterBinding -> cmd world Z) w :
  stmts w !! s = Some st ->
  index = 0 \/ Z.of_nat (length (parameters st)) < index \/ executed st = true ->
  (st ← get_stmt s;
   match parameter_at st index with
   | None => mret MYLITE_MISUSE
   | Some (i, p) => if executed st then mret MYLITE_MISUSE else f i p
   end) w = (Ret MYLITE_MISUSE, w).
Proof.
  intros Hst Hm. unfold get_stmt, mbind, cmd_bind, deref. rewrite Hst.
  pose proof (misused_parameter st index Hm) as Hp.
  destruct (parameter_at st index) as [[i p]|]; [by rewrite Hp|done].
Qed.

Lemma run_bind_misused c s st index w :
  stmts w !! s = Some st -> misused c st index -> terminated c ->
  run_bind c (Some s) index w = (Ret MYLITE_MISUSE, w).
Proof.
  intros Hst Hm Hc. unfold misused in Hm.
  destruct c as [|z|z|z|value len x|value len x]; cbn [run_bind];
    [unfold mylite_bind_null, bind_null_value|unfold mylite_bind_int64|unfold mylite_bind_uint64
    |unfold mylite_bind_double|unfold mbind, cmd_bind, mylite_bind_text
    |unfold mbind, cmd_bind, mylite_bind_blob];
    rewrite (with_statement_run _ _ st) by done; destruct (db st); try done;
    destruct Hm as [Hm|Hm]; try done;
    try (apply (bind_fixed_misused s st); [done|simpl in Hm; tauto]).
  - destruct value as [v|]; simpl in *.
    + unfold mbind, cmd_bind. destruct (Z.eqb_spec len MYLITE_NUL_TERMINATED) as [->|_].
      * unfold strlen. rewrite (proj2 (existsb_exists _ _)).
        2: { exists zero. split; [apply list_elem_of_In, Hc; done|apply Ascii.eqb_refl]. }
        simpl. by rewrite (bind_bytes_misused s st) by (done || tauto).
      * simpl. by rewrite (bind_bytes_misused s st) by (done || tauto).
    + destruct (Z.eqb_spec len 0) as [->|_]; [|done]. simpl.
      by rewrite (bind_bytes_misused s st) by (done || tauto).
  - simpl in Hm. destruct value as [v|]; simpl in *.
    + destruct (Z.eqb_spec len MYLITE_NUL_TERMINATED) as [->|Hne]; [done|]. simpl.
      by rewrite (bind_bytes_misused s st) by (done || tauto).
    + destruct (Z.eqb_spec len 0) as [->|_]; [|done]. simpl.
      by rewrite (bind_bytes_misused s st) by (done || tauto).
Qed.

(** ** Clearing *)

(** Binding nulls from position [k + 1] on. *)
Lemma bind_nulls_spec s d n : forall k w,
  bindings_from s d (k + n) (replicate k ParamNull) w ->
  wp (bind_nulls s (seq (S k) n))
    (fun o w' => o = Ret MYLITE_OK /\ bindings s d (replicate (k + n) ParamNull) w') w.
Proof.
  induction n as [|n IH]; intros k w Hb; simpl.
  { split; [done|]. rewrite Nat.add_0_r in *. unfold bindings. by rewrite length_replicate. }
  apply wp_bind.
  eapply wp_mono; [apply (bind_null_value_spec s d (k + S n) _ _ (replicate (S k) ParamNull) _ Hb)|].
  { lia. }
  { replace (Z.to_nat (Z.of_nat (S k) - 1)) with (length (replicate k ParamNull))
      by (rewrite length_replicate; lia).
    rewrite replicate_S_end. apply puts_snoc. }
  intros o w' [-> Hb']. apply bind_post_ret. simpl. rewrite <- Nat.add_succ_comm in *. by apply IH.
Qed.

Lemma mylite_clear_bindings_spec s d vs w :
  bindings s d vs w ->
  wp (mylite_clear_bindings (Some s))
    (fun o w' => o = Ret MYLITE_OK /\ bindings s d (replicate (length vs) ParamNull) w') w.
Proof.
  intros (st & Hst & Hdb & Hex & Hn & [_ _ Hapart Hfresh]). unfold mylite_clear_bindings.
  eapply with_statement_spec; [done..|]. wp_auto. rewrite Hex, Hn.
  apply (bind_nulls_spec s d (length vs) 0). exists st. by repeat (split; [done|]); split; [simpl; lia|..].
Qed.
End calls.
