(* ===== verification/Rows.v ===== *)
(** * Rows of a prepared statement

    A row the server sent is decoded column by column ([decode_columns]), and
    after a fetch the buffers of the statement's columns hold exactly what was
    decoded: the values that fit at once, and those that did not after they
    were fetched again into larger buffers. *)

From S2P Require Import Prelude Api Effects SqlLexer SqlPolicy System Numbers World BinaryRow.
From S2P Require Import ClientQuery ClientStmt Runtime Exec Statement Frames Rules ClientFacts.
From S2P Require Import Scripted RuntimeFacts Library ExecFacts Termination StatementFacts.
From S2P Require Import Lifetime.
From stdpp Require Import options.
Set Default Proof Using "Type*".

Local Open Scope Z_scope.

(** ** Decoding a row *)

Section decoding.
  Context `{Server}.

(** The columns of a row with the widths of their buffers: the place in the
    row where a value starts and its text, nothing for a null.  [nulls] is
    the rest of the null bitmap, [bit] the mask of the next column. *)
Fixpoint decode_columns (columns : list (MYSQL_FIELD * Z)) (nulls : bytes) (bit : Z) (row : bytes)
    : option (list (option (bytes * bytes))) :=
  match columns, nulls with
  | [], _ => Some []
  | (field, width) :: columns, null_byte :: nulls' =>
      '(value, row) ←
        (if has_flag (byte_value null_byte) bit then Some (None, row)
         else '(text, rest) ← column_text field width row; Some (Some (row, text), rest));
      let next := (bit * 2) mod 256 in
      values ← (if next =? 0 then decode_columns columns nulls' 1 row
                else decode_columns columns nulls next row);
      Some (value :: values)
  | _ :: _, [] => None
  end.

(** A whole row: two bits of the bitmap are reserved. *)
Definition decode_row (columns : list (MYSQL_FIELD * Z)) (row : bytes)
    : option (list (option (bytes * bytes))) :=
  decode_columns columns row 4 (drop (Z.to_nat ((Z.of_nat (length columns) + 9) / 8)) row).
End decoding.

(** What a caller gets of a decoded value. *)
Definition row_value (v : option (bytes * bytes)) : option bytes := snd <$> v.

(** The contents of a buffer of [width] bytes and a terminator after a text
    was copied to it. *)
Definition fill (width : nat) (text old : bytes) : bytes :=
  if (length text <? width)%nat then text ++ zero :: drop (S (length text)) old
  else take width text ++ drop width old.

Lemma fill_length width text old :
  length old = S width -> length (fill width text old) = S width.
Proof.
  intros Hold. unfold fill. destruct (Nat.ltb_spec (length text) width); simpl_list;
    simpl; rewrite ?length_drop, ?length_take; simpl; rewrite ?length_drop; lia.
Qed.

(** ** One column *)

(** The function that fetches a field into a character buffer. *)
Definition fetch_function_of (field : MYSQL_FIELD) : fetch_function :=
  if is_binary_compatible MYSQL_TYPE_STRING (f_type field) then fetch_result_str
  else fetch_result_with_conversion.

(** The bind of column [i] to the storage [p] of [width] bytes and one more. *)
Record bound_column (s g i p width : nat) (b : MYSQL_BIND) : Prop := mkBoundColumn {
  bc_type : buffer_type b = MYSQL_TYPE_STRING;
  bc_buffer : buffer b = Some (Storage p);
  bc_length : buffer_length b = Z.of_nat width;
  bc_length_ptr : length_ptr b = Some (OfColumn s g i);
  bc_is_null_ptr : is_null_ptr b = Some (OfColumn s g i);
  bc_error_ptr : error_ptr b = Some (OfColumn s g i);
}.

Section column.
  Context `{Server}.

Lemma wp_update_column s g i f st c (Q : outcome unit -> world -> Prop) w :
  stmts w !! s = Some st -> columns_generation st = g -> columns st !! i = Some c ->
  Q (Ret tt) (set_stmts (<[s := with_columns (<[i := f c]> (columns st)) st]> (stmts w)) w) ->
  wp (update_column s g i f) Q w.
Proof.
  intros Hst Hg Hc HQ. unfold update_column. apply wp_bind.
  eapply wp_deref; [|apply bind_post_ret; by eapply wp_update_stmt].
  unfold column_of. rewrite Hst. simpl. by rewrite decide_True.
Qed.

Lemma wp_write_buffer p offset data old (Q : outcome unit -> world -> Prop) w :
  buffers w !! p = Some old -> (offset + length data <= length old)%nat ->
  Q (Ret tt) (set_buffers
    (<[p := take offset old ++ data ++ drop (offset + length data) old]> (buffers w)) w) ->
  wp (write_buffer (Some (Storage p)) offset data) Q w.
Proof.
  intros Hp Hle HQ. unfold write_buffer. destruct data as [|x data].
  - simpl in HQ. rewrite Nat.add_0_r, take_drop, insert_id in HQ by done. apply wp_ret.
    by destruct w.
  - wp_auto. rewrite (proj2 (Nat.leb_le _ _)) by done. by wp_auto.
Qed.

(** Copying a text and its terminator; [k] is what follows. *)
Lemma write_text_spec {B} p width text old n cond offset (k : cmd world B)
    (Q : outcome B -> world -> Prop) w :
  buffers w !! p = Some old -> length old = S width ->
  n = Nat.min (length text) width -> cond = (length text <? width)%nat ->
  (cond = true -> offset = length text) ->
  wp k Q (set_buffers (<[p := fill width text old]> (buffers w)) w) ->
  wp (write_buffer (Some (Storage p)) 0 (take n text) ;;
      (if cond : bool then write_buffer (Some (Storage p)) offset [byte_of 0] else mret tt) ;;
      k) Q w.
Proof.
  intros Hp Hold -> -> Hoff HQ. unfold fill in HQ.
  assert (Hlen : length (take (Nat.min (length text) width) text) = Nat.min (length text) width)
    by (rewrite length_take; lia).
  apply wp_bind. eapply wp_write_buffer; [done|rewrite Hlen; lia|]. rewrite Hlen, take_0, app_nil_l.
  apply bind_post_ret, wp_bind.
  destruct (Nat.ltb_spec (length text) width) as [Hlt|Hge].
  - rewrite Hoff, take_ge by (done || lia).
    replace (Nat.min (length text) width) with (length text) by lia.
    eapply wp_write_buffer; [apply lookup_insert_eq|rewrite length_app, length_drop; simpl; lia|].
    apply bind_post_ret. simpl. rewrite take_app_length, insert_insert_eq.
    rewrite Nat.add_1_r, drop_app_ge, drop_drop by lia.
    replace (length text + (S (length text) - length text))%nat with (S (length text)) by lia.
    exact HQ.
  - apply wp_ret, bind_post_ret.
    by replace (Nat.min (length text) width) with width by lia.
Qed.

(** The world with the columns [cs] in the statement [s], which was [st]. *)
Definition put_columns (s : nat) (st : mylite_stmt) (cs : list ResultColumn) (w : world) : world :=
  set_stmts (<[s := with_columns cs st]> (stmts w)) w.

Lemma put_columns_twice s st cs cs' w :
  put_columns s (with_columns cs st) cs' (put_columns s st cs w) = put_columns s st cs' w.
Proof. unfold put_columns. simpl. by rewrite insert_insert_eq. Qed.

Lemma wp_write_member s g i st c write (f : ResultColumn -> ResultColumn) (b : MYSQL_BIND)
    (Q : outcome MYSQL_BIND -> world -> Prop) w :
  stmts w !! s = Some st -> columns_generation st = g -> columns st !! i = Some c ->
  write = (update_column s g i f ;; mret b) ->
  Q (Ret b) (put_columns s st (<[i := f c]> (columns st)) w) -> wp write Q w.
Proof.
  intros Hst Hg Hc -> HQ. apply wp_bind. by eapply wp_update_column, bind_post_ret, wp_ret.
Qed.

End column.

(** Writing the members of a column, one after the other. *)
Ltac write_member s g i :=
  eapply (wp_write_member s g i);
    [first [eassumption|apply lookup_insert_eq]|simpl; first [eassumption|reflexivity]
    |simpl; first [eassumption|apply list_lookup_insert_eq; lia]
    |unfold write_length, write_error, write_is_null;
     cbn [length_ptr is_null_ptr error_ptr with_row_ptr with_bind_offset];
     match goal with H : _ = Some (OfColumn _ _ _) |- _ => rewrite H; reflexivity end|];
    rewrite ?put_columns_twice; cbn [columns with_columns]; rewrite ?list_insert_insert_eq.

(** What a fetch makes of a column whose text is [text]. *)
Definition column_with (text : bytes) (width : nat) (c : ResultColumn) : ResultColumn :=
  with_members (Z.of_nat (length text)) (c_is_null c)
    (if Z.of_nat width <? Z.of_nat (length text) then 1 else 0) c.

Section text.
  Context `{Server}.

(** Types a character buffer receives without conversion are strings. *)
Lemma string_text field width row :
  is_binary_compatible MYSQL_TYPE_STRING (f_type field) = true ->
  column_text field width row =
  (len_row ← net_field_length row; read_bytes (Z.to_nat len_row.1) len_row.2).
Proof.
  intros Ht. unfold column_text. destruct (f_type field); try (vm_compute in Ht; discriminate Ht);
    by destruct (net_field_length row) as [[]|].
Qed.

(** The world after [text] was fetched into column [i] and its storage [p]. *)
Definition fetched_text (s i p width : nat) (text old : bytes) (st : mylite_stmt)
    (c : ResultColumn) (w : world) : world :=
  put_columns s st (<[i := column_with text width c]> (columns st))
    (set_buffers (<[p := fill width text old]> (buffers w)) w).

Lemma fetch_string_spec s g i p width b text st c old (Q : outcome MYSQL_BIND -> world -> Prop) w :
  bound_column s g i p width b -> bind_offset b = 0 ->
  stmts w !! s = Some st -> columns_generation st = g -> columns st !! i = Some c ->
  buffers w !! p = Some old -> length old = S width ->
  Q (Ret b) (fetched_text s i p width text old st c w) ->
  wp (fetch_string_with_conversion text b) Q w.
Proof.
  intros [_ Hb Hl Hlp Hnp Hep] Hoff Hst Hg Hc Hp Hold HQ. unfold fetch_string_with_conversion.
  rewrite Hoff, Hb, Hl. simpl. rewrite drop_0, Nat2Z.id.
  eapply (write_text_spec p width text old); [done|done|lia| |done|].
  { destruct (Nat.ltb_spec (length text) width); [apply Z.ltb_lt|apply Z.ltb_ge]; lia. }
  pose proof (lookup_lt_Some _ _ _ Hc) as Hi.
  apply wp_bind. write_member s g i. apply bind_post_ret. write_member s g i. exact HQ.
Qed.

Lemma run_fetch_result_spec s g i p width field b row text rest st c old
    (Q : outcome (MYSQL_BIND * bytes) -> world -> Prop) w :
  bound_column s g i p width b -> bind_offset b = 0 ->
  fetch_result b = fetch_function_of field ->
  stmts w !! s = Some st -> columns_generation st = g -> columns st !! i = Some c ->
  buffers w !! p = Some old -> length old = S width ->
  column_text field (Z.of_nat width) row = Some (text, rest) ->
  Q (Ret (b, rest)) (fetched_text s i p width text old st c w) ->
  wp (run_fetch_result b field row) Q w.
Proof.
  intros Hb Hoff Hf Hst Hg Hc Hp Hold Htext HQ. unfold run_fetch_result, fetch_function_of in *.
  destruct (is_binary_compatible _ _) eqn:Hcompatible; rewrite Hf.
  - rewrite string_text in Htext by done. unfold run_fetch_result_string. rewrite Htext.
    destruct Hb as [_ Hb Hl Hlp Hnp Hep]. rewrite Hb, Hl.
    eapply (write_text_spec p width text old); [done|done|lia| |lia|].
    { destruct (Nat.ltb_spec (length text) width); simpl.
      - by rewrite (proj2 (Z.eqb_neq _ _)) by lia.
      - by rewrite (proj2 (Z.eqb_eq _ _)) by lia. }
    replace (Z.min (Z.of_nat (length text)) (Z.of_nat width) <? Z.of_nat (length text))
      with (Z.of_nat width <? Z.of_nat (length text)).
    2: { destruct (Z.ltb_spec (Z.of_nat width) (Z.of_nat (length text)));
           symmetry; [apply Z.ltb_lt|apply Z.ltb_ge]; lia. }
    pose proof (lookup_lt_Some _ _ _ Hc) as Hi.
    apply wp_bind. write_member s g i. apply bind_post_ret, wp_bind. write_member s g i.
    by apply bind_post_ret, wp_ret.
  - unfold run_fetch_result_with_conversion. rewrite (bc_length _ _ _ _ _ _ Hb), Htext.
    apply wp_bind. by eapply fetch_string_spec, bind_post_ret, wp_ret.
Qed.
End text.
(** ** All columns *)

(** A column of a statement with all that belongs to it: its bind, its field
    and the storage of its value. *)
Record slot : Set := mkSlot {
  sl_bind : MYSQL_BIND;
  sl_field : MYSQL_FIELD;
  sl_column : ResultColumn;
  sl_storage : nat;
  sl_width : nat;
}.

Definition shape (sl : slot) : MYSQL_FIELD * Z := (sl_field sl, Z.of_nat (sl_width sl)).

(** The storage of a column has room for a terminator. *)
Definition has_room (bufs : gmap nat bytes) (p width : nat) : Prop :=
  exists old, bufs !! p = Some old /\ length old = S width.

Record slot_ok (s g i : nat) (bufs : gmap nat bytes) (sl : slot) : Prop := mkSlotOk {
  so_bind : bound_column s g i (sl_storage sl) (sl_width sl) (sl_bind sl);
  so_offset : bind_offset (sl_bind sl) = 0;
  so_fetch : fetch_result (sl_bind sl) = fetch_function_of (sl_field sl);
  so_room : has_room bufs (sl_storage sl) (sl_width sl);
}.

(** What a fetch makes of the parts of a slot. *)
Definition bind_after (sl : slot) (v : option (bytes * bytes)) : MYSQL_BIND :=
  with_row_ptr (fst <$> v) (sl_bind sl).
Definition column_after (sl : slot) (v : option (bytes * bytes)) : ResultColumn :=
  let c := sl_column sl in
  match v with
  | None => with_members (c_length c) 1 0 c
  | Some (_, text) => column_with text (sl_width sl) (with_members (c_length c) 0 0 c)
  end.
Definition storage_after (sl : slot) (v : option (bytes * bytes)) (bufs : gmap nat bytes)
    : gmap nat bytes :=
  match v with
  | None => bufs
  | Some (_, text) => alter (fill (sl_width sl) text) (sl_storage sl) bufs
  end.
Fixpoint buffers_after (slots : list slot) (values : list (option (bytes * bytes)))
    (bufs : gmap nat bytes) : gmap nat bytes :=
  match slots, values with
  | sl :: slots, v :: values => buffers_after slots values (storage_after sl v bufs)
  | _, _ => bufs
  end.
Definition is_truncated (sl : slot) (v : option (bytes * bytes)) : bool :=
  match v with
  | None => false
  | Some (_, text) => Z.of_nat (sl_width sl) <? Z.of_nat (length text)
  end.
Fixpoint truncations (slots : list slot) (values : list (option (bytes * bytes))) : Z :=
  match slots, values with
  | sl :: slots, v :: values =>
      (if is_truncated sl v then 1 else 0) + truncations slots values
  | _, _ => 0
  end.

Lemma has_room_after sl v bufs p width :
  has_room bufs (sl_storage sl) (sl_width sl) -> has_room bufs p width ->
  has_room (storage_after sl v bufs) p width.
Proof.
  intros (old & Hold & Hlen) (old' & Hold' & Hlen'). destruct v as [[row text]|]; simpl.
  2: { by exists old'. }
  destruct (decide (p = sl_storage sl)) as [->|Hne].
  - exists (fill (sl_width sl) text old). split; [by rewrite lookup_alter_eq, Hold|].
    rewrite fill_length by done. congruence.
  - exists old'. by rewrite lookup_alter_ne.
Qed.

Section fetching.
  Context `{Server}.

Lemma put_columns_same s st cs w :
  stmts w !! s = Some st -> columns st = cs -> put_columns s st cs w = w.
Proof.
  intros Hst <-. unfold put_columns. rewrite insert_id; [by destruct w|].
  rewrite Hst. by destruct st.
Qed.

Lemma put_columns_buffers s st cs bufs w :
  put_columns s st cs (set_buffers bufs w) = set_buffers bufs (put_columns s st cs w).
Proof. done. Qed.

(** One round of the loop; [k] continues with the next column. *)
Lemma fetch_one_spec {B} s g i sl null_byte bit row v rest st
    (k : MYSQL_BIND * bytes * Z -> cmd world B) (Q : outcome B -> world -> Prop) w :
  stmts w !! s = Some st -> columns_generation st = g -> columns st !! i = Some (sl_column sl) ->
  slot_ok s g i (buffers w) sl ->
  (if has_flag (byte_value null_byte) bit then Some (None, row)
   else '(text, rest) ← column_text (sl_field sl) (Z.of_nat (sl_width sl)) row;
        Some (Some (row, text), rest)) = Some (v, rest) ->
  wp (k (bind_after sl v, rest, if is_truncated sl v then 1 else 0)) Q
    (put_columns s st (<[i := column_after sl v]> (columns st))
       (set_buffers (storage_after sl v (buffers w)) w)) ->
  wp (b ← write_error 0 (sl_bind sl);
      r ← (if has_flag (byte_value null_byte) bit then
             b ← write_is_null 1 (with_row_ptr None b);
             mret (b, row, 0)
           else
             b ← write_is_null 0 b;
             '(b, row) ← run_fetch_result (with_row_ptr (Some row) b) (sl_field sl) row;
             error ← read_error b;
             mret (b, row, error));
      k r) Q w.
Proof.
  intros Hst Hg Hc [Hb Hoff Hf (old & Hp & Hold)] Hv HQ.
  pose proof (lookup_lt_Some _ _ _ Hc) as Hi.
  pose proof (bc_is_null_ptr _ _ _ _ _ _ Hb) as Hnp. pose proof (bc_error_ptr _ _ _ _ _ _ Hb) as Hep.
  apply wp_bind. write_member s g i. apply bind_post_ret, wp_bind. destruct (has_flag _ _).
  - injection Hv as <- <-. apply wp_bind. write_member s g i. apply bind_post_ret, wp_ret, bind_post_ret.
    by destruct w.
  - destruct (column_text _ _ _) as [[text rest']|] eqn:Htext; [|done]. injection Hv as <- <-.
    apply wp_bind. write_member s g i. apply bind_post_ret, wp_bind.
    eapply (run_fetch_result_spec s g i (sl_storage sl) (sl_width sl));
      [by destruct Hb|done|done|apply lookup_insert_eq|done|apply list_lookup_insert_eq; lia
      |exact Hp|done|exact Htext|].
    apply bind_post_ret, wp_bind. unfold read_error, read_member.
    cbn [error_ptr with_row_ptr]. rewrite Hep. apply wp_bind. eapply wp_deref.
    { unfold column_of, fetched_text, put_columns. simpl. rewrite lookup_insert_eq. simpl.
      rewrite decide_True by done. apply list_lookup_insert_eq. rewrite length_insert. lia. }
    apply bind_post_ret, wp_ret, bind_post_ret, wp_ret, bind_post_ret. unfold fetched_text.
    revert HQ. unfold put_columns. simpl.
    rewrite insert_insert_eq, list_insert_insert_eq, (alter_alt_Some _ _ _ old) by done.
    exact (fun HQ => HQ).
Qed.

(** The loop. *)
Lemma fetch_columns_spec s g : forall slots pre nulls bit row values st
    (Q : outcome (list MYSQL_BIND * Z) -> world -> Prop) w,
  stmts w !! s = Some st -> columns_generation st = g ->
  columns st = pre ++ (sl_column <$> slots) ->
  (forall j sl, slots !! j = Some sl -> slot_ok s g (length pre + j) (buffers w) sl) ->
  decode_columns (shape <$> slots) nulls bit row = Some values ->
  Q (Ret (zip_with bind_after slots values, truncations slots values))
    (put_columns s st (pre ++ zip_with column_after slots values)
       (set_buffers (buffers_after slots values (buffers w)) w)) ->
  wp (fetch_columns (sl_bind <$> slots) (sl_field <$> slots) nulls bit row) Q w.
Proof.
  induction slots as [|sl slots IH]; intros pre nulls bit row values st Q w Hst Hg Hcs Hok Hd HQ.
  { injection Hd as <-. simpl in *. apply wp_ret. rewrite app_nil_r in *.
    rewrite put_columns_buffers, put_columns_same in HQ by done. by destruct w. }
  simpl in Hd. destruct nulls as [|null_byte nulls]; [done|].
  destruct (if has_flag _ _ then _ else _) as [[v rest]|] eqn:Hv; [|done]. simpl in Hd.
  destruct (if _ =? 0 then _ else _) as [vs|] eqn:Hvs; [|done]. injection Hd as <-.
  cbn [fetch_columns fmap list_fmap].
  eapply (fetch_one_spec s g (length pre)); [done|done| | |exact Hv|].
  { rewrite Hcs, lookup_app_r, Nat.sub_diag by lia. done. }
  { rewrite <- (Nat.add_0_r (length pre)). by apply Hok. }
  apply wp_bind. set (st1 := with_columns (<[length pre := column_after sl v]> (columns st)) st).
  assert (Hcols : columns st1 = (pre ++ [column_after sl v]) ++ (sl_column <$> slots)).
  { simpl. rewrite Hcs, <- app_assoc. rewrite <- (Nat.add_0_r (length pre)), insert_app_r. done. }
  assert (Hnext : forall nulls bit, decode_columns (shape <$> slots) nulls bit rest = Some vs ->
    wp (fetch_columns (sl_bind <$> slots) (sl_field <$> slots) nulls bit rest)
      (bind_post (fun '(binds, n) =>
         mret (bind_after sl v :: binds, (if is_truncated sl v then 1 else 0) + n)) Q)
      (put_columns s st (<[length pre := column_after sl v]> (columns st))
         (set_buffers (storage_after sl v (buffers w)) w))).
  { intros nulls' bit' Hd. eapply (IH _ nulls' bit' rest vs st1); [apply lookup_insert_eq|done|exact Hcols| |exact Hd|].
    - intros j sl' Hsl'. rewrite length_app. simpl. rewrite <- Nat.add_assoc.
      destruct (Hok (S j) sl' Hsl') as [? ? ? ?]. split; try done.
      apply has_room_after; [|done]. apply (so_room s g (length pre + 0)). by apply Hok.
    - apply bind_post_ret, wp_ret. rewrite <- app_assoc. revert HQ. unfold put_columns. simpl.
      rewrite insert_insert_eq. exact (fun HQ => HQ). }
  destruct (_ =? 0); by apply Hnext.
Qed.
End fetching.

(** ** The columns of a statement between two fetches *)

(** What a column says of its field. *)
Definition column_description (c : ResultColumn) :=
  (c_field_type c, c_flags c, c_name c, c_org_name c, c_table c, c_org_table c).
Definition field_description (field : MYSQL_FIELD) :=
  (f_type field, f_flags field, c_str (default [] (f_name field)),
   c_str (default [] (f_org_name field)), c_str (default [] (f_table field)),
   c_str (default [] (f_org_table field))).

(** A slot whose column owns its storage. *)
Record live (s g j : nat) (bufs : gmap nat bytes) (next : nat) (sl : slot) : Prop := mkLive {
  lv_bind : bound_column s g j (sl_storage sl) (sl_width sl) (c_bind (sl_column sl));
  lv_buffer : c_buffer (sl_column sl) = Some (sl_storage sl);
  lv_room : has_room bufs (sl_storage sl) (sl_width sl);
  lv_next : (sl_storage sl < next)%nat;
  lv_retired : forall r, c_retired_buffer (sl_column sl) = Some r -> (r < next)%nat;
  lv_known : known_field_type (f_type (sl_field sl)) = true;
  lv_described : column_description (sl_column sl) = field_description (sl_field sl);
}.

(** No two columns share storage, and none uses what is retired. *)
Definition apart (slots : list slot) : Prop :=
  (forall j k sl sl', slots !! j = Some sl -> slots !! k = Some sl' ->
     sl_storage sl = sl_storage sl' -> j = k) /\
  (forall j k sl sl', slots !! j = Some sl -> slots !! k = Some sl' ->
     c_retired_buffer (sl_column sl') <> Some (sl_storage sl)).

Section results.
  Context `{Server}.

(** The statement [s] of the handle [d] and its [MYSQL_STMT] [m] have the
    columns [slots]. *)
Record result_at (s d m : nat) (slots : list slot) (st : mylite_stmt) (ms : MYSQL_STMT)
    (w : world) : Prop := mkResultAt {
  ra_stmt : stmts w !! s = Some st;
  ra_mstmt : mysql_stmts w !! m = Some ms;
  ra_m : stmt st = Some m;
  ra_db : db st = Some d;
  ra_mysql : s_mysql ms = Some d;
  ra_columns : columns st = sl_column <$> slots;
  ra_binds : result_binds st = (fun sl => c_bind (sl_column sl)) <$> slots;
  ra_fields : s_fields ms = sl_field <$> slots;
  ra_count : s_field_count ms = Z.of_nat (length slots);
  ra_nonempty : slots <> [];
  ra_live : forall j sl, slots !! j = Some sl ->
    live s (columns_generation st) j (buffers w) (next_address w) sl;
  ra_apart : apart slots;
}.

(** The client library's binds are those of the columns. *)
Record clean (s : nat) (slots : list slot) (st : mylite_stmt) (ms : MYSQL_STMT) : Prop := mkClean {
  cl_dirty : result_binds_dirty st = false;
  cl_binds : s_bind ms = sl_bind <$> slots;
  cl_done : s_bind_result_done ms = true;
  cl_report : s_report_data_truncation ms = true;
  cl_slots : forall j sl, slots !! j = Some sl ->
    c_retired_buffer (sl_column sl) = None /\ bind_offset (sl_bind sl) = 0 /\
    fetch_result (sl_bind sl) = fetch_function_of (sl_field sl) /\
    bound_column s (columns_generation st) j (sl_storage sl) (sl_width sl) (sl_bind sl);
}.

(** The bind the client library makes of the bind of a column. *)
Definition set_up (b : MYSQL_BIND) (field : MYSQL_FIELD) : MYSQL_BIND :=
  let b := with_fetch_result fetch_result_str (with_bind_offset 0 b) in
  if is_binary_compatible MYSQL_TYPE_STRING (f_type field) then b
  else with_fetch_result fetch_result_with_conversion b.

(** A bind and a field the client library accepts. *)
Definition acceptable (b : MYSQL_BIND) (field : MYSQL_FIELD) : Prop :=
  buffer_type b = MYSQL_TYPE_STRING /\ is_Some (length_ptr b) /\ is_Some (is_null_ptr b) /\
  is_Some (error_ptr b) /\ known_field_type (f_type field) = true.

Lemma setup_binds_spec binds fields w :
  Forall2 acceptable binds fields ->
  setup_binds binds fields w = (Ret (Some (zip_with set_up binds fields)), w).
Proof.
  induction 1 as [|b field binds fields (Ht & [l Hl] & [n Hn] & [e He] & Hk) _ IH]; [done|].
  simpl. unfold mbind, cmd_bind, setup_one_fetch_function. simpl. rewrite Ht, Hl, Hn, He. simpl.
  rewrite Hk. simpl. rewrite Ht. destruct b; simpl in *; subst.
  destruct (is_binary_compatible _ _) eqn:Hc; simpl; rewrite IH; unfold set_up; rewrite Hc; done.
Qed.

(** The world after the binds of [m] became those of [binds]. *)
Definition rebound (m : nat) (ms : MYSQL_STMT) (binds : list MYSQL_BIND) (w : world) : world :=
  set_mysql_stmts (<[m := with_s_bind_result_done true true (with_s_bind binds ms)]> (mysql_stmts w)) w.

Lemma mysql_stmt_bind_result_spec m d ms c binds (Q : outcome bool -> world -> Prop) w :
  mysql_stmts w !! m = Some ms -> s_mysql ms = Some d -> connections w !! d = Some c ->
  m_report_data_truncation c = true -> binds <> [] ->
  s_field_count ms = Z.of_nat (length binds) -> Forall2 acceptable binds (s_fields ms) ->
  Q (Ret false) (rebound m ms (zip_with set_up binds (s_fields ms)) w) ->
  wp (mysql_stmt_bind_result m binds) Q w.
Proof.
  intros Hms Hd Hc Hreport Hne Hcount Hok HQ. unfold mysql_stmt_bind_result. wp_auto.
  rewrite Hcount, (proj2 (Z.eqb_neq _ _)), Z.eqb_refl by (destruct binds; simpl; [done|lia]). simpl.
  apply wp_bind. unfold wp. rewrite setup_binds_spec by done. simpl. apply bind_post_ret. wp_auto.
  rewrite Hd. wp_auto. rewrite Hreport. revert HQ. unfold rebound. simpl.
  rewrite insert_insert_eq. exact (fun HQ => HQ).
Qed.

(** ** Binding the columns again *)

Fixpoint without_retired (cs : list ResultColumn) (bufs : gmap nat bytes) : gmap nat bytes :=
  match cs with
  | [] => bufs
  | c :: cs => without_retired cs (match c_retired_buffer c with
                                   | None => bufs | Some b => delete b bufs end)
  end.

Lemma without_retired_lookup cs : forall bufs p,
  (forall c, c ∈ cs -> c_retired_buffer c <> Some p) -> without_retired cs bufs !! p = bufs !! p.
Proof.
  induction cs as [|c cs IH]; intros bufs p Hp; [done|]. simpl. rewrite IH.
  - destruct (c_retired_buffer c) as [b|] eqn:Hb; [|done]. apply lookup_delete_ne.
    intros ->. by apply (Hp c); [left|].
  - intros c' Hc'. apply Hp. by right.
Qed.

Lemma free_retired_spec cs : forall (Q : outcome unit -> world -> Prop) w,
  Q (Ret tt) (set_buffers (without_retired cs (buffers w)) w) -> wp (free_retired cs) Q w.
Proof.
  induction cs as [|c cs IH]; intros Q w HQ; simpl; [by destruct w|]. apply wp_bind.
  unfold free_buffer. destruct (c_retired_buffer c) as [b|] eqn:Hb; simpl in HQ; rewrite ?Hb in HQ.
  - wp_auto. by apply IH.
  - wp_auto. by apply IH.
Qed.

(** A slot after its column was bound again. *)
Definition refresh (sl : slot) : slot :=
  mkSlot (set_up (c_bind (sl_column sl)) (sl_field sl)) (sl_field sl)
    (with_c_buffers (c_buffer (sl_column sl)) None (sl_column sl)) (sl_storage sl) (sl_width sl).

(** What is kept of the statements and of the world by binding again. *)
Definition stmt_core (st : mylite_stmt) :=
  (parameters st, parameter_binds st, executed st, has_result st, has_row st, columns_generation st).
Definition mstmt_core (ms : MYSQL_STMT) :=
  (s_mysql ms, s_params ms, s_fields ms, s_read_row_func ms, s_stmt_id ms, s_last_errno ms,
   s_field_count ms, s_unbuffered_fetch_cancelled ms).
Definition same_rest (w w' : world) : Prop :=
  dbs w' = dbs w /\ connections w' = connections w /\ server_state w' = server_state w /\
  sys w' = sys w /\ allocations w' = allocations w.

Lemma set_up_bound s g j p width b field :
  bound_column s g j p width b ->
  bound_column s g j p width (set_up b field) /\ bind_offset (set_up b field) = 0 /\
  fetch_result (set_up b field) = fetch_function_of field.
Proof.
  intros [? ? ? ? ? ?]. unfold set_up, fetch_function_of.
  by destruct (is_binary_compatible _ _).
Qed.

Lemma live_acceptable s g slots bufs next :
  (forall j sl, slots !! j = Some sl -> live s g j bufs next sl) ->
  Forall2 acceptable ((fun sl => c_bind (sl_column sl)) <$> slots) (sl_field <$> slots).
Proof.
  intros Hlive. apply Forall2_fmap, Forall_Forall2_diag, Forall_lookup.
  intros j sl Hsl. destruct (Hlive j sl Hsl) as [[? ? ? Hl Hn He] _ _ _ _ Hk].
  unfold acceptable. rewrite Hl, Hn, He. by split_and!.
Qed.

Lemma apart_retired slots sl :
  apart slots -> sl ∈ slots ->
  forall c, c ∈ (sl_column <$> slots) -> c_retired_buffer c <> Some (sl_storage sl).
Proof.
  intros [_ Hr] Hsl c (sl' & -> & Hsl')%list_elem_of_fmap.
  apply list_elem_of_lookup in Hsl as [j Hj]. apply list_elem_of_lookup in Hsl' as [k Hk].
  by eapply Hr.
Qed.

Lemma apart_refresh slots : apart slots -> apart (refresh <$> slots).
Proof.
  intros [Ha Hr]. split.
  - intros j k sl sl' (sl0 & -> & Hj)%list_lookup_fmap_Some (sl1 & -> & Hk)%list_lookup_fmap_Some.
    intros Heq. by apply (Ha j k sl0 sl1).
  - intros j k sl sl' _ (sl1 & -> & Hk)%list_lookup_fmap_Some. done.
Qed.

(** The statement and its [MYSQL_STMT] after the columns were bound again. *)
Definition refresh_stmt (st : mylite_stmt) : mylite_stmt :=
  with_result_binds (result_binds st) false
    (with_columns ((fun c => with_c_buffers (c_buffer c) None c) <$> columns st) st).
Definition refresh_mstmt (slots : list slot) (ms : MYSQL_STMT) : MYSQL_STMT :=
  with_s_bind_result_done true true (with_s_bind (sl_bind <$> (refresh <$> slots)) ms).

Lemma result_at_refresh s d m slots st ms w w' :
  result_at s d m slots st ms w ->
  stmts w' !! s = Some (refresh_stmt st) -> mysql_stmts w' !! m = Some (refresh_mstmt slots ms) ->
  buffers w' = without_retired (columns st) (buffers w) -> next_address w' = next_address w ->
  result_at s d m (refresh <$> slots) (refresh_stmt st) (refresh_mstmt slots ms) w' /\
  clean s (refresh <$> slots) (refresh_stmt st) (refresh_mstmt slots ms).
Proof.
  intros [Hst Hms Hm Hd Hmd Hcs Hrb Hf Hn Hne Hlive Hapart] Hst' Hms' Hbufs Hnext. split.
  - split; try done; simpl.
    + by rewrite Hcs, <- !list_fmap_compose.
    + by rewrite Hrb, <- list_fmap_compose.
    + by rewrite Hf, <- list_fmap_compose.
    + by rewrite length_fmap.
    + by intros ?%fmap_nil_inv.
    + intros j sl (sl0 & -> & Hj)%list_lookup_fmap_Some.
      destruct (Hlive j sl0 Hj) as [Hb Hbuf (old & Hold & Hlen) Hlt _ Hk]. split; try done; simpl.
      * exists old. split; [|done]. rewrite Hbufs, Hcs, without_retired_lookup; [done|].
        apply apart_retired; [done|]. by eapply list_elem_of_lookup_2.
      * by rewrite Hnext.
    + by apply apart_refresh.
  - split; try done. intros j sl (sl0 & -> & Hj)%list_lookup_fmap_Some.
    destruct (Hlive j sl0 Hj) as [Hb _ _ _ _ _].
    destruct (set_up_bound _ _ _ _ _ _ (sl_field sl0) Hb) as (? & ? & ?). by split_and!.
Qed.

Lemma refresh_binds_eq slots :
  zip_with set_up ((fun sl => c_bind (sl_column sl)) <$> slots) (sl_field <$> slots) =
  sl_bind <$> (refresh <$> slots).
Proof. induction slots as [|sl slots IH]; [done|]. simpl. by f_equal. Qed.

Lemma refresh_spec s d m slots st ms c w :
  result_at s d m slots st ms w -> (result_binds_dirty st = false -> clean s slots st ms) ->
  connections w !! d = Some c -> m_report_data_truncation c = true ->
  wp (refresh_dirty_result_binds s) (fun o w' => o = Ret MYLITE_OK /\
    exists slots' st' ms', result_at s d m slots' st' ms' w' /\ clean s slots' st' ms' /\
      shape <$> slots' = shape <$> slots /\ stmt_core st' = stmt_core st /\
      mstmt_core ms' = mstmt_core ms /\ same_rest w w') w.
Proof.
  intros Hr Hclean Hc Hreport. unfold refresh_dirty_result_binds.
  pose proof (ra_stmt _ _ _ _ _ _ _ Hr) as Hst. wp_auto.
  destruct (result_binds_dirty st) eqn:Hdirty; simpl.
  2: { wp_auto. split; [done|]. exists slots, st, ms. split; [done|]. split; [by apply Hclean|]. done. }
  apply wp_bind. eapply wp_deref; [rewrite Hst; apply (ra_m _ _ _ _ _ _ _ Hr)|].
  apply bind_post_ret, wp_bind. rewrite (ra_binds _ _ _ _ _ _ _ Hr).
  eapply mysql_stmt_bind_result_spec; [apply Hr..|done|done| | | |].
  { intros ?%fmap_nil_inv. by apply (ra_nonempty _ _ _ _ _ _ _ Hr). }
  { rewrite length_fmap. apply (ra_count _ _ _ _ _ _ _ Hr). }
  { rewrite (ra_fields _ _ _ _ _ _ _ Hr). eapply live_acceptable, Hr. }
  rewrite (ra_fields _ _ _ _ _ _ _ Hr), refresh_binds_eq.
  apply bind_post_ret. wp_auto. apply free_retired_spec, bind_post_ret. wp_auto.
  split; [done|]. exists (refresh <$> slots), (refresh_stmt st), (refresh_mstmt slots ms).
  destruct (result_at_refresh s d m slots st ms w (set_stmts
    (<[s := refresh_stmt st]> (stmts w)) (set_buffers (without_retired (columns st) (buffers w))
      (rebound m ms (sl_bind <$> (refresh <$> slots)) w)))) as [Hr' Hcl'];
    [done|apply lookup_insert_eq|apply lookup_insert_eq|done|done|].
  split; [exact Hr'|]. split; [exact Hcl'|]. split; [by rewrite <- list_fmap_compose|]. done.
Qed.
End results.
