(* ===== verification/ProtocolRows.v ===== *)
(** * Rows the server writes and the client reads

    A row of values written with [Protocol_binary] is decoded, column by
    column, to the texts of these values ([row_roundtrip]): the null bitmap
    and the values keep their places whatever the types and the number of the
    columns are. *)

From S2P Require Import Prelude Api System World Formats FormatsFacts BinaryRow BinaryFacts Scripted Rows.
From stdpp Require Import options.
Set Default Proof Using "Type*".

Local Open Scope Z_scope.

(** ** Values and how they are stored *)

Inductive column_value : Set :=
| VNull
| VTiny (z : Z)
| VShort (z : Z)
| VLong (z : Z)
| VLonglong (z : Z)
| VFloat (data : bytes)
| VDouble (data : bytes)
| VString (data : bytes)
| VDate (tm : MYSQL_TIME)
| VTime (tm : MYSQL_TIME)
| VDatetime (tm : MYSQL_TIME).

(** The method of [Protocol_binary] for a value. *)
Definition store_value (p : Protocol_binary) (v : column_value) : Protocol_binary :=
  match v with
  | VNull => store_null p
  | VTiny z => store_tiny z p
  | VShort z => store_short z p
  | VLong z => store_long z p
  | VLonglong z => store_longlong z p
  | VFloat data => store_float data p
  | VDouble data => store_double data p
  | VString data => store_str data p
  | VDate tm => store_date tm p
  | VTime tm => store_time tm p
  | VDatetime tm => store_datetime tm p
  end.

(** The packet of a row. *)
Definition row_packet (vs : list column_value) : bytes :=
  packet (fold_left store_value vs (prepare_for_resend (Z.of_nat (length vs)))).

(** Integers in the range of their type. *)
Definition integer_ok (field : MYSQL_FIELD) (bits z : Z) : Prop :=
  if has_flag (f_flags field) UNSIGNED_FLAG then 0 <= z < 2 ^ bits
  else - 2 ^ (bits - 1) <= z < 2 ^ (bits - 1).

(** A value the server may send for a column of the field's type. *)
Definition value_ok (field : MYSQL_FIELD) (v : column_value) : Prop :=
  match v with
  | VNull => True
  | VTiny z => f_type field = MYSQL_TYPE_TINY /\ integer_ok field 8 z
  | VShort z =>
      (f_type field = MYSQL_TYPE_SHORT \/ f_type field = MYSQL_TYPE_YEAR) /\ integer_ok field 16 z
  | VLong z =>
      (f_type field = MYSQL_TYPE_LONG \/ f_type field = MYSQL_TYPE_INT24) /\ integer_ok field 32 z
  | VLonglong z => f_type field = MYSQL_TYPE_LONGLONG /\ integer_ok field 64 z
  | VFloat data => f_type field = MYSQL_TYPE_FLOAT /\ length data = 4%nat
  | VDouble data => f_type field = MYSQL_TYPE_DOUBLE /\ length data = 8%nat
  | VString data =>
      Z.of_nat (length data) < 2 ^ 32 /\
      match f_type field with
      | MYSQL_TYPE_TINY | MYSQL_TYPE_SHORT | MYSQL_TYPE_YEAR | MYSQL_TYPE_LONG | MYSQL_TYPE_INT24
      | MYSQL_TYPE_LONGLONG | MYSQL_TYPE_FLOAT | MYSQL_TYPE_DOUBLE | MYSQL_TYPE_DATE
      | MYSQL_TYPE_TIME | MYSQL_TYPE_DATETIME | MYSQL_TYPE_TIMESTAMP => False
      | _ => True
      end
  | VDate tm => f_type field = MYSQL_TYPE_DATE /\ date_ok tm
  | VTime tm => f_type field = MYSQL_TYPE_TIME /\ time_ok tm
  | VDatetime tm =>
      (f_type field = MYSQL_TYPE_DATETIME \/ f_type field = MYSQL_TYPE_TIMESTAMP) /\ datetime_ok tm
  end.

Section text.
  Context `{Server}.

(** The text of a value: decimal integers, filled with zeros if the column
    says so, strings as they are, dates and times as [my_TIME_to_str] writes
    them.  [None]: the text of a date with more than six decimals. *)
Definition value_text (field : MYSQL_FIELD) (width : Z) (v : column_value)
    : option (option bytes) :=
  match v with
  | VNull => Some None
  | VTiny z | VShort z | VLong z | VLonglong z => Some (Some (zero_fill field 21 (to_string z)))
  | VFloat data | VDouble data => Some (Some (float_text field width data))
  | VString data => Some (Some data)
  | VDate tm | VTime tm | VDatetime tm => Some <$> my_TIME_to_str tm (f_decimals field)
  end.

(** ** One column *)

Lemma integer_read field bits z :
  0 < bits -> integer_ok field bits z ->
  (if has_flag (f_flags field) UNSIGNED_FLAG then z mod 2 ^ bits else signed bits (z mod 2 ^ bits)) = z.
Proof.
  intros Hb Hz. unfold integer_ok in Hz. destruct (has_flag _ _); [by apply Z.mod_small|].
  by apply signed_mod.
Qed.

Lemma long_text_decimal field z :
  - 2 ^ 63 <= z < 2 ^ 63 -> long_text field z false = zero_fill field 21 (to_string z).
Proof. intros Hz. unfold long_text. by rewrite int10_to_str_decimal. Qed.

Lemma longlong_text field z :
  integer_ok field 64 z ->
  long_text field (signed 64 (z mod 2 ^ 64)) (has_flag (f_flags field) UNSIGNED_FLAG) =
  zero_fill field 21 (to_string z).
Proof.
  intros Hz. unfold long_text, integer_ok in *.
  assert (Hr : - 2 ^ 63 <= signed 64 (z mod 2 ^ 64) < 2 ^ 63)
    by (apply (signed_range 64); [lia|apply Z.mod_pos_bound; lia]).
  rewrite int10_to_str_decimal by done. do 2 f_equal.
  destruct (has_flag _ _); cbn [Z.ltb]; [|by apply signed_mod].
  unfold signed. change (64 - 1) with 63. rewrite (Z.mod_small z) by done.
  change (10 ?= 0) with Gt. cbn iota.
  destruct (Z.leb_spec (2 ^ 63) z).
  - symmetry. apply (Z.mod_unique _ _ (-1)); lia.
  - apply Z.mod_small. lia.
Qed.
Lemma read_integer_bytes n bits z rest :
  bits = 8 * Z.of_nat n ->
  read_bytes n (int_store n z ++ rest) = Some (int_store n z, rest) /\
  uint_korr (int_store n z) = z mod 2 ^ bits.
Proof.
  intros ->. split; [apply read_store|]. rewrite uint_korr_store.
  by rewrite (Z.pow_mul_r 2 8) by lia.
Qed.

(** The integers of up to four bytes. *)
Lemma integer_text field n bits z rest :
  bits = 8 * Z.of_nat n -> 0 < bits < 64 -> integer_ok field bits z ->
  ('(b, row) ← read_bytes n (int_store n z ++ rest);
   Some (long_text field (if has_flag (f_flags field) UNSIGNED_FLAG then uint_korr b
                          else signed bits (uint_korr b)) false, row)) =
  Some (zero_fill field 21 (to_string z), rest).
Proof.
  intros Hn Hb Hz. destruct (read_integer_bytes n bits z rest Hn) as [-> Hk].
  cbn [mbind option_bind]. rewrite Hk, integer_read by (lia || done). do 2 f_equal.
  apply long_text_decimal.
  assert (2 ^ bits <= 2 ^ 63) by (apply Z.pow_le_mono_r; lia).
  assert (2 ^ (bits - 1) <= 2 ^ 63) by (apply Z.pow_le_mono_r; lia).
  unfold integer_ok in Hz. destruct (has_flag _ _); lia.
Qed.

(** The bytes of a value that is not null are read back to its text. *)
Lemma column_roundtrip field width v t rest :
  value_ok field v -> value_text field width v = Some (Some t) ->
  exists image, (forall p, store_value p v = append image p) /\
    column_text field width (image ++ rest) = Some (t, rest).
Proof.
  intros Hv Ht. destruct v as [|z|z|z|z|data|data|data|tm|tm|tm]; simpl in Hv, Ht; [done|..];
    [destruct Hv as [Hf Hz]; injection Ht as <-; eexists; split; [done|]; unfold column_text..
    |destruct Hv as [Hf Hok]; apply fmap_Some in Ht as (t' & Htime & [= ->])
    |destruct Hv as [Hf Hok]; apply fmap_Some in Ht as (t' & Htime & [= ->])
    |destruct Hv as [Hf Hok]; apply fmap_Some in Ht as (t' & Htime & [= ->])].
  - rewrite Hf. by apply integer_text.
  - destruct Hf as [-> | ->]; by apply integer_text.
  - destruct Hf as [-> | ->]; by apply integer_text.
  - rewrite Hf. destruct (read_integer_bytes 8 64 z rest eq_refl) as [-> Hk].
    cbn [mbind option_bind]. by rewrite Hk, longlong_text.
  - by rewrite Hf, <- Hz, read_bytes_app.
  - by rewrite Hf, <- Hz, read_bytes_app.
  - destruct (f_type field); try done; rewrite <- app_assoc, net_length_roundtrip by lia;
      cbn [mbind option_bind]; by rewrite Nat2Z.id, read_bytes_app.
  - destruct (date_roundtrip tm rest Hok) as (image & Hi & Hr). exists image. split; [done|].
    unfold column_text. rewrite Hf, Hr. cbn [mbind option_bind]. by rewrite Htime.
  - destruct (time_roundtrip tm rest Hok) as (image & Hi & Hr). exists image. split; [done|].
    unfold column_text. rewrite Hf, Hr. cbn [mbind option_bind]. by rewrite Htime.
  - destruct (datetime_roundtrip tm rest Hok) as (image & Hi & Hr). exists image. split; [done|].
    unfold column_text. destruct Hf as [-> | ->]; rewrite Hr; cbn [mbind option_bind];
      by rewrite Htime.
Qed.
End text.

(** ** The null bitmap *)

Definition null_bit (row : bytes) (k : nat) : bool :=
  match row !! (k / 8)%nat with
  | Some c => Z.testbit (byte_value c) (Z.of_nat (k mod 8))
  | None => false
  end.

Lemma has_flag_bit a n : 0 <= n -> has_flag a (2 ^ n) = Z.testbit a n.
Proof.
  intros Hn. unfold has_flag. destruct (Z.testbit a n) eqn:Ha.
  - apply negb_true_iff, Z.eqb_neq. intros Hz%(f_equal (fun z => Z.testbit z n)).
    by rewrite Z.land_spec, Ha, Z.pow2_bits_true, Z.bits_0 in Hz.
  - apply negb_false_iff, Z.eqb_eq, Z.bits_inj'. intros m Hm.
    rewrite Z.land_spec, Z.bits_0, Z.pow2_bits_eqb by done.
    destruct (Z.eqb_spec n m) as [<-|]; [by rewrite Ha|apply andb_false_r].
Qed.

Lemma bitmap_offset pos : Z.to_nat ((Z.of_nat pos + 2) / 8) = ((pos + 2) / 8)%nat.
Proof.
  change 2 with (Z.of_nat 2). change 8 with (Z.of_nat 8).
  by rewrite <- Nat2Z.inj_add, <- Nat2Z.inj_div, Nat2Z.id.
Qed.

(** [store_null] sets the bit of its field and no other. *)
Lemma null_bit_set pos row k :
  (pos + 2 < 8 * length row)%nat ->
  null_bit (packet (store_null (mkProtocol row (Z.of_nat pos)))) k =
  bool_decide (k = pos + 2)%nat || null_bit row k.
Proof.
  intros Hpos. unfold store_null. cbn [packet field_pos].
  assert (Hbit : Z.land (Z.of_nat pos + 2) 7 = Z.of_nat ((pos + 2) mod 8)).
  { change 7 with (Z.ones 3). rewrite Z.land_ones by lia. change (2 ^ 3) with (Z.of_nat 8).
    change 2 with (Z.of_nat 2). by rewrite <- Nat2Z.inj_add, <- Nat2Z.inj_mod. }
  rewrite bitmap_offset, Hbit, Z.shiftl_1_l. unfold null_bit.
  destruct (lookup_lt_is_Some_2 row ((pos + 2) / 8)) as [c Hc].
  { apply Nat.Div0.div_lt_upper_bound. lia. }
  destruct (decide (k / 8 = (pos + 2) / 8)%nat) as [Heq|Hne].
  - rewrite Heq, list_lookup_alter_eq, Hc. cbn [fmap option_fmap option_map]. rewrite byte_value_of.
    pose proof (Nat.mod_upper_bound k 8). change 256 with (2 ^ 8).
    rewrite Z.mod_pow2_bits_low, Z.lor_spec, Z.pow2_bits_eqb, orb_comm by lia. f_equal.
    pose proof (Nat.div_mod_eq k 8). pose proof (Nat.div_mod_eq (pos + 2) 8).
    destruct (Z.eqb_spec (Z.of_nat ((pos + 2) mod 8)) (Z.of_nat (k mod 8))) as [Hm|Hm].
    + apply Nat2Z.inj in Hm. rewrite bool_decide_eq_true_2; [done|]. congruence.
    + rewrite bool_decide_eq_false_2; [done|]. by intros ->.
  - rewrite list_lookup_alter_ne by done. rewrite bool_decide_eq_false_2; [done|]. by intros ->.
Qed.

(** ** The row as it is written *)

Definition is_null (v : column_value) : bool := match v with VNull => true | _ => false end.

(** What a value adds to the packet. *)
Definition image (v : column_value) : bytes := packet (store_value (mkProtocol [] 0) v).

Definition storable (v : column_value) : Prop :=
  is_null v = false -> exists data, forall p, store_value p v = append data p.

Lemma storable_image v p :
  storable v -> is_null v = false -> store_value p v = append (image v) p.
Proof.
  intros Hv Hn. destruct (Hv Hn) as [data Hdata]. unfold image. by rewrite !Hdata.
Qed.

(** The bitmap [map] becomes [map'], whose bits say which values are null;
    the other values follow one after the other. *)
Lemma fold_store vs : forall map data pos,
  (pos + 2 + length vs <= 8 * length map)%nat -> Forall storable vs ->
  (forall k, (pos + 2 <= k)%nat -> null_bit map k = false) ->
  exists map', length map' = length map /\
    packet (fold_left store_value vs (mkProtocol (map ++ data) (Z.of_nat pos))) =
      map' ++ data ++ concat (image <$> vs) /\
    (forall k, (k < pos + 2)%nat -> null_bit map' k = null_bit map k) /\
    (forall j v, vs !! j = Some v -> null_bit map' (pos + 2 + j) = is_null v).
Proof.
  induction vs as [|v vs IH]; intros map data pos Hroom Hvs Hclear.
  { exists map. simpl. rewrite app_nil_r. by split_and!. }
  inversion Hvs as [|? ? Hv Hvs']; subst. cbn [length] in Hroom. cbn [fold_left fmap list_fmap concat].
  assert (Hnext : Z.of_nat pos + 1 = Z.of_nat (S pos)) by lia.
  destruct (is_null v) eqn:Hnull.
  - destruct v; try done. cbn [store_value].
    set (map1 := packet (store_null (mkProtocol map (Z.of_nat pos)))).
    assert (Hlen1 : length map1 = length map) by apply length_alter.
    assert (Hst : store_null (mkProtocol (map ++ data) (Z.of_nat pos)) = mkProtocol (map1 ++ data) (Z.of_nat (S pos))).
    { unfold store_null, map1. cbn [packet field_pos]. rewrite <- Hnext, alter_app_l; [done|].
      rewrite bitmap_offset. apply Nat.Div0.div_lt_upper_bound. lia. }
    rewrite Hst. destruct (IH map1 data (S pos)) as (map' & Hlen & Hpacket & Hlow & Hhigh).
    { lia. } { done. }
    { intros k Hk. unfold map1. rewrite null_bit_set, bool_decide_eq_false_2, Hclear by lia. done. }
    exists map'. split; [congruence|]. split; [exact Hpacket|]. split.
    + intros k Hk. rewrite Hlow by lia. unfold map1.
      by rewrite null_bit_set, bool_decide_eq_false_2 by lia.
    + intros [|j] v Hj; simpl in Hj.
      * injection Hj as <-. rewrite Nat.add_0_r, Hlow by lia. unfold map1.
        by rewrite null_bit_set, bool_decide_eq_true_2 by lia.
      * rewrite <- Nat.add_succ_comm. by apply (Hhigh j).
  - rewrite (storable_image v) by done. unfold append. cbn [packet field_pos].
    rewrite Hnext, <- app_assoc.
    destruct (IH map (data ++ image v) (S pos)) as (map' & Hlen & Hpacket & Hlow & Hhigh).
    { lia. } { done. } { intros k Hk. apply Hclear. lia. }
    exists map'. split; [done|]. split; [by rewrite Hpacket, <- app_assoc|]. split.
    + intros k Hk. apply Hlow. lia.
    + intros [|j] u Hj; simpl in Hj.
      * injection Hj as <-. rewrite Nat.add_0_r, Hlow, Hclear by lia. done.
      * rewrite <- Nat.add_succ_comm. by apply (Hhigh j).
Qed.

(** ** The row as it is read *)

(** The mask of the next column. *)
Lemma next_mask k :
  let next := (2 ^ Z.of_nat (k mod 8) * 2) mod 256 in
  if next =? 0 then (S k / 8 = S (k / 8) /\ S k mod 8 = 0)%nat
  else (S k / 8 = k / 8)%nat /\ next = 2 ^ Z.of_nat (S k mod 8).
Proof.
  pose proof (Nat.mod_upper_bound k 8) as Hm. pose proof (Nat.div_mod_eq k 8) as Hk.
  set (q := (k / 8)%nat) in *. set (r := (k mod 8)%nat) in *.
  destruct (decide (r = 7)%nat) as [Hr|Hr].
  - rewrite Hr in *. change ((2 ^ Z.of_nat 7 * 2) mod 256) with 0. cbv zeta.
    change (0 =? 0) with true. cbn iota.
    split; symmetry; [apply (Nat.div_unique _ _ _ 0)|apply (Nat.mod_unique _ _ (S q))]; lia.
  - assert (Hdiv : (S k / 8 = q)%nat) by (symmetry; apply (Nat.div_unique _ _ _ (S r)); lia).
    assert (Hmod : (S k mod 8 = S r)%nat) by (symmetry; apply (Nat.mod_unique _ _ q); lia).
    rewrite Hdiv, Hmod, Nat2Z.inj_succ, Z.pow_succ_r by lia.
    assert (Hpow : 0 < 2 ^ Z.of_nat r <= 2 ^ 6).
    { split; [apply Z.pow_pos_nonneg; lia|apply Z.pow_le_mono_r; lia]. }
    change (2 ^ 6) with 64 in Hpow. cbv zeta. rewrite Z.mod_small by lia.
    rewrite (proj2 (Z.eqb_neq _ _)) by lia. split; [done|lia].
Qed.

Section roundtrip.
  Context `{Server}.

(** A value of a column, with the text a buffer of its width receives. *)
Definition column_ok (column : MYSQL_FIELD * Z) (v : column_value) (t : option bytes) : Prop :=
  value_ok column.1 v /\ value_text column.1 column.2 v = Some t.

Lemma column_ok_storable column v t : column_ok column v t -> storable v.
Proof.
  intros [Hv Ht] Hn. destruct t as [t|].
  - destruct (column_roundtrip _ _ v t [] Hv Ht) as (data & Hdata & _). by exists data.
  - destruct v; simpl in Ht; try done; by apply fmap_Some in Ht as (? & _ & ?).
Qed.

Lemma read_value column v t c bit rest :
  column_ok column v t -> has_flag (byte_value c) bit = is_null v ->
  exists value, (if has_flag (byte_value c) bit then Some (None, image v ++ rest)
     else '(text, rest') ← column_text column.1 column.2 (image v ++ rest);
          Some (Some (image v ++ rest, text), rest')) = Some (value, rest) /\ row_value value = t.
Proof.
  intros Hok ->. pose proof (column_ok_storable _ _ _ Hok) as Hst. destruct Hok as [Hv Ht].
  destruct (is_null v) eqn:Hn.
  - destruct v; try done. injection Ht as <-. by exists None.
  - destruct t as [t|].
    2: { destruct v; simpl in Ht; try done; by apply fmap_Some in Ht as (? & _ & ?). }
    destruct (column_roundtrip _ _ v t rest Hv Ht) as (data & Hdata & Hread).
    assert (Himage : image v = data) by (unfold image; by rewrite Hdata).
    rewrite Himage, Hread. by eexists.
Qed.

Lemma decode_written columns vs ts : Forall3 column_ok columns vs ts -> forall k row rest,
  (k + length vs <= 8 * length row)%nat ->
  (forall j v, vs !! j = Some v -> null_bit row (k + j) = is_null v) ->
  exists values,
    decode_columns columns (drop (k / 8) row) (2 ^ Z.of_nat (k mod 8)) (concat (image <$> vs) ++ rest) =
      Some values /\ row_value <$> values = ts.
Proof.
  induction 1 as [|[field width] v t columns vs ts Hok _ IH]; intros k row rest Hroom Hbits.
  { by exists []. }
  cbn [length] in Hroom.
  destruct (lookup_lt_is_Some_2 row (k / 8)) as [c Hc]; [apply Nat.Div0.div_lt_upper_bound; lia|].
  pose proof (Hbits 0%nat v eq_refl) as Hbit. rewrite Nat.add_0_r in Hbit. unfold null_bit in Hbit.
  rewrite Hc in Hbit. rewrite <- (has_flag_bit _ (Z.of_nat (k mod 8))) in Hbit by lia.
  rewrite (drop_S _ _ _ Hc). cbn [decode_columns fmap list_fmap concat]. rewrite <- app_assoc.
  destruct (read_value (field, width) v t c _ (concat (image <$> vs) ++ rest) Hok Hbit)
    as (value & Hread & Hvalue). cbn [fst snd] in Hread. rewrite Hread. cbn [mbind option_bind].
  destruct (IH (S k) row rest) as (values & Hvalues & Hts).
  { lia. } { intros j u Hj. rewrite <- (Hbits (S j) u Hj). f_equal. lia. }
  exists (value :: values). split; [|by rewrite fmap_cons, Hvalue, Hts].
  pose proof (next_mask k) as Hnext. cbv zeta in Hnext.
  destruct (_ =? 0); destruct Hnext as [Hdiv Hmod]; rewrite Hdiv in Hvalues.
  - rewrite Hmod in Hvalues. change (2 ^ Z.of_nat 0) with 1 in Hvalues. by rewrite Hvalues.
  - rewrite <- Hmod, (drop_S _ _ _ Hc) in Hvalues. by rewrite Hvalues.
Qed.

(** A row is read back as it was written. *)
Lemma row_packet_decoded columns vs ts :
  Forall3 column_ok columns vs ts ->
  exists values, decode_row columns (row_packet vs) = Some values /\ row_value <$> values = ts.
Proof.
  intros Hok. pose proof (Forall3_length_lm _ _ _ _ Hok) as Hlen.
  unfold decode_row, row_packet, prepare_for_resend. rewrite Hlen.
  set (n := Z.to_nat ((Z.of_nat (length vs) + 9) / 8)).
  assert (Hn : (2 + length vs <= 8 * n)%nat).
  { unfold n. pose proof (Z.div_mod (Z.of_nat (length vs) + 9) 8).
    pose proof (Z.mod_pos_bound (Z.of_nat (length vs) + 9) 8). lia. }
  destruct (fold_store vs (replicate n (byte_of 0)) [] 0) as (map' & Hmap & Hpacket & _ & Hbits).
  { rewrite length_replicate. lia. }
  { clear -Hok. induction Hok; constructor; [by eapply column_ok_storable|done]. }
  { intros k _. unfold null_bit. destruct (_ !! _) as [c|] eqn:Hc; [|done].
    apply lookup_replicate in Hc as [-> _]. apply Z.bits_0. }
  rewrite app_nil_r in Hpacket. cbn [app] in Hpacket.
  change (Z.of_nat 0) with 0 in Hpacket. rewrite Hpacket. rewrite length_replicate in Hmap.
  rewrite <- Hmap, drop_app_length.
  destruct (decode_written columns vs ts Hok 2 (map' ++ concat (image <$> vs)) [])
    as (values & Hvalues & Hts).
  { rewrite length_app. lia. }
  { intros j v Hj. rewrite <- (Hbits j v Hj). unfold null_bit. rewrite lookup_app_l; [done|].
    apply Nat.Div0.div_lt_upper_bound. apply lookup_lt_Some in Hj. lia. }
  exists values. split; [|done]. by rewrite app_nil_r in Hvalues.
Qed.
End roundtrip.

(** C13: a row of values that [Protocol_binary] writes, of any number of
    columns, types and nulls, is decoded by the client library's readers to
    exactly the texts of these values: integers of each width, signed and
    unsigned, in decimal, strings and blobs byte for byte, dates and times,
    and nulls where the server stored nulls. *)
Theorem row_roundtrip `{Server} (columns : list (MYSQL_FIELD * Z)) (vs : list column_value)
    (ts : list (option bytes)) (Hok : Forall3 column_ok columns vs ts) :
  exists values, decode_row columns (row_packet vs) = Some values /\ row_value <$> values = ts.
Proof. by apply row_packet_decoded. Qed.

(** Seven columns, so that the nulls take two bytes. *)
Definition wide_columns : list (MYSQL_FIELD * Z) :=
  let field ty flags := (mkField None None None None 20 flags 0 0 ty, 20) in
  [field MYSQL_TYPE_TINY 0; field MYSQL_TYPE_LONGLONG UNSIGNED_FLAG; field MYSQL_TYPE_LONG 0;
   field MYSQL_TYPE_VAR_STRING 0; field MYSQL_TYPE_DATETIME 0; field MYSQL_TYPE_BLOB 0;
   field MYSQL_TYPE_TIME 0].

Definition wide_row : list column_value :=
  [VTiny (-128); VLonglong (2 ^ 64 - 1); VNull; VString (str "text");
   VDatetime (mkTime 2024 2 29 23 59 1 0 false MYSQL_TIMESTAMP_DATETIME); VString [zero]; VNull].

Lemma row_roundtrip_witness :
  exists values, decode_row wide_columns (row_packet wide_row) = Some values /\
    row_value <$> values =
    [Some (str "-128"); Some (str "18446744073709551615"); None; Some (str "text");
     Some (str "2024-02-29 23:59:01"); Some [zero]; None].
Proof.
  apply (row_roundtrip wide_columns wide_row). unfold wide_columns, wide_row.
  repeat constructor; try done; vm_compute; try done; by left.
Defined.

(** ** Texts of numbers and times *)

(** C33: the conversion loop of [int10_to_str], which works on the high part
    of the number first because the number may not fit a signed long, writes
    exactly the decimal digits that [std::to_string] writes: of the signed
    number for a negative radix, of the number as unsigned otherwise. *)
Theorem int10_to_str_is_to_string (val radix : Z) (Hval : - 2 ^ 63 <= val < 2 ^ 63) :
  int10_to_str val radix = to_string (if radix <? 0 then val else val mod 2 ^ 64).
Proof. by apply int10_to_str_decimal. Qed.

Lemma int10_to_str_is_to_string_witness :
  int10_to_str (- 2 ^ 63) (-10) = to_string (- 2 ^ 63) /\
  int10_to_str (-1) 10 = to_string (2 ^ 64 - 1).
Proof.
  split; [apply (int10_to_str_is_to_string (- 2 ^ 63) (-10))|apply (int10_to_str_is_to_string (-1) 10)]; lia.
Defined.

Lemma long_text_length field value unsigned :
  - 2 ^ 63 <= value < 2 ^ 63 -> (length (long_text field value unsigned) <= 20)%nat.
Proof.
  intros Hv. unfold long_text, zero_fill. set (text := int10_to_str _ _).
  assert (Ht : (length text <= 20)%nat) by (apply int10_to_str_length; lia).
  destruct (_ && _) eqn:Hfill; [|done].
  rewrite !andb_true_iff, !Z.ltb_lt in Hfill. destruct Hfill as [[_ H1] H2].
  rewrite length_app, length_replicate. lia.
Qed.

(** C34: the texts of integers and of dates and times fit, with their final
    zero, in the buffers on the stack that the client library makes them in:
    22 bytes for an integer, filled up with zeros or not, and
    [MAX_DATE_STRING_REP_LENGTH] bytes for any contents of a [MYSQL_TIME]. *)
Theorem conversion_buffers_suffice (field : MYSQL_FIELD) (value : Z) (unsigned : bool)
    (tm : MYSQL_TIME) (decimals : Z) (text : bytes)
    (Hvalue : - 2 ^ 63 <= value < 2 ^ 63) (Htext : my_TIME_to_str tm decimals = Some text) :
  (S (length (long_text field value unsigned)) <= 22)%nat /\
  (S (length text) <= MAX_DATE_STRING_REP_LENGTH)%nat.
Proof.
  pose proof (long_text_length field value unsigned Hvalue).
  pose proof (my_TIME_to_str_length tm decimals text Htext). lia.
Qed.

Definition zero_filled_field : MYSQL_FIELD :=
  mkField None None None None 20 (Z.lor UNSIGNED_FLAG ZEROFILL_FLAG) 0 0 MYSQL_TYPE_LONGLONG.

Lemma conversion_buffers_suffice_witness :
  let tm := mkTime 0 0 0 (2 ^ 32 - 1) 59 59 999999 true MYSQL_TIMESTAMP_TIME in
  (S (length (long_text zero_filled_field 5 true)) <= 22)%nat /\
  (S (length (str "-4294967295:59:59.999999")) <= MAX_DATE_STRING_REP_LENGTH)%nat.
Proof.
  intros tm. apply (conversion_buffers_suffice zero_filled_field 5 true tm 6).
  - lia.
  - vm_compute. reflexivity.
Defined.
