(* ===== verification/Fetch.v ===== *)
(** * Stepping through a result

    A statement that streams rows ([streaming]) gives them one by one: each
    fetch takes the next row of the server's answer, and when it has returned
    the columns hold that row ([holds]). *)

From S2P Require Import Prelude Api Effects SqlLexer SqlPolicy System Numbers World BinaryRow.
From S2P Require Import ClientQuery ClientStmt Runtime Exec Statement Frames Rules ClientFacts.
From S2P Require Import Scripted RuntimeFacts Library ExecFacts Termination StatementFacts.
From S2P Require Import Lifetime Rows.
From stdpp Require Import options.
Set Default Proof Using "Type*".

Local Open Scope Z_scope.

(** ** Taking a row from the server's answer *)

(** The connection has the rows [rows] left to fetch, and no other answer. *)
Definition streaming (rows : list MYSQL_ROW) (c : MYSQL) : Prop :=
  m_status c = MYSQL_STATUS_STATEMENT_GET_RESULT /\
  m_report_data_truncation c = true /\ more_results (m_server_status c) = false /\
  exists t, m_thd c = Some t /\ first_data t = [] /\
    match cur_data t with
    | Some data => d_last_errno data = 0 /\ d_rows data = rows
    | None => rows = []
    end.

Section fetch.
  Context `{Server}.

(** What a fetch leaves as it was. *)
Definition kept_by_fetch (w w' : world) : Prop :=
  dbs w' = dbs w /\ server_state w' = server_state w /\ sys w' = sys w /\
  allocations w' = allocations w.

Lemma read_row_spec m d ms row rows (Q : outcome (Z * option MYSQL_ROW) -> world -> Prop) w :
  mysql_stmts w !! m = Some ms -> s_mysql ms = Some d ->
  s_read_row_func ms = stmt_read_row_unbuffered -> connection d (streaming (row :: rows)) w ->
  (forall c, streaming rows c ->
     Q (Ret (0, Some row)) (set_connections (<[d := c]> (connections w)) w)) ->
  wp (run_read_row_func m) Q w.
Proof.
  intros Hms Hd Hf (c & Hc & Hstatus & Hreport & Hmore & t & Ht & Hq & Hcur) HQ.
  destruct (cur_data t) as [data|] eqn:Hdata; [destruct Hcur as [Herrno Hrows]|done].
  unfold run_read_row_func. wp_auto. rewrite Hf. unfold read_row_unbuffered. wp_auto. rewrite Hd.
  wp_auto. rewrite Hstatus, bool_decide_eq_true_2 by done. simpl. unfold emb_unbuffered_fetch.
  wp_auto. rewrite Hdata, Herrno. simpl. rewrite Hrows. wp_auto. apply HQ.
  split; [done|]. split; [done|]. split; [done|]. by eexists _.
Qed.

Lemma read_row_end m d ms (Q : outcome (Z * option MYSQL_ROW) -> world -> Prop) w :
  mysql_stmts w !! m = Some ms -> s_mysql ms = Some d ->
  s_read_row_func ms = stmt_read_row_unbuffered -> connection d (streaming []) w ->
  (forall c, ready c -> more_results (m_server_status c) = false ->
     m_report_data_truncation c = true -> (exists t, m_thd c = Some t /\ first_data t = []) ->
     Q (Ret (MYSQL_NO_DATA, None)) (set_connections (<[d := c]> (connections w)) w)) ->
  wp (run_read_row_func m) Q w.
Proof.
  intros Hms Hd Hf (c & Hc & Hstatus & Hreport & Hmore & t & Ht & Hq & Hcur) HQ.
  unfold run_read_row_func. wp_auto. rewrite Hf. unfold read_row_unbuffered. wp_auto. rewrite Hd.
  wp_auto. rewrite Hstatus, bool_decide_eq_true_2 by done. simpl. unfold emb_unbuffered_fetch. wp_auto.
  assert (HQ' : forall t' c', first_data t' = [] -> c' = with_status MYSQL_STATUS_READY (with_thd (Some t') c) ->
    Q (Ret (MYSQL_NO_DATA, None)) (set_connections (<[d := if decide (m_unbuffered_fetch_owner c = Some m)
      then with_owner None c' else c']> (connections w)) w)).
  { intros t' c' Ht' ->. apply HQ; destruct (decide _); try done; by eexists. }
  destruct (cur_data t) as [data|] eqn:Hdata.
  - destruct Hcur as [-> ->]. simpl. wp_auto.
    specialize (HQ' (with_data (first_data t) (head (first_data t)) t) _ Hq eq_refl).
    revert HQ'. simpl. rewrite !insert_insert_eq. exact (fun HQ' => HQ').
  - wp_auto. specialize (HQ' t _ Hq eq_refl).
    revert HQ'. destruct c; simpl in *. subst. rewrite !insert_insert_eq. exact (fun HQ' => HQ').
Qed.

(** The [MYSQL_STMT] after a row was fetched. *)
Definition fetched_mstmt (slots : list slot) (values : list (option (bytes * bytes)))
    (ms : MYSQL_STMT) : MYSQL_STMT :=
  with_s_state MYSQL_STMT_FETCH_DONE (with_s_bind (zip_with bind_after slots values) ms).

Lemma clean_slot_ok s d m slots st ms w j sl :
  result_at s d m slots st ms w -> clean s slots st ms -> slots !! j = Some sl ->
  slot_ok s (columns_generation st) j (buffers w) sl.
Proof.
  intros Hr Hcl Hj. destruct (cl_slots _ _ _ _ Hcl j sl Hj) as (_ & ? & ? & ?).
  split; try done. apply (ra_live _ _ _ _ _ _ _ Hr j sl Hj).
Qed.

Lemma mysql_stmt_fetch_row s d m slots st ms packet rows values w :
  result_at s d m slots st ms w -> clean s slots st ms ->
  s_read_row_func ms = stmt_read_row_unbuffered ->
  connection d (streaming (BinaryRow packet :: rows)) w ->
  decode_row (shape <$> slots) packet = Some values ->
  wp (mysql_stmt_fetch m) (fun o w' =>
    o = Ret (if negb (truncations slots values =? 0) then MYSQL_DATA_TRUNCATED else 0) /\
    stmts w' !! s = Some (with_columns (zip_with column_after slots values) st) /\
    mysql_stmts w' !! m = Some (fetched_mstmt slots values ms) /\
    buffers w' = buffers_after slots values (buffers w) /\
    next_address w' = next_address w /\ connection d (streaming rows) w' /\
    kept_by_fetch w w') w.
Proof.
  intros Hr Hcl Hf Hc Hvalues. unfold mysql_stmt_fetch. apply wp_bind.
  pose proof (ra_mstmt _ _ _ _ _ _ _ Hr) as Hms.
  eapply read_row_spec; [apply Hr|apply Hr|done|done|]. intros c' Hc'. apply bind_post_ret.
  apply wp_bind. cbn beta iota. change (0 =? 0) with true. cbn iota. unfold stmt_fetch_row.
  wp_auto. rewrite (cl_done _ _ _ _ Hcl). simpl. apply wp_bind.
  rewrite (cl_binds _ _ _ _ Hcl), (ra_fields _ _ _ _ _ _ _ Hr), (ra_count _ _ _ _ _ _ _ Hr).
  unfold decode_row in Hvalues. rewrite length_fmap in Hvalues.
  eapply (fetch_columns_spec s (columns_generation st) slots []); [apply Hr|done|apply Hr| |done|].
  { intros j sl Hj. simpl. by eapply clean_slot_ok. }
  apply bind_post_ret. wp_auto. rewrite (cl_report _ _ _ _ Hcl), andb_true_r.
  destruct (negb (truncations slots values =? 0)); simpl; wp_auto;
    (split; [done|]; split; [apply lookup_insert_eq|]; split; [apply lookup_insert_eq|];
     split; [done|]; split; [done|]; split; [|done]; exists c'; split; [apply lookup_insert_eq|done]).
Qed.

(** ** Fetching a column again into a larger buffer *)

Lemma mysql_stmt_fetch_column_spec s g j m ms b param field row text rest st c p width old
    (Q : outcome (bool * MYSQL_BIND) -> world -> Prop) w :
  mysql_stmts w !! m = Some ms -> s_state ms = MYSQL_STMT_FETCH_DONE ->
  Z.of_nat j < s_field_count ms -> s_bind ms !! j = Some param -> s_fields ms !! j = Some field ->
  row_ptr param = Some row -> length_ptr param = Some (OfColumn s g j) ->
  bound_column s g j p width b ->
  stmts w !! s = Some st -> columns_generation st = g -> columns st !! j = Some c ->
  buffers w !! p = Some old -> length old = S width ->
  column_text field (Z.of_nat width) row = Some (text, rest) ->
  Q (Ret (false, with_bind_offset 0 b))
    (fetched_text s j p width text old st (with_members (c_length c) 0 0 c) w) ->
  wp (mysql_stmt_fetch_column m b j 0) Q w.
Proof.
  intros Hms Hstate Hj Hparam Hfield Hrow Hpl Hb Hst Hg Hc Hp Hold Htext HQ.
  pose proof (lookup_lt_Some _ _ _ Hc) as Hi.
  pose proof (bc_is_null_ptr _ _ _ _ _ _ Hb) as Hnp. pose proof (bc_error_ptr _ _ _ _ _ _ Hb) as Hep.
  pose proof (bc_length_ptr _ _ _ _ _ _ Hb) as Hlp.
  unfold mysql_stmt_fetch_column. wp_auto. rewrite Hstate. simpl.
  rewrite (proj2 (Z.leb_gt _ _)) by lia. apply wp_bind.
  eapply wp_deref; [done|]. apply bind_post_ret, wp_bind. eapply wp_deref; [done|].
  apply bind_post_ret. rewrite Hep. apply wp_bind. write_member s g j. apply bind_post_ret.
  rewrite Hrow. apply wp_bind. cbn [is_null_ptr with_bind_offset]. rewrite Hnp.
  write_member s g j. apply bind_post_ret, wp_bind. cbn [length_ptr with_bind_offset]. rewrite Hlp.
  apply wp_bind. unfold read_length, read_member. rewrite Hpl. apply wp_bind. eapply wp_deref.
  { unfold column_of, put_columns. simpl. rewrite lookup_insert_eq. simpl.
    rewrite decide_True by done. apply list_lookup_insert_eq. lia. }
  apply bind_post_ret, wp_ret, bind_post_ret. write_member s g j. apply bind_post_ret, wp_bind.
  unfold run_fetch_result_with_conversion. cbn [buffer_length with_bind_offset].
  rewrite (bc_length _ _ _ _ _ _ Hb), Htext. apply wp_bind.
  eapply (fetch_string_spec s g j p width);
    [by destruct Hb|done|apply lookup_insert_eq|done|apply list_lookup_insert_eq; lia|exact Hp|done|].
  apply bind_post_ret, wp_ret, bind_post_ret, wp_ret. revert HQ.
  unfold fetched_text, put_columns. simpl. rewrite insert_insert_eq, list_insert_insert_eq.
  exact (fun HQ => HQ).
Qed.

(** The column [c] after its value, [text], was fetched into the storage [b]. *)
Definition grown_bind (b : nat) (text : bytes) (c : ResultColumn) : MYSQL_BIND :=
  with_buffer (Some (Storage b)) (with_bind_offset 0
    (with_buffer_length (Z.of_nat (length text)) (with_buffer (Some (Storage b)) (c_bind c)))).
Definition grown_column (b : nat) (text : bytes) (c : ResultColumn) : ResultColumn :=
  with_c_bind (grown_bind b text c)
    (with_c_buffers (Some b) (c_buffer c) (with_members (Z.of_nat (length text)) 0 0 c)).
Definition grown_world (s j : nat) (text : bytes) (st : mylite_stmt) (c : ResultColumn)
    (w : world) : world :=
  let b := next_address w in
  set_stmts (<[s := with_result_binds (<[j := grown_bind b text c]> (result_binds st)) true
                      (with_columns (<[j := grown_column b text c]> (columns st)) st)]> (stmts w))
    (set_buffers (<[b := text ++ [zero]]> (buffers w)) (set_next_address (S b) w)).

Lemma fill_exact text :
  fill (length text) text (replicate (S (length text)) zero) = text ++ [zero].
Proof.
  unfold fill. rewrite Nat.ltb_irrefl, firstn_all, drop_replicate.
  by replace (S (length text) - length text)%nat with 1%nat by lia.
Qed.

Lemma fetch_truncated_column_spec s g j m ms param field row text rest st c p width
    (Q : outcome Z -> world -> Prop) w :
  mysql_stmts w !! m = Some ms -> s_state ms = MYSQL_STMT_FETCH_DONE ->
  Z.of_nat j < s_field_count ms -> s_bind ms !! j = Some param -> s_fields ms !! j = Some field ->
  row_ptr param = Some row -> length_ptr param = Some (OfColumn s g j) ->
  stmts w !! s = Some st -> stmt st = Some m -> columns_generation st = g ->
  columns st !! j = Some c -> bound_column s g j p width (c_bind c) ->
  c_retired_buffer c = None -> c_length c = Z.of_nat (length text) -> text <> [] ->
  Z.of_nat (length text) < vector_max_size -> allocations w = [] ->
  column_text field (Z.of_nat (length text)) row = Some (text, rest) ->
  Q (Ret MYLITE_OK) (grown_world s j text st c w) ->
  wp (fetch_truncated_column s j c) Q w.
Proof.
  intros Hms Hstate Hj Hparam Hfield Hrow Hpl Hst Hm Hg Hc Hb Hret Hlen Hne Hmax Halloc Htext HQ.
  unfold vector_max_size in Hmax. unfold fetch_truncated_column. rewrite Hlen.
  assert (Hpos : (0 < length text)%nat) by (destruct text; simpl; [done|lia]).
  rewrite (proj2 (Z.eqb_neq _ ULONG_MAX)) by (unfold ULONG_MAX; lia).
  replace (Z.max (Z.of_nat (length text)) 1) with (Z.of_nat (length text)) by lia.
  apply wp_bind. unfold allocate_column_buffer.
  rewrite (proj2 (Z.eqb_neq _ ULONG_MAX)) by (unfold ULONG_MAX; lia).
  rewrite (proj2 (Z.ltb_ge vector_max_size _)) by (unfold vector_max_size; lia).
  wp_auto. simpl. wp_auto. set (b := next_address w).
  apply wp_bind. eapply wp_deref; [simpl; rewrite Hst; exact Hm|]. apply bind_post_ret, wp_bind.
  replace (Z.to_nat (Z.of_nat (length text) + 1)) with (S (length text)) by lia.
  eapply (mysql_stmt_fetch_column_spec s g j);
    [exact Hms|done|done|exact Hparam|exact Hfield|done|done| |exact Hst|done|exact Hc
    |apply lookup_insert_eq|by rewrite length_replicate|exact Htext|].
  { destruct Hb. by split. }
  apply bind_post_ret. cbn iota. rewrite Hret. apply wp_bind. apply wp_ret, bind_post_ret, wp_bind.
  eapply wp_deref.
  { unfold fetched_text, put_columns. simpl. rewrite lookup_insert_eq. simpl.
    apply list_lookup_insert_eq. by eapply lookup_lt_Some. }
  apply bind_post_ret, wp_bind. eapply wp_update_stmt; [apply lookup_insert_eq|].
  apply bind_post_ret, wp_ret. revert HQ. unfold grown_world, fetched_text, put_columns. simpl.
  rewrite insert_insert_eq, list_insert_insert_eq, insert_insert_eq, fill_exact.
  unfold grown_column, column_with. rewrite Z.ltb_irrefl. exact (fun HQ => HQ).
Qed.

(** ** The columns after a fetch *)

(** The column of a slot has the value [v], complete. *)
Definition holds (bufs : gmap nat bytes) (sl : slot) (v : option (bytes * bytes)) : Prop :=
  let c := sl_column sl in
  match v with
  | None => c_is_null c = 1
  | Some (_, text) =>
      c_is_null c = 0 /\ c_length c = Z.of_nat (length text) /\
      (length text <= sl_width sl)%nat /\
      exists data, bufs !! sl_storage sl = Some data /\ take (length text) data = text
  end.

(** The value was cut off, and can be fetched again. *)
Definition cut (sl : slot) (v : option (bytes * bytes)) : Prop :=
  let c := sl_column sl in
  exists row text, v = Some (row, text) /\ c_is_null c = 0 /\ c_error c = 1 /\
    c_length c = Z.of_nat (length text) /\ (sl_width sl < length text)%nat /\
    c_retired_buffer c = None /\ row_ptr (sl_bind sl) = Some row.

Definition fetched (bufs : gmap nat bytes) (sl : slot) (v : option (bytes * bytes)) : Prop :=
  (holds bufs sl v /\ (c_is_null (sl_column sl) = 1 \/ c_error (sl_column sl) = 0)) \/ cut sl v.

(** The width of the buffer a column gets at first. *)
Definition initial_width (field : MYSQL_FIELD) : Z :=
  Z.min (Z.max (f_length field) 1) k_initial_result_buffer_size.

(** The text of a floating-point number is made for the width of its buffer. *)
Definition width_dependent (field : MYSQL_FIELD) : bool :=
  match f_type field with
  | MYSQL_TYPE_FLOAT | MYSQL_TYPE_DOUBLE => FLOATING_POINT_DECIMALS <=? f_decimals field
  | _ => false
  end.

(** A value that fits in memory, and that either fits in the buffer it was
    made for or is the same for every buffer. *)
Definition exact_value (sl : slot) (v : option (bytes * bytes)) : Prop :=
  match v with
  | None => True
  | Some (row, text) =>
      Z.of_nat (length text) < vector_max_size /\
      if width_dependent (sl_field sl) then (length text <= sl_width sl)%nat
      else forall width, exists rest, column_text (sl_field sl) width row = Some (text, rest)
  end.

(** Buffers of numbers whose text depends on the width keep it. *)
Definition steady (sl : slot) : Prop :=
  width_dependent (sl_field sl) = true -> Z.of_nat (sl_width sl) = initial_width (sl_field sl).

(** A slot whose column has moved to the new storage [b]. *)
Definition grow (b : nat) (text : bytes) (sl : slot) : slot :=
  mkSlot (sl_bind sl) (sl_field sl) (grown_column b text (sl_column sl)) b (length text).

Lemma live_grow s g j bufs next text sl :
  live s g j bufs next sl ->
  live s g j (<[next := text ++ [zero]]> bufs) (S next) (grow next text sl).
Proof.
  intros [Hb Hbuf Hroom Hlt Hret Hk]. split; simpl; try done.
  - destruct Hb. by split.
  - exists (text ++ [zero]). split; [apply lookup_insert_eq|]. rewrite length_app. simpl. lia.
  - lia.
  - rewrite Hbuf. intros r [= <-]. lia.
Qed.

Lemma live_later s g j bufs next data sl :
  live s g j bufs next sl -> live s g j (<[next := data]> bufs) (S next) sl.
Proof.
  intros [Hb Hbuf (old & Hold & Hlen) Hlt Hret Hk]. split; try done.
  - exists old. split; [|done]. rewrite lookup_insert_ne by lia. done.
  - lia.
  - intros r Hr. specialize (Hret r Hr). lia.
Qed.

Lemma apart_grow slots j sl next text s g bufs :
  apart slots -> slots !! j = Some sl ->
  (forall k sl, slots !! k = Some sl -> live s g k bufs next sl) ->
  apart (<[j := grow next text sl]> slots).
Proof.
  intros [Ha Hr] Hj Hlive.
  assert (Hfresh : forall k sl', slots !! k = Some sl' -> (sl_storage sl' < next)%nat)
    by (intros k sl' Hk; by apply (Hlive k sl' Hk)).
  split; intros k l sl1 sl2; rewrite !list_lookup_insert_Some.
  - intros [(<- & <- & _)|[Hne Hk]] [(<- & <- & _)|[Hne' Hl]]; simpl; intros Heq; try done.
    + specialize (Hfresh l sl2 Hl). lia.
    + specialize (Hfresh k sl1 Hk). lia.
    + by apply (Ha k l sl1 sl2).
  - intros [(<- & <- & _)|[Hne Hk]] [(<- & <- & _)|[Hne' Hl]]; simpl.
    + destruct (Hlive j sl Hj) as [_ -> _ Hlt _ _]. intros [= Heq]. lia.
    + intros Heq. pose proof (lv_retired _ _ _ _ _ _ (Hlive l sl2 Hl) _ Heq). lia.
    + destruct (Hlive j sl Hj) as [_ -> _ Hlt _ _]. intros [= Heq]. apply Hne.
      by apply (Ha j k sl sl1).
    + by apply (Hr k l).
Qed.

Lemma holds_later bufs next data sl v :
  (sl_storage sl < next)%nat -> holds bufs sl v -> holds (<[next := data]> bufs) sl v.
Proof.
  intros Hlt. destruct v as [[row text]|]; [|done]. simpl.
  intros (? & ? & ? & old & ? & ?). split_and!; try done. exists old.
  by rewrite lookup_insert_ne by lia.
Qed.

(** The state of the loop that fetches the cut columns again, at column [k]. *)
Record fetching (s d m k : nat) (slots : list slot) (values : list (option (bytes * bytes)))
    (st : mylite_stmt) (ms : MYSQL_STMT) (w : world) : Prop := mkFetching {
  fe_result : result_at s d m slots st ms w;
  fe_state : s_state ms = MYSQL_STMT_FETCH_DONE;
  fe_binds : s_bind ms = sl_bind <$> slots;
  fe_pointers : forall j sl, slots !! j = Some sl ->
    length_ptr (sl_bind sl) = Some (OfColumn s (columns_generation st) j);
  fe_alloc : allocations w = [];
  fe_exact : Forall2 exact_value slots values;
  fe_steady : Forall steady slots;
  fe_clean : result_binds_dirty st = false -> clean s slots st ms;
  fe_values : forall j sl v, slots !! j = Some sl -> values !! j = Some v ->
    if (j <? k)%nat then holds (buffers w) sl v else fetched (buffers w) sl v;
}.

Lemma result_at_grow s d m slots st ms w j sl text :
  result_at s d m slots st ms w -> slots !! j = Some sl ->
  let b := next_address w in
  result_at s d m (<[j := grow b text sl]> slots)
    (with_result_binds (<[j := grown_bind b text (sl_column sl)]> (result_binds st)) true
       (with_columns (<[j := grown_column b text (sl_column sl)]> (columns st)) st)) ms
    (grown_world s j text st (sl_column sl) w).
Proof.
  intros [Hst Hms Hm Hd Hmd Hcs Hrb Hf Hn Hne Hlive Hapart] Hj b. split; try done; simpl.
  - apply lookup_insert_eq.
  - by rewrite Hcs, list_fmap_insert.
  - by rewrite Hrb, list_fmap_insert.
  - rewrite Hf, list_fmap_insert. symmetry. apply list_insert_id. by rewrite list_lookup_fmap, Hj.
  - by rewrite length_insert.
  - intros Hnil%(f_equal length). rewrite length_insert in Hnil. by destruct slots.
  - intros k sl'. rewrite list_lookup_insert_Some. intros [(<- & <- & _)|[Hne' Hk]].
    + by apply live_grow, Hlive.
    + by apply live_later, Hlive.
  - by eapply apart_grow.
Qed.

Lemma fetching_grow s d m k slots values st ms w sl row text :
  fetching s d m k slots values st ms w -> slots !! k = Some sl ->
  values !! k = Some (Some (row, text)) -> (sl_width sl < length text)%nat ->
  fetching s d m (S k) (<[k := grow (next_address w) text sl]> slots) values
    (with_result_binds (<[k := grown_bind (next_address w) text (sl_column sl)]> (result_binds st))
       true (with_columns (<[k := grown_column (next_address w) text (sl_column sl)]> (columns st))
               st)) ms (grown_world s k text st (sl_column sl) w).
Proof.
  intros [Hr Hstate Hbinds Hptr Halloc Hexact Hsteady _ Hvs] Hsl Hv Hcut.
  pose proof (Forall2_lookup_lr _ _ _ _ _ _ Hexact Hsl Hv) as Hex.
  assert (Hfree : width_dependent (sl_field sl) = false)
    by (destruct Hex as [_ Hex]; destruct (width_dependent _); [lia|done]).
  split; try done.
  - by apply result_at_grow.
  - rewrite list_fmap_insert. simpl. rewrite list_insert_id; [done|]. by rewrite list_lookup_fmap, Hsl.
  - intros j sl'. rewrite list_lookup_insert_Some. intros [(<- & <- & _)|[_ Hj]];
      [apply (Hptr k sl Hsl)|apply (Hptr j sl' Hj)].
  - rewrite <- (list_insert_id values k (Some (row, text))) by done.
    apply Forall2_insert; [done|]. destruct Hex as [Hmax Hex]. simpl. rewrite Hfree in *. by split.
  - apply Forall_insert; [done|]. unfold steady. simpl. by rewrite Hfree.
  - intros j sl' v. rewrite list_lookup_insert_Some.
    intros [(<- & <- & _)|[Hne Hj]] Hv'.
    + rewrite Hv in Hv'. injection Hv' as <-. rewrite (proj2 (Nat.ltb_lt k (S k))) by lia. simpl.
      split_and!; try done. exists (text ++ [zero]). split; [apply lookup_insert_eq|apply take_app_length].
    + pose proof (lv_next _ _ _ _ _ _ (ra_live _ _ _ _ _ _ _ Hr j sl' Hj)) as Hlt.
      specialize (Hvs j sl' v Hj Hv').
      destruct (Nat.ltb_spec j k); destruct (Nat.ltb_spec j (S k)); try lia; simpl.
      * by apply holds_later.
      * destruct Hvs as [[Hh ?]|?]; [left; split; [by apply holds_later|done]|by right].
Qed.

Definition kept_by_refetch (st st' : mylite_stmt) (w w' : world) : Prop :=
  stmt_core st' = stmt_core st /\ connections w' = connections w /\ kept_by_fetch w w'.

Lemma fetching_next s d m k slots values st ms w sl v :
  fetching s d m k slots values st ms w -> slots !! k = Some sl -> values !! k = Some v ->
  holds (buffers w) sl v -> fetching s d m (S k) slots values st ms w.
Proof.
  intros [Hr Hstate Hbinds Hptr Halloc Hexact Hsteady Hclean Hvs] Hsl Hv Hh. split; try done.
  intros j sl' v' Hj Hv'. destruct (decide (j = k)) as [->|Hne].
  - rewrite (proj2 (Nat.ltb_lt k (S k))) by lia. congruence.
  - specialize (Hvs j sl' v' Hj Hv').
    destruct (Nat.ltb_spec j k); destruct (Nat.ltb_spec j (S k)); try lia; done.
Qed.

Lemma fetch_truncated_from_spec s d m ms values n : forall k slots st w,
  fetching s d m k slots values st ms w -> (k + n = length slots)%nat ->
  wp (fetch_truncated_from s (seq k n)) (fun o w' => o = Ret MYLITE_OK /\
    exists slots' st', fetching s d m (k + n) slots' values st' ms w' /\
      length slots' = length slots /\ kept_by_refetch st st' w w') w.
Proof.
  induction n as [|n IH]; intros k slots st w Hf Hlen; simpl.
  { split; [done|]. exists slots, st. rewrite Nat.add_0_r. split; [done|]. split; [done|].
    split; [done|]. split; [done|]. done. }
  destruct (lookup_lt_is_Some_2 slots k) as [sl Hsl]; [lia|].
  destruct (lookup_lt_is_Some_2 values k) as [v Hv].
  { rewrite <- (Forall2_length _ _ _ (fe_exact _ _ _ _ _ _ _ _ _ Hf)). lia. }
  pose proof (fe_result _ _ _ _ _ _ _ _ _ Hf) as Hr.
  assert (Hc : columns st !! k = Some (sl_column sl))
    by (by rewrite (ra_columns _ _ _ _ _ _ _ Hr), list_lookup_fmap, Hsl).
  apply wp_bind. eapply wp_deref; [rewrite (ra_stmt _ _ _ _ _ _ _ Hr); exact Hc|].
  apply bind_post_ret. pose proof (fe_values _ _ _ _ _ _ _ _ _ Hf k sl v Hsl Hv) as Hfe.
  rewrite Nat.ltb_irrefl in Hfe. rewrite <- Nat.add_succ_comm.
  destruct Hfe as [[Hh Hskip]|(row & text & -> & Hnull & Herr & Hl & Hw & Hret & Hrow)].
  - assert (Hcond : negb (c_is_null (sl_column sl) =? 0) || (c_error (sl_column sl) =? 0) = true)
      by (destruct Hskip as [-> | ->]; [done|apply orb_true_r]).
    rewrite Hcond. apply (IH (S k) slots st w); [by eapply fetching_next|lia].
  - rewrite Hnull, Herr. simpl. apply wp_bind.
    destruct (Forall2_lookup_lr _ _ _ _ _ _ (fe_exact _ _ _ _ _ _ _ _ _ Hf) Hsl Hv) as [Hmax Hexact].
    destruct (width_dependent (sl_field sl)); [lia|].
    destruct (Hexact (Z.of_nat (length text))) as [rest Htext].
    eapply (fetch_truncated_column_spec s (columns_generation st) k m ms (sl_bind sl) (sl_field sl)
              row text rest st (sl_column sl)).
    + apply Hr.
    + apply (fe_state _ _ _ _ _ _ _ _ _ Hf).
    + rewrite (ra_count _ _ _ _ _ _ _ Hr). lia.
    + by rewrite (fe_binds _ _ _ _ _ _ _ _ _ Hf), list_lookup_fmap, Hsl.
    + by rewrite (ra_fields _ _ _ _ _ _ _ Hr), list_lookup_fmap, Hsl.
    + exact Hrow.
    + by apply (fe_pointers _ _ _ _ _ _ _ _ _ Hf).
    + apply Hr.
    + apply (ra_m _ _ _ _ _ _ _ Hr).
    + done.
    + exact Hc.
    + apply (ra_live _ _ _ _ _ _ _ Hr k sl Hsl).
    + done.
    + done.
    + intros ->. simpl in Hw. lia.
    + done.
    + apply (fe_alloc _ _ _ _ _ _ _ _ _ Hf).
    + exact Htext.
    + apply bind_post_ret. simpl.
      eapply wp_mono; [eapply IH; [by eapply fetching_grow|rewrite length_insert; lia]|].
      intros o w' (-> & slots' & st' & Hf' & Hlen' & Hcore & Hconn & Hkept).
      split; [done|]. exists slots', st'. split; [done|]. split; [by rewrite Hlen', length_insert|].
      done.
Qed.

(** ** From the fetch to the loop *)

Definition fetched_slot (sl : slot) (v : option (bytes * bytes)) : slot :=
  mkSlot (bind_after sl v) (sl_field sl) (column_after sl v) (sl_storage sl) (sl_width sl).

Lemma decode_columns_length columns : forall nulls bit row values,
  decode_columns columns nulls bit row = Some values -> length values = length columns.
Proof.
  induction columns as [|[field width] columns IH]; intros nulls bit row values Hd; simpl in Hd.
  { by injection Hd as <-. }
  destruct nulls as [|null_byte nulls]; [done|].
  destruct (if has_flag _ _ then _ else _) as [[v rest]|]; [|done]. simpl in Hd.
  destruct (_ =? 0); destruct (decode_columns _ _ _ _) as [vs|] eqn:Hvs; try done;
    injection Hd as <-; simpl; f_equal; by eapply IH.
Qed.

Lemma buffers_after_other slots : forall values bufs p,
  (p ∉ sl_storage <$> slots) -> buffers_after slots values bufs !! p = bufs !! p.
Proof.
  induction slots as [|sl slots IH]; intros values bufs p Hp; [done|]. simpl in Hp.
  apply not_elem_of_cons in Hp as [Hne Hp]. destruct values as [|v values]; [done|]. simpl.
  rewrite IH by done. destruct v as [[row text]|]; [|done]. simpl. by rewrite lookup_alter_ne.
Qed.

Lemma buffers_after_lookup slots : forall values bufs j sl v,
  NoDup (sl_storage <$> slots) -> slots !! j = Some sl -> values !! j = Some v ->
  buffers_after slots values bufs !! sl_storage sl =
  storage_after sl v bufs !! sl_storage sl.
Proof.
  induction slots as [|sl0 slots IH]; intros values bufs j sl v Hnd Hsl Hv; [done|].
  apply NoDup_cons in Hnd as [Hnew Hnd]. destruct values as [|v0 values]; [done|].
  destruct j as [|j]; simpl in *.
  - injection Hsl as <-. injection Hv as <-. by apply buffers_after_other.
  - rewrite (IH values _ j sl v) by done.
    assert (Hne : sl_storage sl0 <> sl_storage sl).
    { intros Heq. apply Hnew. rewrite Heq. apply list_elem_of_fmap. exists sl.
      split; [done|]. by eapply list_elem_of_lookup_2. }
    destruct v0 as [[r0 t0]|]; [|done]. destruct v as [[row text]|]; simpl.
    + rewrite !lookup_alter_eq. by rewrite lookup_alter_ne.
    + by rewrite lookup_alter_ne.
Qed.

Lemma buffers_after_room slots : forall values bufs p width,
  (forall sl, sl ∈ slots -> has_room bufs (sl_storage sl) (sl_width sl)) ->
  has_room bufs p width -> has_room (buffers_after slots values bufs) p width.
Proof.
  induction slots as [|sl slots IH]; intros values bufs p width Hroom Hp; [done|].
  destruct values as [|v values]; [done|]. simpl. apply IH.
  - intros sl' Hsl'. apply has_room_after; apply Hroom; [by left|by right].
  - apply has_room_after; [apply Hroom; by left|done].
Qed.

Lemma apart_NoDup slots : apart slots -> NoDup (sl_storage <$> slots).
Proof.
  intros [Ha _]. apply NoDup_alt. intros j k p
    (sl & -> & Hj)%list_lookup_fmap_Some (sl' & Heq & Hk)%list_lookup_fmap_Some.
  by apply (Ha j k sl sl').
Qed.

Lemma fill_take width text old :
  (length text <= width)%nat -> take (length text) (fill width text old) = text.
Proof.
  intros Hle. unfold fill. destruct (Nat.ltb_spec (length text) width) as [Hlt|Hge].
  - apply take_app_length.
  - replace width with (length text) by lia. rewrite firstn_all. apply take_app_length.
Qed.

(** What the loop finds in each column. *)
Lemma fetched_after s d m slots values st ms w j sl v :
  result_at s d m slots st ms w -> clean s slots st ms ->
  slots !! j = Some sl -> values !! j = Some v ->
  fetched (buffers_after slots values (buffers w)) (fetched_slot sl v) v.
Proof.
  intros Hr Hcl Hsl Hv. destruct (cl_slots _ _ _ _ Hcl j sl Hsl) as (Hret & _).
  destruct (lv_room _ _ _ _ _ _ (ra_live _ _ _ _ _ _ _ Hr j sl Hsl)) as (old & Hold & Hlen).
  destruct v as [[row text]|]; [|left; split; [done|by left]].
  destruct (Nat.leb_spec (length text) (sl_width sl)) as [Hle|Hgt].
  - left. split.
    + simpl. split_and!; try done. exists (fill (sl_width sl) text old). split; [|by apply fill_take].
      rewrite (buffers_after_lookup slots values _ j sl (Some (row, text)));
        [|apply apart_NoDup, Hr|done|done].
      simpl. by rewrite lookup_alter_eq, Hold.
    + right. simpl. by rewrite (proj2 (Z.ltb_ge _ _)) by lia.
  - right. exists row, text. simpl. rewrite (proj2 (Z.ltb_lt _ _)) by lia. by split_and!.
Qed.
End fetch.
