(* ===== verification/Step.v ===== *)
(** * The rows [mylite_step] returns

    While a statement streams rows ([stepping]), each [mylite_step] returns
    [MYLITE_ROW] and leaves the next row of the server's answer, decoded, in
    the columns ([shows]); after the last row it returns [MYLITE_DONE]. *)

From S2P Require Import Prelude Api Effects SqlLexer SqlPolicy System Numbers World BinaryRow.
From S2P Require Import ClientQuery ClientStmt Runtime Exec Statement Frames Rules ClientFacts.
From S2P Require Import Scripted RuntimeFacts Library ExecFacts Termination StatementFacts.
From S2P Require Import Lifetime Rows Fetch.
From stdpp Require Import options.
Set Default Proof Using "Type*".

Local Open Scope Z_scope.

Section decode.
  Context `{Server}.

(** ** Decoding for buffers of other widths *)

Lemma column_text_width field width width' row :
  width_dependent field = false -> column_text field width row = column_text field width' row.
Proof.
  unfold width_dependent, column_text. intros Hw. destruct (f_type field); try done;
    unfold float_text; by rewrite Hw.
Qed.

Definition same_shape (c c' : MYSQL_FIELD * Z) : Prop :=
  c.1 = c'.1 /\ (width_dependent c.1 = true -> c.2 = c'.2).

Lemma decode_columns_widths columns columns' : Forall2 same_shape columns columns' ->
  forall nulls bit row, decode_columns columns nulls bit row = decode_columns columns' nulls bit row.
Proof.
  induction 1 as [|[f width] [f' width'] columns columns' [Hf Hw] _ IH]; intros nulls bit row; [done|].
  simpl in *. subst f'. destruct nulls as [|null_byte nulls]; [done|].
  assert (Htext : column_text f width row = column_text f width' row).
  { destruct (width_dependent f) eqn:Hdep; [by rewrite Hw|by apply column_text_width]. }
  rewrite Htext. destruct (if has_flag _ _ then _ else _) as [[v rest]|]; [|done]. simpl.
  by rewrite !IH.
Qed.

Lemma decode_columns_text columns : forall nulls bit row values j field width start text,
  decode_columns columns nulls bit row = Some values ->
  columns !! j = Some (field, width) -> values !! j = Some (Some (start, text)) ->
  exists rest, column_text field width start = Some (text, rest).
Proof.
  induction columns as [|[f w] columns IH]; intros nulls bit row values j field width start text Hd Hc Hv.
  { done. }
  simpl in Hd. destruct nulls as [|null_byte nulls]; [done|].
  destruct (if has_flag _ _ then _ else _) as [[v rest]|] eqn:Hval; [|done]. simpl in Hd.
  destruct (if _ =? 0 then _ else _) as [vs|] eqn:Hvs; [|done]. injection Hd as <-.
  destruct j as [|j].
  - injection Hc as -> ->. injection Hv as ->. destruct (has_flag _ _); [done|].
    destruct (column_text _ _ _) as [[t r]|] eqn:Ht; [|done]. injection Hval as -> -> ->. by eexists.
  - simpl in Hc, Hv. destruct (_ =? 0); by eapply IH.
Qed.
End decode.

Section start.
  Context `{Server}.

(** What is asked of the values of a row: they fit in memory, and a number
    whose text depends on the width of its buffer fits in that buffer. *)
Definition text_fits (field : MYSQL_FIELD) (t : option bytes) : Prop :=
  match t with
  | None => True
  | Some text =>
      Z.of_nat (length text) < vector_max_size /\
      (width_dependent field = true -> Z.of_nat (length text) <= initial_width field)
  end.
Definition fits (field : MYSQL_FIELD) (v : option (bytes * bytes)) : Prop :=
  text_fits field (row_value v).

Definition initial_shape (field : MYSQL_FIELD) : MYSQL_FIELD * Z := (field, initial_width field).

Lemma steady_shape slots :
  Forall steady slots -> Forall2 same_shape (shape <$> slots) (initial_shape <$> (sl_field <$> slots)).
Proof.
  intros Hs. rewrite <- list_fmap_compose. apply Forall2_fmap, Forall_Forall2_diag.
  eapply Forall_impl; [exact Hs|]. intros sl Hsl. by split.
Qed.

Lemma decode_row_widths slots packet :
  Forall steady slots ->
  decode_row (shape <$> slots) packet = decode_row (initial_shape <$> (sl_field <$> slots)) packet.
Proof.
  intros Hs. unfold decode_row. rewrite !length_fmap. by apply decode_columns_widths, steady_shape.
Qed.

Lemma decoded_exact slots packet values :
  Forall steady slots -> decode_row (shape <$> slots) packet = Some values ->
  Forall2 fits (sl_field <$> slots) values -> Forall2 exact_value slots values.
Proof.
  intros Hs Hd Hfits. apply Forall2_same_length_lookup_2.
  { apply Forall2_length in Hfits. by rewrite length_fmap in Hfits. }
  intros j sl v Hsl Hv.
  assert (Hf : (sl_field <$> slots) !! j = Some (sl_field sl)) by (by rewrite list_lookup_fmap, Hsl).
  pose proof (Forall2_lookup_lr _ _ _ _ _ _ Hfits Hf Hv) as Hfit.
  destruct v as [[start text]|]; [|done].
  change (text_fits (sl_field sl) (Some text)) in Hfit. destruct Hfit as [Hmax Hwidth]. split; [done|].
  destruct (width_dependent (sl_field sl)) eqn:Hdep.
  - rewrite Forall_lookup in Hs. specialize (Hs j sl Hsl Hdep). specialize (Hwidth eq_refl). lia.
  - intros width. destruct (decode_columns_text _ _ _ _ _ j (sl_field sl) (Z.of_nat (sl_width sl))
      start text Hd) as [rest Hrest]; [by rewrite list_lookup_fmap, Hsl|done|].
    exists rest. by rewrite (column_text_width _ width (Z.of_nat (sl_width sl))).
Qed.

(** ** The state in which the loop over the cut columns starts *)

Lemma zip_with_fmap_l {A B C} (f : A -> B -> C) (g : C -> A) xs : forall ys,
  length xs = length ys -> (forall x y, g (f x y) = x) -> g <$> zip_with f xs ys = xs.
Proof.
  induction xs as [|x xs IH]; intros [|y ys] Hlen Hg; try done. simpl. rewrite Hg. f_equal.
  apply IH; [by injection Hlen|done].
Qed.

Lemma fmap_zip_with {A B C D} (f : A -> B -> C) (g : C -> D) (h : A -> B -> D) xs ys :
  (forall x y, g (f x y) = h x y) -> g <$> zip_with f xs ys = zip_with h xs ys.
Proof.
  intros Hg. revert ys. induction xs as [|x xs IH]; intros [|y ys]; try done. simpl. by rewrite Hg, IH.
Qed.

Lemma fmap_zip_with_l {A B C D} (f : A -> B -> C) (g : C -> D) (h : A -> D) xs : forall ys,
  length xs = length ys -> (forall x y, g (f x y) = h x) -> g <$> zip_with f xs ys = h <$> xs.
Proof.
  induction xs as [|x xs IH]; intros [|y ys] Hlen Hg; try done. simpl. rewrite Hg. f_equal.
  apply IH; [by injection Hlen|done].
Qed.

Lemma column_after_kept sl v :
  c_bind (column_after sl v) = c_bind (sl_column sl) /\
  c_buffer (column_after sl v) = c_buffer (sl_column sl) /\
  c_retired_buffer (column_after sl v) = c_retired_buffer (sl_column sl) /\
  column_description (column_after sl v) = column_description (sl_column sl).
Proof. by destruct v as [[row text]|]. Qed.

Lemma apart_fetched slots values :
  apart slots -> apart (zip_with fetched_slot slots values).
Proof.
  intros [Ha Hr]. split; intros j k sl sl' (sl0 & v0 & -> & Hj & _)%lookup_zip_with_Some
    (sl1 & v1 & -> & Hk & _)%lookup_zip_with_Some; simpl.
  - by apply (Ha j k sl0 sl1).
  - destruct (column_after_kept sl1 v1) as (_ & _ & -> & _). by apply (Hr j k).
Qed.

Lemma result_at_fetched s d m slots values st ms w w' :
  result_at s d m slots st ms w -> length slots = length values ->
  stmts w' !! s = Some (with_columns (zip_with column_after slots values) st) ->
  mysql_stmts w' !! m = Some (fetched_mstmt slots values ms) ->
  buffers w' = buffers_after slots values (buffers w) -> next_address w' = next_address w ->
  result_at s d m (zip_with fetched_slot slots values)
    (with_columns (zip_with column_after slots values) st) (fetched_mstmt slots values ms) w'.
Proof.
  intros [Hst Hms Hm Hd Hmd Hcs Hrb Hf Hn Hne Hlive Hapart] Hlen Hst' Hms' Hbufs Hnext.
  split; try done; simpl.
  - symmetry. by apply fmap_zip_with.
  - rewrite Hrb. symmetry. apply fmap_zip_with_l; [done|]. intros sl v. apply column_after_kept.
  - rewrite Hf. symmetry. by apply fmap_zip_with_l.
  - rewrite Hn, length_zip_with_l by lia. done.
  - intros Hnil%(f_equal length). rewrite length_zip_with_l in Hnil by lia. by destruct slots.
  - intros j sl (sl0 & v & -> & Hj & Hv)%lookup_zip_with_Some.
    destruct (column_after_kept sl0 v) as (Hb & Hbuf & Hret & Hdesc).
    destruct (Hlive j sl0 Hj) as [Hb' Hbuf' Hroom Hlt Hret' Hk Hdesc'].
    split; cbn [sl_column sl_storage sl_width sl_field fetched_slot];
      rewrite ?Hb, ?Hbuf, ?Hret, ?Hdesc, ?Hbufs, ?Hnext; try done.
    apply buffers_after_room; [|done]. intros sl' (k & Hk')%list_elem_of_lookup. by apply (Hlive k).
  - by apply apart_fetched.
Qed.

Lemma fetching_start s d m slots values st ms w w' :
  result_at s d m slots st ms w -> clean s slots st ms ->
  Forall2 exact_value slots values -> Forall steady slots -> allocations w' = [] ->
  stmts w' !! s = Some (with_columns (zip_with column_after slots values) st) ->
  mysql_stmts w' !! m = Some (fetched_mstmt slots values ms) ->
  buffers w' = buffers_after slots values (buffers w) -> next_address w' = next_address w ->
  fetching s d m 0 (zip_with fetched_slot slots values) values
    (with_columns (zip_with column_after slots values) st) (fetched_mstmt slots values ms) w'.
Proof.
  intros Hr Hcl Hexact Hsteady Halloc Hst' Hms' Hbufs Hnext.
  pose proof (Forall2_length _ _ _ Hexact) as Hlen. split; try done.
  - by eapply result_at_fetched.
  - simpl. symmetry. by apply fmap_zip_with.
  - intros j sl (sl0 & v & -> & Hj & Hv)%lookup_zip_with_Some. simpl.
    apply (cl_slots _ _ _ _ Hcl j sl0 Hj).
  - clear -Hexact. induction Hexact as [|sl v slots values Hx _ IH]; [done|]. simpl.
    constructor; [|done]. by destruct v as [[row text]|].
  - clear -Hsteady Hlen. revert values Hlen. induction Hsteady as [|sl slots Hs _ IH]; intros [|v values] Hlen;
      try done. simpl. constructor; [done|]. apply IH. by injection Hlen.
  - intros _. destruct Hcl as [Hdirty Hb Hdone Hreport Hslots]. split; try done.
    + simpl. symmetry. by apply fmap_zip_with.
    + intros j sl (sl0 & v & -> & Hj & Hv)%lookup_zip_with_Some. simpl.
      destruct (column_after_kept sl0 v) as (_ & _ & -> & _).
      destruct (Hslots j sl0 Hj) as (? & ? & ? & []). by split_and!.
  - intros j sl v (sl0 & v' & -> & Hj & Hv')%lookup_zip_with_Some Hv. simpl.
    rewrite Hv in Hv'. injection Hv' as <-. rewrite Hbufs. by eapply fetched_after.
Qed.
End start.

(** ** Terminators *)

Section terminators.
  Context `{Server}.

Fixpoint terminated_buffers (cs : list ResultColumn) (bufs : gmap nat bytes) : gmap nat bytes :=
  match cs with
  | [] => bufs
  | c :: cs =>
      terminated_buffers cs (match c_buffer c with
                             | None => bufs
                             | Some b => alter (terminate_buffer (c_length c)) b bufs
                             end)
  end.

Lemma terminate_columns_spec cs : forall (Q : outcome unit -> world -> Prop) w,
  (forall c b, c ∈ cs -> c_buffer c = Some b -> is_Some (buffers w !! b)) ->
  Q (Ret tt) (set_buffers (terminated_buffers cs (buffers w)) w) -> wp (terminate_columns cs) Q w.
Proof.
  induction cs as [|c cs IH]; intros Q w Hb HQ; simpl; [by destruct w|].
  apply wp_bind. destruct (c_buffer c) as [b|] eqn:Hc; simpl in HQ; rewrite ?Hc in HQ.
  - destruct (Hb c b) as [data Hdata]; [by left|done|]. wp_auto.
    rewrite (alter_alt_Some _ _ _ data) in HQ by done.
    apply IH; [|exact HQ]. intros c' b' Hc' Hb'. simpl. destruct (decide (b' = b)) as [->|Hne].
    + rewrite lookup_insert_eq. by eexists.
    + rewrite lookup_insert_ne by done. apply (Hb c'); [by right|done].
  - wp_auto. apply IH; [|exact HQ]. intros c' b' Hc'. apply Hb. by right.
Qed.

Lemma terminated_other cs : forall bufs p,
  (forall c, c ∈ cs -> c_buffer c <> Some p) -> terminated_buffers cs bufs !! p = bufs !! p.
Proof.
  induction cs as [|c cs IH]; intros bufs p Hp; [done|]. simpl. rewrite IH.
  - destruct (c_buffer c) as [b|] eqn:Hb; [|done]. apply lookup_alter_ne.
    intros ->. by apply (Hp c); [left|].
  - intros c' Hc'. apply Hp. by right.
Qed.

Lemma terminated_lookup cs : forall bufs j c p,
  (forall j k c c' p, cs !! j = Some c -> cs !! k = Some c' -> c_buffer c = Some p ->
     c_buffer c' = Some p -> j = k) ->
  cs !! j = Some c -> c_buffer c = Some p ->
  terminated_buffers cs bufs !! p = terminate_buffer (c_length c) <$> bufs !! p.
Proof.
  induction cs as [|c0 cs IH]; intros bufs j c p Hinj Hj Hp; [done|]. destruct j as [|j].
  - injection Hj as ->. simpl. rewrite Hp, terminated_other; [apply lookup_alter_eq|].
    intros c' (k & Hk)%list_elem_of_lookup Hc'. by specialize (Hinj 0%nat (S k) c c' p eq_refl Hk Hp Hc').
  - simpl. rewrite (IH _ j c p); [|intros j' k' c1 c2 p' H1 H2 H3 H4|done|done].
    + f_equal. destruct (c_buffer c0) as [b|] eqn:Hb; [|done]. apply lookup_alter_ne. intros ->.
      by specialize (Hinj 0%nat (S j) c0 c p eq_refl Hj Hb Hp).
    + specialize (Hinj (S j') (S k') c1 c2 p' H1 H2 H3 H4). by injection Hinj.
Qed.

Lemma terminated_room cs : forall bufs p width,
  has_room bufs p width -> has_room (terminated_buffers cs bufs) p width.
Proof.
  induction cs as [|c cs IH]; intros bufs p width Hp; [done|]. simpl. apply IH.
  destruct (c_buffer c) as [b|]; [|done]. destruct Hp as (old & Hold & Hlen).
  destruct (decide (p = b)) as [->|Hne].
  - exists (terminate_buffer (c_length c) old). split; [by rewrite lookup_alter_eq, Hold|].
    unfold terminate_buffer. by destruct (_ <? _); rewrite length_insert.
  - exists old. by rewrite lookup_alter_ne.
Qed.

(** ** What a caller sees of a row *)

(** The column has the value [v]: it is null, or its buffer starts with the
    text and a terminator. *)
Definition shows (bufs : gmap nat bytes) (c : ResultColumn) (v : option bytes) : Prop :=
  match v with
  | None => c_is_null c = 1
  | Some text =>
      c_is_null c = 0 /\ c_length c = Z.of_nat (length text) /\
      exists b data, c_buffer c = Some b /\ bufs !! b = Some data /\
        take (length text) data = text /\ data !! length text = Some zero
  end.

Lemma holds_shows s d m slots st ms w j sl v :
  result_at s d m slots st ms w -> slots !! j = Some sl -> holds (buffers w) sl v ->
  shows (terminated_buffers (columns st) (buffers w)) (sl_column sl) (row_value v).
Proof.
  intros Hr Hj Hh. destruct v as [[row text]|]; [|done].
  destruct Hh as (Hnull & Hlen & Hle & data & Hdata & Htake).
  pose proof (ra_live _ _ _ _ _ _ _ Hr) as Hlive. destruct (ra_apart _ _ _ _ _ _ _ Hr) as [Ha _].
  destruct (Hlive j sl Hj) as [_ Hbuf (old & Hold & Hroom) _ _ _].
  rewrite Hold in Hdata. injection Hdata as ->. split_and!; [done|done|].
  exists (sl_storage sl), (terminate_buffer (Z.of_nat (length text)) data).
  split; [done|]. rewrite (ra_columns _ _ _ _ _ _ _ Hr).
  rewrite (terminated_lookup _ _ j (sl_column sl)).
  - rewrite Hold, Hlen. split; [done|].
    unfold terminate_buffer. rewrite (proj2 (Z.ltb_lt _ _)), Nat2Z.id by lia.
    rewrite take_insert_ge by done. split; [done|]. apply list_lookup_insert_eq. lia.
  - intros j' k' c c' p (sl1 & -> & H1)%list_lookup_fmap_Some (sl2 & -> & H2)%list_lookup_fmap_Some.
    rewrite (lv_buffer _ _ _ _ _ _ (Hlive _ _ H1)), (lv_buffer _ _ _ _ _ _ (Hlive _ _ H2)).
    intros [= <-] [= Heq]. by apply (Ha j' k' sl1 sl2).
  - by rewrite list_lookup_fmap, Hj.
  - done.
Qed.
End terminators.

(** ** Fetching a row of a statement *)

Section stepping.
  Context `{Server}.

(** The statement [s] of the handle [d] has the rows [rows], of the columns
    [fields], left to return. *)
Definition stepping (s d : nat) (fields : list MYSQL_FIELD) (rows : list MYSQL_ROW) (w : world)
    : Prop :=
  exists m slots st ms,
    result_at s d m slots st ms w /\ (result_binds_dirty st = false -> clean s slots st ms) /\
    Forall steady slots /\ sl_field <$> slots = fields /\
    s_read_row_func ms = stmt_read_row_unbuffered /\ s_last_errno ms = 0 /\
    executed st = true /\ has_result st = true /\
    connection d (streaming rows) w /\ is_Some (dbs w !! d) /\ allocations w = [].

(** The statement is at a row with the values [vs]. *)
Definition at_row (s : nat) (vs : list (option bytes)) (w : world) : Prop :=
  exists st, stmts w !! s = Some st /\ has_row st = true /\
    Forall2 (shows (buffers w)) (columns st) vs.

Lemma truncations_none slots : forall values j sl v,
  truncations slots values = 0 -> slots !! j = Some sl -> values !! j = Some v ->
  is_truncated sl v = false.
Proof.
  assert (Hpos : forall sls values, 0 <= truncations sls values).
  { intros sls. induction sls as [|sl sls IH]; intros [|v values]; simpl; try lia.
    specialize (IH values). destruct (is_truncated _ _); lia. }
  induction slots as [|sl0 slots IH]; intros [|v0 values] j sl v Ht Hsl Hv; try done. simpl in Ht.
  pose proof (Hpos slots values). destruct j as [|j]; simpl in *.
  - injection Hsl as <-. injection Hv as <-. destruct (is_truncated _ _); [lia|done].
  - apply (IH values j); try done. destruct (is_truncated _ _); lia.
Qed.

(** Without a cut column nothing is left to do for the loop. *)
Lemma fetching_skip s d m slots values st ms w :
  fetching s d m 0 slots values st ms w ->
  (forall j sl v, slots !! j = Some sl -> values !! j = Some v -> ~ cut sl v) ->
  fetching s d m (length slots) slots values st ms w.
Proof.
  intros [Hr Hstate Hbinds Hptr Halloc Hexact Hsteady Hclean Hvs] Hcut. split; try done.
  intros j sl v Hj Hv. rewrite (proj2 (Nat.ltb_lt _ _)) by (by eapply lookup_lt_Some).
  specialize (Hvs j sl v Hj Hv). simpl in Hvs. destruct Hvs as [[Hh _]|Hc]; [done|].
  by destruct (Hcut j sl v Hj Hv).
Qed.

(** The columns that were cut are fetched again, if there are any. *)
Lemma refetch_spec s d m slots values st ms truncated w :
  fetching s d m 0 slots values st ms w ->
  (truncated = false ->
     forall j sl v, slots !! j = Some sl -> values !! j = Some v -> ~ cut sl v) ->
  wp (if truncated : bool then fetch_truncated_statement_columns s else mret MYLITE_OK)
    (fun o w' => o = Ret MYLITE_OK /\ exists slots' st',
       fetching s d m (length slots') slots' values st' ms w' /\ kept_by_refetch st st' w w') w.
Proof.
  intros Hf Hcut. destruct truncated.
  - unfold fetch_truncated_statement_columns.
    pose proof (ra_stmt _ _ _ _ _ _ _ (fe_result _ _ _ _ _ _ _ _ _ Hf)) as Hst. wp_auto.
    rewrite (ra_columns _ _ _ _ _ _ _ (fe_result _ _ _ _ _ _ _ _ _ Hf)), length_fmap.
    eapply wp_mono; [by eapply fetch_truncated_from_spec|].
    intros o w' (-> & slots' & st' & Hf' & Hlen & Hk). split; [done|]. exists slots', st'.
    rewrite Hlen. by split.
  - wp_auto. split; [done|]. exists slots, st. split; [apply fetching_skip; [done|exact (Hcut eq_refl)]|].
    split; [done|]. by split.
Qed.

Lemma is_truncated_cut sl v : is_truncated sl v = false -> ~ cut (fetched_slot sl v) v.
Proof.
  intros Ht (row & text & -> & _ & _ & _ & Hlt & _). simpl in *. apply Z.ltb_ge in Ht. lia.
Qed.

(** The statement and its buffers at the end of a step. *)
Lemma result_at_terminated s d m slots st ms w :
  result_at s d m slots st ms w ->
  result_at s d m slots (with_has_row true st) ms
    (set_stmts (<[s := with_has_row true st]> (stmts w))
       (set_buffers (terminated_buffers (columns st) (buffers w)) w)).
Proof.
  intros [Hst Hms Hm Hd Hmd Hcs Hrb Hf Hn Hne Hlive Hapart]. split; try done; simpl.
  - apply lookup_insert_eq.
  - intros j sl Hj. destruct (Hlive j sl Hj). split; try done. by apply terminated_room.
Qed.
Lemma clean_has_row s slots st ms b : clean s slots st ms -> clean s slots (with_has_row b st) ms.
Proof. by intros []. Qed.

Lemma kept_by_fetch_trans w1 w2 w3 :
  kept_by_fetch w1 w2 -> kept_by_fetch w2 w3 -> kept_by_fetch w1 w3.
Proof. intros (? & ? & ? & ?) (? & ? & ? & ?). repeat split; congruence. Qed.

(** The end of a fetch: terminators are written and the row is there. *)
Lemma finish_row_spec s d m slots values st ms rows w :
  fetching s d m (length slots) slots values st ms w ->
  s_read_row_func ms = stmt_read_row_unbuffered -> s_last_errno ms = 0 -> executed st = true -> has_result st = true ->
  connection d (streaming rows) w -> is_Some (dbs w !! d) ->
  wp (st ← get_stmt s; terminate_columns (columns st) ;; update_stmt s (with_has_row true) ;;
      mret MYLITE_ROW) (fun o w' => o = Ret MYLITE_ROW /\
    stepping s d (sl_field <$> slots) rows w' /\ at_row s (row_value <$> values) w' /\
    kept_by_fetch w w') w.
Proof.
  intros [Hr Hstate Hbinds Hptr Halloc Hexact Hsteady Hclean Hvs] Hread Herrno Hexec Hres Hstream Hdb.
  pose proof (ra_stmt _ _ _ _ _ _ _ Hr) as Hst. wp_auto. apply terminate_columns_spec.
  { intros c b Hc Hb. rewrite (ra_columns _ _ _ _ _ _ _ Hr) in Hc.
    apply list_elem_of_fmap in Hc as (sl & -> & (j & Hj)%list_elem_of_lookup).
    destruct (ra_live _ _ _ _ _ _ _ Hr j sl Hj) as [_ Hb' (old & Hold & _) _ _ _].
    rewrite Hb in Hb'. injection Hb' as ->. by eexists. }
  apply bind_post_ret. wp_auto. split; [done|]. split; [|split].
  - exists m, slots, (with_has_row true st), ms.
    split; [exact (result_at_terminated s d m slots st ms w Hr)|].
    split; [intros Hdirty; by apply clean_has_row, Hclean|]. by split_and!.
  - exists (with_has_row true st). split; [apply lookup_insert_eq|]. split; [done|]. simpl.
    rewrite (ra_columns _ _ _ _ _ _ _ Hr) at 2. apply Forall2_fmap, Forall2_same_length_lookup_2.
    { by eapply Forall2_length. }
    intros j sl v Hj Hv. eapply holds_shows; [done|done|]. specialize (Hvs j sl v Hj Hv).
    by rewrite (proj2 (Nat.ltb_lt _ _)) in Hvs by (by eapply lookup_lt_Some).
  - done.
Qed.

Lemma fields_of_shapes (slots slots' : list slot) :
  shape <$> slots' = shape <$> slots -> sl_field <$> slots' = sl_field <$> slots.
Proof. intros Heq%(f_equal (fmap fst)). by rewrite <- !list_fmap_compose in Heq. Qed.

Lemma steady_shapes slots : forall slots',
  shape <$> slots' = shape <$> slots -> Forall steady slots -> Forall steady slots'.
Proof.
  induction slots as [|sl slots IH]; intros [|sl' slots'] Heq Hs; try done.
  inversion Hs as [|? ? Hsl Hrest]; subst. injection Heq as Hf Hw Heq.
  constructor; [|by apply IH]. unfold steady in *. by rewrite Hf, Hw.
Qed.

(** The fetch and what follows it, once the binds are up to date. *)
Lemma fetch_clean_spec s d m slots st ms packet rows values w :
  result_at s d m slots st ms w -> clean s slots st ms -> Forall steady slots ->
  s_read_row_func ms = stmt_read_row_unbuffered -> s_last_errno ms = 0 -> executed st = true -> has_result st = true ->
  connection d (streaming (BinaryRow packet :: rows)) w -> is_Some (dbs w !! d) ->
  allocations w = [] -> decode_row (shape <$> slots) packet = Some values ->
  Forall2 fits (sl_field <$> slots) values ->
  wp (fetch_result ← mysql_stmt_fetch m; finish_fetch s fetch_result) (fun o w' =>
    o = Ret MYLITE_ROW /\ stepping s d (sl_field <$> slots) rows w' /\
    at_row s (row_value <$> values) w' /\ kept_by_fetch w w') w.
Proof.
  intros Hr Hcl Hsteady Hread Herrno Hexec Hres Hstream Hdb Halloc Hd Hfits.
  pose proof (decoded_exact _ _ _ Hsteady Hd Hfits) as Hexact.
  apply wp_bind. eapply wp_mono; [by eapply mysql_stmt_fetch_row|].
  intros o w1 (-> & Hst1 & Hms1 & Hbufs & Hnext & Hstream1 & Hdbs1 & Hsrv1 & Hsys1 & Halloc1).
  apply bind_post_ret. unfold finish_fetch.
  set (truncated := negb (truncations slots values =? 0)).
  replace ((if truncated then MYSQL_DATA_TRUNCATED else 0) =? MYSQL_NO_DATA) with false
    by (by destruct truncated). cbn iota.
  replace (negb ((if truncated then MYSQL_DATA_TRUNCATED else 0) =? 0) &&
           negb ((if truncated then MYSQL_DATA_TRUNCATED else 0) =? MYSQL_DATA_TRUNCATED)) with false
    by (by destruct truncated). cbn iota.
  replace ((if truncated then MYSQL_DATA_TRUNCATED else 0) =? MYSQL_DATA_TRUNCATED) with truncated
    by (by destruct truncated).
  apply wp_bind. eapply wp_mono.
  { eapply refetch_spec; [eapply (fetching_start s d m slots values st ms w w1); try done; congruence|].
    intros Ht j sl v (sl0 & v' & -> & Hj & Hv')%lookup_zip_with_Some Hv.
    rewrite Hv in Hv'. injection Hv' as <-. apply is_truncated_cut.
    eapply truncations_none; [|done|done]. by apply Z.eqb_eq, negb_false_iff. }
  intros o w2 (-> & slots2 & st2 & Hf2 & Hcore & Hconn2 & Hdbs2 & Hkept2). apply bind_post_ret. cbn iota.
  injection Hcore as _ _ Hexec2 Hres2 _ _.
  assert (Hfields : sl_field <$> slots2 = sl_field <$> slots).
  { rewrite <- (ra_fields _ _ _ _ _ _ _ Hr).
    by rewrite <- (ra_fields _ _ _ _ _ _ _ (fe_result _ _ _ _ _ _ _ _ _ Hf2)). }
  eapply wp_mono; [eapply (finish_row_spec s d m slots2 values st2 (fetched_mstmt slots values ms) rows);
    [done|done|done|by rewrite Hexec2|by rewrite Hres2| |by rewrite Hdbs2, Hdbs1]|].
  { destruct Hstream1 as (c & Hc & Hcs). exists c. by rewrite Hconn2. }
  intros o w' (-> & Hstep & Hrow & Hkept). rewrite Hfields in Hstep. split; [done|].
  split; [done|]. split; [done|].
  eapply kept_by_fetch_trans; [|exact Hkept].
  eapply (kept_by_fetch_trans w w1); [by split_and!|]. by split.
Qed.

Lemma fetch_row_spec s d fields packet rows values w :
  stepping s d fields (BinaryRow packet :: rows) w ->
  decode_row (initial_shape <$> fields) packet = Some values -> Forall2 fits fields values ->
  wp (fetch_statement_row s) (fun o w' => o = Ret MYLITE_ROW /\ stepping s d fields rows w' /\
    at_row s (row_value <$> values) w' /\ kept_by_fetch w w') w.
Proof.
  intros (m & slots & st & ms & Hr & Hclean & Hsteady & <- & Hread & Herrno & Hexec & Hres & Hstream & Hdb & Halloc)
    Hd Hfits.
  destruct Hstream as (c & Hc & Hcs). pose proof (proj1 (proj2 Hcs)) as Hreport.
  unfold fetch_statement_row. apply wp_bind.
  eapply wp_mono; [by eapply refresh_spec|].
  intros o w1 (-> & slots1 & st1 & ms1 & Hr1 & Hcl1 & Hshape & Hcore & Hmcore & Hdbs & Hconn & Hsrv & Hsys & Hal).
  injection Hcore as _ _ Hexec1 Hres1 _ _. injection Hmcore as _ _ _ Hread1 _ Herrno1 _ _.
  apply bind_post_ret. cbn iota. apply wp_bind.
  eapply wp_deref; [rewrite (ra_stmt _ _ _ _ _ _ _ Hr1); apply (ra_m _ _ _ _ _ _ _ Hr1)|].
  apply bind_post_ret. rewrite <- (fields_of_shapes _ _ Hshape) in *.
  pose proof (steady_shapes _ _ Hshape Hsteady) as Hsteady1.
  eapply wp_mono.
  { eapply (fetch_clean_spec s d m slots1 st1 ms1 packet rows values w1); try done; try congruence.
    - exists c. by rewrite Hconn.
    - by rewrite decode_row_widths. }
  intros o w' (-> & Hstep & Hrow & Hkept).
  split; [done|]. split; [done|]. split; [done|].
  eapply kept_by_fetch_trans; [|exact Hkept]. by split_and!.
Qed.

(** ** The end of the rows *)

(** All rows of the statement have been returned. *)
Definition stepped (s d : nat) (w : world) : Prop :=
  exists m st ms, stmts w !! s = Some st /\ mysql_stmts w !! m = Some ms /\ stmt st = Some m /\
    db st = Some d /\ s_mysql ms = Some d /\ executed st = true /\ has_result st = false /\
    has_row st = false /\ is_Some (dbs w !! d) /\ allocations w = [] /\
    connection d (fun c => ready c /\ more_results (m_server_status c) = false /\
      m_report_data_truncation c = true /\ exists t, m_thd c = Some t /\ first_data t = []) w.

(** The client library has the statement as it was prepared. *)
Definition spent (s : nat) (fields : list MYSQL_FIELD) (w : world) : Prop :=
  exists m st ms, stmts w !! s = Some st /\ stmt st = Some m /\ mysql_stmts w !! m = Some ms /\
    s_fields ms = fields /\ s_field_count ms = Z.of_nat (length fields) /\
    MYSQL_STMT_INIT_DONE < s_state ms.

(** The statement still has its columns then. *)
Definition ended (s d : nat) (fields : list MYSQL_FIELD) (w : world) : Prop :=
  (stepped s d w /\ spent s fields w) /\ exists st, stmts w !! s = Some st /\
    column_description <$> columns st = field_description <$> fields.

(** At the end of the rows the client library has nothing more for the
    statement. *)
Lemma next_result_none m d ms c (Q : outcome Z -> world -> Prop) w :
  mysql_stmts w !! m = Some ms -> s_mysql ms = Some d -> s_last_errno ms = 0 ->
  connections w !! d = Some c -> ready c -> more_results (m_server_status c) = false ->
  (let c' := with_affected_rows MYSQL_COUNT_ERROR (net_clear_error c) in
   Q (Ret (-1)) (set_mysql_stmts (<[m := set_stmt_errmsg c' ms]> (mysql_stmts w))
     (set_connections (<[d := c']> (connections w)) w))) ->
  wp (mysql_stmt_next_result m) Q w.
Proof.
  intros Hms Hd Herr Hc Hready Hmore HQ. unfold mysql_stmt_next_result. wp_auto. rewrite Hd, Herr.
  simpl. wp_auto. unfold more_results in Hmore. rewrite Hmore. wp_auto.
  unfold mysql_next_result. wp_auto. rewrite Hready, bool_decide_eq_true_2 by done. simpl. wp_auto.
  rewrite Hmore. wp_auto. change (negb (-1 =? 0)) with true. cbn iota. wp_auto. exact HQ.
Qed.

Lemma result_descriptions s d m slots st ms w :
  result_at s d m slots st ms w -> column_description <$> columns st = field_description <$> (sl_field <$> slots).
Proof.
  intros Hr. rewrite (ra_columns _ _ _ _ _ _ _ Hr). apply list_eq. intros j.
  rewrite !list_lookup_fmap. destruct (slots !! j) as [sl|] eqn:Hj; simpl; [|done].
  by rewrite (lv_described _ _ _ _ _ _ (ra_live _ _ _ _ _ _ _ Hr j sl Hj)).
Qed.

Lemma fetch_end_spec s d fields w :
  stepping s d fields [] w ->
  wp (fetch_statement_row s) (fun o w' => o = Ret MYLITE_DONE /\ ended s d fields w' /\
    kept_by_fetch w w') w.
Proof.
  intros (m & slots & st & ms & Hr & Hclean & Hsteady & <- & Hread & Herrno & Hexec & Hres & Hstream & Hdb & Halloc).
  destruct Hstream as (c & Hc & Hcs). pose proof (proj1 (proj2 Hcs)) as Hreport.
  unfold fetch_statement_row. apply wp_bind.
  eapply wp_mono; [by eapply refresh_spec|].
  intros o w1 (-> & slots1 & st1 & ms1 & Hr1 & Hcl1 & Hshape & Hcore & Hmcore & Hdbs & Hconn & Hsrv & Hsys & Hal).
  injection Hcore as _ _ Hexec1 Hres1 _ _. injection Hmcore as _ _ _ Hread1 _ Herrno1 _ _.
  pose proof (result_descriptions _ _ _ _ _ _ _ Hr1) as Hcols1.
  destruct Hr1 as [Hst1 Hms1 Hm1 Hd1 Hmd1 _ _ Hfields1 Hcount1 _ _ _].
  apply bind_post_ret. cbn iota. apply wp_bind. eapply wp_deref; [rewrite Hst1; exact Hm1|].
  apply bind_post_ret, wp_bind. unfold mysql_stmt_fetch. apply wp_bind.
  eapply (read_row_end m d ms1); [done|done|by rewrite Hread1|exists c; by rewrite Hconn|].
  intros c' Hready Hmore Hreport' Hthd. apply bind_post_ret. wp_auto. simpl. wp_auto.
  unfold finish_fetch. simpl. wp_auto. unfold drain_remaining_statement_results. apply wp_bind.
  eapply wp_deref; [simpl; rewrite lookup_insert_eq; exact Hm1|]. apply bind_post_ret. wp_auto.
  cbn [drain_statement_loop]. apply wp_bind.
  eapply (next_result_none m d); [apply lookup_insert_eq|done|simpl; congruence|apply lookup_insert_eq|done|done|].
  apply bind_post_ret. change (-1 <? 0) with true. cbn iota. wp_auto. simpl. wp_auto.
  split; [done|]. split; [split; [split|]|].
  - eexists m, _, _. split; [apply lookup_insert_eq|]. split; [apply lookup_insert_eq|].
    split_and!; try done; simpl; try congruence.
    eexists. split; [apply lookup_insert_eq|]. by split_and!.
  - eexists m, _, _. split; [apply lookup_insert_eq|]. split; [done|]. split; [apply lookup_insert_eq|].
    simpl. by rewrite Hfields1, Hcount1, <- (fields_of_shapes _ _ Hshape), length_fmap.
  - eexists. split; [apply lookup_insert_eq|]. simpl. by rewrite Hcols1, (fields_of_shapes _ _ Hshape).
  - by split_and!.
Qed.

(** ** [mylite_step] and the column functions *)

(** What [mylite_step] does before it fetches. *)
Lemma step_fetches s d st x (Q : outcome Z -> world -> Prop) w :
  stmts w !! s = Some st -> db st = Some d -> executed st = true -> dbs w !! d = Some x ->
  wp (if has_result st then fetch_statement_row s else mret MYLITE_DONE) Q
    (set_dbs (<[d := set_ok x]> (dbs w)) w) ->
  wp (mylite_step (Some s)) Q w.
Proof.
  intros Hst Hd Hexec Hx HQ. unfold mylite_step, with_statement. wp_auto. rewrite Hd.
  apply wp_bind. eapply wp_deref; [rewrite Hst; exact Hd|]. apply bind_post_ret. wp_auto.
  rewrite Hexec. simpl. wp_auto. done.
Qed.

(** What a step leaves as it was: the server, the files and the other handles. *)
Definition kept_by_step (d : nat) (w w' : world) : Prop :=
  (exists x, dbs w !! d = Some x /\ dbs w' = <[d := set_ok x]> (dbs w)) /\
  server_state w' = server_state w /\ sys w' = sys w.

Lemma stepping_set_ok s d fields rows x w :
  stepping s d fields rows w -> stepping s d fields rows (set_dbs (<[d := set_ok x]> (dbs w)) w).
Proof.
  intros (m & slots & st & ms & Hr & Hrest). exists m, slots, st, ms. split.
  - by destruct Hr.
  - destruct Hrest as (? & ? & ? & ? & ? & ? & ? & ? & ? & ?). split_and!; try done.
    simpl. rewrite lookup_insert_eq. by eexists.
Qed.

Lemma step_row_spec s d fields packet rows values w :
  stepping s d fields (BinaryRow packet :: rows) w ->
  decode_row (initial_shape <$> fields) packet = Some values -> Forall2 fits fields values ->
  wp (mylite_step (Some s)) (fun o w' => o = Ret MYLITE_ROW /\ stepping s d fields rows w' /\
    at_row s (row_value <$> values) w' /\ kept_by_step d w w') w.
Proof.
  intros Hs Hd Hfits. pose proof Hs as (m & slots & st & ms & [Hst _ _ Hdb _ _ _ _ _ _ _ _] & _ & _ & _ & _ &
    _ & Hexec & Hres & _ & [x Hx] & _).
  eapply step_fetches; [done..|]. rewrite Hres.
  eapply wp_mono; [eapply fetch_row_spec; [by apply stepping_set_ok|done|done]|].
  intros o w' (-> & Hstep & Hrow & Hdbs & Hsrv & Hsys & _). split; [done|]. split; [done|].
  split; [done|]. split; [|done]. exists x. by split.
Qed.

Lemma step_end_spec s d fields w :
  stepping s d fields [] w ->
  wp (mylite_step (Some s)) (fun o w' => o = Ret MYLITE_DONE /\ ended s d fields w' /\
    kept_by_step d w w') w.
Proof.
  intros Hs. pose proof Hs as (m & slots & st & ms & [Hst _ _ Hdb _ _ _ _ _ _ _ _] & _ & _ & _ & _ &
    _ & Hexec & Hres & _ & [x Hx] & _).
  eapply step_fetches; [done..|]. rewrite Hres.
  eapply wp_mono; [eapply fetch_end_spec; by apply stepping_set_ok|].
  intros o w' (-> & Hstep & Hdbs & Hsrv & Hsys & _). split; [done|]. split; [done|].
  split; [|done]. exists x. by split.
Qed.

Lemma step_done_spec s d w :
  stepped s d w ->
  wp (mylite_step (Some s)) (fun o w' => o = Ret MYLITE_DONE /\ stepped s d w' /\
    kept_by_step d w w') w.
Proof.
  intros (m & st & ms & Hst & Hms & Hm & Hd & Hmd & Hexec & Hres & Hrow & [x Hx] & Hrest).
  eapply step_fetches; [done..|]. rewrite Hres. wp_auto. split; [done|]. split.
  - exists m, st, ms. split_and!; try done; [|apply Hrest..]. simpl. rewrite lookup_insert_eq. by eexists.
  - split; [|done]. exists x. by split.
Qed.

(** A caller that reads column [i]: a null pointer, or the bytes there. *)
Definition read_column (s : nat) (i : Z) : cmd world (option bytes) :=
  p ← mylite_column_blob (Some s) i;
  n ← mylite_column_bytes (Some s) i;
  match p with
  | None => mret None
  | Some b => data ← get_buffer b; mret (Some (take (Z.to_nat n) data))
  end.

Fixpoint read_columns (s : nat) (indices : list nat) : cmd world (list (option bytes)) :=
  match indices with
  | [] => mret []
  | i :: indices =>
      v ← read_column s (Z.of_nat i); vs ← read_columns s indices; mret (v :: vs)
  end.

(** What a caller does with the result of a step: after a row it reads the
    columns and goes on with [next]. *)
Definition read_on (s : nat) (next : cmd world (Z * list (list (option bytes)))) (result : Z)
    : cmd world (Z * list (list (option bytes))) :=
  if result =? MYLITE_ROW then
    n ← mylite_column_count (Some s);
    row ← read_columns s (seq 0 (Z.to_nat n));
    '(result, rows) ← next;
    mret (result, row :: rows)
  else mret (result, []).

(** Steps until there is no row, and all the rows that were read. *)
Fixpoint collect (fuel : nat) (s : nat) : cmd world (Z * list (list (option bytes))) :=
  match fuel with
  | O => out_of_fuel
  | S fuel => result ← mylite_step (Some s); read_on s (collect fuel s) result
  end.

Lemma shows_cases bufs c v :
  shows bufs c v ->
  (v = None /\ c_is_null c = 1) \/
  (exists text b data, v = Some text /\ c_is_null c = 0 /\ c_length c = Z.of_nat (length text) /\
     c_buffer c = Some b /\ bufs !! b = Some data /\ take (length text) data = text /\
     data !! length text = Some zero).
Proof.
  destruct v as [text|]; [|by left]. intros (? & ? & b & data & ? & ? & ? & ?). right.
  exists text, b, data. by split_and!.
Qed.

(** The column functions find the column of a row. *)
Lemma value_column_spec s st i c (Q : outcome (option ResultColumn) -> world -> Prop) w :
  stmts w !! s = Some st -> has_row st = true -> columns st !! i = Some c ->
  Q (Ret (Some c)) w -> wp (value_column_at (Some s) (Z.of_nat i)) Q w.
Proof.
  intros Hst Hrow Hc HQ. unfold value_column_at. wp_auto. rewrite Hrow. simpl.
  rewrite (proj2 (Z.leb_gt _ _)), Nat2Z.id, Hc; [done|].
  apply lookup_lt_Some in Hc. lia.
Qed.

Lemma read_column_spec s vs i v w :
  at_row s vs w -> vs !! i = Some v -> wp (read_column s (Z.of_nat i)) (fun o w' => o = Ret v /\ w' = w) w.
Proof.
  intros (st & Hst & Hrow & Hcols) Hv.
  destruct (Forall2_lookup_r _ _ _ _ _ Hcols Hv) as (c & Hc & Hshows).
  unfold read_column, mylite_column_blob, mylite_column_bytes. apply wp_bind, wp_bind.
  eapply (value_column_spec s st i c); [done..|]. apply bind_post_ret, wp_ret, bind_post_ret.
  apply wp_bind, wp_bind. eapply (value_column_spec s st i c); [done..|].
  apply bind_post_ret, wp_ret, bind_post_ret.
  destruct (shows_cases _ _ _ Hshows)
    as [[-> ->]|(text & b & data & -> & -> & -> & -> & Hdata & Htake & _)]; simpl; [by wp_auto|].
  wp_auto. by rewrite Nat2Z.id, Htake.
Qed.

Lemma read_columns_spec s vs w :
  at_row s vs w -> forall n k, (k + n = length vs)%nat ->
  wp (read_columns s (seq k n)) (fun o w' => o = Ret (drop k vs) /\ w' = w) w.
Proof.
  intros Hrow. induction n as [|n IH]; intros k Hk; simpl.
  { split; [|done]. by rewrite drop_ge by lia. }
  destruct (lookup_lt_is_Some_2 vs k) as [v Hv]; [lia|]. apply wp_bind.
  eapply wp_mono; [by apply (read_column_spec s vs k v)|]. intros o w' [-> ->].
  apply bind_post_ret, wp_bind. eapply wp_mono; [apply IH; lia|]. intros o w' [-> ->].
  apply bind_post_ret, wp_ret. split; [|done]. by rewrite (drop_S _ _ _ Hv).
Qed.

Lemma column_count_spec s d fields rows vs w :
  stepping s d fields rows w -> at_row s vs w -> Z.of_nat (length fields) < 2 ^ 32 ->
  length vs = length fields /\
  wp (mylite_column_count (Some s)) (fun o w' => o = Ret (Z.of_nat (length vs)) /\ w' = w) w.
Proof.
  intros (m & slots & st & ms & Hr & _ & _ & <- & _) (st' & Hst & _ & Hcols) Hlen.
  rewrite (ra_stmt _ _ _ _ _ _ _ Hr) in Hst. injection Hst as <-.
  apply Forall2_length in Hcols. rewrite (ra_columns _ _ _ _ _ _ _ Hr), length_fmap in Hcols.
  rewrite length_fmap in *. split; [done|]. unfold mylite_column_count.
  pose proof (ra_stmt _ _ _ _ _ _ _ Hr) as Hst. wp_auto. rewrite (ra_m _ _ _ _ _ _ _ Hr).
  destruct (columns st) as [|c cs] eqn:Hc.
  { rewrite (ra_columns _ _ _ _ _ _ _ Hr) in Hc. apply fmap_nil_inv in Hc.
    by destruct (ra_nonempty _ _ _ _ _ _ _ Hr). }
  wp_auto. rewrite <- Hc, (ra_columns _ _ _ _ _ _ _ Hr), length_fmap, Z.mod_small by lia.
  by rewrite Hcols.
Qed.

(** A row as the server sent it, and its values. *)
Definition row_decodes (fields : list MYSQL_FIELD) (packet : bytes)
    (values : list (option (bytes * bytes))) : Prop :=
  decode_row (initial_shape <$> fields) packet = Some values /\ Forall2 fits fields values.

(** The values of rows as a caller gets them. *)
Definition row_values (rows : list (list (option (bytes * bytes)))) : list (list (option bytes)) :=
  map (map row_value) rows.

(** What is the same after all the rows were read. *)
Definition kept_by_steps (w w' : world) : Prop :=
  server_state w' = server_state w /\ sys w' = sys w.

(** What a step, or a fetch, does when the rows [packets] with the values
    [values] are left. *)
Definition step_outcome (s d : nat) (fields : list MYSQL_FIELD) (packets : list bytes)
    (values : list (list (option (bytes * bytes)))) (o : outcome Z) (w : world) : Prop :=
  match packets, values with
  | _ :: packets, row :: _ =>
      o = Ret MYLITE_ROW /\ stepping s d fields (map BinaryRow packets) w /\
      at_row s (row_value <$> row) w
  | _, _ => o = Ret MYLITE_DONE /\ ended s d fields w
  end.

Definition delivered (s d : nat) (fields : list MYSQL_FIELD) (values : list (list (option (bytes * bytes))))
    (o : outcome (Z * list (list (option bytes)))) (w : world) : Prop :=
  o = Ret (MYLITE_DONE, row_values values) /\ ended s d fields w.

Lemma fetch_outcome s d fields packets values w :
  Forall2 (row_decodes fields) packets values -> stepping s d fields (map BinaryRow packets) w ->
  wp (fetch_statement_row s) (fun o w' => step_outcome s d fields packets values o w' /\
    kept_by_steps w w') w.
Proof.
  intros [|packet row packets' values' [Hd Hfits] _] Hs.
  - eapply wp_mono; [by eapply fetch_end_spec|]. by intros o w' (-> & ? & _ & ? & ? & _).
  - eapply wp_mono; [by eapply fetch_row_spec|]. by intros o w' (-> & ? & ? & _ & ? & ? & _).
Qed.

Lemma step_outcome_spec s d fields packets values w :
  Forall2 (row_decodes fields) packets values -> stepping s d fields (map BinaryRow packets) w ->
  wp (mylite_step (Some s)) (fun o w' => step_outcome s d fields packets values o w' /\
    kept_by_steps w w') w.
Proof.
  intros [|packet row packets' values' [Hd Hfits] _] Hs.
  - eapply wp_mono; [by eapply step_end_spec|]. by intros o w' (-> & ? & _ & ? & ?).
  - eapply wp_mono; [by eapply step_row_spec|]. by intros o w' (-> & ? & ? & _ & ? & ?).
Qed.

Lemma collect_spec s d fields (packets : list bytes) values :
  Z.of_nat (length fields) < 2 ^ 32 -> Forall2 (row_decodes fields) packets values ->
  forall m (w0 w : world),
  wp m (fun o w' => step_outcome s d fields packets values o w' /\ kept_by_steps w0 w') w ->
  wp (mbind (read_on s (collect (length packets) s)) m)
    (fun o w' => delivered s d fields values o w' /\ kept_by_steps w0 w') w.
Proof.
  intros Hlen. induction 1 as [|packet row packets values _ Hrows IH]; intros m w0 w Hm; apply wp_bind;
    (eapply wp_mono; [exact Hm|]).
  - intros o w1 [[-> Hended] Hkept]. by apply bind_post_ret, wp_ret.
  - intros o w1 ((-> & Hs1 & Hrow) & Hkept1). apply bind_post_ret. unfold read_on at 1.
    change (MYLITE_ROW =? MYLITE_ROW) with true. cbn iota.
    destruct (column_count_spec _ _ _ _ _ _ Hs1 Hrow Hlen) as [_ Hcount].
    apply wp_bind. eapply wp_mono; [exact Hcount|]. intros o w' [-> ->]. apply bind_post_ret, wp_bind.
    rewrite Nat2Z.id. eapply wp_mono; [by apply (read_columns_spec s _ w1 Hrow _ 0)|].
    intros o w' [-> ->]. apply bind_post_ret, wp_bind. cbn [length]. cbn [collect].
    eapply wp_mono; [apply (IH (mylite_step (Some s)) w1); by apply step_outcome_spec|].
    intros o w' ([-> Hstepped] & Hkept). apply bind_post_ret, wp_ret. split; [done|].
    destruct Hkept1, Hkept. split; congruence.
Qed.
End stepping.
