(* ===== verification/Execute.v ===== *)
(** * Executing a prepared statement

    The first [mylite_step] of a statement ([idle]) sends the server the
    values its parameters stand for, sets the columns of the result up and
    fetches the first row; from there on [Step] takes over. *)

From S2P Require Import Prelude Api Effects SqlLexer SqlPolicy System Numbers World BinaryRow.
From S2P Require Import BinaryFacts ClientQuery ClientStmt Runtime Exec Statement Frames Rules ClientFacts.
From S2P Require Import Scripted RuntimeFacts Library ExecFacts Termination StatementFacts.
From S2P Require Import Lifetime Bindings Rows ProtocolRows Fetch Step.
From stdpp Require Import options.
Set Default Proof Using "Type*".

Local Open Scope Z_scope.

(** ** The values the server receives *)

Section parameters.
  Context `{Server}.

(** Reading goes through the pointers of the bind to the members of the
    parameter [p]. *)
Section read.
  Variables (s i : nat) (p : ParameterBinding) (b : MYSQL_BIND) (w : world).
  Hypothesis Hp : parameter_of w s i = Some p.
  Hypothesis Hnull_ptr : is_null_ptr b = Some (OfParameter s i).
  Hypothesis Hnull : p_is_null p = 0.

Lemma read_not_null (Q : outcome Z -> world -> Prop) : Q (Ret 0) w -> wp (read_is_null b) Q w.
Proof.
  intros HQ. unfold read_is_null, read_member. rewrite Hnull_ptr. apply wp_bind.
  eapply wp_deref; [exact Hp|]. apply bind_post_ret, wp_ret. by rewrite Hnull.
Qed.

Lemma read_int64 :
  buffer_type b = MYSQL_TYPE_LONGLONG -> buffer b = Some (Int64Value s i) -> is_unsigned b = false ->
  LLONG_MIN <= p_int64_value p <= LLONG_MAX ->
  wp (read_param b) (fun o w' => o = Ret (ParamInt (p_int64_value p)) /\ w' = w) w.
Proof.
  intros Ht Hb Hu Hz. unfold LLONG_MIN, LLONG_MAX in Hz. unfold read_param.
  apply wp_bind, read_not_null, bind_post_ret. cbn [negb Z.eqb]. rewrite Ht, Hb, Hu.
  apply wp_bind, wp_bind. eapply wp_deref; [exact Hp|]. apply bind_post_ret, wp_ret, bind_post_ret, wp_ret.
  by rewrite signed_mod by lia.
Qed.

Lemma read_uint64 :
  buffer_type b = MYSQL_TYPE_LONGLONG -> buffer b = Some (Uint64Value s i) -> is_unsigned b = true ->
  0 <= p_uint64_value p <= ULLONG_MAX ->
  wp (read_param b) (fun o w' => o = Ret (ParamUint (p_uint64_value p)) /\ w' = w) w.
Proof.
  intros Ht Hb Hu Hz. unfold ULLONG_MAX in Hz. unfold read_param.
  apply wp_bind, read_not_null, bind_post_ret. cbn [negb Z.eqb]. rewrite Ht, Hb, Hu.
  apply wp_bind, wp_bind. eapply wp_deref; [exact Hp|]. apply bind_post_ret, wp_ret, bind_post_ret, wp_ret.
  by rewrite Z.mod_small by lia.
Qed.

Lemma read_double :
  buffer_type b = MYSQL_TYPE_DOUBLE -> buffer b = Some (DoubleValue s i) ->
  wp (read_param b) (fun o w' => o = Ret (ParamDouble (p_double_value p)) /\ w' = w) w.
Proof.
  intros Ht Hb. unfold read_param.
  apply wp_bind, read_not_null, bind_post_ret. cbn [negb Z.eqb]. rewrite Ht, Hb.
  apply wp_bind. eapply wp_deref; [exact Hp|]. by apply bind_post_ret, wp_ret.
Qed.

Lemma read_string t make q value :
  buffer_type b = t -> buffer b = Some (Storage q) -> length_ptr b = Some (OfParameter s i) ->
  (t = MYSQL_TYPE_STRING /\ make = ParamText) \/ (t = MYSQL_TYPE_BLOB /\ make = ParamBlob) ->
  p_length p = Z.of_nat (length value) -> buffers w !! q = Some (stored value) ->
  wp (read_param b) (fun o w' => o = Ret (make value) /\ w' = w) w.
Proof.
  intros Ht Hb Hl Hmake Hlen Hq. unfold read_param.
  apply wp_bind, read_not_null, bind_post_ret. cbn [negb Z.eqb]. rewrite Ht.
  assert (Hstring : wp (len ← read_length b;
      if len =? 0 then mret (make [])
      else
        match buffer b with
        | Some (Storage p) =>
            data ← get_buffer p;
            if (Z.to_nat len <=? length data)%nat then mret (make (take (Z.to_nat len) data))
            else undefined
        | _ => undefined
        end) (fun o w' => o = Ret (make value) /\ w' = w) w).
  { apply wp_bind. unfold read_length, read_member. rewrite Hl. apply wp_bind.
    eapply wp_deref; [exact Hp|]. apply bind_post_ret, wp_ret, bind_post_ret. rewrite Hlen.
    destruct value as [|x value]; [by apply wp_ret|]. cbn [length stored] in *.
    rewrite (proj2 (Z.eqb_neq _ _)), Hb by lia. wp_auto.
    rewrite Nat2Z.id. cbn [length]. rewrite Nat.leb_refl. apply wp_ret.
    by rewrite (firstn_all (x :: value) : take (S (length value)) (x :: value) = _). }
  destruct Hmake as [[-> ->]|[-> ->]]; exact Hstring.
Qed.
End read.

(** The bind of a parameter is accepted, and reading it gives its value. *)
Lemma setup_param_reads bufs s i p v :
  param_ok bufs s i p v ->
  exists b, setup_param (p_bind p) = Some b /\
    forall w, (forall q, p_bytes p = Some q -> buffers w !! q = bufs !! q) ->
      parameter_of w s i = Some p ->
      wp (read_param b) (fun o w' => o = Ret v /\ w' = w) w.
Proof.
  intros [Hnull Hv]. destruct v as [|z|z|bits|value|value].
  - destruct Hv as [_ Hb]. rewrite Hb. eexists. split; [reflexivity|]. intros w _ Hp.
    unfold read_param. apply wp_bind. by apply wp_ret, bind_post_ret, wp_ret.
  - destruct Hv as (_ & <- & Hz & Hb). rewrite Hb. eexists. split; [reflexivity|]. intros w _ Hp.
    by apply (read_int64 s i).
  - destruct Hv as (_ & <- & Hz & Hb). rewrite Hb. eexists. split; [reflexivity|]. intros w _ Hp.
    by apply (read_uint64 s i).
  - destruct Hv as (_ & <- & Hb). rewrite Hb. eexists. split; [reflexivity|]. intros w _ Hp.
    by apply (read_double s i).
  - destruct Hv as (q & Hq & Hbuf & Hb & Hlen). rewrite Hb. eexists. split; [reflexivity|].
    intros w Hw Hp. specialize (Hw q Hq). rewrite Hbuf in Hw.
    eapply (read_string s i p _ w Hp _ Hnull MYSQL_TYPE_STRING ParamText q value); by auto.
  - destruct Hv as (q & Hq & Hbuf & Hb & Hlen). rewrite Hb. eexists. split; [reflexivity|].
    intros w Hw Hp. specialize (Hw q Hq). rewrite Hbuf in Hw.
    eapply (read_string s i p _ w Hp _ Hnull MYSQL_TYPE_BLOB ParamBlob q value); by auto.
  Unshelve. all: done.
Qed.

(** The memory of the parameters [ps] of [s] is in [w] what it was in [bufs]. *)
Definition params_in (s : nat) (ps : list ParameterBinding) (bufs : gmap nat bytes) (w : world)
    : Prop :=
  (exists st, stmts w !! s = Some st /\ parameters st = ps) /\
  forall p q, p ∈ ps -> p_bytes p = Some q -> buffers w !! q = bufs !! q.

Lemma read_params_from s bufs ps vs : forall k,
  length ps = length vs ->
  (forall j p v, ps !! j = Some p -> vs !! j = Some v -> param_ok bufs s (k + j) p v) ->
  exists bs, mapM setup_param (p_bind <$> ps) = Some bs /\
    forall w, (forall j p, ps !! j = Some p -> parameter_of w s (k + j) = Some p) ->
      (forall p q, p ∈ ps -> p_bytes p = Some q -> buffers w !! q = bufs !! q) ->
      wp (read_params bs) (fun o w' => o = Ret vs /\ w' = w) w.
Proof.
  revert vs. induction ps as [|p ps IH]; intros [|v vs] k Hlen Hok; try done.
  { exists []. split; [done|]. intros w _ _. by apply wp_ret. }
  destruct (setup_param_reads bufs s (k + 0) p v) as (b & Hb & Hread); [by apply (Hok 0%nat)|].
  destruct (IH vs (S k)) as (bs & Hbs & Hreads).
  { by injection Hlen. } { intros j q u Hq Hu. rewrite Nat.add_succ_comm. by apply Hok. }
  exists (b :: bs). split; [rewrite fmap_cons; cbn [mapM]; rewrite Hb; cbn [mbind option_bind]; by rewrite Hbs|]. intros w Hparam Hbuf. simpl.
  apply wp_bind. eapply wp_mono; [apply Hread|].
  { intros q. apply Hbuf. by left. } { by apply Hparam. }
  intros o w' [-> ->]. apply bind_post_ret, wp_bind. eapply wp_mono; [apply Hreads|].
  { intros j q Hq. rewrite Nat.add_succ_comm. by apply Hparam. }
  { intros q r Hq. apply Hbuf. by right. }
  intros o w' [-> ->]. by apply bind_post_ret, wp_ret.
Qed.

(** The binds [bs] lead the server to the values [vs]. *)
Definition sends (s : nat) (ps : list ParameterBinding) (bufs : gmap nat bytes)
    (vs : list param_value) (bs : list MYSQL_BIND) : Prop :=
  forall w, params_in s ps bufs w ->
    wp (read_params bs) (fun o w' => o = Ret vs /\ w' = w) w.

Lemma setup_params_send s vs ps bufs next :
  bound_prefix s vs ps bufs next -> length ps = length vs ->
  exists bs, mapM setup_param (p_bind <$> ps) = Some bs /\ sends s ps bufs vs bs.
Proof.
  intros Hb Hlen. destruct (read_params_from s bufs ps vs 0 Hlen (bp_values _ _ _ _ _ Hb))
    as (bs & Hbs & Hreads).
  exists bs. split; [done|]. intros w [(st & Hst & <-) Hbuf]. apply Hreads; [|done].
  intros j p Hp. unfold parameter_of. rewrite Hst. exact Hp.
Qed.
End parameters.

(** ** A statement that has not been executed *)

Section idle.
  Context `{Server}.

(** The statement [s] of the handle [d] and its [MYSQL_STMT] [m], which the
    server knows as [id]: the parameters stand for [vs], the columns of the
    result are [fields], and the connection is at rest. *)
Record idle (s d m : nat) (id : Z) (vs : list param_value) (fields : list MYSQL_FIELD)
    (st : mylite_stmt) (ms : MYSQL_STMT) (c : MYSQL) (w : world) : Prop := mkIdle {
  id_stmt : stmts w !! s = Some st;
  id_mstmt : mysql_stmts w !! m = Some ms;
  id_conn : connections w !! d = Some c;
  id_db : is_Some (dbs w !! d);
  id_alloc : allocations w = [];
  id_killed : session_killed d (server_state w) = false;
  id_m : stmt st = Some m;
  id_d : db st = Some d;
  id_executed : executed st = false;
  id_has_result : has_result st = false;
  id_columns : columns st = [];
  id_result_binds : result_binds st = [];
  id_dirty : result_binds_dirty st = false;
  id_bound : bound_prefix s vs (parameters st) (buffers w) (next_address w);
  id_length : length (parameters st) = length vs;
  id_mysql : s_mysql ms = Some d;
  id_id : s_stmt_id ms = id;
  id_param_count : s_param_count ms = Z.of_nat (length vs);
  id_params : length (s_params ms) = length vs;
  id_fields : s_fields ms = fields;
  id_field_count : s_field_count ms = Z.of_nat (length fields);
  id_state : s_state ms = MYSQL_STMT_PREPARE_DONE;
  id_errno : s_last_errno ms = 0;
  id_ready : ready c;
  id_thd : is_Some (m_thd c);
  id_report : m_report_data_truncation c = true;
}.

(** The binds of the parameters are with the client library. *)
Definition parameters_sent (s : nat) (vs : list param_value) (st : mylite_stmt) (ms : MYSQL_STMT)
    (w : world) : Prop :=
  (vs = [] \/ s_bind_param_done ms = true) /\ sends s (parameters st) (buffers w) vs (s_params ms).

(** What stays the same while a statement is made ready. *)
Definition kept_by_setup (w w' : world) : Prop :=
  dbs w' = dbs w /\ connections w' = connections w /\ server_state w' = server_state w /\
  sys w' = sys w.

Lemma bind_parameters_spec s d m id vs fields st ms c w :
  idle s d m id vs fields st ms c w ->
  wp (bind_parameters s) (fun o w' => o = Ret MYLITE_OK /\ exists st' ms',
    idle s d m id vs fields st' ms' c w' /\ parameters_sent s vs st' ms' w' /\
    kept_by_setup w w') w.
Proof.
  intros Hi. pose proof Hi as [].
  destruct (setup_params_send s vs (parameters st) (buffers w) (next_address w)) as (bs & Hbs & Hsends);
    [done..|].
  unfold bind_parameters. wp_auto. destruct (parameters st) as [|p ps] eqn:Hps.
  - wp_auto. split; [done|]. exists st, ms. split; [done|]. split; [|done].
    destruct vs; [|done]. split; [by left|].
    replace (s_params ms) with (@nil MYSQL_BIND) by (by destruct (s_params ms)).
    intros w' _. by apply wp_ret.
  - wp_auto. eapply wp_deref; [simpl; rewrite lookup_insert_eq; done|].
    apply bind_post_ret. unfold mysql_stmt_bind_param. wp_auto. rewrite id_param_count0.
    assert (Hne : length vs <> 0%nat) by (rewrite <- id_length0; simpl; lia).
    rewrite (proj2 (Z.eqb_neq _ _)), length_fmap, id_length0, Z.eqb_refl by lia. cbn [negb].
    rewrite Hbs. wp_auto. split; [done|].
    exists (with_parameter_binds (p_bind <$> p :: ps) st), (with_s_params bs true ms).
    split; [|split; [|done]].
    + split; try done; try apply lookup_insert_eq; simpl; try (by rewrite Hps).
      apply length_mapM in Hbs. rewrite length_fmap in Hbs. congruence.
    + split; [by right|]. simpl. rewrite Hps. exact Hsends.
Qed.
End idle.

(** ** Setting the columns up *)

Section columns.
  Context `{Server}.

(** The first columns of the statement [s] are those of [slots], [n] more are
    still new. *)
Record building (s : nat) (slots : list slot) (n : nat) (st : mylite_stmt) (w : world)
    : Prop := mkBuilding {
  bu_stmt : stmts w !! s = Some st;
  bu_columns : columns st = (sl_column <$> slots) ++ replicate n new_column;
  bu_binds : result_binds st = ((fun sl => c_bind (sl_column sl)) <$> slots) ++ replicate n zero_bind;
  bu_live : forall j sl, slots !! j = Some sl ->
    live s (columns_generation st) j (buffers w) (next_address w) sl;
  bu_retired : Forall (fun sl => c_retired_buffer (sl_column sl) = None) slots;
  bu_apart : apart slots;
  bu_steady : Forall steady slots;
}.

Lemma initial_width_range field : 1 <= initial_width field <= 4096.
Proof. unfold initial_width, k_initial_result_buffer_size. lia. Qed.

(** The column of a field with its buffer [b]. *)
Definition set_up_column (s g j : nat) (field : MYSQL_FIELD) (b : nat) : ResultColumn :=
  let column := describe_column s g j field new_column in
  with_c_bind (with_buffer (Some (Storage b)) (with_buffer_length (initial_width field) (c_bind column)))
    (with_c_buffers (Some b) None column).

Definition new_slot (s g j : nat) (field : MYSQL_FIELD) (b : nat) : slot :=
  mkSlot zero_bind field (set_up_column s g j field b) b (Z.to_nat (initial_width field)).

(** The world after the column was set up. *)
Definition column_set_up (s : nat) (slots : list slot) (field : MYSQL_FIELD) (st : mylite_stmt)
    (w : world) : mylite_stmt * world :=
  let g := columns_generation st in
  let b := next_address w in
  let column := set_up_column s g (length slots) field b in
  let st' := with_result_binds (<[length slots := c_bind column]> (result_binds st))
               (result_binds_dirty st)
               (with_columns (<[length slots := column]> (columns st)) st) in
  (st', set_stmts (<[s := st']> (stmts w))
          (set_buffers (<[b := replicate (S (Z.to_nat (initial_width field))) zero]> (buffers w))
             (set_next_address (S b) w))).

Lemma new_slot_live s g j field b next bufs :
  known_field_type (f_type field) = true -> (b < next)%nat ->
  bufs !! b = Some (replicate (S (Z.to_nat (initial_width field))) zero) ->
  live s g j bufs next (new_slot s g j field b).
Proof.
  intros Hk Hb Hbufs. pose proof (initial_width_range field). split; try done; simpl.
  - split; try done. simpl. lia.
  - eexists. split; [exact Hbufs|]. apply length_replicate.
Qed.

Lemma building_snoc s slots n st field w :
  building s slots (S n) st w -> known_field_type (f_type field) = true ->
  let '(st', w') := column_set_up s slots field st w in
  building s (slots ++ [new_slot s (columns_generation st) (length slots) field (next_address w)]) n
    st' w'.
Proof.
  intros [Hst Hcs Hrb Hlive Hret Hapart Hsteady] Hk. unfold column_set_up.
  pose proof (initial_width_range field) as Hw.
  assert (Hold : forall j sl, slots !! j = Some sl -> (sl_storage sl < next_address w)%nat)
    by (intros j sl Hj; apply (Hlive j sl Hj)).
  set (sl := new_slot _ _ _ _ _). split; simpl.
  - apply lookup_insert_eq.
  - rewrite Hcs, fmap_app, <- app_assoc.
    replace (length slots) with (length (sl_column <$> slots) + 0)%nat at 1 by (rewrite length_fmap; lia).
    by rewrite insert_app_r.
  - rewrite Hrb, fmap_app, <- app_assoc.
    replace (length slots) with (length ((fun sl => c_bind (sl_column sl)) <$> slots) + 0)%nat at 1
      by (rewrite length_fmap; lia).
    by rewrite insert_app_r.
  - intros j sl' Hj. apply lookup_snoc_Some in Hj as [[Hlt Hj]|[-> <-]].
    + by apply live_later, Hlive.
    + apply new_slot_live; [done|lia|apply lookup_insert_eq].
  - by apply Forall_app_2; [done|constructor].
  - destruct Hapart as [Ha Hr]. split.
    + intros j k sl1 sl2 [[Hlt1 H1]|[-> <-]]%lookup_snoc_Some [[Hlt2 H2]|[-> <-]]%lookup_snoc_Some Heq;
        [by apply (Ha j k sl1 sl2)| | |done];
        [specialize (Hold j sl1 H1)|specialize (Hold k sl2 H2)]; simpl in Heq; lia.
    + intros j k sl1 sl2 H1 H2. rewrite Forall_lookup in Hret.
      apply lookup_snoc_Some in H2 as [[Hlt2 H2]|[-> <-]]; [by rewrite (Hret k sl2 H2)|done].
  - apply Forall_app_2; [done|]. constructor; [|done]. intros _. simpl. lia.
Qed.

(** What setting columns up keeps: all memory that was there before. *)
Definition kept_by_columns (w w' : world) : Prop :=
  kept_by_setup w w' /\ mysql_stmts w' = mysql_stmts w /\ allocations w' = allocations w /\
  (next_address w <= next_address w')%nat /\
  forall q, (q < next_address w)%nat -> buffers w' !! q = buffers w !! q.

(** The members of a statement that are not about its columns. *)
Definition off_columns (st : mylite_stmt) :=
  (db st, stmt st, parameters st, executed st, has_result st, has_row st, columns_generation st,
   result_binds_dirty st).

Lemma set_up_one_spec s slots field fields st w (Q : outcome Z -> world -> Prop) :
  building s slots (S (length fields)) st w -> allocations w = [] ->
  wp (set_up_columns s (columns_generation st) (S (length slots)) fields) Q
    (column_set_up s slots field st w).2 ->
  wp (set_up_columns s (columns_generation st) (length slots) (field :: fields)) Q w.
Proof.
  intros [Hst Hcs Hrb Hlive Hret Hapart Hsteady] Halloc HQ. pose proof (initial_width_range field) as Hw.
  cbn [set_up_columns]. apply wp_bind. eapply (wp_deref _ _ _ new_column).
  { unfold column_of. rewrite Hst. simpl. rewrite decide_True by done.
    rewrite Hcs, lookup_app_r, length_fmap, Nat.sub_diag by (rewrite length_fmap; lia). done. }
  apply bind_post_ret. fold (initial_width field). apply wp_bind. unfold configure_column_buffer.
  apply wp_bind. unfold allocate_column_buffer.
  rewrite (proj2 (Z.eqb_neq _ ULONG_MAX)) by (unfold ULONG_MAX; lia).
  rewrite (proj2 (Z.ltb_ge vector_max_size _)) by (unfold vector_max_size; lia).
  wp_auto. simpl. wp_auto. simpl. wp_auto. simpl. wp_auto.
  replace (Z.to_nat (initial_width field + 1)) with (S (Z.to_nat (initial_width field))) by lia.
  revert HQ. unfold column_set_up. simpl. rewrite insert_insert_eq. exact (fun HQ => HQ).
Qed.

Lemma set_up_columns_spec s fields : forall slots st w,
  building s slots (length fields) st w -> allocations w = [] ->
  Forall (fun field => known_field_type (f_type field) = true) fields ->
  wp (set_up_columns s (columns_generation st) (length slots) fields) (fun o w' =>
    o = Ret MYLITE_OK /\ exists slots' st', building s slots' 0 st' w' /\
      sl_field <$> slots' = (sl_field <$> slots) ++ fields /\ off_columns st' = off_columns st /\
      kept_by_columns w w') w.
Proof.
  induction fields as [|field fields IH]; intros slots st w Hb Halloc Hknown.
  { apply wp_ret. split; [done|]. exists slots, st. rewrite app_nil_r. by split_and!. }
  inversion Hknown as [|? ? Hk Hknown']; subst.
  apply set_up_one_spec; [done|done|].
  pose proof (building_snoc s slots (length fields) st field w Hb Hk) as Hb'.
  destruct (column_set_up s slots field st w) as [st1 w1] eqn:Hcol. simpl.
  injection Hcol as Hst1 Hw1.
  specialize (IH _ _ _ Hb'). rewrite length_app, Nat.add_1_r in IH.
  replace (columns_generation st1) with (columns_generation st) in IH by (by subst st1).
  eapply wp_mono; [apply IH; [by subst w1|done]|].
  intros o w' (-> & slots' & st' & Hb2 & Hfields & Hoff & (Hsetup & Hms & Hal & Hnext & Hbufs)).
  split; [done|]. exists slots', st'. split; [done|].
  split; [by rewrite Hfields, fmap_app, <- app_assoc|]. split; [by rewrite Hoff; subst st1|].
  subst w1. simpl in *. split; [done|]. split; [done|]. split; [congruence|]. split; [lia|].
  intros q Hq. rewrite Hbufs by lia. by apply lookup_insert_ne; lia.
Qed.
End columns.

Section results.
  Context `{Server}.

(** The statement after its columns were set up and bound. *)
Record set_up_at (s d m : nat) (fields : list MYSQL_FIELD) (slots : list slot) (st : mylite_stmt)
    (ms0 ms : MYSQL_STMT) (w : world) : Prop := mkSetUpAt {
  su_result : result_at s d m slots st ms w;
  su_clean : clean s slots st ms;
  su_steady : Forall steady slots;
  su_fields : sl_field <$> slots = fields;
  su_has_result : has_result st = true;
  su_executed : executed st = false;
  su_mstmt : ms = with_s_bind_result_done true true (with_s_bind (sl_bind <$> slots) ms0);
}.

(** Freeing changes only [buffers]. *)
Lemma free_columns_spec cs (Q : outcome unit -> world -> Prop) : forall w,
  (forall bs, Q (Ret tt) (set_buffers bs w)) -> wp (free_columns cs) Q w.
Proof.
  induction cs as [|c cs IH]; intros w HQ; simpl.
  - apply wp_ret. specialize (HQ (buffers w)). by destruct w.
  - unfold free_buffer. destruct (c_buffer c), (c_retired_buffer c); wp_auto; apply IH; intros bs; exact (HQ bs).
Qed.
Lemma free_parameters_spec ps (Q : outcome unit -> world -> Prop) : forall w,
  (forall bs, Q (Ret tt) (set_buffers bs w)) -> wp (free_parameters ps) Q w.
Proof.
  induction ps as [|p ps IH]; intros w HQ; simpl.
  - apply wp_ret. specialize (HQ (buffers w)). by destruct w.
  - unfold free_buffer. destruct (p_bytes p); wp_auto; apply IH; intros bs; exact (HQ bs).
Qed.

Lemma release_idle_spec s d m id vs fields st ms c w (Q : outcome unit -> world -> Prop) :
  idle s d m id vs fields st ms c w ->
  Q (Ret tt) (set_stmts (<[s := with_has_row false (with_has_result false
     (with_result_binds [] false (clear_columns (with_metadata None st))))]> (stmts w)) w) ->
  wp (release_statement_results s) Q w.
Proof.
  intros [] HQ. unfold release_statement_results. wp_auto. rewrite id_m0, id_has_result0. wp_auto.
  rewrite id_columns0. simpl. wp_auto. exact HQ.
Qed.

Lemma building_result s d m slots st ms w :
  building s slots 0 st w -> slots <> [] -> mysql_stmts w !! m = Some ms -> stmt st = Some m ->
  db st = Some d -> s_mysql ms = Some d -> s_fields ms = sl_field <$> slots ->
  s_field_count ms = Z.of_nat (length slots) -> result_at s d m slots st ms w.
Proof.
  intros [Hst Hcs Hrb Hlive Hret Hapart Hsteady] Hne Hms Hm Hd Hmd Hf Hn. simpl in *.
  rewrite app_nil_r in Hcs, Hrb. by split.
Qed.

(** Columns without a retired buffer are not changed by binding them. *)
Lemma refresh_columns slots :
  Forall (fun sl => c_retired_buffer (sl_column sl) = None) slots ->
  sl_column <$> (refresh <$> slots) = sl_column <$> slots.
Proof.
  induction 1 as [|sl slots Hsl _ IH]; [done|]. rewrite !fmap_cons, IH. f_equal. simpl.
  destruct (sl_column sl). simpl in Hsl. by rewrite Hsl.
Qed.

Lemma bound_result s d m slots st ms w :
  result_at s d m slots st ms w ->
  Forall (fun sl => c_retired_buffer (sl_column sl) = None) slots ->
  result_binds_dirty st = false ->
  let ms' := with_s_bind_result_done true true (with_s_bind (sl_bind <$> (refresh <$> slots)) ms) in
  let w' := set_mysql_stmts (<[m := ms']> (mysql_stmts w)) w in
  result_at s d m (refresh <$> slots) st ms' w' /\ clean s (refresh <$> slots) st ms'.
Proof.
  intros Hr Hret Hdirty ms' w'.
  assert (Hsame : refresh_stmt st = st).
  { unfold refresh_stmt. pose proof (refresh_columns slots Hret) as Heq.
    rewrite <- list_fmap_compose in Heq.
    rewrite (ra_columns _ _ _ _ _ _ _ Hr). rewrite <- list_fmap_compose.
    change (sl_column ∘ refresh) with
      ((fun c => with_c_buffers (c_buffer c) None c) ∘ sl_column) in Heq.
    rewrite Heq, <- (ra_columns _ _ _ _ _ _ _ Hr), <- Hdirty. by destruct st. }
  pose proof (result_at_refresh s d m slots st ms w w' Hr) as Href. rewrite Hsame in Href.
  apply Href.
  - apply (ra_stmt _ _ _ _ _ _ _ Hr).
  - apply lookup_insert_eq.
  - simpl. rewrite (ra_columns _ _ _ _ _ _ _ Hr). clear -Hret.
    induction Hret as [|sl slots Hsl _ IH]; [done|]. simpl. by rewrite Hsl.
  - done.
Qed.

Lemma result_at_has_result s d m slots st ms b w :
  result_at s d m slots st ms w ->
  result_at s d m slots (with_has_result b st) ms
    (set_stmts (<[s := with_has_result b st]> (stmts w)) w).
Proof.
  intros [Hst Hms Hm Hd Hmd Hcs Hrb Hf Hn Hne Hlive Hapart]. split; try done. apply lookup_insert_eq.
Qed.

Lemma building_none s n st w :
  stmts w !! s = Some st -> columns st = replicate n new_column ->
  result_binds st = replicate n zero_bind -> building s [] n st w.
Proof. intros Hst Hcs Hrb. by split. Qed.

(** The columns are bound and the result is there. *)
Lemma bind_columns_spec s d m slots st ms c w :
  building s slots 0 st w -> slots <> [] -> mysql_stmts w !! m = Some ms -> stmt st = Some m ->
  db st = Some d -> s_mysql ms = Some d -> s_fields ms = sl_field <$> slots ->
  s_field_count ms = Z.of_nat (length slots) -> result_binds_dirty st = false ->
  executed st = false -> connections w !! d = Some c -> m_report_data_truncation c = true ->
  wp (st ← get_stmt s;
      error ← mysql_stmt_bind_result m (result_binds st);
      if (error : bool) then set_mariadb_statement_error s ;; mret MYLITE_ERROR
      else update_stmt s (with_has_result true) ;; mret MYLITE_OK)
    (fun o w' => o = Ret MYLITE_OK /\ exists ms', set_up_at s d m (sl_field <$> slots)
        (refresh <$> slots) (with_has_result true st) ms ms' w' /\
      buffers w' = buffers w /\ kept_by_setup w w' /\ allocations w' = allocations w) w.
Proof.
  intros Hb Hne Hms Hm Hd Hmd Hf Hn Hdirty Hexec Hc Hreport.
  pose proof (building_result s d m slots st ms w Hb Hne Hms Hm Hd Hmd Hf Hn) as Hr.
  destruct (bound_result s d m slots st ms w Hr (bu_retired _ _ _ _ _ Hb) Hdirty) as [Hr' Hcl'].
  pose proof (bu_stmt _ _ _ _ _ Hb) as Hst. wp_auto. rewrite (ra_binds _ _ _ _ _ _ _ Hr).
  eapply mysql_stmt_bind_result_spec; [done|done|done|done| | | |].
  { by intros ?%fmap_nil_inv. } { by rewrite length_fmap. }
  { rewrite Hf. eapply live_acceptable, Hr. }
  rewrite Hf, refresh_binds_eq. apply bind_post_ret. cbn iota. wp_auto. split; [done|].
  eexists. split; [|by split_and!]. split; try done.
  - exact (result_at_has_result _ _ _ _ _ _ true _ Hr').
  - by destruct Hcl'.
  - pose proof (bu_steady _ _ _ _ _ Hb) as Hsteady. clear -Hsteady.
    induction Hsteady; rewrite ?fmap_cons; by constructor.
  - by rewrite <- list_fmap_compose.
Qed.

Lemma initialize_spec s d m id vs fields st ms c w :
  idle s d m id vs fields st ms c w -> fields <> [] ->
  Forall (fun field => known_field_type (f_type field) = true) fields ->
  wp (initialize_statement_results s true) (fun o w' => o = Ret MYLITE_OK /\
    exists slots st' ms', set_up_at s d m fields slots st' ms ms' w' /\
      parameters st' = parameters st /\ kept_by_setup w w' /\ allocations w' = [] /\
      forall q, (q < next_address w)%nat -> buffers w' !! q = buffers w !! q) w.
Proof.
  intros Hi Hne Hknown. unfold initialize_statement_results. apply wp_bind.
  eapply release_idle_spec; [exact Hi|]. apply bind_post_ret.
  destruct Hi as [Hst Hms Hc Hdb Halloc Hkill Hm Hd Hexec Hres Hcols Hrb Hdirty Hbound Hlen Hmd Hid Hpc
                    Hps Hf Hn Hstate Herr Hready Hthd Hreport].
  apply wp_bind. eapply wp_deref; [simpl; rewrite lookup_insert_eq; exact Hm|]. apply bind_post_ret.
  apply wp_bind. unfold mysql_stmt_result_metadata. wp_auto.
  rewrite Hn, (proj2 (Z.eqb_neq _ _)) by (destruct fields; simpl; [done|lia]). wp_auto. simpl. wp_auto.
  simpl. rewrite insert_insert_eq. wp_auto. simpl. rewrite insert_insert_eq, Hf, !resize_nil. wp_auto.
  set (st1 := with_result_binds _ _ _).
  match goal with |- wp _ _ ?w => set (w1 := w) end.
  eapply wp_mono.
  { apply (set_up_columns_spec s fields [] st1 w1); [|done|done].
    apply building_none; [apply lookup_insert_eq|done|done]. }
  intros o w2 (-> & slots & st2 & Hb & Hfields & Hoff & (Hsetup & Hms2 & Hal & Hnext & Hbufs)).
  apply bind_post_ret. cbn iota. simpl in Hfields. injection Hoff as Hdb2 Hm2 Hps2 Hex2 Hres2 _ _ Hdirty2.
  destruct Hsetup as (Hdbs2 & Hconn2 & Hsrv2 & Hsys2). subst w1. simpl in *.
  eapply wp_mono; [eapply (bind_columns_spec s d m slots st2 ms c w2)|].
  - done.
  - intros ->. by destruct fields.
  - by rewrite Hms2.
  - congruence.
  - congruence.
  - done.
  - congruence.
  - rewrite <- Hf in Hfields. rewrite Hn, <- Hf, <- Hfields. by rewrite length_fmap.
  - congruence.
  - congruence.
  - by rewrite Hconn2.
  - done.
  - intros o w' (-> & ms' & Hsu & Hbufs' & (Hdbs' & Hconn' & Hsrv' & Hsys') & Hal'). split; [done|].
    rewrite Hfields in Hsu. eexists _, _, ms'. split; [exact Hsu|]. split; [exact Hps2|].
    split; [split_and!; congruence|]. split; [simpl in Hal; congruence|].
    intros q Hq. rewrite Hbufs'. by apply Hbufs.
Qed.
End results.

(** ** Execution *)

(** The server answers the execution of the statement [id] with the values
    [vs] with [data] alone; [srv] and [fs] are its state and the files
    afterwards. *)
Definition executes `{Server} (d : nat) (id : Z) (vs : list param_value) (data : MYSQL_DATA)
    (srv : server) (fs : filesystem) (w : world) : Prop :=
  exists r, dispatch_command d (COM_STMT_EXECUTE id vs) (server_state w) (files (sys w)) = (r, srv, fs) /\
    dispatch_result r = false /\ datasets r = [data] /\
    more_results (d_server_status data) = false /\ d_last_errno data = 0.

Section execute.
  Context `{Server}.

(** A [MYSQL_STMT] whose statement can be executed. *)
Record executable (s d m : nat) (id : Z) (vs : list param_value) (ps : list ParameterBinding)
    (bufs : gmap nat bytes) (ms : MYSQL_STMT) (c : MYSQL) (w : world) : Prop := mkExecutable {
  ex_mstmt : mysql_stmts w !! m = Some ms;
  ex_conn : connections w !! d = Some c;
  ex_mysql : s_mysql ms = Some d;
  ex_id : s_stmt_id ms = id;
  ex_state : s_state ms = MYSQL_STMT_PREPARE_DONE;
  ex_errno : s_last_errno ms = 0;
  ex_bound : negb (s_param_count ms =? 0) && negb (s_bind_param_done ms) = false;
  ex_sends : sends s ps bufs vs (s_params ms);
  ex_params : params_in s ps bufs w;
  ex_killed : session_killed d (server_state w) = false;
  ex_ready : ready c;
  ex_thd : is_Some (m_thd c);
}.

(** [reset_stmt_handle] of a statement that has not been executed. *)
Lemma reset_prepared_spec m ms (Q : outcome bool -> world -> Prop) w :
  mysql_stmts w !! m = Some ms -> s_state ms = MYSQL_STMT_PREPARE_DONE -> s_last_errno ms = 0 ->
  is_Some (s_mysql ms) ->
  Q (Ret false) (set_mysql_stmts (<[m := with_s_state MYSQL_STMT_PREPARE_DONE
     (with_s_read_row_func stmt_read_row_no_result_set (with_s_result [] [] ms))]> (mysql_stmts w)) w) ->
  wp (reset_stmt_handle m (Z.lor RESET_STORE_RESULT RESET_CLEAR_ERROR)) Q w.
Proof.
  intros Hms Hstate Herr [d Hd] HQ. unfold reset_stmt_handle, reset_stmt_handle_with. wp_auto.
  rewrite Hstate, Hd.
  change (MYSQL_STMT_PREPARE_DONE <=? MYSQL_STMT_INIT_DONE) with false.
  change (has_flag (Z.lor RESET_STORE_RESULT RESET_CLEAR_ERROR) RESET_STORE_RESULT) with true.
  change (has_flag (Z.lor RESET_STORE_RESULT RESET_CLEAR_ERROR) RESET_SERVER_SIDE) with false.
  change (has_flag (Z.lor RESET_STORE_RESULT RESET_CLEAR_ERROR) RESET_CLEAR_ERROR) with true.
  cbn iota. wp_auto. change (MYSQL_STMT_PREPARE_DONE <? MYSQL_STMT_PREPARE_DONE) with false.
  cbn iota. wp_auto. revert HQ. unfold stmt_clear_error. simpl. rewrite Herr. simpl.
  rewrite !insert_insert_eq. exact (fun HQ => HQ).
Qed.

(** The connection after an answer was announced to a statement. *)
Definition announced (data : MYSQL_DATA) (c c' : MYSQL) : Prop :=
  m_report_data_truncation c' = m_report_data_truncation c /\
  more_results (m_server_status c') = false /\
  match d_fields_list data with
  | Some fields =>
      m_status c' = MYSQL_STATUS_STATEMENT_GET_RESULT /\ m_fields c' = Some fields /\
      m_field_count c' = Z.of_nat (length fields) /\
      exists t, m_thd c' = Some t /\ first_data t = [] /\ cur_data t = Some data
  | None =>
      ready c' /\ m_field_count c' = 0 /\ m_affected_rows c' = d_affected_rows data /\
      m_insert_id c' = d_insert_id data /\ exists t, m_thd c' = Some t /\ first_data t = []
  end.

(** A command on a live session: the answer is with the [THD]. *)
Lemma emb_advanced_command_spec d x (skip_check : bool) c t r srv fs
    (Q : outcome bool -> world -> Prop) w :
  connections w !! d = Some c -> ready c -> m_thd c = Some t ->
  session_killed d (server_state w) = false ->
  dispatch_command d x (server_state w) (files (sys w)) = (r, srv, fs) ->
  (let t' := mkThd (datasets r) None (client_stmt_id r) (client_param_count r)
               (current_statement_warn_count r) in
   let c' := with_thd (Some t') (free_old_query (net_clear_error
               (with_affected_rows MYSQL_COUNT_ERROR (with_thd (Some (with_data [] None t)) c)))) in
   Q (Ret (if skip_check then dispatch_result r else thd_is_error r))
     (set_connections (<[d := c']> (connections w)) (set_server_state srv fs w))) ->
  wp (emb_advanced_command d x skip_check) Q w.
Proof.
  intros Hc Hready Ht Hkill Hr HQ. unfold emb_advanced_command. wp_auto.
  rewrite Hkill, andb_false_r. wp_auto. rewrite Ht. unfold THD_clear_data_list. wp_auto.
  rewrite Hready, bool_decide_eq_true_2 by done. simpl. wp_auto. simpl in *.
  match goal with Heq : dispatch_command _ _ _ _ = (_, _, _) |- _ =>
    rewrite Hr in Heq; injection Heq as <- <- <- end.
  revert HQ. simpl. rewrite !insert_insert_eq. exact (fun HQ => HQ).
Qed.

(** The connection of an executed statement with nothing left to read. *)
Lemma release_ready_spec m d ms c (Q : outcome unit -> world -> Prop) w :
  mysql_stmts w !! m = Some ms -> connections w !! d = Some c -> ready c ->
  more_results (m_server_status c) = false ->
  (forall c', ready c' -> m_thd c' = m_thd c -> m_report_data_truncation c' = m_report_data_truncation c ->
     Q (Ret tt) (set_connections (<[d := c']> (connections w)) w)) ->
  wp (release_connection m d ;; drain_all_results m d) Q w.
Proof.
  intros Hms Hc Hready Hmore HQ. unfold release_connection, drain_all_results. wp_auto.
  set (c1 := if decide (m_unbuffered_fetch_owner c = Some m) then with_owner None c else c).
  assert (Hc1 : ready c1 /\ m_server_status c1 = m_server_status c /\ m_thd c1 = m_thd c /\
    m_report_data_truncation c1 = m_report_data_truncation c) by (unfold c1; by destruct (decide _)).
  destruct Hc1 as (Hready1 & Hstatus1 & Hthd1 & Hreport1).
  rewrite (bool_decide_eq_true_2 (m_status c1 = _)) by exact Hready1. rewrite andb_false_r. wp_auto.
  cbn [drain_results]. wp_auto. rewrite Hstatus1. unfold more_results in Hmore. rewrite Hmore. cbn [negb]. wp_auto.
  simpl. by apply HQ.
Qed.

(** The one answer of a [THD] is read. *)
Lemma emb_read_query_result_spec d c t data (Q : outcome bool -> world -> Prop) w :
  connections w !! d = Some c -> m_thd c = Some t -> first_data t = [data] -> cur_data t = None ->
  ready c -> d_last_errno data = 0 -> more_results (d_server_status data) = false ->
  (forall c', announced data c
     (if decide (m_status c' = MYSQL_STATUS_GET_RESULT)
      then with_status MYSQL_STATUS_STATEMENT_GET_RESULT c' else c') ->
     Q (Ret false) (set_connections (<[d := c']> (connections w)) w)) ->
  wp (emb_read_query_result d) Q w.
Proof.
  intros Hc Ht Hfirst Hcur Hready Herr Hmore HQ. unfold emb_read_query_result. wp_auto.
  rewrite Hfirst, Hcur. wp_auto. rewrite Herr. simpl. wp_auto.
  destruct (d_fields_list data) as [fields|] eqn:Hf; unfold announced in HQ; rewrite Hf in HQ.
  - destruct (decide (Some fields = None)); [done|]. wp_auto. simpl.
    match goal with |- Q _ (set_connections (insert d ?c' _) _) =>
      pose proof (HQ c') as HQ' end.
    revert HQ'. rewrite !insert_insert_eq. intros HQ'. apply HQ'. simpl.
    split; [done|]. split; [done|]. split; [done|]. split; [done|]. split; [done|]. by eexists.
  - destruct (decide (None = None)); [|done]. wp_auto. simpl.
    match goal with |- Q _ (set_connections (insert d ?c' _) _) =>
      pose proof (HQ c') as HQ' end.
    revert HQ'. rewrite !insert_insert_eq. intros HQ'. apply HQ'. simpl.
    rewrite Hready, decide_False by done. simpl.
    split; [done|]. split; [done|]. split; [done|]. split; [done|]. split; [done|]. split; [done|].
    by eexists.
Qed.

Lemma emb_stmt_execute_spec s d m id vs ps bufs ms c data srv fs (Q : outcome bool -> world -> Prop) w :
  executable s d m id vs ps bufs ms c w -> executes d id vs data srv fs w ->
  (forall c', announced data c c' ->
     Q (Ret false) (set_mysql_stmts (<[m := with_s_effects (m_affected_rows c') (m_insert_id c')
         (m_server_status c') ms]> (mysql_stmts w))
       (set_connections (<[d := c']> (connections w)) (set_server_state srv fs w)))) ->
  wp (emb_stmt_execute m d) Q w.
Proof.
  intros [Hms Hc Hd Hid Hstate Herr Hbound Hsends Hparams Hkill Hready [t Ht]]
    (r & Hr & Hresult & Hdata & Hmore & Herrno) HQ.
  unfold emb_stmt_execute. wp_auto. rewrite Hbound. wp_auto.
  eapply wp_mono; [by apply Hsends|]. intros o w' [-> ->]. apply bind_post_ret. rewrite Hid.
  apply wp_bind. eapply emb_advanced_command_spec; [done..|]. cbv zeta. apply bind_post_ret.
  rewrite Hresult. apply wp_bind. eapply emb_read_query_result_spec;
    [apply lookup_insert_eq|done|done|done|exact Hready|done|done|].
  intros c' Hc'. simpl. apply bind_post_ret. wp_auto.
  destruct (decide (m_status c' = MYSQL_STATUS_GET_RESULT)); wp_auto;
    specialize (HQ _ Hc'); revert HQ; simpl; rewrite !insert_insert_eq; exact (fun HQ => HQ).
Qed.

(** What an execution keeps of the [MYSQL_STMT]. *)
Definition result_core (ms : MYSQL_STMT) :=
  (s_mysql ms, s_bind ms, s_fields ms, s_field_count ms, s_bind_result_done ms,
   s_report_data_truncation ms, s_stmt_id ms, s_param_count ms, s_params ms, s_last_errno ms).

(** The world after an execution: the answer is announced, nothing else has
    changed. *)
Definition executed_world (m d : nat) (ms' : MYSQL_STMT) (c' : MYSQL) (srv : server)
    (fs : filesystem) (w : world) : world :=
  set_mysql_stmts (<[m := ms']> (mysql_stmts w))
    (set_connections (<[d := c']> (connections w)) (set_server_state srv fs w)).

Lemma executable_reset s d m id vs ps bufs ms c w :
  executable s d m id vs ps bufs ms c w ->
  let ms1 := with_s_state MYSQL_STMT_PREPARE_DONE
     (with_s_read_row_func stmt_read_row_no_result_set (with_s_result [] [] ms)) in
  executable s d m id vs ps bufs ms1 c (set_mysql_stmts (<[m := ms1]> (mysql_stmts w)) w).
Proof. intros [] ms1. split; try done. apply lookup_insert_eq. Qed.

(** A statement without a result: the effects are those of the answer. *)
Lemma execute_update_spec s d m id vs ps bufs ms c data srv fs (Q : outcome bool -> world -> Prop) w :
  executable s d m id vs ps bufs ms c w -> executes d id vs data srv fs w ->
  d_fields_list data = None ->
  (forall ms' c', announced data c c' -> result_core ms' = result_core ms ->
     s_state ms' = MYSQL_STMT_EXECUTE_DONE ->
     s_affected_rows ms' = d_affected_rows data -> s_insert_id ms' = d_insert_id data ->
     Q (Ret false) (executed_world m d ms' c' srv fs w)) ->
  wp (mysql_stmt_execute m) Q w.
Proof.
  intros He Hx Hf HQ. pose proof He as [Hms Hc Hd Hid Hstate Herr Hbound Hsends Hparams Hkill Hready Hthd].
  unfold mysql_stmt_execute. wp_auto. rewrite Hd. apply wp_bind.
  eapply reset_prepared_spec; [done|done|done|by eexists|]. apply bind_post_ret. cbn iota.
  apply wp_bind. eapply emb_stmt_execute_spec; [by apply executable_reset|done|].
  intros c' Hc'. pose proof Hc' as Hann. unfold announced in Hc'. rewrite Hf in Hc'.
  destruct Hc' as (Hreport & Hmore & Hready' & Hcount & Haff & Hins & Hthd').
  apply bind_post_ret. cbn iota. wp_auto. rewrite Hcount. simpl. wp_auto. simpl. rewrite Herr. simpl.
  rewrite !insert_insert_eq. unfold executed_world in HQ. by apply HQ.
Qed.

(** A bind that is set up for its field. *)
Definition settled (b : MYSQL_BIND) (field : MYSQL_FIELD) : Prop :=
  buffer_type b = MYSQL_TYPE_STRING /\ fetch_result b = fetch_function_of field /\
  known_field_type (f_type field) = true.

Lemma setup_settled b field (Q : outcome (option MYSQL_BIND) -> world -> Prop) w :
  settled b field -> Q (Ret (Some b)) w -> wp (setup_one_fetch_function b field) Q w.
Proof.
  intros (Ht & Hf & Hk) HQ. unfold setup_one_fetch_function. rewrite Ht. cbn [buffer_fetch_function].
  apply wp_bind, wp_ret, bind_post_ret. cbn [buffer_type with_fetch_result]. rewrite Ht, Hk.
  apply wp_ret. unfold fetch_function_of in Hf.
  destruct b; simpl in *; subst; by destruct (is_binary_compatible _ _).
Qed.

Lemma refresh_settled binds fields : Forall2 settled binds fields ->
  forall (Q : outcome (list MYSQL_BIND) -> world -> Prop) w,
  Q (Ret binds) w -> wp (refresh_binds binds fields) Q w.
Proof.
  induction 1 as [|b field binds fields Hb _ IH]; intros Q w HQ; [done|].
  cbn [refresh_binds]. apply wp_bind, setup_settled; [done|]. apply bind_post_ret, wp_bind.
  by apply IH, bind_post_ret, wp_ret.
Qed.

Lemma update_field_same fields : zip_with update_field fields fields = fields.
Proof. induction fields as [|[] fields IH]; [done|]. simpl. by rewrite IH. Qed.

(** A statement with a result: its rows wait to be fetched. *)
Lemma execute_select_spec s d m id vs ps bufs ms c data fields srv fs
    (Q : outcome bool -> world -> Prop) w :
  executable s d m id vs ps bufs ms c w -> executes d id vs data srv fs w ->
  d_fields_list data = Some fields -> fields <> [] -> s_fields ms = fields ->
  s_field_count ms = Z.of_nat (length fields) -> s_bind_result_done ms = true ->
  Forall2 settled (s_bind ms) fields -> m_report_data_truncation c = true ->
  (forall ms' c', streaming (d_rows data) c' -> result_core ms' = result_core ms ->
     s_read_row_func ms' = stmt_read_row_unbuffered -> s_insert_id ms' = m_insert_id c' ->
     Q (Ret false) (executed_world m d ms' c' srv fs w)) ->
  wp (mysql_stmt_execute m) Q w.
Proof.
  intros He Hx Hf Hne Hfields Hn Hdone Hset Hreport HQ.
  pose proof He as [Hms Hc Hd Hid Hstate Herr Hbound Hsends Hparams Hkill Hready Hthd].
  unfold mysql_stmt_execute. wp_auto. rewrite Hd. apply wp_bind.
  eapply reset_prepared_spec; [done|done|done|by eexists|]. apply bind_post_ret. cbn iota.
  apply wp_bind. eapply emb_stmt_execute_spec; [by apply executable_reset|done|].
  intros c' Hc'. unfold announced in Hc'. rewrite Hf in Hc'.
  destruct Hc' as (Hreport' & Hmore & Hstatus & Hcf & Hcount & t & Ht & Hfirst & Hcur).
  assert (Hnz : (Z.of_nat (length fields) =? 0) = false)
    by (apply Z.eqb_neq; destruct fields; simpl; [done|lia]).
  apply bind_post_ret. cbn iota. wp_auto. rewrite Hcount, Hnz. simpl. wp_auto.
  unfold reinit_result_set_metadata. wp_auto. simpl. rewrite Hn, Hnz. unfold update_stmt_fields.
  wp_auto. simpl. rewrite Hn, Hcount, Z.eqb_refl, Hcf, Hdone, Hfields, update_field_same. simpl.
  apply wp_bind, refresh_settled; [done|]. apply bind_post_ret. wp_auto.
  unfold prepare_to_fetch_result. wp_auto. simpl. rewrite Herr. simpl.
  rewrite !insert_insert_eq. unfold executed_world in HQ. apply HQ; try done.
  split; [done|]. split; [simpl; congruence|]. split; [done|].
  exists t. rewrite Hcur. split_and!; try done. by destruct Hx as (r & _ & _ & _ & _ & ?).
Qed.
End execute.

(** ** The first step *)

Section first_step.
  Context `{Server}.

(** The parameters of an idle statement are still in memory after its
    columns were set up. *)
Lemma params_in_kept s vs st st' w w' :
  bound_prefix s vs (parameters st) (buffers w) (next_address w) ->
  stmts w' !! s = Some st' -> parameters st' = parameters st ->
  (forall q, (q < next_address w)%nat -> buffers w' !! q = buffers w !! q) ->
  params_in s (parameters st) (buffers w) w'.
Proof.
  intros Hb Hst' Hps Hbufs. split; [by exists st'|].
  intros p q (i & Hi)%list_elem_of_lookup Hq. apply Hbufs. by apply (bp_fresh _ _ _ _ _ Hb i p q).
Qed.

Lemma clean_settled s d m slots st ms w :
  result_at s d m slots st ms w -> clean s slots st ms ->
  Forall2 settled (s_bind ms) (sl_field <$> slots).
Proof.
  intros Hr Hcl. rewrite (cl_binds _ _ _ _ Hcl).
  apply Forall2_fmap, Forall_Forall2_diag, Forall_lookup. intros j sl Hj.
  destruct (cl_slots _ _ _ _ Hcl j sl Hj) as (_ & _ & Hf & Hb).
  split; [apply Hb|]. split; [done|]. apply (ra_live _ _ _ _ _ _ _ Hr j sl Hj).
Qed.

(** Executing a statement with a result. *)
Lemma step_execute_select s d m id vs fields st ms c data srv fs w :
  idle s d m id vs fields st ms c w -> fields <> [] ->
  Forall (fun field => known_field_type (f_type field) = true) fields ->
  executes d id vs data srv fs w -> d_fields_list data = Some fields ->
  wp (step_execute s d) (fun o w' => o = Ret None /\
    stepping s d fields (d_rows data) w' /\ server_state w' = srv /\ files (sys w') = fs) w.
Proof.
  intros Hi Hne Hknown Hx Hf. unfold step_execute. apply wp_bind.
  eapply wp_mono; [by eapply bind_parameters_spec|].
  intros o w1 (-> & st1 & ms1 & Hi1 & [Hdone Hsends] & (Hdbs1 & Hconn1 & Hsrv1 & Hsys1)).
  apply bind_post_ret. cbn iota. apply wp_bind.
  eapply wp_mono; [by eapply initialize_spec|].
  intros o w2 (-> & slots & st2 & ms2 & Hsu & Hps2 & (Hdbs2 & Hconn2 & Hsrv2 & Hsys2) & Hal2 & Hbufs2).
  apply bind_post_ret. change (negb (MYLITE_OK =? MYLITE_OK)) with false. cbn iota.
  destruct Hi1 as [Hst1 Hms1 Hc1 Hdb1 Hal1 Hkill1 Hm1 Hd1 Hexec1 Hres1 Hcols1 Hrb1 Hdirty1 Hbound1 Hlen1
                     Hmd1 Hid1 Hpc1 Hpl1 Hfields1 Hn1 Hstate1 Herr1 Hready1 Hthd1 Hreport1].
  destruct Hsu as [Hr Hcl Hsteady Hslots Hres2 Hexec2 Hms2].
  pose proof (ra_stmt _ _ _ _ _ _ _ Hr) as Hst2.
  apply wp_bind. eapply wp_deref; [rewrite Hst2; apply (ra_m _ _ _ _ _ _ _ Hr)|].
  apply bind_post_ret, wp_bind.
  eapply (execute_select_spec s d m id vs (parameters st1) (buffers w1) ms2 c data fields srv fs).
  - rewrite Hms2. split; simpl; try done.
    + rewrite <- Hms2. apply (ra_mstmt _ _ _ _ _ _ _ Hr).
    + by rewrite Hconn2.
    + destruct Hdone as [-> | ->]; [by rewrite Hpc1|apply andb_false_r].
    + by eapply params_in_kept.
    + by rewrite Hsrv2.
  - unfold executes in *. by rewrite Hsrv2, Hsys2, Hsrv1, Hsys1.
  - done.
  - done.
  - by rewrite (ra_fields _ _ _ _ _ _ _ Hr).
  - by rewrite (ra_count _ _ _ _ _ _ _ Hr), <- Hslots, length_fmap.
  - by rewrite Hms2.
  - rewrite <- Hslots. by eapply clean_settled.
  - done.
  - intros ms' c' Hstream Hcore Hread Hins. injection Hcore as Hk1 Hk2 Hk3 Hk4 Hk5 Hk6 _ _ _ Hk7.
    apply bind_post_ret. cbn iota. unfold executed_world. wp_auto.
    rewrite <- Hdbs2 in Hdb1. destruct Hdb1 as [x Hx']. wp_auto. simpl. rewrite Hres2. simpl. wp_auto.
    simpl. wp_auto. simpl. rewrite Hres2. wp_auto. split; [done|]. split; [|by simpl].
    exists m, slots, (with_executed true st2), ms'. split; [|split; [|split_and!]]; try done.
    + destruct Hr as [? ? ? ? ? ? ? ? ? ? ? ?]. split; try done; simpl; try congruence.
      * apply lookup_insert_eq.
      * apply lookup_insert_eq.
    + intros _. destruct Hcl as [? ? ? ? ?]. split; simpl; congruence || done.
    + rewrite Hk7, Hms2. done.
    + exists c'. split; [apply lookup_insert_eq|done].
    + simpl. rewrite lookup_insert_eq. by eexists.
Qed.

Lemma first_step_spec s d m id vs fields st ms c data srv fs w (Q : outcome Z -> world -> Prop) :
  idle s d m id vs fields st ms c w -> fields <> [] ->
  Forall (fun field => known_field_type (f_type field) = true) fields ->
  executes d id vs data srv fs w -> d_fields_list data = Some fields ->
  (forall w', stepping s d fields (d_rows data) w' -> server_state w' = srv -> files (sys w') = fs ->
     wp (fetch_statement_row s) Q w') ->
  wp (mylite_step (Some s)) Q w.
Proof.
  intros Hi Hne Hknown Hx Hf HQ. unfold mylite_step, with_statement.
  pose proof (id_stmt _ _ _ _ _ _ _ _ _ _ Hi) as Hst. pose proof (id_d _ _ _ _ _ _ _ _ _ _ Hi) as Hd.
  destruct (id_db _ _ _ _ _ _ _ _ _ _ Hi) as [x Hx'].
  wp_auto. rewrite Hd. apply wp_bind. eapply wp_deref; [rewrite Hst; exact Hd|]. apply bind_post_ret.
  wp_auto. rewrite (id_executed _ _ _ _ _ _ _ _ _ _ Hi). cbn [negb].
  eapply wp_mono; [eapply (step_execute_select s d m id vs fields st ms c data srv fs)|].
  - destruct Hi. split; try done. simpl. rewrite lookup_insert_eq. by eexists.
  - done.
  - done.
  - exact Hx.
  - done.
  - intros o w' (-> & Hstep & Hsrv & Hfs). apply bind_post_ret. cbn iota.
    pose proof Hstep as (m' & slots & st' & ms' & [Hst' _ _ _ _ _ _ _ _ _ _ _] & _ & _ & _ & _ & _ & _ & Hres & _).
    wp_auto. rewrite Hres. by apply HQ.
Qed.
End first_step.

(** ** All rows of a prepared statement *)

Section rows.
  Context `{Server}.

(** The server stores the values [rows] in columns [fields]; [texts] are
    their texts, which fit in memory. *)
Definition rows_sent (fields : list MYSQL_FIELD) (rows : list (list column_value))
    (texts : list (list (option bytes))) : Prop :=
  Forall2 (fun vs ts => Forall3 column_ok (initial_shape <$> fields) vs ts /\
                        Forall2 text_fits fields ts) rows texts.

Lemma rows_sent_decode fields rows texts :
  rows_sent fields rows texts ->
  exists values, Forall2 (row_decodes fields) (map row_packet rows) values /\
    row_values values = texts.
Proof.
  induction 1 as [|vs ts rows texts [Hok Hfits] _ (values & Hd & Hv)]; [by exists []|].
  destruct (row_packet_decoded _ _ _ Hok) as (row & Hrow & Hts).
  exists (row :: values). split.
  - constructor; [|done]. split; [done|]. subst ts. exact (proj1 (Forall2_fmap_r _ _ _ _) Hfits).
  - simpl. f_equal; done.
Qed.

(** The step that executes the statement goes on like a fetch. *)
Lemma first_step_bind {A} (k : Z -> cmd world A) s d m id vs fields st ms c data srv fs w
    (Q : outcome A -> world -> Prop) :
  idle s d m id vs fields st ms c w -> fields <> [] ->
  Forall (fun field => known_field_type (f_type field) = true) fields ->
  executes d id vs data srv fs w -> d_fields_list data = Some fields ->
  (forall w', stepping s d fields (d_rows data) w' -> server_state w' = srv -> files (sys w') = fs ->
     wp (mbind k (fetch_statement_row s)) Q w') ->
  wp (mbind k (mylite_step (Some s))) Q w.
Proof.
  intros Hi Hne Hknown Hx Hf HQ. apply wp_bind. eapply first_step_spec; [done..|].
  intros w1 Hs1 Hsrv Hfs. specialize (HQ w1 Hs1 Hsrv Hfs). revert HQ.
  unfold wp, mbind, cmd_bind. by destruct (fetch_statement_row s w1) as [[] ?].
Qed.

Lemma select_rows_spec s d m id vs fields st ms c data srv fs rows texts w :
  idle s d m id vs fields st ms c w -> fields <> [] -> Z.of_nat (length fields) < 2 ^ 32 ->
  Forall (fun field => known_field_type (f_type field) = true) fields ->
  executes d id vs data srv fs w -> d_fields_list data = Some fields ->
  d_rows data = map BinaryRow (map row_packet rows) -> rows_sent fields rows texts ->
  wp (collect (S (length rows)) s) (fun o w' => o = Ret (MYLITE_DONE, texts) /\ ended s d fields w' /\
    server_state w' = srv /\ files (sys w') = fs) w.
Proof.
  intros Hi Hne Hlen Hknown Hx Hf Hrows Hsent.
  destruct (rows_sent_decode _ _ _ Hsent) as (values & Hd & <-). cbn [collect].
  rewrite <- (length_map row_packet rows).
  eapply first_step_bind; [done..|]. intros w1 Hs1 Hsrv Hfs. rewrite Hrows in Hs1.
  eapply wp_mono.
  { apply (collect_spec s d fields (map row_packet rows) values Hlen Hd (fetch_statement_row s) w1 w1).
    by apply fetch_outcome. }
  intros o w' ((-> & Hst) & Hsrv' & Hsys'). split; [done|]. split; [done|]. split; congruence.
Qed.
End rows.

