(* ===== verification/Prepared.v ===== *)
(** * Prepared statements from [mylite_prepare] to the last row

    Preparing makes a statement idle with all parameters null, binding keeps
    it idle and replaces values, and stepping executes it with the values
    bound and returns the rows of the server's answer or records its
    effects. *)

From S2P Require Import Prelude Api Effects SqlLexer SqlPolicy SqlPolicyTheorems System Numbers World.
From S2P Require Import BinaryRow ClientQuery ClientStmt Runtime Exec Statement Frames Rules ClientFacts.
From S2P Require Import Scripted RuntimeFacts Library ExecFacts Termination StatementFacts.
From S2P Require Import Lifetime Bindings Rows ProtocolRows Fetch Step Execute.
From stdpp Require Import options.
Set Default Proof Using "Type*".

Local Open Scope Z_scope.

(** ** What binding leaves alone *)

Section frame.
  Context `{Server}.

Record parameter_frame (w w' : world) : Prop := mkParameterFrame {
  pf_dbs : dbs w' = dbs w;
  pf_connections : connections w' = connections w;
  pf_mysql_stmts : mysql_stmts w' = mysql_stmts w;
  pf_server : server_state w' = server_state w;
  pf_sys : sys w' = sys w;
  pf_stmts : with_parameters [] <$> stmts w' = with_parameters [] <$> stmts w;
  pf_allocations : allocations w = [] -> allocations w' = [];
}.

#[global] Instance parameter_frame_preorder : PreOrder parameter_frame.
Proof.
  split; [by intros w; split|].
  intros w1 w2 w3 [? ? ? ? ? ? ?] [? ? ? ? ? ? ?]. split; try congruence. auto.
Qed.

Abbreviation only_parameters m := (steps parameter_frame m).

Lemma only_put_parameter s i p : only_parameters (put_parameter s i p).
Proof.
  intros w. unfold put_parameter, update_stmt, get_stmt, put_stmt, mbind, cmd_bind, deref.
  destruct (stmts w !! s) as [st|] eqn:Hst; [|done]. split; try done. simpl. rewrite fmap_insert.
  apply insert_id. by rewrite lookup_fmap, Hst.
Qed.
Lemma only_free_buffer b : only_parameters (free_buffer b).
Proof. destruct b; [by apply steps_modify; intros w; split|by steps_auto]. Qed.
Lemma only_put_buffer b data : only_parameters (put_buffer b data).
Proof. by apply steps_modify; intros w; split. Qed.
Lemma only_allocate : only_parameters allocate.
Proof.
  intros w. unfold allocate. destruct (allocations w) eqn:Ha; [done|]. simpl. split; try done.
  by rewrite Ha.
Qed.
Lemma only_fresh_address : only_parameters fresh_address.
Proof. by intros w; split. Qed.
Lemma only_get_stmt s : only_parameters (get_stmt s).
Proof. unfold get_stmt. steps_auto. Qed.
Hint Resolve only_put_parameter only_free_buffer only_put_buffer only_allocate only_fresh_address
  only_get_stmt : steps.

Lemma only_bind_null_value s index : only_parameters (bind_null_value s index).
Proof. unfold bind_null_value. steps_auto. Qed.
Lemma only_bind_bytes s index v n t d : only_parameters (bind_bytes s index v n t d).
Proof. unfold bind_bytes. steps_auto. Qed.
Hint Resolve only_bind_null_value only_bind_bytes : steps.

Lemma only_with_statement {A} (misuse : A) stmt (f : nat -> cmd world A) :
  (forall s, only_parameters (f s)) -> only_parameters (with_statement misuse stmt f).
Proof. intros Hf. unfold with_statement. steps_auto. Qed.

Lemma only_run_bind c stmt index : only_parameters (run_bind c stmt index).
Proof.
  destruct c; cbn [run_bind]; try (apply steps_bind; [exact _| |steps_auto]);
    unfold mylite_bind_null, mylite_bind_int64, mylite_bind_uint64, mylite_bind_double,
      mylite_bind_text, mylite_bind_blob, strlen;
    apply only_with_statement; steps_auto.
Qed.

(** An idle statement stays idle, with the values it is bound to. *)
Lemma idle_kept s d m id vs vs' fields st ms c w w' :
  idle s d m id vs fields st ms c w -> parameter_frame w w' -> bindings s d vs' w' ->
  length vs' = length vs -> exists st', idle s d m id vs' fields st' ms c w'.
Proof.
  intros [Hid_st ? ? ? ? ? ? ? ? ? ? ? ? ? ? ? ? ? ? ? ? ? ? ? ? ?] [Hdbs Hconn Hms Hsrv Hsys Hst Halloc] (st' & Hst' & Hd' & Hexec' & Hlen' & Hb') Hlen.
  exists st'. assert (Hsame : with_parameters [] st' = with_parameters [] st).
  { apply (f_equal (.!! s)) in Hst. rewrite !lookup_fmap, Hst', Hid_st in Hst. simpl in Hst. congruence. }
  split; try congruence; try done; rewrite ?Hdbs, ?Hconn, ?Hms, ?Hsrv; try done; try auto.
  - by apply (f_equal stmt) in Hsame; simpl in Hsame; congruence.
  - by apply (f_equal has_result) in Hsame; simpl in Hsame; congruence.
  - by apply (f_equal columns) in Hsame; simpl in Hsame; congruence.
  - by apply (f_equal result_binds) in Hsame; simpl in Hsame; congruence.
  - by apply (f_equal result_binds_dirty) in Hsame; simpl in Hsame; congruence.
Qed.
End frame.

(** ** Binding all parameters *)

Section binding.
  Context `{Server}.

(** Bind calls one after the other, up to the first that is refused. *)
Fixpoint bind_all (s : nat) (calls : list (Z * bind_call)) : cmd world Z :=
  match calls with
  | [] => mret MYLITE_OK
  | (index, c) :: calls =>
      result ← run_bind c (Some s) index;
      if negb (result =? MYLITE_OK) then mret result else bind_all s calls
  end.

(** The calls turn the values [vs] into [vs']. *)
Inductive binds_all : list param_value -> list (Z * bind_call) -> list param_value -> Prop :=
| binds_none vs : binds_all vs [] vs
| binds_next vs index c v calls vs' :
    1 <= index <= Z.of_nat (length vs) -> binds_value c v ->
    binds_all (<[Z.to_nat (index - 1) := v]> vs) calls vs' ->
    binds_all vs ((index, c) :: calls) vs'.

Lemma idle_bindings s d m id vs fields st ms c w :
  idle s d m id vs fields st ms c w -> bindings s d vs w.
Proof. intros []. by exists st. Qed.

Lemma bind_idle s d m id vs fields st ms c index call v w :
  idle s d m id vs fields st ms c w -> 1 <= index <= Z.of_nat (length vs) -> binds_value call v ->
  wp (run_bind call (Some s) index) (fun o w' => o = Ret MYLITE_OK /\ parameter_frame w w' /\
    exists st', idle s d m id (<[Z.to_nat (index - 1) := v]> vs) fields st' ms c w') w.
Proof.
  intros Hi Hindex Hv. pose proof (idle_bindings _ _ _ _ _ _ _ _ _ _ Hi) as Hb.
  pose proof (run_bind_spec call v s d index vs w Hb Hindex Hv) as Hrun.
  pose proof (only_run_bind call (Some s) index w) as Hframe. unfold wp in *.
  destruct (run_bind call (Some s) index w) as [[code|e| |] w']; simpl in *; try done.
  - destruct Hrun as [-> Hb']. split; [done|]. split; [done|].
    eapply (idle_kept s d m id vs); [done|done|done|by rewrite length_insert].
  - destruct Hrun as [_ Hne]. by destruct Hne; apply Hi.
Qed.

Lemma bind_all_idle vs calls vs' : binds_all vs calls vs' ->
  forall s d m id fields st ms c w, idle s d m id vs fields st ms c w ->
  wp (bind_all s calls) (fun o w' => o = Ret MYLITE_OK /\ parameter_frame w w' /\
    exists st', idle s d m id vs' fields st' ms c w') w.
Proof.
  induction 1 as [vs|vs index call v calls vs' Hindex Hv _ IH]; intros s d m id fields st ms c w Hi;
    cbn [bind_all].
  - apply wp_ret. split; [done|]. split; [done|]. by exists st.
  - apply wp_bind. eapply wp_mono; [by eapply bind_idle|].
    intros o w1 (-> & Hf1 & st1 & Hi1). apply bind_post_ret. cbn [negb Z.eqb].
    eapply wp_mono; [by eapply IH|]. intros o w2 (-> & Hf2 & Hi2). split; [done|].
    split; [by transitivity w1|done].
Qed.
End binding.

(** ** Preparing *)

(** The server answers the preparation of [text] with the statement [id] of
    [n] parameters and the columns [fields]. *)
Definition prepares `{Server} (d : nat) (text : bytes) (id : Z) (n : nat)
    (fields : list MYSQL_FIELD) (srv : server) (fs : filesystem) (w : world) : Prop :=
  exists r, dispatch_command d (COM_STMT_PREPARE text) (server_state w) (files (sys w)) = (r, srv, fs) /\
    dispatch_result r = false /\ client_stmt_id r = id /\ client_param_count r = Z.of_nat n /\
    session_killed d srv = false /\
    match fields with
    | [] => datasets r = []
    | _ => exists data, datasets r = [data] /\ d_fields_list data = Some fields /\
             d_last_errno data = 0 /\ more_results (d_server_status data) = false
    end.

Section prepare.
  Context `{Server}.

(** The connection is at rest. *)
Definition resting (c : MYSQL) : Prop :=
  ready c /\ is_Some (m_thd c) /\ m_report_data_truncation c = true.

(** The [MYSQL_STMT] that was prepared. *)
Record prepared_as (d : nat) (id : Z) (n : nat) (fields : list MYSQL_FIELD) (ms : MYSQL_STMT)
    : Prop := mkPreparedAs {
  pa_mysql : s_mysql ms = Some d;
  pa_id : s_stmt_id ms = id;
  pa_param_count : s_param_count ms = Z.of_nat n;
  pa_fields : s_fields ms = fields;
  pa_field_count : s_field_count ms = Z.of_nat (length fields);
  pa_errno : s_last_errno ms = 0;
}.

Lemma emb_read_prepare_result_spec m d ms c t id n fields (Q : outcome bool -> world -> Prop) w :
  mysql_stmts w !! m = Some ms -> connections w !! d = Some c -> m_thd c = Some t ->
  s_mysql ms = Some d -> s_last_errno ms = 0 -> s_fields ms = [] -> s_field_count ms = 0 ->
  ready c -> m_report_data_truncation c = true -> cur_data t = None ->
  thd_client_stmt_id t = id -> thd_client_param_count t = Z.of_nat n ->
  match fields with
  | [] => first_data t = []
  | _ => exists data, first_data t = [data] /\ d_fields_list data = Some fields /\
           d_last_errno data = 0 /\ more_results (d_server_status data) = false
  end ->
  (forall ms' c', resting c' -> prepared_as d id n fields ms' ->
     Q (Ret false) (set_mysql_stmts (<[m := ms']> (mysql_stmts w))
       (set_connections (<[d := c']> (connections w)) w))) ->
  wp (emb_read_prepare_result m d) Q w.
Proof.
  intros Hms Hc Ht Hd Herr Hf Hn Hready Hreport Hcur Hid Hparams Hdata HQ.
  unfold emb_read_prepare_result. wp_auto. destruct fields as [|field fields].
  - rewrite Hdata. wp_auto. apply HQ; [split; [done|split; [by eexists|done]]|].
    by split.
  - destruct Hdata as (data & Hfirst & Hfl & Herrno & Hmore). rewrite Hfirst. simpl. apply wp_bind.
    eapply emb_read_query_result_spec; [apply lookup_insert_eq|exact Ht|done|done|exact Hready|done|done|].
    intros c' Hc'. unfold announced in Hc'. rewrite Hfl in Hc'.
    assert (Hann : m_report_data_truncation c' = true /\ m_fields c' = Some (field :: fields) /\
      m_field_count c' = Z.of_nat (length (field :: fields)) /\
      exists t, m_thd c' = Some t /\ first_data t = [] /\ cur_data t = Some data).
    { destruct (decide _); destruct Hc' as (Hrep & _ & _ & Hcf & Hcc & Hthd); simpl in *;
        rewrite Hreport in Hrep; by split_and!. }
    destruct Hann as (Hrep & Hcf & Hcc & t' & Ht' & Hfirst' & Hcur').
    apply bind_post_ret. cbn iota. wp_auto. rewrite Hcur', Hcf. wp_auto.
    match goal with |- Q _ (set_mysql_stmts (insert m ?ms' _) (set_connections (insert d ?c2 _) _)) =>
      pose proof (HQ ms' c2) as HQ' end.
    revert HQ'. simpl. rewrite !insert_insert_eq. intros HQ'. apply HQ'.
    + split; [done|]. split; [by eexists|done].
    + split; try done.
Qed.

(** A new [MYSQL_STMT] of the connection [d]. *)
Definition new_mstmt (d : nat) (ms : MYSQL_STMT) : Prop :=
  s_mysql ms = Some d /\ s_state ms = MYSQL_STMT_INIT_DONE /\ s_fields ms = [] /\
  s_field_count ms = 0.

Lemma mysql_stmt_prepare_spec m d ms c text id n fields srv fs (Q : outcome bool -> world -> Prop) w :
  mysql_stmts w !! m = Some ms -> new_mstmt d ms -> connections w !! d = Some c -> resting c ->
  session_killed d (server_state w) = false -> allocations w = [] ->
  prepares d text id n fields srv fs w ->
  (forall ms' c', resting c' -> prepared_as d id n fields ms' ->
     s_state ms' = MYSQL_STMT_PREPARE_DONE -> length (s_params ms') = n ->
     Q (Ret false) (executed_world m d ms' c' srv fs w)) ->
  wp (mysql_stmt_prepare m text) Q w.
Proof.
  intros Hms (Hd & Hstate & Hf & Hn) Hc (Hready & [t Ht] & Hreport) Hkill Halloc
    (r & Hr & Hresult & Hid & Hparams & Hkill' & Hdata) HQ.
  unfold mysql_stmt_prepare. wp_auto. rewrite Hd. wp_auto. rewrite Hstate.
  change (MYSQL_STMT_INIT_DONE <? MYSQL_STMT_INIT_DONE) with false. cbn iota. apply wp_bind.
  eapply emb_advanced_command_spec; [done..|]. cbv zeta. apply bind_post_ret. rewrite Hresult.
  apply wp_bind. eapply (emb_read_prepare_result_spec m d _ _ _ id n fields);
    [apply lookup_insert_eq|apply lookup_insert_eq|done|done|done|done|done|exact Hready|exact Hreport
    |done|done|done|exact Hdata|].
  intros ms' c' Hc' Hms'. apply bind_post_ret. cbn iota. wp_auto. cbn [negb]. wp_auto.
  specialize (HQ (with_s_state MYSQL_STMT_PREPARE_DONE
    (with_s_bind (replicate (Z.to_nat (s_field_count ms')) zero_bind)
       (with_s_params (replicate (Z.to_nat (s_param_count ms')) zero_bind) false ms'))) c').
  revert HQ. unfold executed_world. simpl. rewrite !insert_insert_eq. intros HQ. apply HQ; try done.
  - by destruct Hms'.
  - rewrite length_replicate, (pa_param_count _ _ _ _ _ Hms'). lia.
Qed.

(** ** [mylite_prepare] *)

Lemma only_bind_nulls s indices : steps parameter_frame (bind_nulls s indices).
Proof.
  induction indices; simpl; [steps_auto|]. apply steps_bind; [exact _|apply only_bind_null_value|].
  intros result. by destruct (negb _); [steps_auto|].
Qed.

(** The parameters of a new statement are bound to null. *)
Lemma bind_new_spec s d m id n fields st ms c (Q : outcome Z -> world -> Prop) w :
  stmts w !! s = Some st -> mysql_stmts w !! m = Some ms -> connections w !! d = Some c ->
  is_Some (dbs w !! d) -> allocations w = [] -> session_killed d (server_state w) = false ->
  resting c -> prepared_as d id n fields ms -> s_state ms = MYSQL_STMT_PREPARE_DONE ->
  length (s_params ms) = n ->
  st = with_parameters (replicate n new_parameter) (with_stmt (Some m) (new_stmt d)) ->
  (forall w' st', idle s d m id (replicate n ParamNull) fields st' ms c w' -> parameter_frame w w' ->
     Q (Ret MYLITE_OK) w') ->
  wp (bind_nulls s (seq 1 n)) Q w.
Proof.
  intros Hst Hms Hc Hdb Halloc Hkill (Hready & Hthd & Hreport) Hpa Hstate Hlen -> HQ.
  pose proof (only_bind_nulls s (seq 1 n) w) as Hframe.
  assert (Hb : bindings_from s d (0 + n) (replicate 0 ParamNull) w).
  { eexists. split; [exact Hst|]. simpl. rewrite length_replicate. do 3 (split; [done|]).
    split; [simpl; lia|done| |]; intros i; [intros j p q b Hp _ Hb|intros p b Hp Hb];
      apply lookup_replicate in Hp as [-> _]; done. }
  pose proof (bind_nulls_spec s d n 0 w Hb) as Hnulls. unfold wp in *.
  destruct (bind_nulls s (seq 1 n) w) as [o w']. simpl in *. destruct Hnulls as [-> Hb'].
  destruct Hb' as (st' & Hst' & Hd' & Hexec' & Hlen' & Hbound').
  apply (HQ w' st'); [|done]. destruct Hframe as [Hdbs Hconn Hmss Hsrv Hsys Hsts Hal].
  assert (Hsame : with_parameters [] st' = with_stmt (Some m) (new_stmt d)).
  { apply (f_equal (.!! s)) in Hsts. rewrite !lookup_fmap, Hst', Hst in Hsts.
    change (Some (with_parameters [] st') = Some (with_stmt (Some m) (new_stmt d))) in Hsts. congruence. }
  destruct Hpa as [Hp1 Hp2 Hp3 Hp4 Hp5 Hp6].
  split; rewrite ?Hdbs, ?Hconn, ?Hmss, ?Hsrv, ?length_replicate in *; try done; try (by auto).
  - by apply (f_equal stmt) in Hsame.
  - by apply (f_equal has_result) in Hsame.
  - by apply (f_equal columns) in Hsame.
  - by apply (f_equal result_binds) in Hsame.
  - by apply (f_equal result_binds_dirty) in Hsame.
Qed.

(** The statement [s] is idle, with the server in the state [srv]. *)
Definition idle_after (d s : nat) (id : Z) (vs : list param_value) (fields : list MYSQL_FIELD)
    (srv : server) (fs : filesystem) (w : world) : Prop :=
  exists m st ms c, idle s d m id vs fields st ms c w /\ server_state w = srv /\ files (sys w) = fs.

(** The handle [d] is live and its connection at rest. *)
Definition at_rest (d : nat) (w : world) : Prop :=
  is_Some (dbs w !! d) /\ connection d resting w /\ session_killed d (server_state w) = false /\
  allocations w = [].

Lemma idle_dbs s d m id vs fields st ms c x w :
  idle s d m id vs fields st ms c w ->
  idle s d m id vs fields st ms c (set_dbs (<[d := x]> (dbs w)) w).
Proof. intros []. split; try done. simpl. rewrite lookup_insert_eq. by eexists. Qed.

Lemma prepare_allocated_idle d s text len id n fields srv fs w :
  at_rest d w -> stmts w !! s = Some (new_stmt d) -> (s < next_address w)%nat ->
  prepares d text id n fields srv fs w ->
  wp (prepare_allocated d s text len) (fun o w' => o = Ret (MYLITE_OK, Some s, Some len) /\
    idle_after d s id (replicate n ParamNull) fields srv fs w') w.
Proof.
  intros (Hdb & (c & Hc & Hrest) & Hkill & Halloc) Hst Hs Hprep. unfold prepare_allocated.
  apply wp_bind. unfold mysql_stmt_init. wp_auto. cbn [negb]. wp_auto.
  unfold mysql_stmt_attr_update_max_length. wp_auto.
  eapply (mysql_stmt_prepare_spec _ d _ c text id n fields srv fs);
    [apply lookup_insert_eq|done|exact Hc|done|done|done|exact Hprep|].
  intros ms c' Hc' Hpa Hstate Hlen. apply bind_post_ret. cbn iota. unfold executed_world. wp_auto.
  rewrite (pa_param_count _ _ _ _ _ Hpa), Nat2Z.id.
  eapply (bind_new_spec s d (next_address w) id n fields _ ms c').
  { apply lookup_insert_eq. } { apply lookup_insert_eq. } { apply lookup_insert_eq. }
  { exact Hdb. } { done. } { by destruct Hprep as (r & _ & _ & _ & _ & ? & _). }
  { done. } { done. } { done. } { done. } { simpl. by rewrite ?lookup_insert_eq. }
  intros w' st' Hi Hf. apply bind_post_ret. change (negb (MYLITE_OK =? MYLITE_OK)) with false. cbn iota.
  destruct (id_db _ _ _ _ _ _ _ _ _ _ Hi) as [x Hx]. wp_auto. split; [done|].
  eexists _, st', ms, c'. split; [by apply idle_dbs, idle_dbs|].
  destruct Hf as [_ _ _ Hsrv Hsys _ _]. simpl in *. by rewrite Hsrv, Hsys.
Qed.

Lemma prepare_idle_spec d x sql len id n fields srv fs w :
  at_rest d w -> dbs w !! d = Some x -> 0 <= len <= Z.of_nat (length sql) -> len < MYLITE_NUL_TERMINATED ->
  ~ rejected x (take (Z.to_nat len) sql) ->
  token_equals (identifier_token_at (collect_sql_policy_tokens (take (Z.to_nat len) sql)) 0) "CALL" = false ->
  prepares d (take (Z.to_nat len) sql) id n fields srv fs w ->
  wp (mylite_prepare (Some d) (Some sql) len true) (fun o w' => exists s,
    o = Ret (MYLITE_OK, Some s, Some len) /\
    idle_after d s id (replicate n ParamNull) fields srv fs w') w.
Proof.
  intros (Hdb & Hconn & Hkill & Halloc) Hx Hlen Hnul Hok Hcall Hprep.
  unfold mylite_prepare, prepare_impl. cbn [negb]. unfold MYLITE_NUL_TERMINATED in Hnul.
  rewrite (proj2 (Z.eqb_neq len _)) by (unfold MYLITE_NUL_TERMINATED; lia). wp_auto.
  rewrite (proj2 (Z.ltb_ge ULONG_MAX len)) by (unfold ULONG_MAX; lia). wp_auto. unfold sql_view.
  rewrite (proj2 (Z.leb_le len _)) by lia. wp_auto.
  eapply reject_policy_accepted; [find_lookup| |].
  { intros Hr. apply Hok. revert Hr. by rewrite !rejected_spec. }
  wp_auto. change (negb (MYLITE_OK =? MYLITE_OK)) with false. rewrite ?Hcall. cbn iota. unfold new_mylite_stmt. wp_auto. cbn [negb]. wp_auto.
  eapply wp_mono; [apply (prepare_allocated_idle d (next_address w) _ len id n fields srv fs)|].
  - split; [simpl; rewrite lookup_insert_eq; by eexists|]. by split_and!.
  - apply lookup_insert_eq.
  - simpl. lia.
  - exact Hprep.
  - intros o w' [-> Hi]. by eexists.
Qed.
End prepare.

(** ** Statements without a result *)

Section updates.
  Context `{Server}.

(** A statement without columns needs no result set up. *)
Lemma initialize_update_spec s d m id vs st ms c (Q : outcome Z -> world -> Prop) w :
  idle s d m id vs [] st ms c w ->
  (forall st', has_result st' = false -> has_row st' = false -> db st' = db st -> stmt st' = stmt st ->
     executed st' = executed st -> parameters st' = parameters st ->
     Q (Ret MYLITE_OK) (set_stmts (<[s := st']> (stmts w)) w)) ->
  wp (initialize_statement_results s true) Q w.
Proof.
  intros Hi HQ. unfold initialize_statement_results. apply wp_bind.
  eapply release_idle_spec; [exact Hi|]. apply bind_post_ret.
  apply wp_bind. eapply wp_deref; [simpl; rewrite lookup_insert_eq; exact (id_m _ _ _ _ _ _ _ _ _ _ Hi)|].
  apply bind_post_ret, wp_bind. unfold mysql_stmt_result_metadata.
  pose proof (id_mstmt _ _ _ _ _ _ _ _ _ _ Hi) as Hms.
  wp_auto. rewrite (id_field_count _ _ _ _ _ _ _ _ _ _ Hi). simpl. wp_auto.
  rewrite (id_field_count _ _ _ _ _ _ _ _ _ _ Hi). simpl. wp_auto. simpl. rewrite !insert_insert_eq.
  by apply HQ.
Qed.

(** The handle after a statement that changed data: the numbers of the
    server's answer. *)
Definition effects_recorded (d : nat) (data : MYSQL_DATA) (w : world) : Prop :=
  exists x, dbs w !! d = Some x /\ errcode x = MYLITE_OK /\ last_insert_id x = d_insert_id data /\
    0 <= changes x <= LLONG_MAX /\
    changes x = (if d_affected_rows data =? 2 ^ 64 - 1 then 0
                 else Z.min (d_affected_rows data) LLONG_MAX).

Lemma step_execute_update s d m id vs st ms c x data srv fs w :
  idle s d m id vs [] st ms c w -> dbs w !! d = Some x -> errcode x = MYLITE_OK ->
  executes d id vs data srv fs w -> d_fields_list data = None -> 0 <= d_affected_rows data < 2 ^ 64 ->
  wp (step_execute s d) (fun o w' => o = Ret (Some MYLITE_DONE) /\ stepped s d w' /\
    effects_recorded d data w' /\ server_state w' = srv /\ files (sys w') = fs) w.
Proof.
  intros Hi Hxd Hok Hx Hf Hrows. unfold step_execute. apply wp_bind.
  eapply wp_mono; [by eapply bind_parameters_spec|].
  intros o w1 (-> & st1 & ms1 & Hi1 & [Hdone Hsends] & (Hdbs1 & Hconn1 & Hsrv1 & Hsys1)).
  apply bind_post_ret. cbn iota. apply wp_bind.
  eapply initialize_update_spec; [exact Hi1|]. intros st2 Hres2 Hrow2 Hd2 Hm2 Hex2 Hps2.
  apply bind_post_ret. change (negb (MYLITE_OK =? MYLITE_OK)) with false. cbn iota.
  destruct Hi1 as [Hst1 Hms1 Hc1 Hdb1 Hal1 Hkill1 Hm1 Hd1 Hexec1 Hres1 Hcols1 Hrb1 Hdirty1 Hbound1 Hlen1
                     Hmd1 Hid1 Hpc1 Hpl1 Hfields1 Hn1 Hstate1 Herr1 Hready1 Hthd1 Hreport1].
  apply wp_bind. eapply wp_deref; [simpl; rewrite lookup_insert_eq; simpl; by rewrite Hm2|].
  apply bind_post_ret, wp_bind.
  eapply (execute_update_spec s d m id vs (parameters st1) (buffers w1) ms1 c data srv fs).
  - split; simpl; try done.
    + destruct Hdone as [-> | ->]; [by rewrite Hpc1|apply andb_false_r].
    + by eapply params_in_kept; [done|apply lookup_insert_eq|..].
  - unfold executes in *. simpl. by rewrite Hsrv1, Hsys1.
  - done.
  - intros ms' c' Hann Hcore Hstate' Haff Hins.
    injection Hcore as Hk1 Hk2 Hk3 Hk4 Hk5 Hk6 _ _ _ Hk7. unfold announced in Hann. rewrite Hf in Hann.
    destruct Hann as (Hrep & Hmore & Hready' & Hcount & _ & _ & Hthd').
    apply bind_post_ret. cbn iota. unfold executed_world. rewrite <- Hdbs1 in Hxd. wp_auto.
    simpl. rewrite Hres2, Hk4, Hn1. simpl. wp_auto. simpl. rewrite ?Hres2. wp_auto. simpl. rewrite Hres2. wp_auto.
    split; [done|]. split; [|split; [|done]].
    + exists m, (with_executed true st2), ms'. simpl. rewrite !lookup_insert_eq.
      split_and!; try done; try congruence.
      exists c'. split; [apply lookup_insert_eq|]. split_and!; try done. congruence.
    + eexists. split; [apply lookup_insert_eq|]. simpl. split; [done|]. split; [done|].
      rewrite Haff. unfold changes_of, MYSQL_COUNT_ERROR, LLONG_MAX in *. simpl.
      destruct (d_affected_rows data =? 2 ^ 64 - 1) eqn:Hmax; lia.
Qed.

Lemma update_step_spec s d m id vs st ms c data srv fs w :
  idle s d m id vs [] st ms c w -> executes d id vs data srv fs w -> d_fields_list data = None ->
  0 <= d_affected_rows data < 2 ^ 64 ->
  wp (mylite_step (Some s)) (fun o w' => o = Ret MYLITE_DONE /\ stepped s d w' /\
    effects_recorded d data w' /\ server_state w' = srv /\ files (sys w') = fs) w.
Proof.
  intros Hi Hx Hf Hrows. unfold mylite_step, with_statement.
  pose proof (id_stmt _ _ _ _ _ _ _ _ _ _ Hi) as Hst. pose proof (id_d _ _ _ _ _ _ _ _ _ _ Hi) as Hd.
  destruct (id_db _ _ _ _ _ _ _ _ _ _ Hi) as [x Hx'].
  wp_auto. rewrite Hd. apply wp_bind. eapply wp_deref; [rewrite Hst; exact Hd|]. apply bind_post_ret.
  wp_auto. rewrite (id_executed _ _ _ _ _ _ _ _ _ _ Hi). cbn [negb].
  eapply wp_mono; [eapply (step_execute_update s d m id vs st ms c _ data srv fs)|].
  - by apply idle_dbs.
  - apply lookup_insert_eq.
  - done.
  - exact Hx.
  - done.
  - done.
  - intros o w' (-> & Hrest). apply bind_post_ret. by apply wp_ret.
Qed.
End updates.
