(* ===== verification/PreparedTheorems.v ===== *)
(** * Theorems on prepared statements

    Prepare, bind, step and read as one run of a caller: the rows a caller
    reads are the rows of the server's answer to the statement executed with
    exactly the values the caller bound, and a statement without rows records
    the effects of that answer. *)

From S2P Require Import Prelude Api Effects SqlLexer SqlPolicy SqlPolicyTheorems System Numbers World.
From S2P Require Import Formats FormatsFacts BinaryRow BinaryFacts ClientQuery ClientStmt Runtime Exec Statement.
From S2P Require Import Frames Rules ClientFacts Scripted RuntimeFacts Library ExecFacts Termination StatementFacts.
From S2P Require Import Lifetime Bindings Rows ProtocolRows Fetch Step Execute Prepared.
From stdpp Require Import options.
Set Default Proof Using "Type*".

Local Open Scope Z_scope.

(** ** A caller *)

Section caller.
  Context `{Server}.

(** A caller that prepares [sql], makes the bind [calls], and goes on with
    [use] on the statement. *)
Definition prepare_and_bind {A} (d : nat) (sql : bytes) (len : Z) (calls : list (Z * bind_call))
    (failed : Z -> A) (use : nat -> cmd world A) : cmd world A :=
  '(code, stmt, _) ← mylite_prepare (Some d) (Some sql) len true;
  match stmt with
  | None => mret (failed code)
  | Some s =>
      result ← bind_all s calls;
      if negb (result =? MYLITE_OK) then mret (failed result) else use s
  end.

(** The caller reads all the rows. *)
Definition select_rows (d : nat) (sql : bytes) (len : Z) (calls : list (Z * bind_call))
    (fuel : nat) : cmd world (Z * list (list (option bytes))) :=
  prepare_and_bind d sql len calls (fun code => (code, [])) (collect fuel).

(** The caller steps once. *)
Definition run_update (d : nat) (sql : bytes) (len : Z) (calls : list (Z * bind_call)) : cmd world Z :=
  prepare_and_bind d sql len calls (fun code => code) (fun s => mylite_step (Some s)).

(** The results of [n] steps. *)
Fixpoint step_times (n : nat) (s : nat) : cmd world (list Z) :=
  match n with
  | O => mret []
  | S n => r ← mylite_step (Some s); rs ← step_times n s; mret (r :: rs)
  end.

(** A text the policy lets through to the server's prepare. *)
Definition preparable (d : nat) (sql : bytes) (len : Z) (w : world) : Prop :=
  0 <= len <= Z.of_nat (length sql) /\ len < MYLITE_NUL_TERMINATED /\
  (exists x, dbs w !! d = Some x /\ ~ rejected x (take (Z.to_nat len) sql)) /\
  token_equals (identifier_token_at (collect_sql_policy_tokens (take (Z.to_nat len) sql)) 0) "CALL" = false.

Lemma prepare_and_bind_spec {A} d sql len id n fields calls vs srv fs failed (use : nat -> cmd world A)
    (Q : outcome A -> world -> Prop) w :
  at_rest d w -> preparable d sql len w ->
  prepares d (take (Z.to_nat len) sql) id n fields srv fs w ->
  binds_all (replicate n ParamNull) calls vs ->
  (forall s w', idle_after d s id vs fields srv fs w' -> wp (use s) Q w') ->
  wp (prepare_and_bind d sql len calls failed use) Q w.
Proof.
  intros Hrest (Hlen & Hnul & (x & Hx & Hok) & Hcall) Hprep Hbinds HQ.
  unfold prepare_and_bind. apply wp_bind.
  eapply wp_mono; [by eapply (prepare_idle_spec d x sql len id n fields srv fs)|].
  intros o w1 (s & -> & m & st & ms & c & Hi & Hsrv & Hfs). apply bind_post_ret, wp_bind. cbn iota.
  eapply wp_mono; [by eapply bind_all_idle|]. intros o w2 (-> & Hf & st' & Hi').
  apply bind_post_ret. change (negb (MYLITE_OK =? MYLITE_OK)) with false. cbn iota. apply HQ.
  exists m, st', ms, c. split; [done|].
  by rewrite (pf_server _ _ Hf), (pf_sys _ _ Hf).
Qed.

Lemma executes_same d id vs data srv fs srv' fs' w w' :
  executes d id vs data srv' fs' (set_server_state srv fs w) ->
  server_state w' = srv -> files (sys w') = fs -> executes d id vs data srv' fs' w'.
Proof. unfold executes. by intros Hx -> ->. Qed.

Lemma step_done_times n s d w :
  stepped s d w ->
  wp (step_times n s) (fun o w' => o = Ret (replicate n MYLITE_DONE) /\ stepped s d w' /\
    kept_by_steps w w') w.
Proof.
  revert w. induction n as [|n IH]; intros w Hs; cbn [step_times]; [by apply wp_ret|].
  apply wp_bind. eapply wp_mono; [by apply (step_done_spec s d)|]. intros o w1 (-> & Hs1 & _ & Hsrv & Hsys).
  apply bind_post_ret, wp_bind. eapply wp_mono; [by apply IH|]. intros o w2 (-> & Hs2 & Hsrv2 & Hsys2).
  apply bind_post_ret, wp_ret. split; [done|]. split; [done|]. split; congruence.
Qed.

Lemma step_times_from s d fields packets values k :
  Forall2 (row_decodes fields) packets values -> forall m w,
  wp m (fun o w' => step_outcome s d fields packets values o w' /\ kept_by_steps w w') w ->
  wp (r ← m; rs ← step_times (length packets + k) s; mret (r :: rs)) (fun o w' =>
    o = Ret (replicate (length packets) MYLITE_ROW ++ replicate (S k) MYLITE_DONE) /\ stepped s d w' /\
    kept_by_steps w w') w.
Proof.
  induction 1 as [|packet row packets values Hrow Hrows IH]; intros m w Hm; apply wp_bind;
    (eapply wp_mono; [exact Hm|]); intros o w1 [Hout [Hsrv Hsys]].
  - destruct Hout as [-> [[Hs _] _]]. apply bind_post_ret, wp_bind. eapply wp_mono; [by apply (step_done_times k s d)|].
    intros o w2 (-> & Hs2 & Hsrv2 & Hsys2). apply bind_post_ret, wp_ret. split; [done|].
    split; [done|]. split; congruence.
  - destruct Hout as (-> & Hs & _). apply bind_post_ret, wp_bind. cbn [length Nat.add step_times].
    eapply wp_mono; [apply IH; by eapply step_outcome_spec|].
    intros o w2 (-> & Hs2 & Hsrv2 & Hsys2). apply bind_post_ret, wp_ret. split; [done|].
    split; [done|]. split; congruence.
Qed.
End caller.

(** ** The theorems *)

(** What is asked of a server's columns: there are some, of types the client
    library knows. *)
Definition columns_known (fields : list MYSQL_FIELD) : Prop :=
  fields <> [] /\ Z.of_nat (length fields) < 2 ^ 32 /\
  Forall (fun field => known_field_type (f_type field) = true) fields.

(** C2: a caller that prepares an accepted statement, binds its parameters
    and steps until there is no row gets [MYLITE_DONE] and exactly the rows of
    the server's answer to the execution with the values bound last, each
    column read with [mylite_column_blob] and [mylite_column_bytes]: every
    value is whole, however small the buffer was that the column began with,
    and the server has executed the statement once. *)
Theorem prepared_select_rows `{Server} (d : nat) (sql : bytes) (len id : Z) (n : nat)
    (fields : list MYSQL_FIELD) (calls : list (Z * bind_call)) (vs : list param_value)
    (data : MYSQL_DATA) (rows : list (list column_value)) (texts : list (list (option bytes)))
    (srv srv' : server) (fs fs' : filesystem) (w : world)
    (Hrest : at_rest d w) (Hsql : preparable d sql len w)
    (Hprepares : prepares d (take (Z.to_nat len) sql) id n fields srv fs w)
    (Hbinds : binds_all (replicate n ParamNull) calls vs)
    (Hfields : columns_known fields)
    (Hexecutes : executes d id vs data srv' fs' (set_server_state srv fs w))
    (Hdata : d_fields_list data = Some fields)
    (Hpackets : d_rows data = map BinaryRow (map row_packet rows))
    (Hrows : rows_sent fields rows texts) :
  wp (select_rows d sql len calls (S (length rows))) (fun o w' => o = Ret (MYLITE_DONE, texts) /\
    (exists s, stepped s d w') /\ server_state w' = srv' /\ files (sys w') = fs') w.
Proof.
  destruct Hfields as (Hne & Hcount & Hknown). unfold select_rows.
  eapply prepare_and_bind_spec; [done..|].
  intros s w1 (m & st & ms & c & Hi & Hsrv & Hfs).
  pose proof (executes_same _ _ _ _ _ _ _ _ _ w1 Hexecutes Hsrv Hfs) as Hx.
  eapply wp_mono; [by eapply select_rows_spec|].
  intros o w2 (-> & [[Hs _] _] & Hsrv2 & Hfs2). split; [done|]. split; [by exists s|done].
Qed.

(** C7: a statement without a result set that is prepared, bound and stepped
    once returns [MYLITE_DONE]; the handle has the insert id of the server's
    answer and its number of affected rows, cut to the range of [long long]
    and 0 when the server gives no count. *)
Theorem prepared_update_effects `{Server} (d : nat) (sql : bytes) (len id : Z) (n : nat)
    (calls : list (Z * bind_call)) (vs : list param_value) (data : MYSQL_DATA)
    (srv srv' : server) (fs fs' : filesystem) (w : world)
    (Hrest : at_rest d w) (Hsql : preparable d sql len w)
    (Hprepares : prepares d (take (Z.to_nat len) sql) id n [] srv fs w)
    (Hbinds : binds_all (replicate n ParamNull) calls vs)
    (Hexecutes : executes d id vs data srv' fs' (set_server_state srv fs w))
    (Hdata : d_fields_list data = None) (Haffected : 0 <= d_affected_rows data < 2 ^ 64) :
  wp (run_update d sql len calls) (fun o w' => o = Ret MYLITE_DONE /\
    (exists s, stepped s d w') /\ effects_recorded d data w' /\
    server_state w' = srv' /\ files (sys w') = fs') w.
Proof.
  unfold run_update. eapply prepare_and_bind_spec; [done..|].
  intros s w1 (m & st & ms & c & Hi & Hsrv & Hfs).
  pose proof (executes_same _ _ _ _ _ _ _ _ _ w1 Hexecutes Hsrv Hfs) as Hx.
  eapply wp_mono; [by eapply update_step_spec|].
  intros o w2 (-> & Hs & Hrest'). split; [done|]. split; [by exists s|done].
Qed.

(** C8: stepping a prepared statement makes progress and comes to an end: the
    steps return [MYLITE_ROW] once for each row of the server's answer, then
    [MYLITE_DONE], and [MYLITE_DONE] again however often the caller steps on;
    the statement is executed by the first step and never again. *)
Theorem steps_reach_done `{Server} (s d m : nat) (id : Z) (vs : list param_value)
    (fields : list MYSQL_FIELD) (st : mylite_stmt) (ms : MYSQL_STMT) (c : MYSQL) (data : MYSQL_DATA)
    (rows : list (list column_value)) (texts : list (list (option bytes))) (k : nat)
    (srv : server) (fs : filesystem) (w : world)
    (Hidle : idle s d m id vs fields st ms c w) (Hfields : columns_known fields)
    (Hexecutes : executes d id vs data srv fs w) (Hdata : d_fields_list data = Some fields)
    (Hpackets : d_rows data = map BinaryRow (map row_packet rows))
    (Hrows : rows_sent fields rows texts) :
  wp (step_times (S (length rows + k)) s) (fun o w' =>
    o = Ret (replicate (length rows) MYLITE_ROW ++ replicate (S k) MYLITE_DONE) /\
    stepped s d w' /\ server_state w' = srv /\ files (sys w') = fs) w.
Proof.
  destruct Hfields as (Hne & Hcount & Hknown).
  destruct (rows_sent_decode _ _ _ Hrows) as (values & Hd & _). cbn [step_times].
  rewrite <- (length_map row_packet rows). eapply first_step_bind; [done..|].
  intros w1 Hs1 Hsrv Hfs. rewrite Hpackets in Hs1.
  eapply wp_mono; [eapply step_times_from; [done|by apply fetch_outcome]|].
  intros o w2 (-> & Hs & Hsrv' & Hsys'). split; [done|]. split; [done|]. split; congruence.
Qed.

(** ** Bindings *)

(** C31: a bind call with a position from 1 to the number of parameters and a
    good value, on a statement that has not been executed, binds exactly that
    value: the parameters stand for the old list of values with that one
    element replaced, whatever was bound before.  Only the copy of a text or
    a blob may fail, by running out of memory. *)
Theorem bind_updates_value `{Server} (c : bind_call) (v : param_value) (s d : nat) (index : Z)
    (vs : list param_value) (w : world) (Hb : bindings s d vs w)
    (Hindex : 1 <= index <= Z.of_nat (length vs)) (Hv : binds_value c v) :
  wp (run_bind c (Some s) index) (bind_promise s d (<[Z.to_nat (index - 1) := v]> vs) w) w.
Proof. by apply run_bind_spec. Qed.

(** A bind call on a statement without a handle or already executed, with
    a position that is 0 or beyond the parameters, or with a null pointer and
    a length, is [MYLITE_MISUSE] and changes nothing at all. *)
Theorem misused_bind_changes_nothing `{Server} (c : bind_call) (s : nat) (st : mylite_stmt)
    (index : Z) (w : world) (Hst : stmts w !! s = Some st) (Hm : misused c st index)
    (Hc : terminated c) :
  run_bind c (Some s) index w = (Ret MYLITE_MISUSE, w).
Proof. by apply (run_bind_misused c s st). Qed.

(** [mylite_clear_bindings] before the execution makes every parameter
    null. *)
Theorem clear_bindings_binds_nulls `{Server} (s d : nat) (vs : list param_value) (w : world)
    (Hb : bindings s d vs w) :
  wp (mylite_clear_bindings (Some s))
    (fun o w' => o = Ret MYLITE_OK /\ bindings s d (replicate (length vs) ParamNull) w') w.
Proof. by apply mylite_clear_bindings_spec. Qed.

(** ** On the scripted server *)

Definition text_field : MYSQL_FIELD :=
  mkField (Some (str "b")) (Some (str "b")) (Some (str "t")) (Some (str "t")) 1 0 0 0
    MYSQL_TYPE_VAR_STRING.

Definition example_sql : bytes := str "SELECT a, b FROM t WHERE c = ? OR d = ?".
Definition example_fields : list MYSQL_FIELD := [example_field; text_field].
Definition example_rows : list (list column_value) :=
  [[VLong (-41); VString (str "longer than its buffer")]; [VNull; VString []]].
Definition example_texts : list (list (option bytes)) :=
  [[Some (str "-41"); Some (str "longer than its buffer")]; [None; Some []]].
Definition example_data : MYSQL_DATA :=
  rows_data example_fields (map BinaryRow (map row_packet example_rows)).

Definition example_calls : list (Z * bind_call) :=
  [(2, BindInt64 5); (1, BindText (Some (str "xyz")) 2 MYLITE_TRANSIENT); (2, BindNull)].

Definition select_world : world :=
  opened_world (after_open [prepared 7 2 example_fields; answer [example_data]]).

Lemma example_rest script :
  at_rest 0 (opened_world (after_open script)).
Proof.
  split; [|split; [|done]].
  - vm_compute. by eexists.
  - eexists. split; [by vm_compute|]. split; [done|]. split; [by vm_compute; eexists|by vm_compute].
Qed.

Lemma example_binds :
  binds_all (replicate 2 ParamNull) example_calls [ParamText (str "xy"); ParamNull].
Proof.
  eapply (binds_next _ 2 _ (ParamInt 5)); [simpl; lia|constructor; unfold LLONG_MIN, LLONG_MAX; lia|].
  eapply (binds_next _ 1 _ (ParamText (str "xy"))); [simpl; lia| |].
  { apply (binds_text (str "xyz") 2); [discriminate|by vm_compute|vm_compute; lia]. }
  eapply (binds_next _ 2 _ ParamNull); [simpl; lia|constructor|]. apply binds_none.
Qed.

Lemma example_rows_sent : rows_sent example_fields example_rows example_texts.
Proof.
  repeat constructor; vm_compute; try done; try (by right); try (by left); by intros.
Qed.

Lemma example_columns : columns_known example_fields.
Proof. split; [done|]. split; [by vm_compute|]. by repeat constructor. Qed.

(** The server after the first [n] commands of a script. *)
Definition after_prepare (text : bytes) (w : world) : server :=
  (dispatch_command 0 (COM_STMT_PREPARE text) (server_state w) (files (sys w))).1.2.
Definition after_execute (id : Z) (vs : list param_value) (s : server) : server :=
  (dispatch_command 0 (COM_STMT_EXECUTE id vs) s small_files).1.2.

Lemma example_prepares text id n fields rest (w : world) :
  script (server_state w) = prepared id (Z.of_nat n) fields :: rest ->
  prepares 0 text id n fields (after_prepare text w) (files (sys w)) w.
Proof.
  intros Hs. exists (prepared id (Z.of_nat n) fields). unfold after_prepare. simpl. rewrite Hs.
  do 5 (split; [done|]). destruct fields; [done|]. eexists. split; [done|]. by split_and!.
Qed.

Lemma example_executes id vs data rest srv fs (w : world) :
  script srv = answer [data] :: rest -> more_results (d_server_status data) = false ->
  d_last_errno data = 0 ->
  executes 0 id vs data (after_execute id vs srv) fs (set_server_state srv fs w).
Proof.
  intros Hs Hmore Herr. exists (answer [data]). unfold after_execute. simpl. rewrite Hs.
  by split_and!.
Qed.

Lemma prepared_select_rows_witness :
  let srv := after_prepare example_sql select_world in
  let srv' := after_execute 7 [ParamText (str "xy"); ParamNull] srv in
  wp (select_rows 0 example_sql (Z.of_nat (length example_sql)) example_calls 3) (fun o w' =>
    o = Ret (MYLITE_DONE, example_texts) /\ (exists s, stepped s 0 w') /\ server_state w' = srv' /\
    files (sys w') = files (sys select_world)) select_world.
Proof.
  intros srv srv'.
  apply (prepared_select_rows 0 example_sql (Z.of_nat (length example_sql)) 7 2 example_fields
    example_calls [ParamText (str "xy"); ParamNull] example_data example_rows example_texts srv srv'
    (files (sys select_world))).
  - apply example_rest.
  - split; [lia|]. split; [by vm_compute|]. split; [|by vm_compute].
    eexists. split; [by vm_compute|]. by vm_compute.
  - rewrite Nat2Z.id, firstn_all. eapply example_prepares. by vm_compute.
  - apply example_binds.
  - apply example_columns.
  - eapply example_executes; by vm_compute.
  - done.
  - done.
  - apply example_rows_sent.
Defined.

Definition update_sql : bytes := str "UPDATE t SET a = ? WHERE b = ?".
Definition update_world : world :=
  opened_world (after_open [prepared 7 2 []; answer [ok_data 3 12]]).

Lemma prepared_update_effects_witness :
  let srv := after_prepare update_sql update_world in
  let srv' := after_execute 7 [ParamText (str "xy"); ParamNull] srv in
  wp (run_update 0 update_sql (Z.of_nat (length update_sql)) example_calls) (fun o w' =>
    o = Ret MYLITE_DONE /\ (exists s, stepped s 0 w') /\ effects_recorded 0 (ok_data 3 12) w' /\
    server_state w' = srv' /\ files (sys w') = files (sys update_world)) update_world.
Proof.
  intros srv srv'.
  apply (prepared_update_effects 0 update_sql (Z.of_nat (length update_sql)) 7 2
    example_calls [ParamText (str "xy"); ParamNull] (ok_data 3 12) srv srv'
    (files (sys update_world))).
  - apply example_rest.
  - split; [lia|]. split; [by vm_compute|]. split; [|by vm_compute].
    eexists. split; [by vm_compute|]. by vm_compute.
  - rewrite Nat2Z.id, firstn_all. eapply example_prepares. by vm_compute.
  - apply example_binds.
  - eapply example_executes; by vm_compute.
  - done.
  - simpl. lia.
Defined.

(** A statement that is prepared in a world of the scripted server. *)
Lemma example_idle :
  exists s m st ms c w, idle s 0 m 7 [ParamNull; ParamNull] example_fields st ms c w /\
    script (server_state w) = [answer [example_data]].
Proof.
  destruct (dbs select_world !! 0%nat) as [x|] eqn:Hx; [|by vm_compute in Hx].
  pose proof (prepare_idle_spec 0 x example_sql (Z.of_nat (length example_sql)) 7 2 example_fields
    (after_prepare example_sql select_world) (files (sys select_world)) select_world) as Hp.
  rewrite Nat2Z.id, firstn_all in Hp.
  destruct Hp as (s & _ & m & st & ms & c & Hi & Hsrv & _).
  - apply example_rest.
  - done.
  - lia.
  - by vm_compute.
  - revert Hx. vm_compute. by intros [= <-].
  - by vm_compute.
  - eapply example_prepares. by vm_compute.
  - do 6 eexists. split; [exact Hi|]. rewrite Hsrv. by vm_compute.
Qed.

Lemma steps_reach_done_witness :
  exists s w, wp (step_times 5 s) (fun o w' =>
    o = Ret [MYLITE_ROW; MYLITE_ROW; MYLITE_DONE; MYLITE_DONE; MYLITE_DONE] /\ stepped s 0 w' /\
    server_state w' = after_execute 7 [ParamNull; ParamNull] (server_state w) /\
    files (sys w') = files (sys w)) w.
Proof.
  destruct example_idle as (s & m & st & ms & c & w & Hi & Hscript). exists s, w.
  apply (steps_reach_done s 0 m 7 [ParamNull; ParamNull] example_fields st ms c example_data
    example_rows example_texts 2 (after_execute 7 [ParamNull; ParamNull] (server_state w))
    (files (sys w)) w).
  - exact Hi.
  - apply example_columns.
  - pose proof (example_executes 7 [ParamNull; ParamNull] example_data [] (server_state w)
      (files (sys w)) w Hscript eq_refl eq_refl) as Hx. by destruct w as [? ? ? ? ? ? ? ? ? [] ? ?].
  - done.
  - done.
  - apply example_rows_sent.
Defined.

Lemma bind_updates_value_witness :
  exists s w, bindings s 0 [ParamNull; ParamNull] w /\
    wp (run_bind (BindUint64 (2 ^ 64 - 1)) (Some s) 2)
      (bind_promise s 0 [ParamNull; ParamUint (2 ^ 64 - 1)] w) w.
Proof.
  destruct example_idle as (s & m & st & ms & c & w & Hi & _). exists s, w.
  pose proof (idle_bindings _ _ _ _ _ _ _ _ _ _ Hi) as Hb. split; [exact Hb|].
  apply (bind_updates_value (BindUint64 (2 ^ 64 - 1)) (ParamUint (2 ^ 64 - 1)) s 0 2 [ParamNull; ParamNull] w Hb).
  - simpl. lia.
  - constructor. unfold ULLONG_MAX. lia.
Defined.

Lemma misused_bind_changes_nothing_witness :
  exists s w, run_bind (BindInt64 1) (Some s) 3 w = (Ret MYLITE_MISUSE, w).
Proof.
  destruct example_idle as (s & m & st & ms & c & w & Hi & _). exists s, w.
  apply (misused_bind_changes_nothing (BindInt64 1) s st 3 w (id_stmt _ _ _ _ _ _ _ _ _ _ Hi)).
  - pose proof (id_length _ _ _ _ _ _ _ _ _ _ Hi) as Hlen. simpl in Hlen.
    unfold misused. rewrite Hlen. simpl. lia.
  - done.
Defined.

Lemma clear_bindings_binds_nulls_witness :
  exists s w, wp (mylite_clear_bindings (Some s))
    (fun o w' => o = Ret MYLITE_OK /\ bindings s 0 [ParamNull; ParamNull] w') w.
Proof.
  destruct example_idle as (s & m & st & ms & c & w & Hi & _). exists s, w.
  apply (clear_bindings_binds_nulls s 0 [ParamNull; ParamNull] w).
  exact (idle_bindings _ _ _ _ _ _ _ _ _ _ Hi).
Defined.
