(* ===== verification/Interleaving.v ===== *)
(** * Calls between the steps of a statement

    The rows of a statement that has been executed wait in the [THD] of the
    connection.  Another command on the handle meets a connection that is not
    ready and fails; on the way it has already thrown the waiting rows away,
    and the statement ends as if there had been no more. *)

From S2P Require Import Prelude Api Effects SqlLexer SqlPolicy SqlPolicyTheorems System Numbers World.
From S2P Require Import Formats FormatsFacts BinaryRow BinaryFacts ClientQuery ClientStmt Runtime Exec Statement.
From S2P Require Import Frames Rules ClientFacts Scripted RuntimeFacts Library ExecFacts Termination StatementFacts.
From S2P Require Import Lifetime Bindings Rows ProtocolRows Fetch Step Execute Prepared PreparedTheorems.
From stdpp Require Import options.
Set Default Proof Using "Type*".

Local Open Scope Z_scope.

Section interleaving.
  Context `{Server}.

(** A command while rows wait: it fails before it reaches the server, and the
    rows are gone. *)
Lemma command_out_of_sync d x (skip_check : bool) rows c (Q : outcome bool -> world -> Prop) w :
  connections w !! d = Some c -> streaming rows c -> session_killed d (server_state w) = false ->
  (forall c', streaming [] c' -> Q (Ret true) (set_connections (<[d := c']> (connections w)) w)) ->
  wp (emb_advanced_command d x skip_check) Q w.
Proof.
  intros Hc (Hstatus & Hreport & Hmore & t & Ht & Hq & _) Hkill HQ. unfold emb_advanced_command.
  wp_auto. rewrite Hkill, andb_false_r. wp_auto. rewrite Ht. unfold THD_clear_data_list. wp_auto.
  rewrite Hstatus, bool_decide_eq_false_2 by done. simpl. wp_auto. simpl. rewrite insert_insert_eq.
  apply HQ. split; [done|]. split; [done|]. split; [done|]. by eexists.
Qed.

(** Only the connection and the handle have changed. *)
Lemma stepping_moved s d fields rows rows' x c w :
  stepping s d fields rows w -> streaming rows' c ->
  stepping s d fields rows' (set_dbs (<[d := x]> (dbs w)) (set_connections (<[d := c]> (connections w)) w)).
Proof.
  intros (m & slots & st & ms & Hr & Hclean & Hsteady & Hf & Hread & Herr & Hexec & Hres & _ & _ & Hal) Hc.
  exists m, slots, st, ms. split; [by destruct Hr|]. split_and!; try done.
  - exists c. split; [apply lookup_insert_eq|done].
  - simpl. rewrite lookup_insert_eq. by eexists.
Qed.

Lemma exec_out_of_sync s d fields rows x sql {X} (callback : option (mylite_exec_callback X)) ctx w :
  stepping s d fields rows w -> dbs w !! d = Some x -> ~ rejected x sql ->
  session_killed d (server_state w) = false ->
  wp (mylite_exec (Some d) (Some sql) callback ctx false) (fun o w' =>
    o = Ret (MYLITE_ERROR, None, ctx) /\ stepping s d fields [] w' /\ kept_by_steps w w') w.
Proof.
  intros Hs Hx Hok Hkill. pose proof Hs as (_ & _ & _ & _ & _ & _ & _ & _ & _ & _ & _ & _ & (c & Hc & Hcs) & _).
  unfold mylite_exec, exec_impl. wp_auto. eapply reject_policy_accepted; [find_lookup| |].
  { intros Hr. apply Hok. revert Hr. by rewrite !rejected_spec. }
  wp_auto. change (negb (MYLITE_OK =? MYLITE_OK)) with false. cbn iota. unfold mysql_query. apply wp_bind, wp_bind.
  eapply (command_out_of_sync d _ _ rows c); [exact Hc|done|done|]. intros c' Hc'.
  apply bind_post_ret, wp_ret, bind_post_ret. unfold set_mariadb_error, copy_error_message. wp_auto. simpl. wp_auto.
  split; [done|]. split; [|done]. rewrite insert_insert_eq. exact (stepping_moved _ _ _ _ _ _ _ w Hs Hc').
Qed.
End interleaving.

(** C35: while rows of an executed statement wait, [mylite_exec] with an
    accepted statement on the same handle fails without asking the server,
    and the next [mylite_step] of the statement returns [MYLITE_DONE]
    whatever rows were left: the caller of [mylite_step] is not told that
    they are lost. *)
Theorem interleaved_exec_drops_rows `{Server} {X} (s d : nat) (fields : list MYSQL_FIELD)
    (rows : list MYSQL_ROW) (x : mylite_db) (sql : bytes)
    (callback : option (mylite_exec_callback X)) (ctx : X) (w : world)
    (Hstepping : stepping s d fields rows w) (Hlive : dbs w !! d = Some x)
    (Haccepted : ~ rejected x sql) (Halive : session_killed d (server_state w) = false) :
  wp ('(code, _, _) ← mylite_exec (Some d) (Some sql) callback ctx false;
      result ← mylite_step (Some s);
      mret (code, result)) (fun o w' =>
    o = Ret (MYLITE_ERROR, MYLITE_DONE) /\ stepped s d w' /\ kept_by_steps w w') w.
Proof.
  apply wp_bind. eapply wp_mono; [by eapply exec_out_of_sync|].
  intros o w1 (-> & Hs1 & Hsrv1 & Hsys1). apply bind_post_ret, wp_bind.
  eapply wp_mono; [by eapply step_end_spec|]. intros o w2 (-> & [[Hs2 _] _] & _ & Hsrv2 & Hsys2).
  apply bind_post_ret, wp_ret. split; [done|]. split; [done|]. split; congruence.
Qed.

(** A statement of the scripted server with a row that was read and one that
    waits. *)
Lemma example_first_row :
  exists s w, stepping s 0 example_fields [BinaryRow (row_packet [VNull; VString []])] w /\
    at_row s [Some (str "-41"); Some (str "longer than its buffer")] w.
Proof.
  destruct example_idle as (s & m & st & ms & c & w & Hi & Hscript).
  destruct (rows_sent_decode _ _ _ example_rows_sent) as (values & Hd & Hvalues).
  assert (Hx : executes 0 7 [ParamNull; ParamNull] example_data
    (after_execute 7 [ParamNull; ParamNull] (server_state w)) (files (sys w)) w).
  { pose proof (example_executes 7 [ParamNull; ParamNull] example_data [] (server_state w)
      (files (sys w)) w Hscript eq_refl eq_refl) as Hx. by destruct w as [? ? ? ? ? ? ? ? ? [] ? ?]. }
  destruct example_columns as (Hne & _ & Hknown).
  pose proof (first_step_spec s 0 m 7 [ParamNull; ParamNull] example_fields st ms c example_data _ _ w
    (fun _ w' => stepping s 0 example_fields [BinaryRow (row_packet [VNull; VString []])] w' /\
       at_row s [Some (str "-41"); Some (str "longer than its buffer")] w')
    Hi Hne Hknown Hx eq_refl) as Hstep.
  eexists s, _. apply Hstep. intros w1 Hs1 _ _.
  eapply wp_mono; [by eapply (fetch_outcome s 0 example_fields (map row_packet example_rows))|].
  intros o w2 [Hout _]. destruct values as [|row values]; [by inversion Hd|].
  destruct Hout as (_ & Hs2 & Hrow). split; [exact Hs2|]. injection Hvalues as Hfirst _.
  change (row_value <$> row) with (map row_value row) in Hrow. by rewrite Hfirst in Hrow.
Qed.

Lemma select_one_accepted x : ~ rejected x (str "SELECT 1").
Proof.
  rewrite rejected_spec.
  unfold is_unsupported_server_surface_sql, is_unsupported_userstat_diagnostics_statement,
    is_unsupported_user_variable_diagnostics_statement, is_unsupported_statement_profiling_statement,
    is_unsupported_optimizer_trace_statement, has_current_schema_userstat_statistics_table_reference,
    has_current_schema_table_reference.
  destruct (identifier_token_equals (current_schema x) "INFORMATION_SCHEMA");
    vm_compute; intuition discriminate.
Qed.

Lemma interleaved_exec_drops_rows_witness :
  exists s w, wp ('(code, _, _) ← mylite_exec (Some 0%nat) (Some (str "SELECT 1")) None tt false;
      result ← mylite_step (Some s);
      mret (code, result)) (fun o w' =>
    o = Ret (MYLITE_ERROR, MYLITE_DONE) /\ stepped s 0 w' /\ kept_by_steps w w') w.
Proof.
  destruct example_first_row as (s & w & Hs & _). exists s, w.
  pose proof Hs as (_ & _ & _ & _ & _ & _ & _ & _ & _ & _ & _ & _ & _ & [x Hx] & _).
  apply (interleaved_exec_drops_rows s 0 example_fields [BinaryRow (row_packet [VNull; VString []])] x).
  - exact Hs.
  - exact Hx.
  - apply select_one_accepted.
  - reflexivity.
Defined.
