(* ===== verification/Storage.v ===== *)
(** * Storage of bound values

    The value of a text or blob parameter lies in [buffers], next to the
    buffers of result columns and within reach of every pointer of a
    [MYSQL_BIND].  Some parameters are protected, [K], and some addresses,
    [B]: [guarded] says that nothing but the protected parameters points to
    [B], and [protects n Q m] that [m] keeps this so, leaves the protected
    parameters and the contents of [B] as they are, and returns a value with
    [Q].  Every function of the library protects what it is not meant to
    change. *)

From S2P Require Import Prelude Api Effects System World BinaryRow ClientQuery ClientStmt.
From S2P Require Import Runtime Exec Statement Frames.
From stdpp Require Import options.
Set Default Proof Using "Type*".

Create HintDb protects discriminated.

(** ** Pointers *)

(** [every P x]: all addresses of buffers that [x] points to are in [P]. *)
Class Pointers (A : Type) := {
  every : (nat -> Prop) -> A -> Prop;
  every_impl (P P' : nat -> Prop) a : (forall b, P b -> P' b) -> every P a -> every P' a;
}.

#[export] Instance address_pointers : Pointers (option nat).
Proof. refine {| every P b := forall a, b = Some a -> P a |}. auto. Defined.

#[export] Instance bind_pointers : Pointers MYSQL_BIND.
Proof.
  refine {| every P b := match buffer b with Some (Storage a) => P a | _ => True end |}.
  intros P P' b HP Hb. destruct (buffer b) as [[]|]; auto.
Defined.

#[export] Instance list_pointers `{Pointers A} : Pointers (list A).
Proof.
  refine {| every P := Forall (every P) |}.
  intros P P' l HP Hl. eapply Forall_impl; [exact Hl|]. intros x. by apply every_impl.
Defined.

#[export] Instance column_pointers : Pointers ResultColumn.
Proof.
  refine {| every P c := every P (c_buffer c) /\ every P (c_retired_buffer c) /\ every P (c_bind c) |}.
  intros P P' c HP (Hb & Hr & Hc). split_and!; by eapply every_impl.
Defined.

(** The columns of a statement; parameters are looked at apart. *)
#[export] Instance statement_pointers : Pointers mylite_stmt.
Proof.
  refine {| every P st := every P (columns st) /\ every P (result_binds st) |}.
  intros P P' st HP [Hc Hb]. split; by eapply every_impl.
Defined.

#[export] Instance mstmt_pointers : Pointers MYSQL_STMT.
Proof. refine {| every P ms := every P (s_bind ms) |}. intros P P' ms. apply every_impl. Defined.

(** All of them are below [n] and not in [B]. *)
Definition harmless_at (B : nat -> Prop) (n a : nat) : Prop := ~ B a /\ (a < n)%nat.
Definition harmless (B : nat -> Prop) `{Pointers A} (n : nat) (a : A) : Prop := every (harmless_at B n) a.
Arguments harmless B {A _} n a : simpl never.

Lemma harmless_mono {B} `{Pointers A} n n' (a : A) : (n <= n')%nat -> harmless B n a -> harmless B n' a.
Proof. intros Hle. apply every_impl. intros b [Hb Hn]. split; [done|lia]. Qed.

(** ** The logic *)

Section logic.
  Context `{Server}.
  Variables (K : nat -> nat -> Prop) (B : nat -> Prop).

(** A statement with its parameters. *)
Definition harmless_statement (s n : nat) (st : mylite_stmt) : Prop :=
  harmless B n st /\ forall i p, parameters st !! i = Some p -> ~ K s i -> harmless B n (p_bytes p).

Record guarded (w : world) : Prop := mkGuarded {
  gd_statements : forall s st, stmts w !! s = Some st ->
    (s < next_address w)%nat /\ harmless B (next_address w) st;
  gd_parameters : forall s i p, parameter_of w s i = Some p -> ~ K s i ->
    harmless B (next_address w) (p_bytes p);
  gd_binds : forall m ms, mysql_stmts w !! m = Some ms -> harmless B (next_address w) ms;
  gd_known : forall a, B a -> (a < next_address w)%nat;
}.

Record untouched (w w' : world) : Prop := mkUntouched {
  un_next : (next_address w <= next_address w')%nat;
  un_statements : forall s i, K s i -> is_Some (stmts w !! s) -> is_Some (stmts w' !! s);
  un_parameters : forall s i, K s i -> parameter_of w' s i = parameter_of w s i;
  un_buffers : forall a, B a -> buffers w' !! a = buffers w !! a;
}.

#[global] Instance untouched_preorder : PreOrder untouched.
Proof.
  split; [done|]. intros w1 w2 w3 [Hn1 Hs1 Hp1 Hb1] [Hn2 Hs2 Hp2 Hb2]. split.
  - lia.
  - eauto.
  - intros s i Hk. by rewrite Hp2, Hp1.
  - intros a Ha. by rewrite Hb2, Hb1.
Qed.

(** From a world whose addresses end at [n] or later. *)
Definition protects {A} (n : nat) (Q : nat -> A -> Prop) (m : cmd world A) : Prop := forall w,
  (n <= next_address w)%nat -> guarded w ->
  guarded (snd (m w)) /\ untouched w (snd (m w)) /\
  forall a, fst (m w) = Ret a -> Q (next_address (snd (m w))) a.

Definition anything {A} (n : nat) (a : A) : Prop := True.

Lemma protects_mono {A} n (P Q : nat -> A -> Prop) m :
  protects n P m -> (forall n' a, (n <= n')%nat -> P n' a -> Q n' a) -> protects n Q m.
Proof.
  intros Hm HQ w Hn Hg. destruct (Hm w Hn Hg) as (Hg' & Hu & Ha).
  split; [done|]. split; [done|]. intros a Heq. apply HQ; [|auto]. destruct Hu. lia.
Qed.
Lemma protects_anything {A} n (P : nat -> A -> Prop) m : protects n P m -> protects n anything m.
Proof. intros Hm. by eapply protects_mono. Qed.

(** A command that ends without a change. *)
Lemma protects_same {A} n (Q : nat -> A -> Prop) m :
  (forall w, snd (m w) = w) ->
  (forall w a, (n <= next_address w)%nat -> guarded w -> fst (m w) = Ret a -> Q (next_address w) a) ->
  protects n Q m.
Proof. intros Hm HQ w Hn Hg. rewrite Hm. split; [done|]. split; [done|]. auto. Qed.
Lemma protects_ret {A} n (Q : nat -> A -> Prop) a :
  (forall n', (n <= n')%nat -> Q n' a) -> protects n Q (mret a).
Proof. intros HQ. apply protects_same; [done|]. intros w a' Hn _ [= <-]. auto. Qed.
Lemma protects_undefined {A} n (Q : nat -> A -> Prop) : protects n Q undefined.
Proof. by apply protects_same. Qed.
Lemma protects_throw {A} n (Q : nat -> A -> Prop) e : protects n Q (throw e).
Proof. by apply protects_same. Qed.
Lemma protects_out_of_fuel {A} n (Q : nat -> A -> Prop) : protects n Q out_of_fuel.
Proof. by apply protects_same. Qed.
Lemma protects_gets {A} n (f : world -> A) : protects n anything (gets f).
Proof. by apply protects_same. Qed.
Lemma protects_deref {A} n (Q : nat -> A -> Prop) (p : world -> option A) :
  (forall w a, guarded w -> p w = Some a -> Q (next_address w) a) -> protects n Q (deref p).
Proof.
  intros HQ. apply protects_same; intros w; unfold deref; destruct (p w) as [a|] eqn:Hp; try done.
  intros a' _ Hg [= <-]. by apply HQ.
Qed.

Lemma protects_bind {A C} n (P : nat -> A -> Prop) (Q : nat -> C -> Prop) (m : cmd world A) f :
  protects n P m -> (forall n' a, (n <= n')%nat -> P n' a -> protects n' Q (f a)) ->
  protects n Q (mbind f m).
Proof.
  intros Hm Hf w Hn Hg. destruct (Hm w Hn Hg) as (Hg1 & Hu1 & Ha). unfold mbind, cmd_bind.
  destruct (m w) as [[a|e| |] w1]; simpl in *; [|done..].
  destruct (Hf (next_address w1) a) with (w := w1) as (Hg2 & Hu2 & HQ); [destruct Hu1; lia|auto|done|done|].
  split; [done|]. split; [|done]. by transitivity w1.
Qed.
Lemma protects_try_catch {A} n (Q : nat -> A -> Prop) (m : cmd world A) h :
  protects n Q m -> (forall n' e, (n <= n')%nat -> protects n' Q (h e)) ->
  protects n Q (try_catch m h).
Proof.
  intros Hm Hh w Hn Hg. destruct (Hm w Hn Hg) as (Hg1 & Hu1 & Ha). unfold try_catch.
  destruct (m w) as [[a|e| |] w1]; simpl in *; [done| |done..].
  destruct (Hh (next_address w1) e) with (w := w1) as (Hg2 & Hu2 & HQ); [destruct Hu1; lia|done|done|].
  split; [done|]. split; [|done]. by transitivity w1.
Qed.
End logic.

(** What [harmless] needs of addresses and lists. *)
Section harmless.
  Context (B : nat -> Prop).

Lemma harmless_none n : harmless B n (None : option nat).
Proof. by intros a. Qed.
Lemma harmless_lookup `{Pointers A} n (l : list A) i a :
  harmless B n l -> l !! i = Some a -> harmless B n a.
Proof. intros Hl Hi. exact (Forall_lookup_1 _ _ _ _ Hl Hi). Qed.
Lemma harmless_cons `{Pointers A} n (a : A) l :
  harmless B n (a :: l) <-> harmless B n a /\ harmless B n l.
Proof. apply Forall_cons. Qed.
Lemma harmless_parts n c :
  harmless B n c ->
  harmless B n (c_buffer c) /\ harmless B n (c_retired_buffer c) /\ harmless B n (c_bind c).
Proof. done. Qed.
Lemma harmless_results n st :
  harmless B n st -> harmless B n (columns st) /\ harmless B n (result_binds st).
Proof. done. Qed.
Lemma harmless_insert `{Pointers A} n (l : list A) i a :
  harmless B n l -> harmless B n a -> harmless B n (<[i := a]> l).
Proof. intros Hl Ha. by apply Forall_insert. Qed.
Lemma harmless_replicate `{Pointers A} n k (a : A) : harmless B n a -> harmless B n (replicate k a).
Proof. intros Ha. by apply Forall_replicate. Qed.
Lemma harmless_resize `{Pointers A} n k (a : A) l :
  harmless B n l -> harmless B n a -> harmless B n (resize k a l).
Proof. intros Hl Ha. by apply Forall_resize. Qed.
Lemma harmless_fmap `{Pointers A, Pointers C} n (f : A -> C) l :
  harmless B n l -> (forall a, harmless B n a -> harmless B n (f a)) -> harmless B n (f <$> l).
Proof. intros Hl Hf. apply Forall_fmap. exact (Forall_impl _ _ _ Hl Hf). Qed.
Lemma harmless_storage n (b : option nat) bind :
  harmless B n b -> harmless B n (with_buffer (Storage <$> b) bind).
Proof. intros Hb. destruct b as [a|]; [exact (Hb a eq_refl)|done]. Qed.
End harmless.

(** Known facts, facts from before, and the structure of values. *)
Ltac harmless_step :=
  match goal with
  | |- anything _ _ => exact I
  | H : _ /\ _ |- _ => destruct H
  | H : forall y, Some ?x = Some y -> _ |- _ => specialize (H x eq_refl)
  | H : harmless_statement _ _ _ _ _ |- _ => destruct H
  | H : @harmless _ mylite_stmt _ _ _ |- _ => apply harmless_results in H as [? ?]
  | H : @harmless _ ResultColumn _ _ _ |- _ => apply harmless_parts in H as (? & ? & ?)
  | |- _ /\ _ => split
  | |- harmless _ _ (if ?x then _ else _) => destruct x
  | |- harmless _ _ (match ?x with _ => _ end) => destruct x
  | |- harmless _ _ None => apply harmless_none
  | |- harmless _ _ [] => constructor
  | |- harmless _ _ (<[_ := _]> _) => apply harmless_insert
  | |- harmless _ _ (replicate _ _) => apply harmless_replicate
  | |- harmless _ _ (resize _ _ _) => apply harmless_resize
  | |- harmless ?B ?n (with_buffer_length _ ?b) => change (harmless B n b)
  | |- harmless _ _ (with_buffer (Storage <$> _) _) => apply harmless_storage
  | |- harmless _ _ (_ <$> _) => eapply harmless_fmap; [|intros]
  | H : harmless _ _ ?l |- harmless _ _ ?a => 
      match goal with Hi : l !! _ = Some a |- _ => eapply harmless_lookup; [|exact Hi] end
  | |- harmless _ _ _ => first [assumption | exact I]
  | H : harmless _ ?m _ |- harmless _ ?n _ => refine (harmless_mono m n _ _ H); lia
  | |- @harmless ?B MYSQL_STMT _ ?n ?ms =>
      let l := eval cbn in (s_bind ms) in change (harmless B n l)
  | |- @harmless ?B mylite_stmt _ ?n ?st =>
      change (harmless B n (columns st) /\ harmless B n (result_binds st));
      cbn [fst snd columns result_binds with_columns with_result_binds clear_columns with_has_row
        with_has_result with_metadata with_executed with_parameter_binds with_stmt with_parameters]
  | |- @harmless ?B ResultColumn _ ?n ?c =>
      change (harmless B n (c_buffer c) /\ harmless B n (c_retired_buffer c) /\ harmless B n (c_bind c));
      cbn [fst snd c_buffer c_retired_buffer c_bind with_c_bind with_c_buffers with_members
        describe_column new_column]
  end.
Ltac harmless_auto := intros; cbv beta in *; repeat harmless_step.

Ltac protects_leaf :=
  match goal with
  | |- protects _ _ _ _ (mret _) => apply protects_ret; harmless_auto
  | |- protects _ _ _ _ undefined => apply protects_undefined
  | |- protects _ _ _ _ (throw _) => apply protects_throw
  | |- protects _ _ _ _ out_of_fuel => apply protects_out_of_fuel
  | |- protects _ _ _ anything (deref _) => apply protects_deref; done
  | |- protects _ _ _ _ (gets _) => apply protects_gets
  end.
(** A command with a lemma of its own. *)
Ltac protects_known := solve [eauto with protects | eapply protects_anything; eauto with protects].
Ltac protects_step :=
  match goal with
  | |- protects _ _ _ _ (mbind _ _) =>
      first [ eapply protects_bind; [protects_known|intros ? ? ? ?; cbv beta in *]
            | apply (protects_bind _ _ _ anything); [|intros ? ? ? _] ]
  | |- protects _ _ _ _ (try_catch _ _) => apply protects_try_catch; [|intros ? ? ?]
  | |- protects _ _ _ _ (if ?x then _ else _) => destruct x
  | |- protects _ _ _ _ (match ?x with _ => _ end) => destruct x
  | |- protects _ _ _ _ (let '_ := ?x in _) => destruct x
  | |- protects _ _ _ _ _ => first [protects_leaf | protects_known]
  end.
Ltac protects_auto := intros; repeat protects_step.

(** ** Memory *)

Section memory.
  Context `{Server}.
  Variables (K : nat -> nat -> Prop) (B : nat -> Prop).

(** What has nothing to do with statements and buffers. *)
Record aloof (w w' : world) : Prop := mkAloof {
  al_stmts : stmts w' = stmts w;
  al_mysql_stmts : mysql_stmts w' = mysql_stmts w;
  al_buffers : buffers w' = buffers w;
  al_next : next_address w' = next_address w;
}.

Lemma aloof_guarded w w' : aloof w w' -> guarded K B w -> guarded K B w' /\ untouched K B w w'.
Proof.
  intros [Hs Hm Hb Hn] [Hst Hp Hbi Hk]. unfold parameter_of in *.
  split; split; unfold parameter_of; rewrite ?Hn, ?Hs, ?Hm, ?Hb; auto.
Qed.
Lemma protects_aloof {A} n (m : cmd world A) : (forall w, aloof w (snd (m w))) -> protects K B n anything m.
Proof. intros Hm w _ Hg. destruct (aloof_guarded w _ (Hm w) Hg). by split_and!. Qed.

Lemma protects_allocate n : protects K B n anything allocate.
Proof. apply protects_aloof. intros w. unfold allocate. by destruct (allocations w). Qed.
Lemma protects_put_db n d x : protects K B n anything (put_db d x).
Proof. by apply protects_aloof. Qed.
Lemma protects_put_mysql n d x : protects K B n anything (put_mysql d x).
Proof. by apply protects_aloof. Qed.
Lemma protects_on_server {A} (n : nat) (f : server -> filesystem -> A * server * filesystem) :
  protects K B n anything (on_server f).
Proof.
  apply protects_aloof. intros w. unfold on_server.
  by destruct (f (server_state w) (files (sys w))) as [[a s] fs].
Qed.
Lemma protects_on_system {A} (n : nat) (m : cmd system A) : protects K B n anything (on_system m).
Proof. apply protects_aloof. intros w. unfold on_system, zoom. by destruct (m (sys w)). Qed.
Lemma protects_modify n f : (forall w, aloof w (f w)) -> protects K B n anything (modify f).
Proof. intros Hf. by apply protects_aloof. Qed.

Lemma protects_fresh_address n :
  protects K B n (fun n' a => harmless B n' (Some a) /\ (n <= a)%nat) fresh_address.
Proof.
  intros w Hn [Hst Hp Hbi Hk]. assert (Hle : (next_address w <= S (next_address w))%nat) by lia.
  split; [|split].
  - split.
    + intros s st Hs. destruct (Hst s st Hs). split; [simpl; lia|by eapply harmless_mono].
    + intros s i p Hs Hi. by apply (harmless_mono _ _ _ Hle), (Hp s i).
    + intros m ms Hm. apply (harmless_mono _ _ _ Hle), (Hbi m), Hm.
    + intros a Ha. simpl. specialize (Hk _ Ha). lia.
  - split; simpl; [lia|done..].
  - simpl. intros a [= <-]. split; [|done].
    intros a' [= <-]. split; [|lia]. intros Ha%Hk. lia.
Qed.

Lemma protects_get_mstmt n m : protects K B n (fun n' ms => harmless B n' ms) (get_mstmt m).
Proof. apply protects_deref. intros w ms Hg Hms. by eapply gd_binds. Qed.
Lemma protects_put_mstmt n m ms : harmless B n ms -> protects K B n anything (put_mstmt m ms).
Proof.
  intros Hms w Hn [Hst Hp Hbi Hk]. split; [|done]. split; simpl; try done.
  intros m' ms' [[_ <-]|[_ Hm']]%lookup_insert_Some; [|by eapply Hbi].
  by apply (harmless_mono n).
Qed.
Lemma protects_update_mstmt n m f :
  (forall n' ms, (n <= n')%nat -> harmless B n' ms -> harmless B n' (f ms)) ->
  protects K B n anything (update_mstmt m f).
Proof.
  intros Hf. eapply protects_bind; [apply protects_get_mstmt|]. intros n' ms Hn Hms.
  apply protects_put_mstmt. auto.
Qed.

Lemma protects_get_stmt n s : protects K B n (harmless_statement K B s) (get_stmt s).
Proof.
  apply protects_deref. intros w st Hg Hst. split; [by eapply gd_statements|].
  intros i p Hp. apply (gd_parameters _ _ _ Hg s i). unfold parameter_of. by rewrite Hst.
Qed.
Lemma harmless_statement_mono s n n' st :
  (n <= n')%nat -> harmless_statement K B s n st -> harmless_statement K B s n' st.
Proof.
  intros Hle [Hst Hp]. split; [by eapply harmless_mono|]. intros i p Hi Hk.
  eapply harmless_mono; [done|]. by eapply Hp.
Qed.

(** Writing a statement back. *)
Lemma guarded_put_stmt w s st :
  guarded K B w -> (s < next_address w)%nat -> harmless_statement K B s (next_address w) st ->
  guarded K B (set_stmts (<[s := st]> (stmts w)) w).
Proof.
  intros [Hst Hp Hbi Hk] Hs [Hc Hpar]. split; simpl; try done.
  - intros s' st' [[<- <-]|[_ Hs']]%lookup_insert_Some; [done|by eapply Hst].
  - intros s' i p. unfold parameter_of in *. simpl.
    destruct (decide (s = s')) as [<-|Hne]; [rewrite lookup_insert_eq|rewrite lookup_insert_ne by done].
    + simpl. by apply Hpar.
    + by apply Hp.
Qed.
Lemma untouched_put_stmt w s st :
  (forall i, K s i -> parameters st !! i = parameter_of w s i) ->
  untouched K B w (set_stmts (<[s := st]> (stmts w)) w).
Proof.
  intros Hsame. split; simpl; try done.
  - intros s' i _ Hs'. apply lookup_insert_is_Some'. auto.
  - intros s' i Hi. unfold parameter_of in *. simpl.
    destruct (decide (s = s')) as [<-|Hne]; [|by rewrite lookup_insert_ne].
    rewrite lookup_insert_eq. simpl. by apply Hsame.
Qed.

Lemma protects_update_stmt_with n s f :
  (forall n' st, (n <= n')%nat -> harmless_statement K B s n' st -> harmless_statement K B s n' (f st)) ->
  (forall st i, K s i -> parameters (f st) !! i = parameters st !! i) ->
  protects K B n anything (update_stmt s f).
Proof.
  intros Hf Hsame w Hn Hg. unfold update_stmt, mbind, cmd_bind, get_stmt, deref.
  destruct (stmts w !! s) as [st|] eqn:Hst; [|done].
  destruct (gd_statements _ _ _ Hg s st Hst) as [Hs Hfree].
  split; [apply guarded_put_stmt; [done|done|]|split; [apply untouched_put_stmt|done]].
  - apply Hf; [done|]. split; [done|].
    intros i p Hp. apply (gd_parameters _ _ _ Hg s i). unfold parameter_of. by rewrite Hst.
  - intros i Hi. unfold parameter_of. rewrite Hst. by apply Hsame.
Qed.
Lemma protects_update_stmt n s f :
  (forall st, parameters (f st) = parameters st) ->
  (forall n' st, (n <= n')%nat -> harmless B n' st -> harmless B n' (f st)) ->
  protects K B n anything (update_stmt s f).
Proof.
  intros Hsame Hf. apply protects_update_stmt_with.
  - intros n' st Hn [Hst Hp]. split; [by apply Hf|]. by rewrite Hsame.
  - intros st i _. by rewrite Hsame.
Qed.

Lemma protects_set_buffers n a f :
  harmless B n (Some a) -> (forall bufs b, a <> b -> f bufs !! b = bufs !! b) ->
  protects K B n anything (modify (fun w => set_buffers (f (buffers w)) w)).
Proof.
  intros Ha Hf w Hn [Hst Hp Hbi Hk]. split; [done|]. split; [|done]. split; simpl; try done.
  intros b Hb. apply Hf. intros ->. by destruct (Ha b eq_refl).
Qed.
Lemma protects_put_buffer n a x : harmless B n (Some a) -> protects K B n anything (put_buffer a x).
Proof.
  intros Ha. apply (protects_set_buffers _ a (<[a := x]>)); [done|]. intros bufs b Hb. by apply lookup_insert_ne.
Qed.
Lemma protects_free_buffer n b : harmless B n b -> protects K B n anything (free_buffer b).
Proof.
  destruct b as [a|]; intros Ha; [|by apply protects_ret].
  apply (protects_set_buffers _ a (delete a)); [done|]. intros bufs b Hb. by apply lookup_delete_ne.
Qed.
End memory.
#[export] Hint Resolve protects_allocate protects_put_db protects_put_mysql protects_on_server
  protects_on_system protects_fresh_address protects_get_mstmt protects_put_mstmt
  protects_update_mstmt protects_get_stmt protects_put_buffer protects_free_buffer : protects.
#[export] Hint Extern 1 (harmless _ _ _) => solve [harmless_auto] : protects.

(** ** The client library *)

Section client.
  Context `{Server}.
  Variables (K : nat -> nat -> Prop) (B : nat -> Prop).
  Abbreviation safe m := (forall n, protects K B n anything m).

Lemma protects_get_db d : safe (get_db d).
Proof. unfold get_db. protects_auto. Qed.
Lemma protects_get_mysql d : safe (get_mysql d).
Proof. unfold get_mysql. protects_auto. Qed.
Lemma protects_get_buffer b : safe (get_buffer b).
Proof. unfold get_buffer. protects_auto. Qed.
Lemma protects_get_thd d : safe (get_thd d).
Proof. unfold get_thd. protects_auto. Qed.
Hint Resolve protects_get_db protects_get_mysql protects_get_buffer protects_get_thd : protects.
Lemma protects_update_db d f : safe (update_db d f).
Proof. unfold update_db. protects_auto. Qed.
Lemma protects_update_mysql d f : safe (update_mysql d f).
Proof. unfold update_mysql. protects_auto. Qed.
Hint Resolve protects_update_db protects_update_mysql : protects.
Lemma protects_put_thd d t : safe (put_thd d t).
Proof. unfold put_thd. protects_auto. Qed.
Hint Resolve protects_put_thd : protects.
Lemma protects_free_embedded_thd d : safe (free_embedded_thd d).
Proof. unfold free_embedded_thd. protects_auto. Qed.
Lemma protects_emb_flush_use_result d : safe (emb_flush_use_result d).
Proof. unfold emb_flush_use_result. protects_auto. Qed.
Lemma protects_emb_read_query_result d : safe (emb_read_query_result d).
Proof. unfold emb_read_query_result. protects_auto. Qed.
Lemma protects_emb_read_rows d : safe (emb_read_rows d).
Proof. unfold emb_read_rows. protects_auto. Qed.
Hint Resolve protects_free_embedded_thd protects_emb_flush_use_result
  protects_emb_read_query_result protects_emb_read_rows : protects.
Lemma protects_emb_advanced_command d c b : safe (emb_advanced_command d c b).
Proof. unfold emb_advanced_command, mysql_reconnect, THD_clear_data_list. protects_auto. Qed.
Hint Resolve protects_emb_advanced_command : protects.
Lemma protects_mysql_detach_stmt_list d : safe (mysql_detach_stmt_list d).
Proof.
  intros n w _ [Hst Hp Hbi Hk]. split; [|done]. split; simpl; try done.
  intros m ms. rewrite lookup_fmap. intros (ms0 & Hms & ->)%fmap_Some. specialize (Hbi m ms0 Hms).
  by destruct (decide _).
Qed.
Hint Resolve protects_mysql_detach_stmt_list : protects.
Lemma protects_mysql_close d : safe (mysql_close d).
Proof. unfold mysql_close. protects_auto. Qed.
Hint Resolve protects_mysql_close : protects.
Lemma protects_mysql_server_end : safe mysql_server_end.
Proof. unfold mysql_server_end. protects_auto; by apply protects_modify. Qed.
Hint Resolve protects_mysql_server_end : protects.
Lemma protects_mysql_server_init argv : safe (mysql_server_init argv).
Proof. unfold mysql_server_init. protects_auto; by apply protects_modify. Qed.
Hint Resolve protects_mysql_server_init : protects.
Lemma protects_mysql_init d : safe (mysql_init d).
Proof. unfold mysql_init. protects_auto. Qed.
Lemma protects_mysql_real_connect d : safe (mysql_real_connect d).
Proof. unfold mysql_real_connect. protects_auto. Qed.
Lemma protects_mysql_query d q : safe (mysql_query d q).
Proof. unfold mysql_query. protects_auto. Qed.
Lemma protects_mysql_store_result d : safe (mysql_store_result d).
Proof. unfold mysql_store_result. protects_auto. Qed.
Lemma protects_mysql_next_result d : safe (mysql_next_result d).
Proof. unfold mysql_next_result. protects_auto. Qed.
Hint Resolve protects_mysql_init protects_mysql_real_connect protects_mysql_query
  protects_mysql_store_result protects_mysql_next_result : protects.
End client.
#[export] Hint Resolve protects_get_db protects_get_mysql protects_get_buffer protects_get_thd
  protects_update_db protects_update_mysql protects_put_thd protects_free_embedded_thd
  protects_emb_flush_use_result protects_emb_read_query_result protects_emb_read_rows
  protects_emb_advanced_command protects_mysql_close protects_mysql_init protects_mysql_real_connect
  protects_mysql_query protects_mysql_store_result protects_mysql_next_result
  protects_mysql_server_end protects_mysql_server_init : protects.

Section client_statements.
  Context `{Server}.
  Variables (K : nat -> nat -> Prop) (B : nat -> Prop).
  Abbreviation safe m := (forall n, protects K B n anything m).
  Abbreviation bind_of := (fun n b => harmless B n (b : MYSQL_BIND)).

(** *** Members and buffers *)

Lemma harmless_column w s g i c :
  guarded K B w -> column_of w s g i = Some c -> harmless B (next_address w) c.
Proof.
  intros Hg. unfold column_of. destruct (stmts w !! s) as [st|] eqn:Hst; [|done]. simpl.
  destruct (decide _); [|done]. intros Hc. eapply harmless_lookup; [|exact Hc].
  by apply (gd_statements _ _ _ Hg s).
Qed.
Lemma protects_update_column s g i f :
  (forall n c, harmless B n c -> harmless B n (f c)) -> safe (update_column s g i f).
Proof.
  intros Hf n. eapply protects_bind; [apply protects_deref; intros; by eapply harmless_column|].
  intros n1 c Hn1 Hc. apply protects_update_stmt; [done|]. intros n2 st Hn2 [Hcols Hbinds].
  split; [|done]. apply harmless_insert; [done|]. apply Hf. by eapply harmless_mono.
Qed.
Lemma protects_read_member p own f g b : safe (read_member p own f g b).
Proof. unfold read_member. protects_auto. Qed.
Hint Resolve protects_read_member : protects.
Lemma protects_read_length b : safe (read_length b).
Proof. apply protects_read_member. Qed.
Lemma protects_read_is_null b : safe (read_is_null b).
Proof. apply protects_read_member. Qed.
Lemma protects_read_error b : safe (read_error b).
Proof. apply protects_read_member. Qed.
Hint Resolve protects_read_length protects_read_is_null protects_read_error : protects.

Lemma protects_write_member n (p : option member_ptr) b f own :
  harmless B n b -> (forall n c, harmless B n c -> harmless B n (f c)) -> buffer own = buffer b ->
  protects K B n bind_of
    (match p with
     | Some (OfColumn s g i) => update_column s g i f ;; mret b
     | Some OfBind => mret own
     | _ => undefined
     end).
Proof.
  intros Hb Hf Hown. destruct p as [[]|]; try apply protects_undefined.
  - eapply protects_bind; [by apply protects_update_column|]. intros. apply protects_ret. harmless_auto.
  - apply protects_ret. intros n' Hn'. eapply harmless_mono; [exact Hn'|].
    unfold harmless in *. simpl in *. by rewrite Hown.
Qed.
Lemma protects_write_length n v b : harmless B n b -> protects K B n bind_of (write_length v b).
Proof. intros Hb. by apply protects_write_member. Qed.
Lemma protects_write_is_null n v b : harmless B n b -> protects K B n bind_of (write_is_null v b).
Proof. intros Hb. by apply protects_write_member. Qed.
Lemma protects_write_error n v b : harmless B n b -> protects K B n bind_of (write_error v b).
Proof. intros Hb. by apply protects_write_member. Qed.
Lemma protects_write_buffer n b offset data :
  harmless B n b -> protects K B n anything (write_buffer (buffer b) offset data).
Proof.
  intros Hb. unfold write_buffer. unfold harmless in Hb. simpl in Hb. destruct data; [protects_leaf|].
  destruct (buffer b) as [[]|]; try apply protects_undefined.
  eapply protects_bind; [protects_known|]. intros n1 old Hn1 _. destruct (_ <=? _)%nat; [|protects_leaf].
  apply protects_put_buffer. intros a' [= <-]. destruct Hb. split; [done|lia].
Qed.
Hint Resolve protects_write_length protects_write_is_null protects_write_error
  protects_write_buffer : protects.

(** *** Fetching *)

Abbreviation fetched_of := (fun n r => harmless B n (fst r : MYSQL_BIND)).

Lemma protects_fetch_string_with_conversion n value b :
  harmless B n b -> protects K B n bind_of (fetch_string_with_conversion value b).
Proof.
  intros Hb. unfold fetch_string_with_conversion. protects_auto.
Qed.
Hint Resolve protects_fetch_string_with_conversion : protects.
Lemma protects_run_fetch_result_with_conversion n b field row :
  harmless B n b -> protects K B n fetched_of (run_fetch_result_with_conversion b field row).
Proof. intros Hb. unfold run_fetch_result_with_conversion. protects_auto. Qed.
Hint Resolve protects_run_fetch_result_with_conversion : protects.
Lemma protects_run_fetch_result n b field row :
  harmless B n b -> protects K B n fetched_of (run_fetch_result b field row).
Proof. intros Hb. unfold run_fetch_result, run_fetch_result_string. protects_auto. Qed.
Hint Resolve protects_run_fetch_result : protects.

Lemma protects_setup_one_fetch_function n b field :
  harmless B n b ->
  protects K B n (fun n' r => forall b', r = Some b' -> harmless B n' b') (setup_one_fetch_function b field).
Proof.
  intros Hb. unfold setup_one_fetch_function.
  destruct (buffer_fetch_function (buffer_type b)) as [[f len]|]; [|by apply protects_ret].
  apply (protects_bind _ _ _ bind_of); [destruct len; protects_auto|]. intros n1 b1 Hn1 Hb1.
  destruct (known_field_type _); apply protects_ret; [|done]. intros n2 Hn2 b2 [= <-].
  destruct f, (is_binary_compatible _ _); harmless_auto.
Qed.
Hint Resolve protects_setup_one_fetch_function : protects.
Lemma protects_setup_binds binds : forall n fields,
  harmless B n binds ->
  protects K B n (fun n' r => forall l, r = Some l -> harmless B n' l) (setup_binds binds fields).
Proof.
  induction binds as [|b binds IH]; intros n fields Hb; simpl.
  { apply protects_ret. intros n' _ l [= <-]. constructor. }
  apply harmless_cons in Hb as [Hb1 Hbs]. destruct fields as [|field fields]; [protects_leaf|].
  eapply protects_bind; [apply protects_setup_one_fetch_function; harmless_auto|].
  intros n1 [b'|] Hn1 Hr; [|by apply protects_ret]. specialize (Hr b' eq_refl).
  eapply protects_bind; [apply IH; harmless_auto|]. intros n2 [rest|] Hn2 Hrest; apply protects_ret; [|done].
  intros n3 Hn3 l [= <-]. specialize (Hrest rest eq_refl). apply harmless_cons. harmless_auto.
Qed.
Hint Resolve protects_setup_binds : protects.
Lemma protects_mysql_stmt_bind_result n m binds :
  harmless B n binds -> protects K B n anything (mysql_stmt_bind_result m binds).
Proof.
  intros Hb. unfold mysql_stmt_bind_result. protects_auto.
Qed.
Hint Resolve protects_mysql_stmt_bind_result : protects.

Lemma protects_mysql_stmt_bind_param m binds : safe (mysql_stmt_bind_param m binds).
Proof. unfold mysql_stmt_bind_param. protects_auto. Qed.
Lemma protects_read_param b : safe (read_param b).
Proof. unfold read_param. protects_auto. Qed.
Hint Resolve protects_mysql_stmt_bind_param protects_read_param : protects.
Lemma protects_read_params binds : safe (read_params binds).
Proof. induction binds; simpl; protects_auto. Qed.
Lemma protects_emb_unbuffered_fetch d : safe (emb_unbuffered_fetch d).
Proof. unfold emb_unbuffered_fetch. protects_auto. Qed.
Hint Resolve protects_read_params protects_emb_unbuffered_fetch : protects.
Lemma protects_run_read_row_func m : safe (run_read_row_func m).
Proof. unfold run_read_row_func, read_row_unbuffered, read_row_buffered. protects_auto. Qed.
Hint Resolve protects_run_read_row_func : protects.

Lemma protects_fetch_columns binds : forall n fields nulls bit row,
  harmless B n binds ->
  protects K B n (fun n' r => harmless B n' (fst r)) (fetch_columns binds fields nulls bit row).
Proof.
  induction binds as [|b binds IH]; intros n fields nulls bit row Hb; simpl.
  { apply protects_ret. intros. constructor. }
  apply harmless_cons in Hb as [Hb Hbs]. destruct fields as [|field fields], nulls as [|null nulls];
    try apply protects_undefined.
  eapply protects_bind; [protects_known|]. intros n1 b1 Hn1 Hb1.
  apply (protects_bind _ _ _ (fun n' r => harmless B n' (fst (fst r)))).
  { protects_auto. }
  intros n2 [[b2 row2] truncated] Hn2 Hb2. simpl in Hb2.
  apply (protects_bind _ _ _ (fun n' r => harmless B n' (fst r))).
  { destruct (_ =? 0)%Z; apply IH; harmless_auto. }
  intros n3 [binds3 truncations] Hn3 Hbs3. apply protects_ret. intros n4 Hn4. simpl in *.
  apply harmless_cons. harmless_auto.
Qed.
Hint Resolve protects_fetch_columns : protects.
Lemma protects_stmt_fetch_row m row : safe (stmt_fetch_row m row).
Proof. unfold stmt_fetch_row. protects_auto. Qed.
Hint Resolve protects_stmt_fetch_row : protects.
Lemma protects_mysql_stmt_fetch m : safe (mysql_stmt_fetch m).
Proof. unfold mysql_stmt_fetch. protects_auto. Qed.
Lemma protects_mysql_stmt_fetch_column n m b column offset :
  harmless B n b -> protects K B n (fun n' r => harmless B n' (snd r)) (mysql_stmt_fetch_column m b column offset).
Proof.
  intros Hb. unfold mysql_stmt_fetch_column.
  assert (Hnull : forall n v b, harmless B n b -> protects K B n bind_of
    (match is_null_ptr b with None => mret b | Some _ => write_is_null v b end)) by protects_auto.
  protects_step. destruct (_ <? _)%Z; [protects_auto|]. destruct (_ <=? _)%Z; [protects_auto|].
  do 2 (apply (protects_bind _ _ _ anything); [protects_auto|intros ? ? ? _]).
  eapply protects_bind; [apply protects_write_error; destruct (error_ptr b); harmless_auto|].
  intros n1 b1 Hn1 Hb1. destruct (row_ptr _) as [row|].
  - eapply protects_bind; [by apply Hnull|]. intros n2 b2 Hn2 Hb2.
    apply (protects_bind _ _ _ bind_of); [destruct (length_ptr b2); protects_auto|].
    intros n3 b3 Hn3 Hb3. eapply protects_bind; [by apply protects_run_fetch_result_with_conversion|].
    intros n4 [b4 ?] Hn4 Hb4. apply protects_ret. harmless_auto.
  - eapply protects_bind; [by apply Hnull|]. intros n2 b2 Hn2 Hb2. apply protects_ret. harmless_auto.
Qed.
Hint Resolve protects_mysql_stmt_fetch protects_mysql_stmt_fetch_column : protects.

(** *** Metadata, resetting, execution *)

Lemma protects_alloc_stmt_fields m c : safe (alloc_stmt_fields m c).
Proof. unfold alloc_stmt_fields. protects_auto. Qed.
Lemma protects_refresh_binds binds : forall n fields,
  harmless B n binds -> protects K B n (fun n' l => harmless B n' l) (refresh_binds binds fields).
Proof.
  induction binds as [|b binds IH]; intros n fields Hb; simpl; [protects_auto|].
  destruct fields as [|field fields]; [protects_auto|]. apply harmless_cons in Hb as [Hb Hbs].
  eapply protects_bind; [by apply protects_setup_one_fetch_function|]. intros n1 r Hn1 Hr.
  eapply protects_bind; [apply IH; harmless_auto|]. intros n2 rest Hn2 Hrest. apply protects_ret.
  intros n3 Hn3. apply harmless_cons. destruct r; harmless_auto.
Qed.
Hint Resolve protects_alloc_stmt_fields protects_refresh_binds : protects.
Lemma protects_update_stmt_fields m c : safe (update_stmt_fields m c).
Proof.
  intros n. unfold update_stmt_fields. protects_step. destruct (negb _); [protects_auto|].
  destruct (m_fields c) as [fields|]; [|protects_leaf].
  apply (protects_bind _ _ _ (fun n' l => harmless B n' l)); protects_auto.
Qed.
Hint Resolve protects_update_stmt_fields : protects.
Lemma protects_reinit_result_set_metadata m c : safe (reinit_result_set_metadata m c).
Proof. unfold reinit_result_set_metadata. protects_auto. Qed.
Lemma protects_prepare_to_fetch_result m d : safe (prepare_to_fetch_result m d).
Proof. unfold prepare_to_fetch_result. protects_auto. Qed.
Lemma protects_mysql_stmt_result_metadata m : safe (mysql_stmt_result_metadata m).
Proof. unfold mysql_stmt_result_metadata. protects_auto. Qed.
Lemma protects_release_connection m d : safe (release_connection m d).
Proof. unfold release_connection. protects_auto. Qed.
Hint Resolve protects_reinit_result_set_metadata protects_prepare_to_fetch_result
  protects_mysql_stmt_result_metadata protects_release_connection : protects.

Lemma harmless_stmt_clear_error n ms : harmless B n ms -> harmless B n (stmt_clear_error ms).
Proof. unfold stmt_clear_error. by destruct (negb _). Qed.
Lemma protects_stmt_clear_error m : safe (update_mstmt m stmt_clear_error).
Proof. intros n. apply protects_update_mstmt. intros. by apply harmless_stmt_clear_error. Qed.
Hint Resolve protects_stmt_clear_error : protects.
Lemma protects_reset_stmt_handle_with drain m flags :
  (forall m d, safe (drain m d)) -> safe (reset_stmt_handle_with drain m flags).
Proof. intros Hdrain. unfold reset_stmt_handle_with. protects_auto. Qed.
Lemma protects_mysql_stmt_next_result m : safe (mysql_stmt_next_result m).
Proof.
  unfold mysql_stmt_next_result. protects_auto. apply protects_reset_stmt_handle_with. protects_auto.
Qed.
Hint Resolve protects_mysql_stmt_next_result : protects.
Lemma protects_drain_results m d fuel : safe (drain_results fuel m d).
Proof. induction fuel; simpl; protects_auto. Qed.
Hint Resolve protects_drain_results : protects.
Lemma protects_reset_stmt_handle m flags : safe (reset_stmt_handle m flags).
Proof. apply protects_reset_stmt_handle_with. unfold drain_all_results. protects_auto. Qed.
Hint Resolve protects_reset_stmt_handle : protects.
Lemma protects_mysql_stmt_free_result m : safe (mysql_stmt_free_result m).
Proof. unfold mysql_stmt_free_result. protects_auto. Qed.
Lemma protects_mysql_stmt_reset m : safe (mysql_stmt_reset m).
Proof. unfold mysql_stmt_reset. protects_auto. Qed.
Lemma protects_mysql_stmt_init d : safe (mysql_stmt_init d).
Proof. unfold mysql_stmt_init. protects_auto. Qed.
Lemma protects_mysql_stmt_attr_update_max_length m b : safe (mysql_stmt_attr_update_max_length m b).
Proof. unfold mysql_stmt_attr_update_max_length. protects_auto. Qed.
Lemma protects_mysql_stmt_prepare m q : safe (mysql_stmt_prepare m q).
Proof. unfold mysql_stmt_prepare, emb_read_prepare_result. protects_auto. Qed.
Lemma protects_mysql_stmt_execute m : safe (mysql_stmt_execute m).
Proof. unfold mysql_stmt_execute, emb_stmt_execute. protects_auto. Qed.
Lemma protects_mysql_stmt_store_result m : safe (mysql_stmt_store_result m).
Proof. unfold mysql_stmt_store_result. protects_auto. Qed.
Lemma protects_mysql_stmt_close m : safe (mysql_stmt_close m).
Proof.
  unfold mysql_stmt_close. protects_auto.
  intros w _ [Hst Hp Hbi Hk]. split; [|done]. split; simpl; try done.
  intros m' ms' Hm'. apply lookup_delete_Some in Hm' as [_ Hm']. by apply (Hbi m').
Qed.
End client_statements.
#[export] Hint Resolve protects_mysql_stmt_bind_param protects_mysql_stmt_bind_result
  protects_mysql_stmt_fetch protects_mysql_stmt_fetch_column protects_mysql_stmt_result_metadata
  protects_mysql_stmt_next_result protects_mysql_stmt_free_result protects_mysql_stmt_reset
  protects_mysql_stmt_init protects_mysql_stmt_attr_update_max_length protects_mysql_stmt_prepare
  protects_mysql_stmt_execute protects_mysql_stmt_store_result protects_mysql_stmt_close : protects.

(** ** The runtime *)

Section runtime.
  Context `{Server, Build}.
  Variables (K : nat -> nat -> Prop) (B : nat -> Prop).
  Abbreviation safe m := (forall n, protects K B n anything m).

Lemma protects_create_memory_candidate attempts : forall root, safe (create_memory_candidate attempts root).
Proof.
  induction attempts as [|attempts IH]; intros root; simpl; unfold unique_runtime_name; protects_auto;
    by apply protects_modify.
Qed.
Hint Resolve protects_create_memory_candidate : protects.
Lemma protects_create_runtime_layout path config : safe (create_runtime_layout path config).
Proof. unfold create_runtime_layout, create_memory_runtime_layout. protects_auto. Qed.
Lemma protects_acquire_database_lock d path config : safe (acquire_database_lock d path config).
Proof. unfold acquire_database_lock. protects_auto. Qed.
Hint Resolve protects_create_runtime_layout protects_acquire_database_lock : protects.
Lemma protects_start_runtime d config : safe (start_runtime d config).
Proof. unfold start_runtime, start_locked. protects_auto; by apply protects_modify. Qed.
Lemma protects_release_runtime : safe release_runtime.
Proof. unfold release_runtime. protects_auto; by apply protects_modify. Qed.
Lemma protects_validate_runtime_database_path d : safe (validate_runtime_database_path d).
Proof. unfold validate_runtime_database_path. protects_auto. Qed.
Lemma protects_set_mariadb_error d : safe (set_mariadb_error d).
Proof. unfold set_mariadb_error. protects_auto. Qed.
Hint Resolve protects_start_runtime protects_release_runtime protects_validate_runtime_database_path
  protects_set_mariadb_error : protects.
Lemma protects_drain_query_loop d fuel : safe (drain_query_loop fuel d).
Proof. induction fuel; simpl; protects_auto. Qed.
Hint Resolve protects_drain_query_loop : protects.
Lemma protects_drain_remaining_query_results d : safe (drain_remaining_query_results d).
Proof. unfold drain_remaining_query_results. protects_auto. Qed.
Lemma protects_connect_runtime d : safe (connect_runtime d).
Proof. unfold connect_runtime. protects_auto. Qed.
Hint Resolve protects_drain_remaining_query_results protects_connect_runtime : protects.
Lemma protects_ensure_core_system_tables d : safe (ensure_core_system_tables d).
Proof. unfold ensure_core_system_tables, execute_system_table_statement. protects_auto. Qed.
Lemma protects_close_connection d : safe (close_connection d).
Proof. unfold close_connection. protects_auto. Qed.
Lemma protects_new_mylite_db : safe new_mylite_db.
Proof. unfold new_mylite_db. protects_auto. Qed.
Lemma protects_delete_mylite_db d : safe (delete_mylite_db d).
Proof. intros n. by apply protects_modify. Qed.
Hint Resolve protects_ensure_core_system_tables protects_close_connection protects_new_mylite_db
  protects_delete_mylite_db : protects.
Lemma protects_mylite_open path out flags config : safe (mylite_open path out flags config).
Proof. unfold mylite_open, open_impl, open_db, open_path. protects_auto. Qed.
Lemma protects_mylite_close d : safe (mylite_close d).
Proof. unfold mylite_close. protects_auto. Qed.

(** *** Direct execution *)

Lemma protects_copy_error_message d out : safe (copy_error_message d out).
Proof. unfold copy_error_message. protects_auto. Qed.
Lemma protects_reject_policy d sql : safe (reject_policy d sql).
Proof. unfold reject_policy. protects_auto. Qed.
Hint Resolve protects_copy_error_message protects_reject_policy : protects.
End runtime.
#[export] Hint Resolve protects_set_mariadb_error protects_drain_remaining_query_results
  protects_mylite_open protects_mylite_close protects_copy_error_message protects_reject_policy : protects.

Section exec.
  Context `{Server} {X : Type}.
  Variables (K : nat -> nat -> Prop) (B : nat -> Prop) (callback : option (mylite_exec_callback X)).
  Abbreviation safe m := (forall n, protects K B n anything m).
  Hypothesis Hcallback : forall f, callback = Some f -> forall ctx k values names, safe (f ctx k values names).

Lemma protects_emit_rows k names rows : forall ctx, safe (emit_rows callback ctx k names rows).
Proof.
  induction rows as [|[row|row] rows IH]; intros ctx n; simpl; try protects_leaf.
  destruct callback as [f|] eqn:Hf; [|apply IH].
  eapply protects_bind; [by apply Hcallback|]. intros n1 [stop ctx'] _ _. destruct (negb _); [protects_leaf|apply IH].
Qed.
Hint Resolve protects_emit_rows : protects.
Lemma protects_mylite_exec db sql ctx errmsg : safe (mylite_exec db sql callback ctx errmsg).
Proof. unfold mylite_exec, exec_impl, store_and_emit_result. protects_auto. Qed.
End exec.
Lemma protects_mylite_warning `{Server} K B db index n : protects K B n anything (mylite_warning db index).
Proof. unfold mylite_warning. protects_auto. Qed.
#[export] Hint Resolve protects_mylite_warning : protects.

(** ** Statements *)

Section statements.
  Context `{Server}.
  Variables (K : nat -> nat -> Prop) (B : nat -> Prop).
  Abbreviation safe m := (forall n, protects K B n anything m).

Hint Extern 1 (protects _ _ _ _ (update_stmt _ _)) =>
  apply protects_update_stmt; [done|solve [harmless_auto]] : protects.

Lemma protects_mstmt_of s : safe (mstmt_of s).
Proof. unfold mstmt_of. protects_auto. Qed.
Lemma protects_db_of s : safe (db_of s).
Proof. unfold db_of. protects_auto. Qed.
Hint Resolve protects_mstmt_of protects_db_of : protects.
Lemma protects_set_mariadb_statement_error s : safe (set_mariadb_statement_error s).
Proof. unfold set_mariadb_statement_error. protects_auto. Qed.
Hint Resolve protects_set_mariadb_statement_error : protects.
Lemma protects_with_statement {A} (misuse : A) stmt (f : nat -> cmd world A) :
  (forall s, stmt = Some s -> safe (f s)) -> safe (with_statement misuse stmt f).
Proof. intros Hf. unfold with_statement. protects_auto. Qed.

(** *** Columns *)

Lemma protects_bind_parameters s : safe (bind_parameters s).
Proof. unfold bind_parameters. protects_auto. Qed.
Lemma protects_free_columns columns : forall n,
  harmless B n columns -> protects K B n anything (free_columns columns).
Proof.
  induction columns as [|c columns IH]; intros n Hc; simpl; [protects_leaf|].
  apply harmless_cons in Hc as [(Hb & Hr & _)%harmless_parts Hcs]. protects_auto.
Qed.
Lemma protects_free_retired columns : forall n,
  harmless B n columns -> protects K B n anything (free_retired columns).
Proof.
  induction columns as [|c columns IH]; intros n Hc; simpl; [protects_leaf|].
  apply harmless_cons in Hc as [(_ & Hr & _)%harmless_parts Hcs]. protects_auto.
Qed.
Lemma protects_terminate_columns columns : forall n,
  harmless B n columns -> protects K B n anything (terminate_columns columns).
Proof.
  induction columns as [|c columns IH]; intros n Hc; simpl; [protects_leaf|].
  apply harmless_cons in Hc as [(Hb & _ & _)%harmless_parts Hcs]. 
  apply (protects_bind _ _ _ anything); [|intros; apply IH; harmless_auto].
  destruct (c_buffer c); protects_auto.
Qed.
Lemma protects_allocate_column_buffer n b len :
  harmless B n b -> protects K B n (fun n' r => harmless B n' (snd r)) (allocate_column_buffer b len).
Proof. intros Hb. unfold allocate_column_buffer. protects_auto. Qed.
Hint Resolve protects_bind_parameters protects_free_columns protects_free_retired
  protects_terminate_columns protects_allocate_column_buffer : protects.
Lemma protects_configure_column_buffer n c len :
  harmless B n c -> protects K B n (fun n' r => harmless B n' (snd r)) (configure_column_buffer c len).
Proof. intros Hc. unfold configure_column_buffer. apply harmless_parts in Hc as (Hb & Hr & Hbind). protects_auto. Qed.
Hint Resolve protects_configure_column_buffer : protects.
Lemma protects_release_statement_results s : safe (release_statement_results s).
Proof. unfold release_statement_results. protects_auto. Qed.
Hint Resolve protects_release_statement_results : protects.
Lemma harmless_column_at w s index c :
  guarded K B w -> (st ← stmts w !! s; columns st !! index) = Some c -> harmless B (next_address w) c.
Proof.
  intros Hg. destruct (stmts w !! s) as [st|] eqn:Hst; [|done]. simpl. intros Hc.
  eapply harmless_lookup; [|exact Hc]. by apply (gd_statements _ _ _ Hg s).
Qed.
Lemma protects_set_up_columns s g fields : forall index, safe (set_up_columns s g index fields).
Proof.
  induction fields as [|field fields IH]; intros index n; simpl; [protects_leaf|].
  eapply protects_bind; [apply protects_deref; intros; by eapply harmless_column|].
  intros n1 c Hn1 (Hb & Hr & _)%harmless_parts.
  eapply protects_bind; [apply protects_configure_column_buffer; harmless_auto|].
  intros n2 [result c2] Hn2 Hc2. simpl in Hc2. pose proof Hc2 as (_ & _ & Hbind)%harmless_parts. protects_auto.
Qed.
Hint Resolve protects_set_up_columns : protects.
Lemma protects_initialize_statement_results s release : safe (initialize_statement_results s release).
Proof. unfold initialize_statement_results. protects_auto. Qed.
Lemma protects_refresh_dirty_result_binds s : safe (refresh_dirty_result_binds s).
Proof. unfold refresh_dirty_result_binds. protects_auto. Qed.
Hint Resolve protects_initialize_statement_results protects_refresh_dirty_result_binds : protects.
Lemma protects_fetch_truncated_column n s index c :
  harmless B n c -> protects K B n anything (fetch_truncated_column s index c).
Proof.
  intros Hc. unfold fetch_truncated_column. destruct (_ =? _)%Z; [protects_auto|].
  eapply protects_bind; [by apply protects_allocate_column_buffer, harmless_none|].
  intros n1 [result b] Hn1 Hb. simpl in Hb. destruct (negb _); [protects_auto|]. protects_step.
  eapply protects_bind; [apply protects_mysql_stmt_fetch_column; harmless_auto|].
  intros n3 [error bind] Hn3 Hbind. simpl in Hbind. destruct error; [protects_auto|].
  eapply protects_bind; [apply protects_free_buffer; harmless_auto|]. intros n4 _ Hn4 _.
  eapply protects_bind; [apply protects_deref; intros; by eapply harmless_column_at|].
  intros n5 c5 Hn5 Hc5. protects_auto.
Qed.
Hint Resolve protects_fetch_truncated_column : protects.
Lemma protects_fetch_truncated_from s indices : safe (fetch_truncated_from s indices).
Proof.
  induction indices as [|index indices IH]; intros n; simpl; [protects_leaf|].
  eapply protects_bind; [apply protects_deref; intros; by eapply harmless_column_at|].
  intros n1 c Hn1 Hc. protects_auto.
Qed.
Lemma protects_drain_statement_loop s m fuel : safe (drain_statement_loop fuel s m).
Proof. induction fuel; simpl; protects_auto. Qed.
Hint Resolve protects_fetch_truncated_from protects_drain_statement_loop : protects.
Lemma protects_fetch_statement_row s : safe (fetch_statement_row s).
Proof.
  unfold fetch_statement_row, finish_fetch, fetch_truncated_statement_columns,
    drain_remaining_statement_results.
  protects_auto.
Qed.
Hint Resolve protects_fetch_statement_row : protects.

Lemma protects_mylite_step stmt : safe (mylite_step stmt).
Proof. apply protects_with_statement. intros s _. unfold step_execute. protects_auto. Qed.
Lemma protects_mylite_reset stmt : safe (mylite_reset stmt).
Proof. apply protects_with_statement. intros s _. protects_auto. Qed.

(** *** Parameters *)

Lemma parameter_at_spec st index i p :
  parameter_at st index = Some (i, p) -> i = Z.to_nat (index - 1) /\ parameters st !! i = Some p.
Proof.
  unfold parameter_at. destruct (_ || _); [done|].
  destruct (parameters st !! Z.to_nat (index - 1)) eqn:Hp; [|done]. by intros [= <- <-].
Qed.
Lemma protects_put_parameter n s i p :
  ~ K s i -> harmless B n (p_bytes p) -> protects K B n anything (put_parameter s i p).
Proof.
  intros Hi Hp. apply protects_update_stmt_with.
  - intros n' st Hn' [Hst Hps]. split; [done|]. intros j q. simpl.
    intros [(<- & <- & _)|[Hne Hq]]%list_lookup_insert_Some Hk; [by eapply harmless_mono|by eapply Hps].
  - intros st j Hj. simpl. apply list_lookup_insert_ne. congruence.
Qed.

Section parameter.
  Variables (s : nat) (index : Z).
  Hypothesis Hopen : ~ K s (Z.to_nat (index - 1)).

(** The parameter at [index] is given up, and others are not touched. *)
Lemma protects_parameter {A} n (f : mylite_stmt -> nat -> ParameterBinding -> cmd world A) none :
  protects K B n anything none ->
  (forall n' st i p, (n <= n')%nat -> ~ K s i -> harmless B n' (p_bytes p) -> protects K B n' anything (f st i p)) ->
  protects K B n anything
    (st ← get_stmt s; match parameter_at st index with None => none | Some (i, p) => f st i p end).
Proof.
  intros Hnone Hf. eapply protects_bind; [apply protects_get_stmt|]. intros n1 st Hn1 [_ Hps].
  destruct (parameter_at st index) as [[i p]|] eqn:Hp.
  - apply parameter_at_spec in Hp as [-> Hp]. apply Hf; [done|done|]. by eapply Hps.
  - intros w Hw. apply Hnone. lia.
Qed.
Hint Resolve protects_put_parameter harmless_none : protects.
Lemma protects_bind_null_value : safe (bind_null_value s index).
Proof. intros n. apply protects_parameter; [protects_leaf|]. protects_auto. Qed.
Lemma protects_bind_bytes value len t destructor : safe (bind_bytes s index value len t destructor).
Proof. intros n. apply protects_parameter; [protects_leaf|]. protects_auto. Qed.
End parameter.

Section bind.
  Variables (stmt : option nat) (index : Z).
  Hypothesis Hopen : forall s, stmt = Some s -> ~ K s (Z.to_nat (index - 1)).
  Hint Resolve protects_put_parameter harmless_none protects_bind_bytes : protects.

(** The calls that bind a value of fixed size. *)
Lemma protects_bind_fixed (f : nat -> ParameterBinding -> ParameterBinding) s :
  stmt = Some s -> (forall i p, p_bytes (f i p) = None) ->
  safe (st ← get_stmt s;
        match parameter_at st index with
        | None => mret MYLITE_MISUSE
        | Some (i, p) =>
            if executed st then mret MYLITE_MISUSE
            else free_buffer (p_bytes p) ;; put_parameter s i (f i p) ;; mret MYLITE_OK
        end).
Proof.
  intros Hs Hf n. apply protects_parameter; [by apply Hopen|protects_leaf|].
  intros n' st i p Hn' Hi Hp. destruct (executed st); [protects_leaf|]. protects_step.
  eapply protects_bind; [apply protects_put_parameter; [done|]; rewrite Hf; apply harmless_none|]. protects_auto.
Qed.
Lemma protects_mylite_bind_null : safe (mylite_bind_null stmt index).
Proof. apply protects_with_statement. intros s Hs. apply protects_bind_null_value. by apply Hopen. Qed.
Lemma protects_mylite_bind_int64 value : safe (mylite_bind_int64 stmt index value).
Proof. apply protects_with_statement. intros s Hs. by apply (protects_bind_fixed (fun i p => _) s). Qed.
Lemma protects_mylite_bind_uint64 value : safe (mylite_bind_uint64 stmt index value).
Proof. apply protects_with_statement. intros s Hs. by apply (protects_bind_fixed (fun i p => _) s). Qed.
Lemma protects_mylite_bind_double value : safe (mylite_bind_double stmt index value).
Proof. apply protects_with_statement. intros s Hs. by apply (protects_bind_fixed (fun i p => _) s). Qed.
Lemma protects_mylite_bind_text value len destructor :
  safe (mylite_bind_text stmt index value len destructor).
Proof.
  apply protects_with_statement. intros s Hs. specialize (Hopen s Hs). unfold strlen. protects_auto.
Qed.
Lemma protects_mylite_bind_blob value len destructor :
  safe (mylite_bind_blob stmt index value len destructor).
Proof. apply protects_with_statement. intros s Hs. specialize (Hopen s Hs). protects_auto. Qed.
End bind.

(** *** The life of a statement *)

Section life.
  Variable s : nat.
  Hypothesis Hopen : forall i, ~ K s i.

Lemma protects_bind_nulls indices : safe (bind_nulls s indices).
Proof.
  induction indices as [|index indices IH]; intros n; simpl; [protects_leaf|].
  eapply protects_bind; [by apply protects_bind_null_value|]. intros n1 r Hn1 _. protects_auto.
Qed.
Lemma protects_free_parameters ps : forall n,
  (forall i p, ps !! i = Some p -> harmless B n (p_bytes p)) -> protects K B n anything (free_parameters ps).
Proof.
  induction ps as [|p ps IH]; intros n Hps; simpl; [protects_leaf|].
  eapply protects_bind; [apply protects_free_buffer, (Hps 0%nat); done|]. intros n1 _ Hn1 _.
  apply IH. intros i q Hq. eapply harmless_mono; [exact Hn1|]. by apply (Hps (S i)).
Qed.
Lemma protects_delete_mylite_stmt : safe (delete_mylite_stmt s).
Proof.
  intros n. unfold delete_mylite_stmt. eapply protects_bind; [apply protects_get_stmt|].
  intros n1 st Hn1 [[Hcs _] Hps]. eapply protects_bind; [by apply protects_free_columns|]. intros n2 _ Hn2 _.
  eapply protects_bind; [apply protects_free_parameters|].
  { intros i p Hp. eapply harmless_mono; [exact Hn2|]. by eapply Hps. }
  intros n3 _ _ _ w _ [Hst Hp Hbi Hk]. split; [|split; [|done]]; split; simpl; try done.
  - intros s' st' [_ Hs']%lookup_delete_Some. by apply (Hst s').
  - intros s' i p. unfold parameter_of in *. simpl. destruct (decide (s = s')) as [<-|Hne].
    + by rewrite lookup_delete_eq.
    + rewrite lookup_delete_ne by done. apply Hp.
  - intros s' i Hi Hs'. rewrite lookup_delete_ne; [done|]. intros ->. by apply (Hopen i).
  - intros s' i Hi. unfold parameter_of. simpl. rewrite lookup_delete_ne; [done|]. intros ->. by apply (Hopen i).
Qed.
Lemma protects_mylite_clear_bindings : safe (mylite_clear_bindings (Some s)).
Proof.
  apply protects_with_statement. intros s' [= <-]. pose proof protects_bind_nulls. protects_auto.
Qed.
Lemma protects_mylite_finalize : safe (mylite_finalize (Some s)).
Proof. pose proof protects_delete_mylite_stmt. unfold mylite_finalize. protects_auto. Qed.
Lemma protects_put_stmt n st :
  (s < n)%nat -> harmless_statement K B s n st -> protects K B n anything (put_stmt s st).
Proof.
  intros Hs Hst w Hn Hg.
  split; [apply guarded_put_stmt; [done|lia|]|split; [apply untouched_put_stmt|done]].
  - by eapply harmless_statement_mono.
  - intros i Hi. by destruct (Hopen i).
Qed.
Lemma protects_prepare_allocated d text len : safe (prepare_allocated d s text len).
Proof.
  pose proof protects_delete_mylite_stmt. pose proof protects_bind_nulls.
  unfold prepare_allocated. protects_auto.
  apply protects_update_stmt_with; [|intros st i Hi; by destruct (Hopen i)].
  intros k st Hk [Hst _]. split; [done|]. intros i p [-> _]%lookup_replicate _. apply harmless_none.
Qed.
End life.
Hint Resolve protects_prepare_allocated : protects.

#[local] Hint Extern 2 (_ <= _)%nat => lia : protects.

(** A new statement is not one that is protected. *)
Lemma protects_new_mylite_stmt n d :
  (forall s i, K s i -> (s < n)%nat) -> protects K B n (fun _ s => forall i, ~ K s i) (new_mylite_stmt d).
Proof.
  intros Hk. unfold new_mylite_stmt. protects_step. destruct (negb _); [protects_leaf|].
  eapply protects_bind; [apply protects_fresh_address|]. intros n2 s Hn2 [Hs Hle].
  assert (Hopen : forall i, ~ K s i) by (intros i Hi%Hk; lia).
  eapply protects_bind; [apply protects_put_stmt; [done|apply Hs; done|]|intros; by apply protects_ret].
  split; [|done]. split; constructor.
Qed.
Lemma protects_mylite_prepare n db sql len out :
  (forall s i, K s i -> (s < n)%nat) -> protects K B n anything (mylite_prepare db sql len out).
Proof.
  intros Hk. assert (Hnew : forall n' d, (n <= n')%nat ->
    protects K B n' (fun _ s => forall i, ~ K s i) (new_mylite_stmt d)).
  { intros n' d Hn'. apply protects_new_mylite_stmt. intros s i Hi%Hk. lia. }
  unfold mylite_prepare, prepare_impl, strlen, sql_view. protects_auto.
Qed.
End statements.
#[export] Hint Resolve protects_mylite_step protects_mylite_reset protects_mylite_prepare
  protects_mylite_clear_bindings protects_mylite_finalize protects_mylite_bind_null
  protects_mylite_bind_int64 protects_mylite_bind_uint64 protects_mylite_bind_double
  protects_mylite_bind_text protects_mylite_bind_blob : protects.
