(* ===== verification/Survival.v ===== *)
(** * Bound values survive

    Every call protects the parameters it is not meant to change ([Storage]);
    so in every world that calls lead to no two owners share storage
    ([storage_ok]), and a value that was bound to a statement is there until
    it is bound anew, the bindings are cleared or the statement is
    finalized. *)

From S2P Require Import Prelude Api Effects SqlLexer SqlPolicy System Numbers World BinaryRow.
From S2P Require Import ClientQuery ClientStmt Runtime Exec Statement Frames Rules ClientFacts.
From S2P Require Import Scripted RuntimeFacts RuntimeTheorems Library ExecFacts Termination StatementFacts.
From S2P Require Import Lifetime Calls Bindings PreparedTheorems Storage.
From stdpp Require Import options.
Set Default Proof Using "Type*".

Local Open Scope Z_scope.

(** ** Calls *)

(** The call gives up the value of the parameter at position [i] of [s]. *)
Definition touches (c : call) (s i : nat) : Prop :=
  match c with
  | CallFinalize stmt | CallClearBindings stmt => stmt = Some s
  | CallBindNull stmt index | CallBindInt64 stmt index _ | CallBindUint64 stmt index _
  | CallBindDouble stmt index _ | CallBindText stmt index _ _ _ | CallBindBlob stmt index _ _ _ =>
      stmt = Some s /\ Z.to_nat (index - 1) = i
  | _ => False
  end.

Definition prepares_statement (c : call) : bool :=
  match c with CallPrepare _ _ _ _ => true | _ => false end.

Section calls.
  Context `{Server, Build}.

Lemma protects_run_call K B n c :
  (forall s i, K s i -> ~ touches c s i) ->
  (prepares_statement c = true -> forall s i, K s i -> (s < n)%nat) ->
  protects K B n anything (run_call c).
Proof.
  intros Hopen Hnew.
  assert (Hslot : forall stmt index, (forall s i, K s i -> ~ (stmt = Some s /\ Z.to_nat (index - 1) = i)) ->
    forall s, stmt = Some s -> ~ K s (Z.to_nat (index - 1))).
  { intros stmt index Hk s Hs Hi. by apply (Hk s _ Hi). }
  assert (Hall : forall stmt : option nat, (forall s i, K s i -> stmt <> Some s) ->
    forall s, stmt = Some s -> forall i, ~ K s i).
  { intros stmt Hk s Hs i Hi. by apply (Hk s i Hi). }
  destruct c; simpl in Hopen |- *; unfold ignored;
    (apply (protects_bind _ _ _ anything); [|intros; by apply protects_ret]);
    try (solve [auto with protects]); try (specialize (Hslot _ _ Hopen); solve [auto with protects]).
  - apply protects_mylite_exec. destruct callback; [|done]. intros f [= <-] **. by apply protects_ret.
  - by apply protects_mylite_prepare, Hnew.
  - destruct stmt as [s|]; [|by apply protects_ret]. apply protects_mylite_finalize. by apply (Hall (Some s)).
  - destruct stmt as [s|]; [|by apply protects_ret].
    apply protects_mylite_clear_bindings. by apply (Hall (Some s)).
Qed.
End calls.

(** ** No two owners share storage *)

Definition slot (s i : nat) : nat -> nat -> Prop := fun s' i' => s' = s /\ i' = i.
Definition no_slot : nat -> nat -> Prop := fun _ _ => False.
Definition no_address : nat -> Prop := fun _ => False.

Section storage.
  Context `{Server}.

Lemma slot_dec s i s' i' : slot s i s' i' \/ ~ slot s i s' i'.
Proof. unfold slot. lia. Qed.
Lemma no_slot_dec s i : no_slot s i \/ ~ no_slot s i.
Proof. right. by intros []. Qed.

(** Only the parameter itself points to the storage of its value, and all
    pointers are to addresses that have been given out. *)
Record storage_ok (w : world) : Prop := mkStorageOk {
  so_known : guarded no_slot no_address w;
  so_owned : forall s i p b, parameter_of w s i = Some p -> p_bytes p = Some b ->
    guarded (slot s i) (eq b) w;
}.

Lemma guarded_unowned K w : guarded no_slot no_address w -> guarded K no_address w.
Proof. intros [Hst Hp Hbi Hk]. split; try done. intros s i p Hs _. apply (Hp s i p Hs). by intros []. Qed.

(** A command that touches the parameters [T] keeps the others in order. *)
Lemma storage_ok_frame {A} (m : cmd world A) (T : nat -> nat -> Prop) (Hdec : forall s i, T s i \/ ~ T s i) w :
  (forall K B, (forall s i, K s i -> ~ T s i) -> protects K B (next_address w) anything m) ->
  storage_ok w ->
  (forall s i p b, T s i -> parameter_of (snd (m w)) s i = Some p -> p_bytes p = Some b ->
     guarded (slot s i) (eq b) (snd (m w))) ->
  storage_ok (snd (m w)).
Proof.
  intros Hm [Hknown Howned] HT. split.
  - destruct (Hm no_slot no_address) with (w := w) as [Hg _]; done.
  - intros s i p b Hp Hb. destruct (Hdec s i) as [Ht|Ht]; [by eapply HT|].
    assert (Hslot : forall s' i', slot s i s' i' -> ~ T s' i') by (by intros ? ? [-> ->]).
    destruct (Hm (slot s i) no_address Hslot w) as (_ & Hu & _); [done|by apply guarded_unowned|].
    rewrite (un_parameters _ _ _ _ Hu) in Hp by done.
    destruct (Hm (slot s i) (eq b) Hslot w) as (Hg & _); [done| |done]. by eapply Howned.
Qed.

(** ** The bind functions *)

Abbreviation keeps m := (steps (fun w w' => storage_ok w -> storage_ok w') m).

#[global] Instance keeps_preorder : PreOrder (fun w w' : world => storage_ok w -> storage_ok w').
Proof. split; [by intros w|]. by intros w1 w2 w3 H1 H2 ?%H1%H2. Qed.

Lemma keeps_protecting {A} (m : cmd world A) :
  (forall K B n, protects K B n anything m) -> keeps m.
Proof.
  intros Hm w Hw. apply (storage_ok_frame m no_slot no_slot_dec); [|done|done]. intros. apply Hm.
Qed.
Lemma keeps_free_buffer b : keeps (free_buffer b).
Proof.
  intros w [Hknown Howned].
  assert (Hsame : stmts (snd (free_buffer b w)) = stmts w /\ mysql_stmts (snd (free_buffer b w)) = mysql_stmts w /\
    next_address (snd (free_buffer b w)) = next_address w) by (by destruct b).
  destruct Hsame as (Hs & Hm & Hn). assert (Hg : forall K B, guarded K B w -> guarded K B (snd (free_buffer b w))).
  { intros K B [Hst Hp Hbi Hk]. split; unfold parameter_of in *; rewrite ?Hs, ?Hm, ?Hn; done. }
  split; [by apply Hg|]. intros s i p b'. unfold parameter_of. rewrite Hs. intros Hp Hb. apply Hg. by eapply Howned.
Qed.
Lemma keeps_allocate : keeps allocate.
Proof. apply keeps_protecting. auto with protects. Qed.
Lemma keeps_get_stmt s : keeps (get_stmt s).
Proof. unfold get_stmt. steps_auto. Qed.

Lemma parameter_of_put s i p q w :
  parameter_of (snd (put_parameter s i p w)) s i = Some q -> q = p.
Proof.
  unfold put_parameter, update_stmt, get_stmt, put_stmt, mbind, cmd_bind, deref, parameter_of.
  destruct (stmts w !! s) as [st|] eqn:Hst; simpl; [|by rewrite Hst].
  rewrite lookup_insert_eq. simpl. intros [(_ & <- & _)|[? _]]%list_lookup_insert_Some; done.
Qed.
Lemma keeps_put_parameter s i p : p_bytes p = None -> keeps (put_parameter s i p).
Proof.
  intros Hp w Hw. apply (storage_ok_frame _ (slot s i) (slot_dec s i)); [|done|].
  - intros K B Hk. apply protects_put_parameter; [|rewrite Hp; apply harmless_none].
    intros Hi. by apply (Hk s i).
  - intros s' i' q b [-> ->] Hq%parameter_of_put Hb. congruence.
Qed.
Hint Resolve keeps_free_buffer keeps_allocate keeps_get_stmt keeps_put_parameter : steps.

(** Nothing points to a new address. *)
Lemma harmless_new `{Pointers A} b (x : A) : harmless no_address b x -> harmless (eq b) (S b) x.
Proof. apply every_impl. intros a [_ Ha]. split; lia. Qed.
Lemma guarded_new K x w :
  guarded no_slot no_address w -> let b := next_address w in
  guarded K (eq b) (set_buffers (<[b := x]> (buffers w)) (set_next_address (S b) w)).
Proof.
  intros [Hst Hp Hbi Hk] b. split; simpl.
  - intros s st Hs. destruct (Hst s st Hs). split; [lia|by apply harmless_new].
  - intros s i p Hs _. apply harmless_new, (Hp s i p Hs). by intros [].
  - intros m ms Hm. by apply harmless_new, (Hbi m).
  - intros a <-. unfold b. lia.
Qed.

(** A new buffer becomes the storage of a parameter. *)
Lemma keeps_new_storage {A} s i x (f : nat -> ParameterBinding) (r : A) :
  (forall b, p_bytes (f b) = Some b) ->
  keeps (b ← fresh_address; put_buffer b x ;; put_parameter s i (f b) ;; mret r).
Proof.
  intros Hf w Hw. set (m := b ← fresh_address; _).
  set (b := next_address w). set (w1 := set_buffers (<[b := x]> (buffers w)) (set_next_address (S b) w)).
  assert (Hrun : snd (m w) = snd (put_parameter s i (f b) w1)).
  { unfold m, mbind at 1, cmd_bind. unfold fresh_address. fold b. unfold mbind at 1, cmd_bind, put_buffer, modify.
    unfold mbind, cmd_bind. by destruct (put_parameter s i (f b) _) as [[] ?]. }
  apply (storage_ok_frame m (slot s i) (slot_dec s i)); [|done|].
  - intros K B Hk. unfold m. eapply protects_bind; [apply protects_fresh_address|].
    intros n1 b1 Hn1 [Hb1 _]. eapply protects_bind; [by apply protects_put_buffer|]. intros n2 _ Hn2 _.
    eapply protects_bind; [apply protects_put_parameter|intros; by apply protects_ret].
    + intros Hi. by apply (Hk s i).
    + rewrite Hf. by eapply harmless_mono.
  - intros s' i' q b' [-> ->] Hq Hb'. rewrite Hrun in *. pose proof (parameter_of_put _ _ _ _ _ Hq) as ->.
    rewrite Hf in Hb'. injection Hb' as <-. clear Hrun m.
    assert (Hg1 : guarded (slot s i) (eq b) w1) by (apply guarded_new, Hw).
    unfold put_parameter, update_stmt, get_stmt, put_stmt, mbind, cmd_bind, deref in *.
    destruct (stmts w1 !! s) as [st|] eqn:Hst; [|done]. destruct (gd_statements _ _ _ Hg1 s st Hst) as [Hs Hfree].
    apply guarded_put_stmt; [done|done|]. split; [done|]. simpl. intros j q.
    intros [(<- & _ & _)|[Hne Hj]]%list_lookup_insert_Some Hk; [by destruct Hk|].
    apply (gd_parameters _ _ _ Hg1 s j); [|done]. unfold parameter_of. by rewrite Hst.
Qed.

Lemma keeps_bind_null_value s index : keeps (bind_null_value s index).
Proof. unfold bind_null_value. steps_auto. Qed.
Lemma keeps_bind_bytes s index value len t destructor : keeps (bind_bytes s index value len t destructor).
Proof.
  unfold bind_bytes. apply steps_bind; [exact _|steps_auto|]. intros st.
  destruct (parameter_at st index) as [[i p]|]; [|steps_leaf]. destruct (_ || _); [steps_leaf|].
  do 4 (apply steps_bind; [exact _|solve [steps_auto]|intros ?]). destruct (negb _); [steps_leaf|].
  apply steps_bind; [exact _|solve [steps_auto]|intros contents]. by apply keeps_new_storage.
Qed.
Hint Resolve keeps_bind_null_value keeps_bind_bytes : steps.
Lemma keeps_bind_nulls s indices : keeps (bind_nulls s indices).
Proof. induction indices; simpl; steps_auto. Qed.
Hint Resolve keeps_bind_nulls : steps.
Lemma keeps_with_statement {A} (misuse : A) stmt (f : nat -> cmd world A) :
  (forall s, keeps (f s)) -> keeps (with_statement misuse stmt f).
Proof. intros Hf. unfold with_statement. steps_auto. Qed.

Lemma keeps_mylite_bind_null stmt index : keeps (mylite_bind_null stmt index).
Proof. apply keeps_with_statement. steps_auto. Qed.
Lemma keeps_mylite_bind_int64 stmt index value : keeps (mylite_bind_int64 stmt index value).
Proof. apply keeps_with_statement. steps_auto. Qed.
Lemma keeps_mylite_bind_uint64 stmt index value : keeps (mylite_bind_uint64 stmt index value).
Proof. apply keeps_with_statement. steps_auto. Qed.
Lemma keeps_mylite_bind_double stmt index value : keeps (mylite_bind_double stmt index value).
Proof. apply keeps_with_statement. steps_auto. Qed.
Lemma keeps_mylite_bind_text stmt index value len destructor :
  keeps (mylite_bind_text stmt index value len destructor).
Proof. apply keeps_with_statement. unfold strlen. steps_auto. Qed.
Lemma keeps_mylite_bind_blob stmt index value len destructor :
  keeps (mylite_bind_blob stmt index value len destructor).
Proof. apply keeps_with_statement. steps_auto. Qed.
Lemma keeps_mylite_clear_bindings stmt : keeps (mylite_clear_bindings stmt).
Proof. apply keeps_with_statement. steps_auto. Qed.

(** ** Creating and destroying statements *)

(** The statements from [k] on, which are new, have no storage yet. *)
Definition bare (k : nat) (w : world) : Prop :=
  forall s i p, (k <= s)%nat -> parameter_of w s i = Some p -> p_bytes p = None.
Abbreviation bare_steps k m := (steps (fun w w' => bare k w -> bare k w') m).

#[global] Instance bare_preorder k : PreOrder (fun w w' : world => bare k w -> bare k w').
Proof. split; [by intros w|]. by intros w1 w2 w3 H1 H2 ?%H1%H2. Qed.

Lemma bare_same k w w' :
  (forall s i, parameter_of w' s i = parameter_of w s i) -> bare k w -> bare k w'.
Proof. intros Hsame Hw s i p Hs. rewrite Hsame. by apply Hw. Qed.
Lemma bare_client {A} k (m : cmd world A) : steps client_frame m -> bare_steps k m.
Proof.
  intros Hm w. apply bare_same. intros s i. pose proof (frame_stmts _ _ (Hm w)) as Hst.
  apply (f_equal (fun map => parameters <$> map !! s)) in Hst. rewrite !lookup_fmap in Hst. unfold parameter_of.
  destruct (stmts (snd (m w)) !! s), (stmts w !! s); simpl in *; congruence.
Qed.
Lemma bare_update_stmt k s f :
  (forall st i p, parameters (f st) !! i = Some p -> p_bytes p = None \/ parameters st !! i = Some p) ->
  bare_steps k (update_stmt s f).
Proof.
  intros Hf w Hw. unfold update_stmt, get_stmt, put_stmt, mbind, cmd_bind, deref.
  destruct (stmts w !! s) as [st|] eqn:Hst; [|done]. intros s' i p Hs'. unfold parameter_of. simpl.
  destruct (decide (s = s')) as [<-|Hne]; [rewrite lookup_insert_eq|rewrite lookup_insert_ne by done].
  - intros [?|Hp]%Hf; [done|]. apply (Hw s i p Hs'). unfold parameter_of. by rewrite Hst.
  - by apply Hw.
Qed.
#[local] Hint Extern 5 (steps (fun w w' => bare _ w -> bare _ w') _) =>
  apply bare_client; solve [steps_auto] : steps.
Lemma bare_update_db k d f : bare_steps k (update_db d f).
Proof. unfold update_db, get_db, put_db. steps_auto. by apply steps_modify. Qed.
Lemma bare_get_stmt k s : bare_steps k (get_stmt s).
Proof. unfold get_stmt. steps_auto. Qed.
Lemma bare_put_parameter k s i p : p_bytes p = None -> bare_steps k (put_parameter s i p).
Proof.
  intros Hp. apply bare_update_stmt. intros st j q. simpl.
  intros [(_ & <- & _)|[_ Hq]]%list_lookup_insert_Some; auto.
Qed.
Hint Resolve bare_update_db bare_get_stmt bare_put_parameter : steps.
Lemma bare_bind_nulls k s indices : bare_steps k (bind_nulls s indices).
Proof. induction indices; simpl; unfold bind_null_value; steps_auto. Qed.
Lemma bare_set_mariadb_statement_error k s : bare_steps k (set_mariadb_statement_error s).
Proof. unfold set_mariadb_statement_error, db_of, mstmt_of. steps_auto. Qed.
Lemma bare_reject_policy k d sql : bare_steps k (reject_policy d sql).
Proof. unfold reject_policy, get_db, put_db. steps_auto. by apply steps_modify. Qed.
Lemma bare_free_columns k columns : bare_steps k (free_columns columns).
Proof. induction columns; simpl; steps_auto. Qed.
Lemma bare_free_parameters k ps : bare_steps k (free_parameters ps).
Proof. induction ps; simpl; steps_auto. Qed.
Hint Resolve bare_bind_nulls bare_set_mariadb_statement_error bare_reject_policy bare_free_columns
  bare_free_parameters : steps.
Lemma bare_delete_mylite_stmt k s : bare_steps k (delete_mylite_stmt s).
Proof.
  unfold delete_mylite_stmt. steps_auto. apply steps_modify. intros w Hw s' i p Hs'. unfold parameter_of. simpl.
  destruct (decide (s = s')) as [<-|Hne]; [by rewrite lookup_delete_eq|].
  rewrite lookup_delete_ne by done. by apply Hw.
Qed.
Lemma bare_put_stmt k s d : bare_steps k (put_stmt s (new_stmt d)).
Proof.
  apply steps_modify. intros w Hw s' i p Hs'. unfold parameter_of. simpl.
  destruct (decide (s = s')) as [<-|Hne]; [by rewrite lookup_insert_eq|].
  rewrite lookup_insert_ne by done. by apply Hw.
Qed.
Hint Resolve bare_delete_mylite_stmt bare_put_stmt : steps.
Lemma bare_mylite_prepare k db sql len out : bare_steps k (mylite_prepare db sql len out).
Proof.
  unfold mylite_prepare, prepare_impl, prepare_allocated, new_mylite_stmt, strlen, sql_view. steps_auto;
    apply bare_update_stmt; auto.
  intros st i p [-> _]%lookup_replicate. by left.
Qed.

(** What the last command of a sequence sees to. *)
Definition removes {A} (s : nat) (m : cmd world A) : Prop :=
  forall w, fst (m w) <> Undefined -> stmts (snd (m w)) !! s = None.
Lemma removes_bind {A C} s (m : cmd world A) (f : A -> cmd world C) :
  ends false true m -> (forall a, removes s (f a)) -> removes s (mbind f m).
Proof.
  intros Hm Hf w. specialize (Hm w). unfold mbind, cmd_bind.
  destruct (m w) as [[a|[]| |] w']; simpl in *; [by apply Hf|done..].
Qed.
Lemma removes_finalize s : removes s (mylite_finalize (Some s)).
Proof.
  unfold mylite_finalize. do 4 (apply removes_bind; [ends_auto|intros ?]).
  assert (Hdelete : removes s (delete_mylite_stmt s)).
  { unfold delete_mylite_stmt. do 3 (apply removes_bind; [ends_auto|intros ?]).
    intros w _. simpl. apply lookup_delete_eq. }
  intros w Hw. specialize (Hdelete w). unfold mbind, cmd_bind in *.
  destruct (delete_mylite_stmt s w) as [[[]|e| |] w']; simpl in *; auto.
Qed.
End storage.

(** A new statement owns nothing. *)
Lemma keeps_mylite_prepare `{Server} db sql len out :
  steps (fun w w' => storage_ok w -> storage_ok w') (mylite_prepare db sql len out).
Proof.
  intros w Hw. apply (storage_ok_frame _ (fun s _ => (next_address w <= s)%nat)); [lia| |done|].
  - intros K B Hk. apply protects_mylite_prepare. intros s i Hi%Hk. lia.
  - intros s i p b Hs Hp Hb.
    apply (bare_mylite_prepare (next_address w)) in Hp; [congruence| |done].
    intros s' i' p' Hs'. unfold parameter_of. destruct (stmts w !! s') as [st|] eqn:Hst; [|done].
    destruct (gd_statements _ _ _ (so_known _ Hw) s' st Hst). lia.
Qed.

(** ** Parameters that are left alone *)

Section spared.
  Context `{Server}.

(** The parameters of [s] are as they were, with the contents of their
    storage. *)
Definition spared (s : nat) (w w' : world) : Prop :=
  (is_Some (stmts w !! s) -> is_Some (stmts w' !! s)) /\
  (forall i, parameter_of w' s i = parameter_of w s i) /\
  (forall i p b, parameter_of w s i = Some p -> p_bytes p = Some b -> buffers w' !! b = buffers w !! b) /\
  (next_address w <= next_address w')%nat.

Lemma protects_spared {A} (m : cmd world A) s w :
  (forall i B, protects (slot s i) B (next_address w) anything m) -> storage_ok w ->
  spared s w (snd (m w)).
Proof.
  intros Hm [Hknown Howned].
  assert (Hbare : forall i, untouched (slot s i) no_address w (snd (m w))).
  { intros i. by apply Hm, guarded_unowned. }
  split_and!.
  - intros Hs. by apply (un_statements _ _ _ _ (Hbare 0%nat) s 0%nat).
  - intros i. by apply (un_parameters _ _ _ _ (Hbare i)).
  - intros i p b Hp Hb. apply (un_buffers (slot s i) (eq b) w); [|done]. apply Hm; [done|by eapply Howned].
  - apply (un_next _ _ _ _ (Hbare 0%nat)).
Qed.

Lemma spared_parameters s st w w' :
  spared s w w' -> stmts w !! s = Some st ->
  exists st', stmts w' !! s = Some st' /\ parameters st' = parameters st.
Proof.
  intros (Hs & Hp & _) Hst. destruct Hs as [st' Hst']; [by eexists|]. exists st'. split; [done|].
  apply list_eq. intros i. specialize (Hp i). unfold parameter_of in Hp. by rewrite Hst, Hst' in Hp.
Qed.

(** So they stand for the same values. *)
Lemma bound_prefix_spared s vs st w w' :
  spared s w w' -> stmts w !! s = Some st ->
  bound_prefix s vs (parameters st) (buffers w) (next_address w) ->
  bound_prefix s vs (parameters st) (buffers w') (next_address w').
Proof.
  intros (_ & _ & Hb & Hn) Hst [Hlen Hvs Hapart Hfresh]. split; [done| |done|].
  - intros i p v Hp Hv. eapply param_ok_buffers; [by eapply Hvs|]. intros b Hpb.
    apply (Hb i p b); [|done]. unfold parameter_of. by rewrite Hst.
  - intros i p b Hp Hpb. specialize (Hfresh i p b Hp Hpb). lia.
Qed.
End spared.

Section reachable.
  Context `{Server, Build}.

Lemma storage_ok_call c w :
  storage_ok w -> fst (run_call c w) <> Undefined -> storage_ok (snd (run_call c w)).
Proof.
  intros Hw Hdef.
  assert (Hnone : prepares_statement c = false -> (forall s i, ~ touches c s i) ->
    storage_ok (snd (run_call c w))).
  { intros Hp Ht. apply (storage_ok_frame _ no_slot no_slot_dec); [|done|by intros ? ? ? ? []].
    intros K B _. apply protects_run_call; [auto|]. by rewrite Hp. }
  assert (Hkeeps : forall A (m : cmd world A), steps (fun w w' => storage_ok w -> storage_ok w') m ->
    storage_ok (snd (ignored m w))) by (intros A m Hm; rewrite ignored_snd; by apply Hm).
  destruct c as [| | | | | | |[s|]| | | | | | |]; try (by apply Hnone; [|intros ? ? ?]); clear Hnone;
    try (apply Hkeeps; solve [auto using keeps_mylite_bind_null, keeps_mylite_bind_int64, keeps_mylite_bind_uint64,
      keeps_mylite_bind_double, keeps_mylite_bind_text, keeps_mylite_bind_blob, keeps_mylite_clear_bindings,
      keeps_mylite_prepare]).
  apply (storage_ok_frame _ (fun s' _ => s' = s)); [lia| |done|].
  - intros K B Hk. apply protects_run_call; [|done]. intros s' i Hi [= <-]. by apply (Hk s i).
  - change (run_call (CallFinalize (Some s))) with (ignored (mylite_finalize (Some s))) in *.
    intros s' i p b -> Hp. rewrite ignored_snd in Hp. unfold parameter_of in Hp.
    rewrite removes_finalize in Hp; [done|]. by intros Hu%ignored_fst.
Qed.

Lemma reachable_storage_ok w0 w : storage_ok w0 -> reaches w0 w -> storage_ok w.
Proof. intros Hw. induction 1; [done|]. by apply storage_ok_call. Qed.

(** ** What is bound stays bound *)

(** The worlds that defined calls lead to if none of them binds a value to
    [s], clears its bindings or finalizes it. *)
Inductive spares (s : nat) (w0 : world) : world -> Prop :=
| spares_refl : spares s w0 w0
| spares_call c w :
    spares s w0 w -> call_ok c w -> (forall i, ~ touches c s i) -> fst (run_call c w) <> Undefined ->
    spares s w0 (snd (run_call c w)).

Lemma spared_call c s w :
  storage_ok w -> is_Some (stmts w !! s) -> (forall i, ~ touches c s i) ->
  spared s w (snd (run_call c w)).
Proof.
  intros Hw [st Hst] Ht. destruct (gd_statements _ _ _ (so_known _ Hw) s st Hst) as [Hs _].
  apply protects_spared; [|done]. intros i B. apply protects_run_call.
  - intros s' i' [-> _]. apply Ht.
  - by intros _ s' i' [-> _].
Qed.

Lemma spares_spared s w w' :
  storage_ok w -> is_Some (stmts w !! s) -> spares s w w' -> storage_ok w' /\ spared s w w'.
Proof.
  intros Hw Hs. induction 1 as [|c w1 _ [Hw1 (Hs1 & Hp1 & Hb1 & Hn1)] Hc Ht Hdef]; [done|].
  split; [by apply storage_ok_call|].
  destruct (spared_call c s w1) as (Hs2 & Hp2 & Hb2 & Hn2); [done|auto|done|]. split_and!.
  - auto.
  - intros i. by rewrite Hp2.
  - intros i p b Hp Hb. rewrite (Hb2 i p b); [by eapply Hb1|by rewrite Hp1|done].
  - lia.
Qed.

End reachable.

(** C10: in every world that calls lead to, the storage of a bound text or blob
    belongs to its parameter alone: no column, retired buffer, bind of the
    client library or other parameter points to it ([storage_ok]).  So a value
    stays bound until it is bound anew, cleared, or finalized: whatever other
    calls are made in between, in any order and with any outcome - steps that
    grow column buffers, resets, failing executions, other statements, other
    handles - the parameters of the statement are as they were, and stand for
    the same values. *)
Theorem bound_values_stay `{Server, Build} (s : nat) (st : mylite_stmt) (vs : list param_value)
    (w0 w1 w2 : world) (Hok : storage_ok w0) (Hreach : reaches w0 w1)
    (Hst : stmts w1 !! s = Some st)
    (Hbound : bound_prefix s vs (parameters st) (buffers w1) (next_address w1))
    (Hspare : spares s w1 w2) :
  storage_ok w2 /\
  exists st', stmts w2 !! s = Some st' /\ parameters st' = parameters st /\
    bound_prefix s vs (parameters st') (buffers w2) (next_address w2).
Proof.
  pose proof (reachable_storage_ok w0 w1 Hok Hreach) as Hw1.
  destruct (spares_spared s w1 w2 Hw1 (mk_is_Some _ _ Hst) Hspare) as [Hw2 Hsame]. split; [done|].
  destruct (spared_parameters s st w1 w2 Hsame Hst) as (st' & Hst' & Hp). exists st'.
  split; [done|]. split; [done|]. rewrite Hp. by apply (bound_prefix_spared s vs st w1 w2).
Qed.

Lemma storage_ok_empty `{Server} w : stmts w = ∅ -> mysql_stmts w = ∅ -> storage_ok w.
Proof.
  intros Hs Hm. split; [split|]; unfold parameter_of; rewrite ?Hs, ?Hm; try done.
Qed.

(** A text is bound; then a row is fetched whose value outgrows its buffer,
    another statement is executed and the statement reset. *)
Definition bound_world : world :=
  snd (run_call (CallBindText (Some 1%nat) 1 (Some (str "xyz")) 2 MYLITE_TRANSIENT)
    (snd (run_call (CallPrepare (Some 0%nat) (Some example_sql) (Z.of_nat (length example_sql)) true) select_world))).
Definition later_world : world :=
  snd (run_call (CallReset (Some 1%nat))
    (snd (run_call (CallExec (Some 0%nat) (Some (str "DO 1")) None tt false)
      (snd (run_call (CallStep (Some 1%nat)) bound_world))))).

Lemma bound_world_reached : reaches select_world bound_world.
Proof.
  apply reaches_call; [|exact I|vm_compute; discriminate].
  apply reaches_call; [apply reaches_refl| |vm_compute; discriminate].
  intros d [= <-]. split; [|by vm_compute]. apply elem_of_dom. vm_compute. by eexists.
Qed.
Lemma later_world_spares : spares 1 bound_world later_world.
Proof.
  do 3 (apply spares_call; [|exact I|by intros i []|vm_compute; discriminate]). apply spares_refl.
Qed.
Lemma bound_world_values st :
  stmts bound_world !! 1%nat = Some st ->
  bound_prefix 1 [ParamText (str "xy"); ParamNull] (parameters st) (buffers bound_world) (next_address bound_world).
Proof.
  intros Hst. assert (Hps : exists p0 p1, parameters st = [p0; p1] /\
    param_ok (buffers bound_world) 1 0 p0 (ParamText (str "xy")) /\
    param_ok (buffers bound_world) 1 1 p1 ParamNull /\ p_bytes p0 = Some 3%nat /\ p_bytes p1 = None).
  { revert Hst. vm_compute. intros [= <-]. do 2 eexists. split; [done|]. split; [|done].
    split; [done|]. exists 3%nat. by split_and!. }
  destruct Hps as (p0 & p1 & -> & Hp0 & Hp1 & Hb0 & Hb1).
  assert (Hnext : (3 < next_address bound_world)%nat) by (vm_compute; lia).
  revert Hp0 Hp1 Hnext. generalize (buffers bound_world) (next_address bound_world).
  intros bufs next Hp0 Hp1 Hnext. split.
  - done.
  - intros [|[|i]] p v; simpl; intros [= <-] [= <-]; done.
  - intros [|[|i]] [|[|j]] p q b; simpl; intros [= <-] [= <-]; congruence.
  - intros [|[|i]] p b; simpl; intros [= <-]; rewrite ?Hb0, ?Hb1; by intros [= <-].
Qed.
Lemma bound_values_stay_witness :
  exists st', stmts later_world !! 1%nat = Some st' /\
    bound_prefix 1 [ParamText (str "xy"); ParamNull] (parameters st') (buffers later_world)
      (next_address later_world).
Proof.
  destruct (stmts bound_world !! 1%nat) as [st|] eqn:Hst; [|by vm_compute in Hst].
  destruct (bound_values_stay 1 st [ParamText (str "xy"); ParamNull] select_world bound_world later_world)
    as (_ & st' & Hst' & _ & Hb).
  - by apply storage_ok_empty; vm_compute.
  - apply bound_world_reached.
  - exact Hst.
  - by apply bound_world_values.
  - apply later_world_spares.
  - exists st'. split; [exact Hst'|exact Hb].
Defined.
