(* ===== verification/Reexecute.v ===== *)
(** * Executing a statement again

    [mylite_reset] brings a statement whose rows have all been fetched back to
    where it was before its execution, with the values it is bound to; bound
    anew or not, it can be executed again. *)

From S2P Require Import Prelude Api Effects SqlLexer SqlPolicy System Numbers World BinaryRow.
From S2P Require Import ClientQuery ClientStmt Runtime Exec Statement Frames Rules ClientFacts.
From S2P Require Import Scripted RuntimeFacts RuntimeTheorems Library ExecFacts Termination StatementFacts.
From S2P Require Import Lifetime Calls Bindings Rows ProtocolRows Fetch Step Execute Prepared PreparedTheorems.
From S2P Require Import Storage Survival.
From stdpp Require Import options.
Set Default Proof Using "Type*".

Local Open Scope Z_scope.

(** ** What identifies a statement *)

Section core.
  Context `{Server}.

(** The server's number of the statement and of its parameters. *)
Definition same_statement (ms ms' : MYSQL_STMT) : Prop :=
  s_stmt_id ms' = s_stmt_id ms /\ s_param_count ms' = s_param_count ms /\
  (Z.of_nat (length (s_params ms)) = s_param_count ms ->
   Z.of_nat (length (s_params ms')) = s_param_count ms').

Record core_frame (w w' : world) : Prop := mkCoreFrame {
  cf_stmts : (fun st => (db st, stmt st)) <$> stmts w' = (fun st => (db st, stmt st)) <$> stmts w;
  cf_mstmts : forall m ms, mysql_stmts w !! m = Some ms ->
    exists ms', mysql_stmts w' !! m = Some ms' /\ same_statement ms ms';
}.

#[global] Instance core_frame_preorder : PreOrder core_frame.
Proof.
  split.
  - intros w. split; [done|]. intros m ms Hms. by exists ms.
  - intros w1 w2 w3 [Hs1 Hm1] [Hs2 Hm2]. split; [congruence|]. intros m ms1 Hms1.
    destruct (Hm1 m ms1 Hms1) as (ms2 & Hms2 & Hid & Hcount & Hlen).
    destruct (Hm2 m ms2 Hms2) as (ms3 & Hms3 & Hid' & Hcount' & Hlen').
    exists ms3. split; [done|]. split; [congruence|]. split; [congruence|]. auto.
Qed.

Abbreviation cored m := (steps core_frame m).

Lemma cored_same {A} (m : cmd world A) :
  (forall w, stmts (snd (m w)) = stmts w /\ mysql_stmts (snd (m w)) = mysql_stmts w) -> cored m.
Proof.
  intros Hm w. destruct (Hm w) as [Hs Hms]. split; rewrite ?Hs, ?Hms; [done|]. intros i ms Hi. by exists ms.
Qed.
Lemma cored_put_db d x : cored (put_db d x).
Proof. by apply cored_same. Qed.
Lemma cored_put_mysql d x : cored (put_mysql d x).
Proof. by apply cored_same. Qed.
Lemma cored_put_buffer b x : cored (put_buffer b x).
Proof. by apply cored_same. Qed.
Lemma cored_free_buffer b : cored (free_buffer b).
Proof. apply cored_same. intros w. by destruct b. Qed.
Lemma cored_allocate : cored allocate.
Proof. apply cored_same. intros w. unfold allocate. by destruct (allocations w). Qed.
Lemma cored_fresh_address : cored fresh_address.
Proof. by apply cored_same. Qed.
Lemma cored_on_server {A} (f : server -> filesystem -> A * server * filesystem) : cored (on_server f).
Proof.
  apply cored_same. intros w. unfold on_server. by destruct (f (server_state w) (files (sys w))) as [[a s] fs].
Qed.
Lemma cored_update_stmt s f :
  (forall st, db (f st) = db st /\ stmt (f st) = stmt st) -> cored (update_stmt s f).
Proof.
  intros Hf w. unfold update_stmt, get_stmt, put_stmt, mbind, cmd_bind, deref.
  destruct (stmts w !! s) as [st|] eqn:Hst; [|done]. destruct (Hf st) as [Hdb Hstmt]. split; simpl.
  - rewrite fmap_insert, Hdb, Hstmt. apply insert_id. by rewrite lookup_fmap, Hst.
  - intros m ms Hms. by exists ms.
Qed.
Lemma cored_update_mstmt m f : (forall ms, same_statement ms (f ms)) -> cored (update_mstmt m f).
Proof.
  intros Hf w. unfold update_mstmt, get_mstmt, put_mstmt, mbind, cmd_bind, deref.
  destruct (mysql_stmts w !! m) as [ms|] eqn:Hms; [|done]. split; simpl; [done|].
  intros m' ms' Hm'. destruct (decide (m = m')) as [<-|Hne].
  - rewrite Hms in Hm'. injection Hm' as <-. rewrite lookup_insert_eq. by eexists.
  - rewrite lookup_insert_ne by done. by exists ms'.
Qed.
Lemma same_stmt_clear_error ms : same_statement ms (stmt_clear_error ms).
Proof. unfold stmt_clear_error. by destruct (negb _). Qed.
End core.
#[export] Hint Resolve cored_put_db cored_put_mysql cored_put_buffer cored_free_buffer cored_allocate
  cored_fresh_address cored_on_server same_stmt_clear_error : steps.
#[export] Hint Extern 1 (steps core_frame (update_stmt _ _)) => apply cored_update_stmt; done : steps.
#[export] Hint Extern 1 (steps core_frame (update_mstmt _ _)) =>
  apply cored_update_mstmt; solve [done | auto with steps] : steps.

Section cores.
  Context `{Server}.
  Abbreviation cored m := (steps core_frame m).

Lemma cored_update_mysql d f : cored (update_mysql d f).
Proof. unfold update_mysql, get_mysql. steps_auto. Qed.
Lemma cored_update_db d f : cored (update_db d f).
Proof. unfold update_db, get_db. steps_auto. Qed.
Hint Resolve cored_update_mysql cored_update_db : steps.
Lemma cored_emb_advanced_command d c b : cored (emb_advanced_command d c b).
Proof.
  unfold emb_advanced_command, mysql_reconnect, THD_clear_data_list, free_embedded_thd, put_thd, get_mysql. steps_auto.
Qed.
Lemma cored_emb_read_query_result d : cored (emb_read_query_result d).
Proof. unfold emb_read_query_result, get_thd, put_thd. steps_auto. Qed.
Lemma cored_emb_read_rows d : cored (emb_read_rows d).
Proof. unfold emb_read_rows, get_thd, put_thd. steps_auto. Qed.
Hint Resolve cored_emb_advanced_command cored_emb_read_query_result cored_emb_read_rows : steps.
Lemma cored_mysql_next_result d : cored (mysql_next_result d).
Proof. unfold mysql_next_result, get_mysql, get_thd, put_thd. steps_auto. Qed.
Hint Resolve cored_mysql_next_result : steps.

Lemma cored_update_column s g i f : cored (update_column s g i f).
Proof. unfold update_column. steps_auto. Qed.
Hint Resolve cored_update_column : steps.
Lemma cored_write_length v b : cored (write_length v b).
Proof. unfold write_length. steps_auto. Qed.
Lemma cored_write_is_null v b : cored (write_is_null v b).
Proof. unfold write_is_null. steps_auto. Qed.
Lemma cored_write_error v b : cored (write_error v b).
Proof. unfold write_error. steps_auto. Qed.
Lemma cored_write_buffer p o data : cored (write_buffer p o data).
Proof. unfold write_buffer, get_buffer. steps_auto. Qed.
Lemma cored_read_member p own f g b : cored (read_member p own f g b).
Proof. unfold read_member. steps_auto. Qed.
Hint Resolve cored_write_length cored_write_is_null cored_write_error cored_write_buffer
  cored_read_member : steps.
Lemma cored_run_fetch_result_with_conversion b f row : cored (run_fetch_result_with_conversion b f row).
Proof. unfold run_fetch_result_with_conversion, fetch_string_with_conversion. steps_auto. Qed.
Hint Resolve cored_run_fetch_result_with_conversion : steps.
Lemma cored_run_fetch_result b f row : cored (run_fetch_result b f row).
Proof. unfold run_fetch_result, run_fetch_result_string. steps_auto. Qed.
Lemma cored_setup_one_fetch_function b f : cored (setup_one_fetch_function b f).
Proof. unfold setup_one_fetch_function. steps_auto. Qed.
Hint Resolve cored_run_fetch_result cored_setup_one_fetch_function : steps.
Lemma cored_setup_binds binds : forall fields, cored (setup_binds binds fields).
Proof. induction binds; intros fields; simpl; [steps_auto|]. destruct fields; steps_auto. Qed.
Lemma cored_refresh_binds binds : forall fields, cored (refresh_binds binds fields).
Proof. induction binds; intros fields; simpl; [steps_auto|]. destruct fields; steps_auto. Qed.
Lemma cored_fetch_columns binds : forall fields nulls bit row, cored (fetch_columns binds fields nulls bit row).
Proof.
  induction binds; intros fields nulls bit row; simpl; [steps_auto|]. destruct fields, nulls; unfold read_error; steps_auto.
Qed.
Lemma cored_read_params binds : cored (read_params binds).
Proof. induction binds; simpl; unfold read_param, read_is_null, read_length, get_buffer; steps_auto. Qed.
Hint Resolve cored_setup_binds cored_refresh_binds cored_fetch_columns cored_read_params : steps.
Lemma cored_mysql_stmt_bind_result m binds : cored (mysql_stmt_bind_result m binds).
Proof. unfold mysql_stmt_bind_result, get_mstmt, get_mysql. steps_auto. Qed.
Hint Resolve cored_mysql_stmt_bind_result : steps.
Lemma mapM_setup_length (binds params : list MYSQL_BIND) :
  mapM setup_param binds = Some params -> length params = length binds.
Proof. intros Hm%mapM_Some. symmetry. by eapply Forall2_length. Qed.
Lemma cored_put_mstmt m ms ms' w :
  mysql_stmts w !! m = Some ms -> same_statement ms ms' ->
  core_frame w (set_mysql_stmts (<[m := ms']> (mysql_stmts w)) w).
Proof.
  intros Hms Hsame. split; simpl; [done|]. intros m' ms1 Hm'. destruct (decide (m = m')) as [<-|Hne].
  - rewrite Hms in Hm'. injection Hm' as <-. rewrite lookup_insert_eq. by eexists.
  - rewrite lookup_insert_ne by done. by exists ms1.
Qed.
Lemma cored_mysql_stmt_bind_param m binds : cored (mysql_stmt_bind_param m binds).
Proof.
  intros w. unfold mysql_stmt_bind_param, update_mstmt, get_mstmt, put_mstmt, mbind, cmd_bind, deref, modify.
  destruct (mysql_stmts w !! m) as [ms|] eqn:Hms; [|done].
  destruct (s_param_count ms =? 0).
  { destruct (_ <? _); simpl; [|done]. rewrite Hms. simpl. by apply (cored_put_mstmt m ms). }
  destruct (Z.eqb_spec (Z.of_nat (length binds)) (s_param_count ms)) as [Hlen|]; [|done]. simpl.
  destruct (mapM setup_param binds) as [params|] eqn:Hm; simpl; rewrite Hms; simpl;
    (apply (cored_put_mstmt m ms); [done|]); split_and!; try done; intros _; simpl; try done.
  by rewrite (mapM_setup_length _ _ Hm).
Qed.
Lemma cored_mysql_stmt_fetch m : cored (mysql_stmt_fetch m).
Proof.
  unfold mysql_stmt_fetch, run_read_row_func, stmt_fetch_row, read_row_unbuffered, read_row_buffered,
    emb_unbuffered_fetch, get_mstmt, get_mysql, get_thd, put_thd.
  steps_auto.
Qed.
Lemma cored_mysql_stmt_fetch_column m b i o : cored (mysql_stmt_fetch_column m b i o).
Proof. unfold mysql_stmt_fetch_column, get_mstmt, read_length. steps_auto. Qed.
Lemma cored_mysql_stmt_result_metadata m : cored (mysql_stmt_result_metadata m).
Proof. unfold mysql_stmt_result_metadata, get_mstmt. steps_auto. Qed.
Lemma cored_alloc_stmt_fields m c : cored (alloc_stmt_fields m c).
Proof. unfold alloc_stmt_fields. steps_auto. Qed.
Hint Resolve cored_mysql_stmt_bind_param cored_mysql_stmt_fetch cored_mysql_stmt_fetch_column
  cored_mysql_stmt_result_metadata cored_alloc_stmt_fields : steps.
Lemma cored_release_connection m d : cored (release_connection m d).
Proof. unfold release_connection, emb_flush_use_result, get_mstmt, get_mysql, get_thd, put_thd. steps_auto. Qed.
Hint Resolve cored_release_connection : steps.
Lemma cored_reset_stmt_handle_with drain m flags :
  (forall m d, cored (drain m d)) -> cored (reset_stmt_handle_with drain m flags).
Proof. intros Hdrain. unfold reset_stmt_handle_with, get_mstmt, get_mysql. steps_auto. Qed.
Lemma cored_mysql_stmt_next_result m : cored (mysql_stmt_next_result m).
Proof.
  unfold mysql_stmt_next_result, prepare_to_fetch_result, get_mstmt, get_mysql. steps_auto.
  apply cored_reset_stmt_handle_with. steps_auto.
Qed.
Hint Resolve cored_mysql_stmt_next_result : steps.
Lemma cored_reset_stmt_handle m flags : cored (reset_stmt_handle m flags).
Proof.
  apply cored_reset_stmt_handle_with. intros m' d. unfold drain_all_results. steps_auto.
  generalize (S a). intros fuel. induction fuel; simpl; unfold get_mysql; steps_auto.
Qed.
Hint Resolve cored_reset_stmt_handle : steps.
Lemma cored_mysql_stmt_execute m : cored (mysql_stmt_execute m).
Proof.
  unfold mysql_stmt_execute, emb_stmt_execute, reinit_result_set_metadata, update_stmt_fields,
    prepare_to_fetch_result, get_mstmt, get_mysql, get_thd.
  steps_auto.
Qed.
Lemma cored_mysql_stmt_store_result m : cored (mysql_stmt_store_result m).
Proof. unfold mysql_stmt_store_result, get_mstmt, get_mysql. steps_auto. Qed.
Lemma cored_mysql_stmt_free_result m : cored (mysql_stmt_free_result m).
Proof. unfold mysql_stmt_free_result. steps_auto. Qed.
Hint Resolve cored_mysql_stmt_execute cored_mysql_stmt_store_result cored_mysql_stmt_free_result : steps.

Lemma cored_free_columns columns : cored (free_columns columns).
Proof. induction columns; simpl; steps_auto. Qed.
Lemma cored_free_retired columns : cored (free_retired columns).
Proof. induction columns; simpl; steps_auto. Qed.
Lemma cored_terminate_columns columns : cored (terminate_columns columns).
Proof. induction columns; simpl; unfold get_buffer; steps_auto. Qed.
Lemma cored_set_mariadb_statement_error s : cored (set_mariadb_statement_error s).
Proof. unfold set_mariadb_statement_error, db_of, mstmt_of, get_mstmt. steps_auto. Qed.
Lemma cored_allocate_column_buffer b len : cored (allocate_column_buffer b len).
Proof. unfold allocate_column_buffer. steps_auto. Qed.
Hint Resolve cored_free_columns cored_free_retired cored_terminate_columns
  cored_set_mariadb_statement_error cored_allocate_column_buffer : steps.
Lemma cored_set_up_columns s g fields : forall index, cored (set_up_columns s g index fields).
Proof. induction fields; intros index; simpl; unfold configure_column_buffer, db_of; steps_auto. Qed.
Lemma cored_release_statement_results s : cored (release_statement_results s).
Proof. unfold release_statement_results, get_stmt. steps_auto. Qed.
Hint Resolve cored_set_up_columns cored_release_statement_results : steps.
Lemma cored_initialize_statement_results s b : cored (initialize_statement_results s b).
Proof. unfold initialize_statement_results, mstmt_of, get_mstmt, get_stmt. steps_auto. Qed.
Lemma cored_bind_parameters s : cored (bind_parameters s).
Proof. unfold bind_parameters, mstmt_of, get_stmt. steps_auto. Qed.
Lemma cored_fetch_truncated_from s indices : cored (fetch_truncated_from s indices).
Proof. induction indices; simpl; unfold fetch_truncated_column, db_of, mstmt_of; steps_auto. Qed.
Lemma cored_drain_statement_loop s m fuel : cored (drain_statement_loop fuel s m).
Proof. induction fuel; simpl; unfold get_mstmt; steps_auto. Qed.
Hint Resolve cored_initialize_statement_results cored_bind_parameters cored_fetch_truncated_from
  cored_drain_statement_loop : steps.
Lemma cored_fetch_statement_row s : cored (fetch_statement_row s).
Proof.
  unfold fetch_statement_row, refresh_dirty_result_binds, finish_fetch, fetch_truncated_statement_columns,
    drain_remaining_statement_results, mstmt_of, get_stmt.
  steps_auto.
Qed.
Hint Resolve cored_fetch_statement_row : steps.
Lemma cored_mylite_step stmt : cored (mylite_step stmt).
Proof.
  unfold mylite_step, with_statement, step_execute, db_of, mstmt_of, get_stmt, get_mstmt. steps_auto.
Qed.
Hint Resolve cored_mylite_step : steps.

(** A caller that reads all the rows. *)
Lemma cored_collect s fuel : cored (collect fuel s).
Proof.
  induction fuel; cbn [collect]; [steps_auto|]. apply steps_bind; [exact _|steps_auto|]. intros r. unfold read_on.
  assert (Hread : forall indices, cored (read_columns s indices)).
  { induction indices; simpl; unfold read_column, mylite_column_blob, mylite_column_bytes, value_column_at,
      get_stmt, get_buffer; steps_auto. }
  unfold mylite_column_count, get_stmt, get_mstmt. steps_auto.
Qed.
End cores.

Section caller.
  Context `{Server}.

Lemma protects_collect K B s fuel : forall n, protects K B n anything (collect fuel s).
Proof.
  induction fuel; intros n; cbn [collect]; [protects_leaf|]. protects_step. unfold read_on.
  assert (Hread : forall indices n, protects K B n anything (read_columns s indices)).
  { induction indices; intros n1; simpl; unfold read_column, mylite_column_blob, mylite_column_bytes,
      value_column_at; protects_auto. }
  unfold mylite_column_count. protects_auto.
Qed.

(** ** Resetting *)

(** What a reset keeps of the [MYSQL_STMT]. *)
Definition prepared_core (ms : MYSQL_STMT) :=
  (s_mysql ms, s_stmt_id ms, s_param_count ms, s_params ms, s_fields ms, s_field_count ms).

Lemma stmt_clear_error_core ms :
  prepared_core (stmt_clear_error ms) = prepared_core ms /\ s_last_errno (stmt_clear_error ms) = 0.
Proof. unfold stmt_clear_error. by destruct (Z.eqb_spec (s_last_errno ms) 0). Qed.

(** The client library resets an executed statement. *)
Lemma mysql_stmt_reset_spec m d ms c t r srv fs (Q : outcome bool -> world -> Prop) w :
  mysql_stmts w !! m = Some ms -> s_mysql ms = Some d -> MYSQL_STMT_INIT_DONE < s_state ms ->
  connections w !! d = Some c -> ready c -> more_results (m_server_status c) = false ->
  m_thd c = Some t -> session_killed d (server_state w) = false ->
  dispatch_command d (COM_STMT_RESET (s_stmt_id ms)) (server_state w) (files (sys w)) = (r, srv, fs) ->
  thd_is_error r = false ->
  (forall ms' c', prepared_core ms' = prepared_core ms -> s_state ms' = MYSQL_STMT_PREPARE_DONE ->
     s_last_errno ms' = 0 -> ready c' -> is_Some (m_thd c') ->
     m_report_data_truncation c' = m_report_data_truncation c ->
     Q (Ret false) (executed_world m d ms' c' srv fs w)) ->
  wp (mysql_stmt_reset m) Q w.
Proof.
  intros Hms Hd Hstate Hc Hready Hmore Ht Hkill Hr Herr HQ. unfold executed_world in HQ.
  destruct (stmt_clear_error_core (with_s_read_row_func stmt_read_row_no_result_set ms)) as [Hcore Hclear].
  unfold mysql_stmt_reset. wp_auto. rewrite Hd. unfold reset_stmt_handle, reset_stmt_handle_with. wp_auto.
  rewrite (proj2 (Z.leb_gt _ _)) by done.
  change (has_flag _ RESET_STORE_RESULT) with false. change (has_flag _ RESET_ALL_BUFFERS) with true.
  change (has_flag _ RESET_SERVER_SIDE) with true. change (has_flag _ RESET_CLEAR_ERROR) with true.
  wp_auto. rewrite Hd. destruct (MYSQL_STMT_PREPARE_DONE <? s_state ms).
  - apply wp_bind. eapply release_ready_spec; [apply lookup_insert_eq|done..|]. intros c1 Hready1 Hthd1 Hrep1.
    apply bind_post_ret. eapply emb_advanced_command_spec; [apply lookup_insert_eq|done|by rewrite Hthd1|done|done|].
    rewrite Herr. apply bind_post_ret. wp_auto. simpl. rewrite !insert_insert_eq. by apply HQ.
  - wp_auto. eapply emb_advanced_command_spec; [done..|].
    rewrite Herr. apply bind_post_ret. wp_auto. simpl. rewrite !insert_insert_eq. by apply HQ.
Qed.

(** The server takes the reset of the statement [id]. *)
Definition resets (d : nat) (id : Z) (srv : server) (fs : filesystem) (w : world) : Prop :=
  session_killed d (server_state w) = false /\ session_killed d srv = false /\
  exists r, dispatch_command d (COM_STMT_RESET id) (server_state w) (files (sys w)) = (r, srv, fs) /\
    thd_is_error r = false.

(** A statement whose rows have all been fetched is what it was before. *)
Lemma ended_again s d m id vs fields st0 ms0 c0 w0 w :
  idle s d m id vs fields st0 ms0 c0 w0 -> core_frame w0 w -> spared s w0 w -> ended s d fields w ->
  exists st ms, stmts w !! s = Some st /\ parameters st = parameters st0 /\
    mysql_stmts w !! m = Some ms /\ stmt st = Some m /\ s_stmt_id ms = id /\
    s_param_count ms = Z.of_nat (length vs) /\ length (s_params ms) = length vs /\
    s_fields ms = fields /\ s_field_count ms = Z.of_nat (length fields) /\ MYSQL_STMT_INIT_DONE < s_state ms.
Proof.
  intros Hi [Hcs Hcm] Hsp [[_ (m' & st & ms & Hst & Hm & Hms & Hf & Hn & Hstate)] _].
  destruct Hi. destruct (spared_parameters s st0 w0 w Hsp) as (st1 & Hst1 & Hps); [done|].
  assert (st1 = st) as -> by congruence.
  assert (m' = m) as ->.
  { apply (f_equal (lookup s)) in Hcs. rewrite !lookup_fmap, Hst, id_stmt in Hcs. simpl in Hcs. congruence. }
  destruct (Hcm m ms0 id_mstmt) as (ms' & Hms' & Hid & Hcount & Hlen). assert (ms' = ms) as -> by congruence.
  exists st, ms. split_and!; try done; try congruence. lia.
Qed.

Lemma resets_same d id srv fs srv' fs' w w' :
  resets d id srv' fs' (set_server_state srv fs w) ->
  server_state w' = srv -> files (sys w') = fs -> resets d id srv' fs' w'.
Proof. unfold resets. by intros Hx -> ->. Qed.

(** The rows are released and the server resets its statement; the storage of
    the parameters apart, the statement is idle. *)
Lemma mylite_reset_ended s d m id vs fields st0 ms0 c0 srv fs w0 w :
  idle s d m id vs fields st0 ms0 c0 w0 -> core_frame w0 w -> spared s w0 w -> ended s d fields w ->
  resets d id srv fs w ->
  wp (mylite_reset (Some s)) (fun o w' => o = Ret MYLITE_OK /\ (exists st ms c,
    parameters st = parameters st0 /\
    (bound_prefix s vs (parameters st) (buffers w') (next_address w') ->
     idle s d m id vs fields st ms c w')) /\ server_state w' = srv /\ files (sys w') = fs) w.
Proof.
  intros Hi Hcore Hsp Hended (Hkill & Hkill' & r & Hr & Herr).
  destruct (ended_again _ _ _ _ _ _ _ _ _ _ _ Hi Hcore Hsp Hended)
    as (st & ms & Hst & Hps & Hms & Hm & Hid & Hcount & Hparams & Hf & Hn & Hstate).
  destruct Hended as [[(m' & st' & ms' & Hst' & Hms' & Hm' & Hd & Hmd & Hex & Hres & Hrow & [x Hx] & Halloc &
    c & Hc & Hready & Hmore & Hreport & t & Ht & _) _] _].
  assert (st' = st) as -> by congruence. assert (m' = m) as -> by congruence. assert (ms' = ms) as -> by congruence.
  unfold mylite_reset, with_statement. wp_auto. rewrite Hd.
  eapply wp_bind, wp_deref; [rewrite Hst; exact Hd|]. apply bind_post_ret. wp_auto.
  unfold release_statement_results. wp_auto. rewrite Hm, Hres. wp_auto.
  apply free_columns_spec. intros bs. apply bind_post_ret. wp_auto.
  eapply wp_deref; [simpl; rewrite lookup_insert_eq; exact Hm|]. apply bind_post_ret. wp_auto.
  rewrite <- Hid in Hr. eapply mysql_stmt_reset_spec; [done..|].
  intros ms' c' [= Hmd1 Hid1 Hcount1 Hparams1 Hf1 Hn1] Hstate1 Herr1 Hready' Ht' Hreport'.
  apply bind_post_ret. cbn iota. unfold executed_world. wp_auto. split; [done|]. split; [|done].
  exists (with_has_row false (with_has_result false (with_executed false (with_has_row false (with_has_result false
    (with_result_binds [] false (clear_columns (with_metadata None st)))))))), ms', c'.
  split; [exact Hps|]. intros Hb. destruct Hi.
  split; simpl; rewrite ?lookup_insert_eq; try done; simpl; try congruence; by eexists.
Qed.

(** What a command that leaves bound storage alone is known to keep. *)
Lemma wp_protecting {A} (m : cmd world A) s (Q : outcome A -> world -> Prop) w :
  (forall K B n, protects K B n anything m) -> storage_ok w ->
  wp m (fun o w' => spared s w w' -> storage_ok w' -> Q o w') w -> wp m Q w.
Proof.
  intros Hm Hw HQ. apply HQ; [by apply protects_spared|by apply (keeps_protecting m Hm)].
Qed.

(** The rows are all read and the statement is reset: it is idle again, bound
    to the same values, and its storage is still its own. *)
Lemma execute_again s d id vs fields data srv fs srv1 fs1 srv2 fs2 rows texts wb w :
  idle_after d s id vs fields srv fs w -> storage_ok w -> columns_known fields ->
  executes d id vs data srv1 fs1 (set_server_state srv fs wb) -> d_fields_list data = Some fields ->
  d_rows data = map BinaryRow (map row_packet rows) -> rows_sent fields rows texts ->
  resets d id srv2 fs2 (set_server_state srv1 fs1 wb) ->
  wp (rows ← collect (S (length rows)) s; code ← mylite_reset (Some s); mret (rows, code))
    (fun o w' => o = Ret (MYLITE_DONE, texts, MYLITE_OK) /\ idle_after d s id vs fields srv2 fs2 w' /\
      storage_ok w') w.
Proof.
  intros (m & st & ms & c & Hi & Hsrv & Hfs) Hw (Hne & Hcount & Hknown) Hx Hf Hrows Hsent Hreset.
  pose proof (executes_same _ _ _ _ _ _ _ _ _ w Hx Hsrv Hfs) as Hx'.
  apply wp_bind. apply (wp_protecting _ s); [intros; apply protects_collect|done|].
  apply (wp_steps_of _ (cored_collect s _)). eapply wp_mono; [by eapply select_rows_spec|].
  intros o w1 (-> & Hended & Hsrv1 & Hfs1) Hcore Hsp Hw1. apply bind_post_ret, wp_bind.
  apply (wp_protecting _ s); [intros; apply protects_mylite_reset|done|].
  eapply wp_mono; [eapply mylite_reset_ended; [done..|by eapply resets_same]|].
  intros o w2 (-> & (st2 & ms2 & c2 & Hps & Hidle) & Hsrv2 & Hfs2) Hsp2 Hw2. apply bind_post_ret, wp_ret.
  split; [done|]. split; [|done]. exists m, st2, ms2, c2. split; [|done]. apply Hidle. rewrite Hps.
  destruct (spared_parameters s st w w1 Hsp) as (st1 & Hst1 & Hps1); [by apply Hi|].
  rewrite <- Hps1. apply (bound_prefix_spared s vs st1 w1 w2); [done..|]. rewrite Hps1.
  apply (bound_prefix_spared s vs st w w1); [done|by apply Hi|by apply Hi].
Qed.

(** ** One execution after the other *)

Lemma keeps_bind_all s calls : steps (fun w w' => storage_ok w -> storage_ok w') (bind_all s calls).
Proof.
  induction calls as [|[index c] calls IH]; cbn [bind_all]; [by intros w|].
  apply steps_bind; [exact _| |].
  - destruct c; cbn [run_bind]; try (apply steps_bind; [exact _| |by intros [] w]);
      auto using keeps_mylite_bind_null, keeps_mylite_bind_int64, keeps_mylite_bind_uint64,
        keeps_mylite_bind_double, keeps_mylite_bind_text, keeps_mylite_bind_blob.
  - intros result. destruct (negb _); [by intros w|exact IH].
Qed.

(** One use of a statement: the bind calls that come first, the rows the
    server sends and their values as texts. *)
Record round : Type := mkRound {
  r_calls : list (Z * bind_call);
  r_rows : list (list column_value);
  r_texts : list (list (option bytes));
}.

(** A caller that binds, reads all the rows and resets, in rounds. *)
Fixpoint run_rounds (s : nat) (rounds : list round)
    : cmd world (list (Z * (Z * list (list (option bytes)) * Z))) :=
  match rounds with
  | [] => mret []
  | r :: rounds =>
      bound ← bind_all s (r_calls r);
      used ← (rows ← collect (S (length (r_rows r))) s;
              code ← mylite_reset (Some s);
              mret (rows, code));
      rest ← run_rounds s rounds;
      mret ((bound, used) :: rest)
  end.

(** The caller prepares the statement first. *)
Definition use_statement (d : nat) (sql : bytes) (len : Z) (rounds : list round)
    : cmd world (list (Z * (Z * list (list (option bytes)) * Z))) :=
  '(_, stmt, _) ← mylite_prepare (Some d) (Some sql) len true;
  match stmt with
  | None => mret []
  | Some s => run_rounds s rounds
  end.

(** The server executes the statement in every round, with the values that
    were bound in this round and, for the other parameters, in the rounds
    before, and takes the reset. *)
Inductive served (d : nat) (id : Z) (fields : list MYSQL_FIELD) (w : world) :
    list param_value -> server -> filesystem -> list round -> list param_value -> server -> filesystem -> Prop :=
| served_end vs srv fs : served d id fields w vs srv fs [] vs srv fs
| served_round vs vs1 vs' r rounds data srv fs srv1 fs1 srv2 fs2 srv' fs' :
    binds_all vs (r_calls r) vs1 ->
    executes d id vs1 data srv1 fs1 (set_server_state srv fs w) -> d_fields_list data = Some fields ->
    d_rows data = map BinaryRow (map row_packet (r_rows r)) -> rows_sent fields (r_rows r) (r_texts r) ->
    resets d id srv2 fs2 (set_server_state srv1 fs1 w) ->
    served d id fields w vs1 srv2 fs2 rounds vs' srv' fs' ->
    served d id fields w vs srv fs (r :: rounds) vs' srv' fs'.

Definition round_result (r : round) : Z * (Z * list (list (option bytes)) * Z) :=
  (MYLITE_OK, (MYLITE_DONE, r_texts r, MYLITE_OK)).

Lemma run_rounds_spec s d id fields wb vs srv fs rounds vs' srv' fs' :
  columns_known fields -> served d id fields wb vs srv fs rounds vs' srv' fs' ->
  forall w, idle_after d s id vs fields srv fs w -> storage_ok w ->
  wp (run_rounds s rounds) (fun o w' => o = Ret (map round_result rounds) /\
    idle_after d s id vs' fields srv' fs' w') w.
Proof.
  intros Hcols. induction 1 as [|vs vs1 vs' r rounds data srv fs srv1 fs1 srv2 fs2 srv' fs' Hb Hx Hf Hrows Hsent
    Hreset _ IH]; intros w Hi Hw; cbn [run_rounds]; [by apply wp_ret|].
  destruct Hi as (m & st & ms & c & Hi & Hsrv & Hfs). apply wp_bind.
  apply (wp_steps_of _ (keeps_bind_all s (r_calls r))).
  eapply wp_mono; [by eapply bind_all_idle|]. intros o w1 (-> & Hframe & st1 & Hi1) Hw1.
  apply bind_post_ret, wp_bind. eapply wp_mono.
  { eapply execute_again; try done; [|by apply Hw1].
    exists m, st1, ms, c. split; [done|]. by rewrite (pf_server _ _ Hframe), (pf_sys _ _ Hframe). }
  intros o w2 (-> & Hi2 & Hw2). apply bind_post_ret, wp_bind. eapply wp_mono; [by apply IH|].
  intros o w3 [-> Hi3]. by apply bind_post_ret, wp_ret.
Qed.

End caller.

(** C9: a statement can be used over and over: prepared once, and then in
    every round bound, stepped to its last row and reset, it returns
    [MYLITE_OK] from the bind calls and the reset and [MYLITE_DONE] with
    exactly the rows that the server sent in this round. The server executes
    it once a round, with the values bound in this round and those of the
    earlier rounds that were not bound anew. *)
Theorem executions_repeat `{Server} (d : nat) (sql : bytes) (len id : Z) (n : nat)
    (fields : list MYSQL_FIELD) (rounds : list round) (vs : list param_value)
    (srv srv' : server) (fs fs' : filesystem) (w : world)
    (Hrest : at_rest d w) (Hstorage : storage_ok w) (Hsql : preparable d sql len w)
    (Hprepares : prepares d (take (Z.to_nat len) sql) id n fields srv fs w)
    (Hfields : columns_known fields)
    (Hserved : served d id fields w (replicate n ParamNull) srv fs rounds vs srv' fs') :
  wp (use_statement d sql len rounds) (fun o w' => o = Ret (map round_result rounds) /\
    exists s, idle_after d s id vs fields srv' fs' w') w.
Proof.
  destruct Hsql as (Hlen & Hnul & (x & Hx & Hok) & Hcall). unfold use_statement. apply wp_bind.
  apply (wp_steps_of _ (keeps_mylite_prepare (Some d) (Some sql) len true)).
  eapply wp_mono; [by eapply (prepare_idle_spec d x sql len id n fields srv fs)|].
  intros o w1 (s & -> & Hi) Hw1. apply bind_post_ret. cbn iota.
  eapply wp_mono; [by eapply run_rounds_spec; try apply Hw1|]. intros o w2 [-> Hi2]. split; [done|by exists s].
Qed.

(** ** On the scripted server *)

(** The second round binds one parameter anew; the other keeps its text. *)
Definition example_rounds : list round :=
  [mkRound example_calls example_rows example_texts;
   mkRound [(2, BindInt64 9)] [[VNull; VString []]] [[None; Some []]]].

Definition rounds_world : world :=
  opened_world (after_open [prepared 7 2 example_fields; answer [example_data]; ok_answer;
    answer [rows_data example_fields (map BinaryRow (map row_packet [[VNull; VString []]]))]]).

Definition after_reset (id : Z) (s : server) : server :=
  (dispatch_command 0 (COM_STMT_RESET id) s small_files).1.2.

Lemma example_resets id srv fs (w : world) :
  thd_is_error (dispatch_command 0 (COM_STMT_RESET id) srv fs).1.1 = false ->
  resets 0 id (after_reset id srv) fs (set_server_state srv fs w).
Proof.
  unfold resets, after_reset. simpl. destruct (script srv) as [|a rest]; intros Ha; do 2 (split; [done|]); by eexists.
Qed.

Lemma executions_repeat_witness :
  let vs1 := [ParamText (str "xy"); ParamNull] in
  let vs2 := [ParamText (str "xy"); ParamInt 9] in
  let srv := after_prepare example_sql rounds_world in
  let srv1 := after_reset 7 (after_execute 7 vs1 srv) in
  let srv2 := after_reset 7 (after_execute 7 vs2 srv1) in
  wp (use_statement 0 example_sql (Z.of_nat (length example_sql)) example_rounds) (fun o w' =>
    o = Ret [(MYLITE_OK, (MYLITE_DONE, example_texts, MYLITE_OK));
             (MYLITE_OK, (MYLITE_DONE, [[None; Some []]], MYLITE_OK))] /\
    exists s, idle_after 0 s 7 vs2 example_fields srv2 (files (sys rounds_world)) w') rounds_world.
Proof.
  intros vs1 vs2 srv srv1 srv2.
  apply (executions_repeat 0 example_sql (Z.of_nat (length example_sql)) 7 2 example_fields example_rounds vs2
    srv srv2 (files (sys rounds_world)) (files (sys rounds_world)) rounds_world).
  - apply example_rest.
  - by apply storage_ok_empty; vm_compute.
  - split; [lia|]. split; [by vm_compute|]. split; [|by vm_compute].
    eexists. split; [by vm_compute|]. by vm_compute.
  - rewrite Nat2Z.id, firstn_all. eapply example_prepares. by vm_compute.
  - apply example_columns.
  - eapply served_round;
      [apply example_binds|eapply example_executes; by vm_compute|done|done|apply example_rows_sent| |].
    + apply example_resets. by vm_compute.
    + eapply served_round; [|eapply example_executes; by vm_compute|done|done| | |].
      * eapply (binds_next _ 2 _ (ParamInt 9)); [simpl; lia|constructor; unfold LLONG_MIN, LLONG_MAX; lia|].
        apply binds_none.
      * repeat constructor; vm_compute; try done; try (by right); try (by left); by intros.
      * apply example_resets. by vm_compute.
      * apply served_end.
Defined.
