(* ===== verification/Columns.v ===== *)
(** * What the column functions return for a row

    [mylite_column_type] names the type of the value the server sent
    ([column_type_sound]), and an integer of any width comes back from
    [mylite_column_int64] or [mylite_column_uint64] as the number that the
    server stored ([column_integer_roundtrip]). *)

From S2P Require Import Prelude Api Effects System Numbers World.
From S2P Require Import Formats FormatsFacts BinaryRow BinaryFacts ClientQuery ClientStmt Runtime Exec Statement.
From S2P Require Import Frames Rules ClientFacts Scripted RuntimeFacts Library ExecFacts Termination StatementFacts.
From S2P Require Import Lifetime Bindings Rows ProtocolRows Fetch Step Execute Prepared PreparedTheorems Interleaving.
From stdpp Require Import options.
Set Default Proof Using "Type*".

Local Open Scope Z_scope.

(** ** Numbers in texts *)

Lemma c_str_app text rest :
  Forall (fun c => negb (Ascii.eqb c zero) = true) text -> c_str (text ++ zero :: rest) = text.
Proof. induction 1 as [|c text Hc _ IH]; [done|]. unfold c_str in *. simpl. rewrite Hc. simpl. by f_equal. Qed.

Lemma c_str_at_zero text data :
  Forall (fun c => negb (Ascii.eqb c zero) = true) text ->
  take (length text) data = text -> data !! length text = Some zero ->
  c_str data = text /\ existsb (Ascii.eqb zero) data = true.
Proof.
  intros Hno Htake Hzero. rewrite <- (take_drop_middle _ _ _ Hzero), Htake.
  split; [by apply c_str_app|]. rewrite existsb_app. simpl. apply orb_true_r.
Qed.

Lemma decimal_no_zero z text :
  - 2 ^ 63 <= z < 2 ^ 64 -> decimal_text z text -> Forall (fun c => negb (Ascii.eqb c zero) = true) text.
Proof.
  intros Hz Ht. eapply Forall_impl; [by eapply decimal_text_chars|].
  intros c [Hc|Hc]; [|by rewrite Hc]. by destruct c as [[] [] [] [] [] [] [] []].
Qed.

Lemma zero_fill_decimal field limit z :
  (has_flag (f_flags field) ZEROFILL_FLAG = true -> 0 <= z) ->
  decimal_text z (zero_fill field limit (to_string z)).
Proof.
  intros Hz. unfold zero_fill. destruct (has_flag _ _); simpl; [|by left].
  destruct (_ && _); [right|by left]. split; [auto|]. by eexists.
Qed.

(** ** Types *)

(** The values a type of [mylite_value_type] stands for. *)
Definition typed (v : column_value) (ty : mylite_value_type) : Prop :=
  match ty, v with
  | MYLITE_TYPE_NULL, VNull => True
  | MYLITE_TYPE_INT64, (VTiny z | VShort z | VLong z | VLonglong z) => LLONG_MIN <= z <= LLONG_MAX
  | MYLITE_TYPE_UINT64, (VTiny z | VShort z | VLong z | VLonglong z) => 0 <= z <= ULLONG_MAX
  | MYLITE_TYPE_DOUBLE, (VFloat _ | VDouble _ | VString _) => True
  | MYLITE_TYPE_TEXT, (VString _ | VDate _ | VTime _ | VDatetime _) => True
  | MYLITE_TYPE_BLOB, VString _ => True
  | _, _ => False
  end.

(** A row the caller is at, of the columns [fields] with the values [vs]. *)
Definition row_of `{Server} (s d : nat) (fields : list MYSQL_FIELD) (vs : list column_value) (w : world)
    : Prop :=
  exists rows ts, stepping s d fields rows w /\ at_row s ts w /\
    Forall3 column_ok (initial_shape <$> fields) vs ts.

Lemma integer_ok_bounds field bits z :
  0 < bits <= 64 -> integer_ok field bits z ->
  if has_flag (f_flags field) UNSIGNED_FLAG then 0 <= z <= ULLONG_MAX else LLONG_MIN <= z <= LLONG_MAX.
Proof.
  unfold integer_ok, ULLONG_MAX, LLONG_MIN, LLONG_MAX. intros Hbits Hz.
  pose proof (Z.pow_le_mono_r 2 bits 64). pose proof (Z.pow_le_mono_r 2 (bits - 1) 63).
  destruct (has_flag _ _); lia.
Qed.

Section columns.
  Context `{Server}.

Lemma row_of_column s d fields vs i v w :
  row_of s d fields vs w -> vs !! i = Some v ->
  exists st c field t, stmts w !! s = Some st /\ has_row st = true /\ columns st !! i = Some c /\
    fields !! i = Some field /\ shows (buffers w) c t /\
    column_description c = field_description field /\ value_ok field v /\
    value_text field (initial_width field) v = Some t.
Proof.
  intros (rows & ts & (m & slots & st & ms & Hr & _ & _ & <- & _) & (st' & Hst & Hrow & Hcols) & Hok) Hv.
  rewrite (ra_stmt _ _ _ _ _ _ _ Hr) in Hst. injection Hst as <-.
  destruct (Forall3_lookup_m _ _ _ _ _ _ Hok Hv) as ([field width] & t & Hf & Ht & Hval & Htext).
  apply list_lookup_fmap_Some in Hf as (field' & [= -> ->] & Hf).
  apply list_lookup_fmap_Some in Hf as (sl & -> & Hsl).
  destruct (Forall2_lookup_r _ _ _ _ _ Hcols Ht) as (c & Hc & Hshows).
  assert (Hcs : c = sl_column sl).
  { rewrite (ra_columns _ _ _ _ _ _ _ Hr), list_lookup_fmap, Hsl in Hc. by injection Hc. }
  exists st, c, (sl_field sl), t. split; [apply Hr|]. split; [done|]. split; [done|].
  split; [by rewrite list_lookup_fmap, Hsl|]. split; [done|].
  rewrite Hcs. by destruct (ra_live _ _ _ _ _ _ _ Hr i sl Hsl).
Qed.

Lemma described_type c field t v bufs width :
  column_description c = field_description field -> shows bufs c t -> value_ok field v ->
  value_text field width v = Some t -> typed v (column_type c).
Proof.
  intros [= Hty Hflags _ _ _ _] Hshows Hv Ht. unfold column_type.
  destruct (shows_cases _ _ _ Hshows) as [[-> ->]|(text & _ & _ & -> & -> & _)]; simpl.
  { destruct v; simpl in *; try done; by destruct (my_TIME_to_str _ _). }
  rewrite Hty, Hflags.
  destruct v as [|z|z|z|z|data|data|data|tm|tm|tm]; [done|..];
    cbn [value_ok] in Hv; destruct Hv as [Hf Hv]; destruct_or?; try rewrite Hf;
    try match goal with Hi : integer_ok _ ?bits _ |- _ => apply integer_ok_bounds in Hi; [|lia] end;
    try (destruct (has_flag (f_flags field) UNSIGNED_FLAG); exact Hv); try done.
  destruct (f_type field); try done; by destruct (has_flag _ _).
Qed.

(** The integer that a value is. *)
Definition integer_of (v : column_value) : option Z :=
  match v with
  | VTiny z | VShort z | VLong z | VLonglong z => Some z
  | _ => None
  end.

Lemma convert_text_decimal convert s d fields vs i v z field w :
  row_of s d fields vs w -> vs !! i = Some v -> integer_of v = Some z -> fields !! i = Some field ->
  (has_flag (f_flags field) ZEROFILL_FLAG = true -> has_flag (f_flags field) UNSIGNED_FLAG = true) ->
  (forall text, decimal_text z text -> convert text = z) ->
  wp (convert_text convert (Some s) (Z.of_nat i)) (fun o w' => o = Ret z /\ w' = w) w.
Proof.
  intros Hrow Hv Hz Hfield Hfill Hconvert.
  destruct (row_of_column s d fields vs i v w Hrow Hv)
    as (st & c & field' & t & Hst & Hhas & Hc & Hf & Hshows & _ & Hok & Ht).
  rewrite Hfield in Hf. injection Hf as <-.
  assert (Hrange : t = Some (zero_fill field 21 (to_string z)) /\
    if has_flag (f_flags field) UNSIGNED_FLAG then 0 <= z <= ULLONG_MAX else LLONG_MIN <= z <= LLONG_MAX).
  { destruct v; try done; injection Hz as ->; injection Ht as <-; (split; [done|]);
      destruct Hok as [_ Hok]; (eapply integer_ok_bounds; [|exact Hok]); lia. }
  destruct Hrange as [-> Hrange].
  assert (Hdec : decimal_text z (zero_fill field 21 (to_string z))).
  { apply zero_fill_decimal. intros Hzf. rewrite (Hfill Hzf) in Hrange. lia. }
  assert (Hno : Forall (fun c => negb (Ascii.eqb c zero) = true) (zero_fill field 21 (to_string z))).
  { apply (decimal_no_zero z); [|done]. unfold ULLONG_MAX, LLONG_MIN, LLONG_MAX in Hrange.
    destruct (has_flag (f_flags field) UNSIGNED_FLAG); lia. }
  destruct Hshows as (Hnull & _ & b & data & Hb & Hdata & Htake & Hzero).
  destruct (c_str_at_zero _ _ Hno Htake Hzero) as [Hstr Hex].
  unfold convert_text, mylite_column_text. apply wp_bind, wp_bind.
  eapply (value_column_spec s st i c); [done..|]. apply bind_post_ret, wp_ret, bind_post_ret.
  rewrite Hnull, Hb. simpl. unfold read_c_string. wp_auto. rewrite Hex. wp_auto.
  by rewrite Hstr, Hconvert.
Qed.
End columns.


(** C23: an integer the server stored in a column, whatever its width, is what
    the caller reads: with [mylite_column_int64] from a signed column, with
    [mylite_column_uint64] from an unsigned one, and with both where the
    number is in both ranges; zeros that fill the text up do not matter. *)
Theorem column_integer_roundtrip `{Server} (s d : nat) (fields : list MYSQL_FIELD)
    (vs : list column_value) (i : nat) (v : column_value) (z : Z) (field : MYSQL_FIELD) (w : world)
    (Hrow : row_of s d fields vs w) (Hv : vs !! i = Some v) (Hz : integer_of v = Some z)
    (Hfield : fields !! i = Some field)
    (Hfill : has_flag (f_flags field) ZEROFILL_FLAG = true -> has_flag (f_flags field) UNSIGNED_FLAG = true) :
  (z <= LLONG_MAX -> wp (mylite_column_int64 (Some s) (Z.of_nat i)) (fun o w' => o = Ret z /\ w' = w) w) /\
  (0 <= z -> wp (mylite_column_uint64 (Some s) (Z.of_nat i)) (fun o w' => o = Ret z /\ w' = w) w).
Proof.
  assert (Hrange : LLONG_MIN <= z <= ULLONG_MAX).
  { destruct (row_of_column s d fields vs i v w Hrow Hv) as (_ & _ & field' & _ & _ & _ & _ & _ & _ & _ & Hok & _).
    destruct v; try done; injection Hz as ->; destruct Hok as [_ Hok];
      apply integer_ok_bounds in Hok; try lia; unfold ULLONG_MAX, LLONG_MIN, LLONG_MAX in *;
      destruct (has_flag (f_flags field') UNSIGNED_FLAG); lia. }
  unfold LLONG_MIN, LLONG_MAX, ULLONG_MAX in *. split; intros Hz'; eapply convert_text_decimal; try done.
  - intros text. apply strtoll_decimal. lia.
  - intros text. apply strtoull_decimal. lia.
Qed.

(** ** On the scripted server *)

Definition first_example_row : list column_value := [VLong (-41); VString (str "longer than its buffer")].

Lemma example_row : exists s w, row_of s 0 example_fields first_example_row w.
Proof.
  destruct example_first_row as (s & w & Hs & Hrow). exists s, w. do 2 eexists.
  split; [exact Hs|]. split; [exact Hrow|]. pose proof example_rows_sent as Hsent.
  inversion_clear Hsent as [|? ? ? ? [Hok _] _]. exact Hok.
Qed.


Lemma column_integer_roundtrip_witness :
  exists s w,
    (-41 <= LLONG_MAX -> wp (mylite_column_int64 (Some s) 0) (fun o w' => o = Ret (-41) /\ w' = w) w) /\
    (0 <= -41 -> wp (mylite_column_uint64 (Some s) 0) (fun o w' => o = Ret (-41) /\ w' = w) w).
Proof.
  destruct example_row as (s & w & Hrow). exists s, w.
  apply (column_integer_roundtrip s 0 example_fields first_example_row 0 (VLong (-41)) (-41) example_field w Hrow).
  - reflexivity.
  - reflexivity.
  - reflexivity.
  - vm_compute. discriminate.
Defined.
