(* ===== verification/Zend.v ===== *)
(** * Values of PHP

    What the PHP extensions share: the values of PHP, the functions of the
    Zend engine that the extensions call (the class [Zend], since the engine
    is outside the sources), the conversion of a column of a row to a value
    and of a value to a bind call.  The extensions have copies of these.  The
    memory manager of PHP ends the process when memory runs out, so that its
    functions do not fail. *)

From S2P Require Import Prelude Api Effects System Numbers World Runtime Exec Statement.
From stdpp Require Import options.

Local Open Scope Z_scope.

(** A [zval]; [IS_OTHER] is an array, an object or a resource. *)
Inductive zval : Set :=
| IS_NULL
| IS_FALSE
| IS_TRUE
| IS_LONG (lval : Z)
| IS_DOUBLE (dval : Z)
| IS_STRING (str : bytes)
| IS_REFERENCE (val : zval)
| IS_OTHER (handle : nat).

Definition ZVAL_DEREF (value : zval) : zval :=
  match value with IS_REFERENCE val => val | _ => value end.

Definition ZEND_LONG_MAX : Z := LLONG_MAX.
Definition UINT32_MAX : Z := 2 ^ 32 - 1.

(** The key of an element of an array: an integer or a string. *)
Inductive array_key : Set :=
| KeyLong (h : Z)
| KeyString (key : bytes).

#[global] Instance array_key_eq_dec : EqDecision array_key.
Proof. solve_decision. Defined.

(** An array: its elements in their order, with different keys. *)
Definition zend_array : Set := list (array_key * zval).

(** [zend_hash_update]: an element that is there is replaced where it is, a
    new one comes last. *)
Fixpoint zend_hash_update (a : zend_array) (key : array_key) (value : zval) : zend_array :=
  match a with
  | [] => [(key, value)]
  | (k, v) :: a =>
      if decide (k = key) then (k, value) :: a else (k, v) :: zend_hash_update a key value
  end.

(** [zend_hash_find] *)
Definition zend_hash_find (a : zend_array) (key : array_key) : option zval :=
  snd <$> List.find (fun entry => bool_decide (fst entry = key)) a.

(** The key that [add_next_index_zval] gives an element. *)
Definition next_index (a : zend_array) : Z :=
  foldr (fun entry n => match fst entry with KeyLong h => Z.max n (h + 1) | KeyString _ => n end) 0 a.
Definition add_next_index_zval (a : zend_array) (value : zval) : zend_array :=
  zend_hash_update a (KeyLong (next_index a)) value.

(** What the extensions use of PHP. *)
Class Zend : Set := {
  zval_get_string : zval -> option bytes;
  (** the integer that a string key stands for, if it does *)
  ZEND_HANDLE_NUMERIC_STR : bytes -> option Z;
}.

(** [add_assoc_zval_ex] *)
Definition symtable_key `{Zend} (key : bytes) : array_key :=
  match ZEND_HANDLE_NUMERIC_STR key with Some h => KeyLong h | None => KeyString key end.
Definition add_assoc_zval_ex `{Zend} (a : zend_array) (key : bytes) (value : zval) : zend_array :=
  zend_hash_update a (symtable_key key) value.

Section zval.
  Context `{Server, Zend}.

(** [ZVAL_STRINGL] of the text of a column, or null. *)
Definition text_to_zval (stmt : option nat) (column : Z) : cmd world zval :=
  text ← mylite_column_text stmt column;
  match text with
  | None => mret IS_NULL
  | Some b =>
      n ← mylite_column_bytes stmt column;
      data ← get_buffer b;
      if bool_decide (Z.to_nat n <= length data)%nat
      then mret (IS_STRING (take (Z.to_nat n) data))
      else undefined
  end.

(** [php_mylite_column_to_zval] and [pdo_mylite_column_to_zval] *)
Definition column_to_zval (stmt : option nat) (column : Z) : cmd world zval :=
  type ← mylite_column_type stmt column;
  match type with
  | MYLITE_TYPE_NULL => mret IS_NULL
  | MYLITE_TYPE_INT64 => n ← mylite_column_int64 stmt column; mret (IS_LONG n)
  | MYLITE_TYPE_UINT64 =>
      uint_value ← mylite_column_uint64 stmt column;
      mret (if uint_value <=? ZEND_LONG_MAX then IS_LONG uint_value
            else IS_STRING (to_string uint_value))
  | MYLITE_TYPE_DOUBLE => d ← mylite_column_double stmt column; mret (IS_DOUBLE d)
  | MYLITE_TYPE_TEXT | MYLITE_TYPE_BLOB => text_to_zval stmt column
  end.

(** [php_mylite_bind_zval], [pdo_mylite_bind_zval] and
    [php_mylite_mysqli_bind_zval] *)
Definition bind_zval (stmt : option nat) (index : Z) (value : zval) : cmd world Z :=
  match ZVAL_DEREF value with
  | IS_NULL => mylite_bind_null stmt index
  | IS_FALSE => mylite_bind_int64 stmt index 0
  | IS_TRUE => mylite_bind_int64 stmt index 1
  | IS_LONG lval => mylite_bind_int64 stmt index lval
  | IS_DOUBLE dval => mylite_bind_double stmt index dval
  | v =>
      match zval_get_string v with
      | None => mret MYLITE_NOMEM
      | Some string_value =>
          '(result, _) ← mylite_bind_text stmt index (Some (string_value ++ [zero]))
             (Z.of_nat (length string_value)) MYLITE_TRANSIENT;
          mret result
      end
  end.

(** [php_mylite_add_current_row] and [php_mylite_mysqli_add_current_row] up to
    the addition to the rows, with the conversion of a column: the loop over
    the columns. *)
Fixpoint row_columns (convert : option nat -> Z -> cmd world zval) (stmt : option nat)
    (columns : list nat) (row : zend_array) : cmd world zend_array :=
  match columns with
  | [] => mret row
  | column :: columns =>
      name ← mylite_column_name stmt (Z.of_nat column);
      value ← convert stmt (Z.of_nat column);
      row_columns convert stmt columns (add_assoc_zval_ex row (default [] (c_str <$> name)) value)
  end.
Definition current_row (convert : option nat -> Z -> cmd world zval) (stmt : option nat)
    : cmd world zend_array :=
  column_count ← mylite_column_count stmt;
  row_columns convert stmt (seq 0 (Z.to_nat column_count)) [].

(** [while (step_result == MYLITE_ROW)], which adds the current row and steps:
    the rows and the result of the last step.  [fuel] bounds the number of
    rows. *)
Fixpoint rows_loop (convert : option nat -> Z -> cmd world zval) (fuel : nat) (stmt : option nat)
    (step_result : Z) (rows : list zend_array) : cmd world (list zend_array * Z) :=
  if step_result =? MYLITE_ROW then
    match fuel with
    | O => out_of_fuel
    | S fuel =>
        row ← current_row convert stmt;
        step_result ← mylite_step stmt;
        rows_loop convert fuel stmt step_result (rows ++ [row])
    end
  else mret (rows, step_result).
End zval.
