(* ===== verification/ZendFacts.v ===== *)
(** * Values and rows as the PHP extensions read them

    The value of a column that the extensions hand to PHP ([php_value]), the
    call that binds a PHP value ([zval_call]), and the rows of a statement by
    the values the server stored. *)

From S2P Require Import Prelude Api Effects SqlLexer SqlPolicy SqlPolicyTheorems System Numbers World.
From S2P Require Import Formats FormatsFacts BinaryRow BinaryFacts ClientQuery ClientStmt Runtime Exec Statement.
From S2P Require Import Frames Rules ClientFacts Scripted RuntimeFacts Library ExecFacts Termination StatementFacts.
From S2P Require Import Lifetime Bindings Rows ProtocolRows Fetch Step Execute Prepared PreparedTheorems Interleaving.
From S2P Require Import Columns Zend.
From stdpp Require Import options.
Set Default Proof Using "Type*".

Local Open Scope Z_scope.

(** ** Values *)

(** A column that PHP gets as a float. *)
Definition is_float (field : MYSQL_FIELD) : bool :=
  match f_type field with
  | MYSQL_TYPE_FLOAT | MYSQL_TYPE_DOUBLE | MYSQL_TYPE_DECIMAL | MYSQL_TYPE_NEWDECIMAL => true
  | _ => false
  end.

(** The PHP value of a value in a column: an integer if it fits in one, else
    its digits; a float; or the text. *)
Definition php_value `{Server} (field : MYSQL_FIELD) (v : column_value) : zval :=
  match integer_of v with
  | Some z => if z <=? LLONG_MAX then IS_LONG z else IS_STRING (to_string z)
  | None =>
      match mjoin (value_text field (initial_width field) v) with
      | None => IS_NULL
      | Some text => if is_float field then IS_DOUBLE (strtod (c_str text)) else IS_STRING text
      end
  end.

(** What MariaDB guarantees of numeric columns: [ZEROFILL] columns are
    unsigned. *)
Definition zerofill_unsigned (fields : list MYSQL_FIELD) : Prop :=
  Forall (fun field => has_flag (f_flags field) ZEROFILL_FLAG = true ->
            has_flag (f_flags field) UNSIGNED_FLAG = true) fields.

Lemma c_str_idemp text : c_str (c_str text) = c_str text.
Proof.
  induction text as [|c text IH]; [done|]. unfold c_str in *. simpl.
  destruct (Ascii.eqb c zero) eqn:E; simpl; [done|]. rewrite E. simpl. by rewrite IH.
Qed.
Lemma c_str_cut text rest : c_str (text ++ zero :: rest) = c_str text.
Proof.
  induction text as [|c text IH]; [done|]. unfold c_str in *. simpl.
  destruct (negb (Ascii.eqb c zero)); [|done]. simpl. by f_equal.
Qed.

Lemma column_type_cases `{Server} c field v t bufs width :
  column_description c = field_description field -> shows bufs c t -> value_ok field v ->
  value_text field width v = Some t ->
  match integer_of v, t with
  | Some _, _ =>
      column_type c = if has_flag (f_flags field) UNSIGNED_FLAG then MYLITE_TYPE_UINT64 else MYLITE_TYPE_INT64
  | None, None => column_type c = MYLITE_TYPE_NULL
  | None, Some _ =>
      if is_float field then column_type c = MYLITE_TYPE_DOUBLE
      else column_type c = MYLITE_TYPE_TEXT \/ column_type c = MYLITE_TYPE_BLOB
  end.
Proof.
  intros [= Hty Hflags _ _ _ _] Hshows Hv Ht. unfold column_type, is_float.
  destruct (shows_cases _ _ _ Hshows) as [[-> ->]|(text & _ & _ & -> & -> & _)]; simpl.
  { destruct v; simpl in *; try done; by destruct (my_TIME_to_str _ _). }
  rewrite Hty, Hflags.
  destruct v as [|z|z|z|z|data|data|data|tm|tm|tm]; [done|..];
    cbn [value_ok integer_of] in *; destruct Hv as [Hf Hv]; destruct_or?; try rewrite Hf;
    try done; try (by left).
  destruct (f_type field); try done; try (by left); destruct (has_flag _ _); auto.
Qed.

Section columns.
  Context `{Server, Zend}.

Lemma integer_column_spec s d fields vs i v z field w :
  row_of s d fields vs w -> vs !! i = Some v -> integer_of v = Some z ->
  fields !! i = Some field ->
  (has_flag (f_flags field) ZEROFILL_FLAG = true -> has_flag (f_flags field) UNSIGNED_FLAG = true) ->
  (if has_flag (f_flags field) UNSIGNED_FLAG then 0 <= z <= ULLONG_MAX else LLONG_MIN <= z <= LLONG_MAX) /\
  wp (convert_text (if has_flag (f_flags field) UNSIGNED_FLAG then strtoull else strtoll)
        (Some s) (Z.of_nat i)) (fun o w' => o = Ret z /\ w' = w) w.
Proof.
  intros Hrow Hv Hz Hfield Hfill.
  assert (Hrange : if has_flag (f_flags field) UNSIGNED_FLAG then 0 <= z <= ULLONG_MAX
                   else LLONG_MIN <= z <= LLONG_MAX).
  { destruct (row_of_column s d fields vs i v _ Hrow Hv) as (_ & _ & field' & _ & _ & _ & _ & Hf & _ & _ & Hok & _).
    rewrite Hfield in Hf. injection Hf as <-.
    destruct v; try done; injection Hz as ->; destruct Hok as [_ Hok];
      (eapply integer_ok_bounds; [|exact Hok]); lia. }
  split; [done|]. eapply convert_text_decimal; [done..|]. intros text Htext.
  unfold ULLONG_MAX, LLONG_MIN, LLONG_MAX in Hrange.
  destruct (has_flag (f_flags field) UNSIGNED_FLAG); [apply strtoull_decimal|apply strtoll_decimal];
    (done || lia).
Qed.

(** A column with a text. *)
Record texted (s i b : nat) (text : bytes) (w : world) : Prop := mkTexted {
  tx_pointer : forall Q : outcome (option nat) -> world -> Prop, Q (Ret (Some b)) w ->
    wp (mylite_column_text (Some s) (Z.of_nat i)) Q w;
  tx_length : forall Q : outcome Z -> world -> Prop, Q (Ret (Z.of_nat (length text))) w ->
    wp (mylite_column_bytes (Some s) (Z.of_nat i)) Q w;
  tx_data : exists data, buffers w !! b = Some data /\ take (length text) data = text /\
    data !! length text = Some zero;
}.

Lemma shows_texted s st i c text w :
  stmts w !! s = Some st -> has_row st = true -> columns st !! i = Some c ->
  shows (buffers w) c (Some text) -> exists b, texted s i b text w.
Proof.
  intros Hst Hhas Hc (Hnull & Hlen & b & data & Hb & Hdata & Htake & Hzero). exists b. split.
  - intros Q HQ. unfold mylite_column_text. apply wp_bind. eapply (value_column_spec s st i c); [done..|].
    apply bind_post_ret, wp_ret. by rewrite Hnull, Hb.
  - intros Q HQ. unfold mylite_column_bytes. apply wp_bind. eapply (value_column_spec s st i c); [done..|].
    apply bind_post_ret, wp_ret. by rewrite Hnull, Hlen.
  - by exists data.
Qed.

Lemma double_column_spec s i b text w :
  texted s i b text w ->
  wp (mylite_column_double (Some s) (Z.of_nat i)) (fun o w' => o = Ret (strtod (c_str text)) /\ w' = w) w.
Proof.
  intros [Hptr _ (data & Hdata & Htake & Hzero)].
  unfold mylite_column_double, convert_text. apply wp_bind, Hptr, bind_post_ret. simpl.
  unfold read_c_string. wp_auto. rewrite <- (take_drop_middle _ _ _ Hzero), Htake, existsb_app.
  simpl. rewrite orb_true_r. wp_auto. by rewrite c_str_cut.
Qed.

Lemma string_column_spec s i b text w :
  texted s i b text w ->
  wp (text_to_zval (Some s) (Z.of_nat i)) (fun o w' => o = Ret (IS_STRING text) /\ w' = w) w.
Proof.
  intros [Hptr Hlen (data & Hdata & Htake & Hzero)].
  unfold text_to_zval. apply wp_bind, Hptr, bind_post_ret, wp_bind, Hlen, bind_post_ret. wp_auto.
  rewrite Nat2Z.id, bool_decide_eq_true_2, Htake by (apply lookup_lt_Some in Hzero; lia). by apply wp_ret.
Qed.

Lemma column_type_reads s st i c w :
  stmts w !! s = Some st -> columns st !! i = Some c ->
  wp (mylite_column_type (Some s) (Z.of_nat i)) (fun o w' => o = Ret (column_type c) /\ w' = w) w.
Proof.
  intros Hst Hc. unfold mylite_column_type, metadata_column_at. wp_auto.
  by rewrite (proj2 (Z.leb_gt _ _)), Nat2Z.id, Hc by (apply lookup_lt_Some in Hc; lia).
Qed.

Lemma column_to_zval_spec s d fields vs i v field w :
  row_of s d fields vs w -> vs !! i = Some v -> fields !! i = Some field -> zerofill_unsigned fields ->
  wp (column_to_zval (Some s) (Z.of_nat i)) (fun o w' => o = Ret (php_value field v) /\ w' = w) w.
Proof.
  intros Hrow Hv Hfield Hfill. pose proof (proj1 (Forall_lookup _ _) Hfill i field Hfield) as Hfill'.
  pose proof (integer_column_spec s d fields vs i v) as Hint.
  destruct (row_of_column s d fields vs i v _ Hrow Hv)
    as (st & c & field' & t & Hst & Hhas & Hc & Hf & Hshows & Hdesc & Hok & Ht).
  rewrite Hfield in Hf. injection Hf as <-.
  pose proof (column_type_cases c field v t _ _ Hdesc Hshows Hok Ht) as Hcases.
  unfold column_to_zval, php_value. apply wp_bind. eapply wp_mono; [by eapply column_type_reads|].
  intros o w' [-> ->]. apply bind_post_ret. destruct (integer_of v) as [z|] eqn:Hz.
  - destruct (Hint z field w Hrow Hv eq_refl Hfield Hfill') as [Hrange Hread]. rewrite Hcases.
    destruct (has_flag (f_flags field) UNSIGNED_FLAG); apply wp_bind;
      (eapply wp_mono; [exact Hread|]); intros o w' [-> ->]; apply bind_post_ret, wp_ret; [by split|].
    by rewrite (proj2 (Z.leb_le z LLONG_MAX)) by lia.
  - rewrite Ht. destruct t as [text|]; [|by rewrite Hcases; apply wp_ret]. simpl.
    destruct (shows_texted s st i c text w) as (b & Htext); [done..|].
    destruct (is_float field).
    + rewrite Hcases. apply wp_bind. eapply wp_mono; [by eapply double_column_spec|]. intros o w' [-> ->].
      by apply bind_post_ret, wp_ret.
    + destruct Hcases as [-> | ->]; by eapply string_column_spec.
Qed.
End columns.


(** ** Rows *)

Section rows.
  Context `{Server, Zend}.

(** The rows on their way. *)
Definition packets (rows : list (list column_value)) : list MYSQL_ROW :=
  map BinaryRow (map row_packet rows).

(** What a step does when the rows [rows] are left. *)
Definition sent_outcome (s d : nat) (fields : list MYSQL_FIELD) (rows : list (list column_value))
    (o : outcome Z) (w : world) : Prop :=
  match rows with
  | vs :: rest => o = Ret MYLITE_ROW /\ stepping s d fields (packets rest) w /\ row_of s d fields vs w
  | [] => o = Ret MYLITE_DONE /\ ended s d fields w
  end.

Lemma step_outcome_sent s d fields rows texts :
  rows_sent fields rows texts -> exists values,
    Forall2 (row_decodes fields) (map row_packet rows) values /\
    forall o w, step_outcome s d fields (map row_packet rows) values o w -> sent_outcome s d fields rows o w.
Proof.
  intros Hsent. destruct (rows_sent_decode _ _ _ Hsent) as (values & Hd & Hv). exists values.
  split; [done|]. intros o w Hout. destruct Hsent as [|vs ts rows texts [Hok _] _]; [exact Hout|].
  destruct values as [|row values]; [by inversion Hd|]. simpl in Hv. injection Hv as <- _.
  destruct Hout as (-> & Hs & Hrow). split; [done|]. split; [done|].
  by exists (packets rows), (map row_value row).
Qed.

Lemma next_step_sent s d fields rows texts w :
  rows_sent fields rows texts -> stepping s d fields (packets rows) w ->
  wp (mylite_step (Some s)) (fun o w' => sent_outcome s d fields rows o w' /\ kept_by_steps w w') w.
Proof.
  intros Hsent Hs. destruct (step_outcome_sent s d _ _ _ Hsent) as (values & Hd & Hout).
  eapply wp_mono; [by eapply step_outcome_spec|]. intros o w' [Ho Hk]. split; [by apply Hout|done].
Qed.

Lemma first_step_sent s d m id vs fields st ms c data rows texts srv fs w :
  idle s d m id vs fields st ms c w -> columns_known fields ->
  executes d id vs data srv fs w -> d_fields_list data = Some fields ->
  d_rows data = packets rows -> rows_sent fields rows texts ->
  wp (mylite_step (Some s)) (fun o w' => sent_outcome s d fields rows o w' /\
    server_state w' = srv /\ files (sys w') = fs) w.
Proof.
  intros Hi (Hne & _ & Hknown) Hx Hf Hrows Hsent.
  destruct (step_outcome_sent s d _ _ _ Hsent) as (values & Hd & Hout).
  eapply first_step_spec; [done..|]. intros w1 Hs1 Hsrv Hfs. rewrite Hrows in Hs1.
  eapply wp_mono; [by eapply fetch_outcome|]. intros o w2 [Ho [Hsrv2 Hsys2]].
  split; [by apply Hout|]. split; congruence.
Qed.

Lemma sent_outcome_ret s d fields rows o w :
  sent_outcome s d fields rows o w -> exists r, o = Ret r.
Proof. destruct rows; intros [-> _]; by eexists. Qed.

Lemma column_count_reads s d fields vs w :
  row_of s d fields vs w -> Z.of_nat (length fields) < 2 ^ 32 -> length vs = length fields /\
  wp (mylite_column_count (Some s)) (fun o w' => o = Ret (Z.of_nat (length fields)) /\ w' = w) w.
Proof.
  intros (rows & ts & Hs & Hrow & Hok) Hlen.
  destruct (column_count_spec _ _ _ _ _ _ Hs Hrow Hlen) as [Hts Hcount].
  apply Forall3_length_lm in Hok as Hl. rewrite length_fmap in Hl. split; [done|]. by rewrite <- Hts.
Qed.

(** The rows as PHP values. *)
Definition php_rows (fields : list MYSQL_FIELD) (rows : list (list column_value)) : list (list zval) :=
  map (zip_with php_value fields) rows.

Lemma ended_count_reads s d fields w :
  ended s d fields w -> fields <> [] -> Z.of_nat (length fields) < 2 ^ 32 ->
  wp (mylite_column_count (Some s)) (fun o w' => o = Ret (Z.of_nat (length fields)) /\ w' = w) w.
Proof.
  intros [[(m & st & ms & Hst & Hms & Hm & _) _] (st' & Hst' & Hlen%(f_equal length))] Hne Hsize.
  rewrite !length_fmap in Hlen.
  rewrite Hst in Hst'. injection Hst' as <-. unfold mylite_column_count. wp_auto. rewrite Hm.
  destruct (columns st) as [|c cs] eqn:Hc; [by destruct fields|]. wp_auto.
  by rewrite Hlen, Z.mod_small by lia.
Qed.


(** ** Rows as arrays *)

(** The name of a column, as C code reads it. *)
Definition column_name (field : MYSQL_FIELD) : bytes := c_str (default [] (f_name field)).

(** The columns in their order, each under its name: a column with the name of
    an earlier one replaces its value. *)
Definition add_columns (row : zend_array) (columns : list (bytes * zval)) : zend_array :=
  foldl (fun row column => add_assoc_zval_ex row (fst column) (snd column)) row columns.

Lemma column_name_reads s d fields vs i v field w :
  row_of s d fields vs w -> vs !! i = Some v -> fields !! i = Some field ->
  wp (mylite_column_name (Some s) (Z.of_nat i)) (fun o w' => o = Ret (Some (column_name field)) /\ w' = w) w.
Proof.
  intros Hrow Hv Hfield. destruct (row_of_column s d fields vs i v _ Hrow Hv)
    as (st & c & field' & t & Hst & Hhas & Hc & Hf & _ & Hdesc & _).
  rewrite Hfield in Hf. injection Hf as <-. injection Hdesc as _ _ Hname _ _ _.
  unfold mylite_column_name, metadata_column_at. wp_auto.
  rewrite (proj2 (Z.leb_gt _ _)), Nat2Z.id, Hc by (apply lookup_lt_Some in Hc; lia). simpl. by rewrite Hname.
Qed.

Lemma row_columns_spec convert (value : MYSQL_FIELD -> column_value -> zval) s d fields vs w :
  row_of s d fields vs w -> length vs = length fields ->
  (forall i field v, fields !! i = Some field -> vs !! i = Some v ->
     wp (convert (Some s) (Z.of_nat i)) (fun o w' => o = Ret (value field v) /\ w' = w) w) ->
  forall n k row, (k + n = length fields)%nat ->
  wp (row_columns convert (Some s) (seq k n) row) (fun o w' => w' = w /\
    o = Ret (add_columns row (drop k (zip (column_name <$> fields) (zip_with value fields vs))))) w.
Proof.
  intros Hrow Hvs Hconvert. induction n as [|n IH]; intros k row Hk; simpl.
  { apply wp_ret. rewrite drop_ge; [done|]. rewrite length_zip, length_fmap, length_zip_with. lia. }
  destruct (lookup_lt_is_Some_2 fields k) as [field Hfield]; [lia|].
  destruct (lookup_lt_is_Some_2 vs k) as [v Hv]; [lia|].
  apply wp_bind. eapply wp_mono; [by eapply column_name_reads|]. intros o w' [-> ->]. apply bind_post_ret, wp_bind.
  eapply wp_mono; [by eapply Hconvert|]. intros o w' [-> ->]. apply bind_post_ret.
  rewrite (drop_S _ (column_name field, value field v) k).
  - simpl. unfold column_name at 1. rewrite c_str_idemp. apply IH. lia.
  - rewrite lookup_zip_with, list_lookup_fmap, Hfield. simpl. by rewrite lookup_zip_with, Hfield, Hv.
Qed.

Definition assoc_row (fields : list MYSQL_FIELD) (values : list zval) : zend_array :=
  add_columns [] (zip (column_name <$> fields) values).

Lemma current_row_spec convert value s d fields vs w :
  row_of s d fields vs w -> Z.of_nat (length fields) < 2 ^ 32 ->
  (forall i field v, fields !! i = Some field -> vs !! i = Some v ->
     wp (convert (Some s) (Z.of_nat i)) (fun o w' => o = Ret (value field v) /\ w' = w) w) ->
  wp (current_row convert (Some s)) (fun o w' => w' = w /\
    o = Ret (assoc_row fields (zip_with value fields vs))) w.
Proof.
  intros Hrow Hlen Hconvert. destruct (column_count_reads _ _ _ _ _ Hrow Hlen) as [Hvs Hcount].
  unfold current_row. apply wp_bind. eapply wp_mono; [exact Hcount|]. intros o w' [-> ->]. apply bind_post_ret.
  rewrite Nat2Z.id. by apply (row_columns_spec convert value s d fields vs w Hrow Hvs Hconvert _ 0 []).
Qed.

(** What the loop over the rows gives when [sent_outcome] is what the last step
    did. *)
Lemma rows_loop_spec convert value s d fields rows texts :
  Z.of_nat (length fields) < 2 ^ 32 ->
  (forall vs w i field v, row_of s d fields vs w -> fields !! i = Some field -> vs !! i = Some v ->
     wp (convert (Some s) (Z.of_nat i)) (fun o w' => o = Ret (value field v) /\ w' = w) w) ->
  rows_sent fields rows texts -> forall fuel acc r w, (length rows <= fuel)%nat ->
  sent_outcome s d fields rows (Ret r) w ->
  wp (rows_loop convert fuel (Some s) r acc) (fun o w' =>
    o = Ret (acc ++ map (fun vs => assoc_row fields (zip_with value fields vs)) rows, MYLITE_DONE) /\
    ended s d fields w' /\ kept_by_steps w w') w.
Proof.
  intros Hlen Hconvert. induction 1 as [|vs ts rows texts Hrow Hsent IH]; intros fuel acc r w Hfuel.
  - intros [[= ->] Hended]. destruct fuel; cbn [rows_loop]; change (MYLITE_DONE =? MYLITE_ROW) with false;
      apply wp_ret; by rewrite app_nil_r.
  - intros ([= ->] & Hs & Hat). destruct fuel as [|fuel]; [simpl in Hfuel; lia|]. cbn [rows_loop].
    change (MYLITE_ROW =? MYLITE_ROW) with true. cbn iota. apply wp_bind.
    eapply wp_mono; [eapply (current_row_spec convert value); [exact Hat|done|intros; by eapply Hconvert]|].
    intros o w' [-> ->]. apply bind_post_ret, wp_bind. eapply wp_mono; [by eapply next_step_sent|].
    intros o w1 [Ho Hk]. destruct (sent_outcome_ret _ _ _ _ _ _ Ho) as [r ->]. apply bind_post_ret.
    eapply wp_mono; [apply IH; [simpl in Hfuel; lia|exact Ho]|]. intros o w2 (-> & Hended & Hk2).
    split; [by rewrite <- app_assoc|]. split; [done|]. destruct Hk, Hk2. split; congruence.
Qed.

(** Columns with different keys are the elements of the array. *)
Lemma zend_hash_update_new a key v : key ∉ fst <$> a -> zend_hash_update a key v = a ++ [(key, v)].
Proof.
  induction a as [|[k x] a IH]; simpl; [done|]. intros [Hne Hnot]%not_elem_of_cons.
  rewrite decide_False by done. by rewrite IH.
Qed.

Lemma add_columns_distinct columns : forall row,
  NoDup ((fst <$> row) ++ (symtable_key ∘ fst <$> columns)) ->
  add_columns row columns = row ++ (prod_map symtable_key id <$> columns).
Proof.
  induction columns as [|[name v] columns IH]; intros row Hno; simpl; [by rewrite app_nil_r|].
  unfold add_assoc_zval_ex. simpl in Hno. rewrite zend_hash_update_new.
  - rewrite IH, <- app_assoc; [done|]. by rewrite fmap_app, <- app_assoc.
  - apply NoDup_app in Hno as (_ & Hnot & _). intros Hin. by apply (Hnot _ Hin), elem_of_cons; left.
Qed.

Lemma zip_keys {A B C} (f : A -> B) (names : list A) (values : list C) :
  prod_map f id <$> zip names values = zip (f <$> names) values.
Proof. revert values. induction names as [|x names IH]; intros [|v values]; simpl; [done..|]. by f_equal. Qed.

Lemma assoc_row_distinct fields values :
  NoDup (symtable_key ∘ column_name <$> fields) -> length values = length fields ->
  assoc_row fields values = zip (symtable_key ∘ column_name <$> fields) values.
Proof.
  intros Hno Hlen. unfold assoc_row. rewrite add_columns_distinct; simpl.
  - rewrite list_fmap_compose. by rewrite zip_keys.
  - rewrite list_fmap_compose in Hno. by rewrite (list_fmap_compose fst), fst_zip by (rewrite length_fmap; lia).
Qed.

(** ** A query *)

(** What the queries of the extensions have in common, on a state of which the
    library is a part: the statement is prepared, executed and stepped through,
    and [rest] gets it with its rows. *)
Section query.
  Context `{Build} {S : Type} (part : S -> world) (set_part : world -> S -> S).
  Context (part_set : forall w s, part (set_part w s) = w)
          (set_set : forall w w' s, set_part w (set_part w' s) = set_part w s).

Lemma wp_part {A} (m : cmd world A) (Q : outcome A -> S -> Prop) s0 :
  wp m (fun o w => Q o (set_part w s0)) (part s0) -> wp (zoom part set_part m) Q s0.
Proof using Type. unfold wp, zoom. by destruct (m (part s0)). Qed.

Lemma wp_part_again {A} (m : cmd world A) (Q : outcome A -> S -> Prop) w s0 :
  wp m (fun o w' => Q o (set_part w' s0)) w -> wp (zoom part set_part m) Q (set_part w s0).
Proof using part_set set_set.
  intros Hm. apply wp_part. rewrite part_set. eapply wp_mono; [exact Hm|]. intros o w'. by rewrite set_set.
Qed.

Lemma query_rows_spec {A} convert value d sql id fields data rows texts srv srv' fs fs' fuel fail
    (rest : option nat -> list zend_array -> Z -> cmd S A) (Q : outcome A -> S -> Prop) s0 :
  at_rest d (part s0) -> preparable d sql (Z.of_nat (length sql)) (part s0) ->
  prepares d sql id 0 fields srv fs (part s0) -> columns_known fields ->
  (forall s vs w i field v, row_of s d fields vs w -> fields !! i = Some field -> vs !! i = Some v ->
     wp (convert (Some s) (Z.of_nat i)) (fun o w' => o = Ret (value field v) /\ w' = w) w) ->
  executes d id [] data srv' fs' (set_server_state srv fs (part s0)) ->
  d_fields_list data = Some fields -> d_rows data = packets rows -> rows_sent fields rows texts ->
  (length rows <= fuel)%nat ->
  (forall s w, ended s d fields w -> server_state w = srv' ->
     wp (rest (Some s) (map (fun vs => assoc_row fields (zip_with value fields vs)) rows) MYLITE_DONE) Q
       (set_part w s0)) ->
  wp ('(prepare_result, stmt, _) ← zoom part set_part
        (mylite_prepare (Some d) (Some (sql ++ [zero])) (Z.of_nat (length sql)) true);
      if negb (prepare_result =? MYLITE_OK) then fail prepare_result
      else
        step_result ← zoom part set_part (mylite_step stmt);
        '(rows, step_result) ← zoom part set_part (rows_loop convert fuel stmt step_result []);
        rest stmt rows step_result) Q s0.
Proof using part_set set_set.
  intros Hrest (Hlen & Hnul & (z & Hz & Hok) & Hcall) Hprep Hknown Hconvert Hexec Hdata Hpackets Hrows Hfuel Hk.
  rewrite Nat2Z.id, firstn_all in Hok, Hcall.
  assert (Htake : take (Z.to_nat (Z.of_nat (length sql))) (sql ++ [zero]) = sql).
  { by rewrite Nat2Z.id, take_app_length. }
  apply wp_bind, wp_part. eapply wp_mono.
  { eapply (prepare_idle_spec d z _ _ id 0 fields srv fs); simpl; rewrite ?Htake; try done.
    rewrite length_app. simpl. lia. }
  intros o w1 (s & -> & m & st & ms & c & Hi & Hsrv & Hfs). apply bind_post_ret.
  change (negb (MYLITE_OK =? MYLITE_OK)) with false. cbn iota.
  pose proof (executes_same _ _ _ _ _ _ _ _ _ w1 Hexec Hsrv Hfs) as Hx1.
  apply wp_bind, wp_part_again. eapply wp_mono; [by eapply first_step_sent|].
  intros o w2 (Hsent & Hsrv2 & _). destruct (sent_outcome_ret _ _ _ _ _ _ Hsent) as [r0 ->]. apply bind_post_ret.
  apply wp_bind, wp_part_again. eapply wp_mono.
  { eapply (rows_loop_spec convert value); [apply Hknown|by intros; eapply Hconvert|exact Hrows|done|exact Hsent]. }
  intros o w3 (-> & Hended & Hsrv3 & _). apply bind_post_ret. apply Hk; [done|congruence].
Qed.
End query.

(** ** Parameters *)

(** The call that binds a value. *)
Definition zval_call (value : zval) : option bind_call :=
  match ZVAL_DEREF value with
  | IS_NULL => Some BindNull
  | IS_FALSE => Some (BindInt64 0)
  | IS_TRUE => Some (BindInt64 1)
  | IS_LONG lval => Some (BindInt64 lval)
  | IS_DOUBLE dval => Some (BindDouble dval)
  | v => (fun s => BindText (Some (s ++ [zero])) (Z.of_nat (length s)) MYLITE_TRANSIENT) <$> zval_get_string v
  end.

Lemma bind_zval_spec value call stmt index (Q : outcome Z -> world -> Prop) w :
  zval_call value = Some call -> wp (run_bind call stmt index) Q w -> wp (bind_zval stmt index value) Q w.
Proof.
  unfold zval_call, bind_zval. intros Hcall HQ.
  destruct (ZVAL_DEREF value); try (apply fmap_Some in Hcall as (s & -> & ->)); try injection Hcall as <-;
    exact HQ.
Qed.

Lemma zval_call_terminated value call : zval_call value = Some call -> terminated call.
Proof.
  unfold zval_call. destruct (ZVAL_DEREF value);
    try (intros Hcall; apply fmap_Some in Hcall as (s & _ & ->); simpl; set_solver);
    by intros [= <-].
Qed.

End rows.

(** ** On the scripted server *)

(** A plain reading of decimal keys. *)
Definition decimal_key (key : bytes) : option Z :=
  let n := strtoll key in
  if bool_decide (to_string n = key) then Some n else None.

#[global] Instance plain_zend : Zend := {
  zval_get_string v := match v with IS_STRING s => Some s | _ => Some [] end;
  ZEND_HANDLE_NUMERIC_STR := decimal_key;
}.
