(* ===== verification/Php.v ===== *)
(** * The extension mylite

    [packages/php-ext-mylite/src/php_mylite.c]: the classes [MyLite\Connection],
    [MyLite\Statement] and [MyLite\Result] over the functions of [mylite.h].
    A method returns a value or throws a [MyLite\Exception]; the parsing of its
    arguments is the engine's.  The engine counts the references to an object
    and frees it when there are none left: the count of a connection is part
    of the state, because statements hold references to their connection. *)

From S2P Require Import Prelude Api Effects System Numbers World Runtime Exec Statement Zend.
From stdpp Require Import options.

Local Open Scope Z_scope.

(** ** Objects *)

(** [struct php_mylite_connection], with the count of the references to it. *)
Record php_mylite_connection : Set := mkConnection {
  connection_db : option nat;
  connection_refs : nat;
}.

(** [struct php_mylite_statement] *)
Record php_mylite_statement : Set := mkStatement {
  statement_stmt : option nat;
  connection_object : option nat;
  statement_step_result : Z;
}.

(** [struct php_mylite_result] *)
Record php_mylite_result : Set := mkResult {
  result_rows : list zend_array;
  result_position : nat;
}.

Inductive php_result (A : Type) : Type :=
| Returned (a : A)
| Thrown (message : bytes) (code : Z).
Arguments Returned {A} a.
Arguments Thrown {A} message code.

Definition with_connection_db (db : option nat) (x : php_mylite_connection) : php_mylite_connection :=
  mkConnection db (connection_refs x).
Definition with_statement_step_result (r : Z) (x : php_mylite_statement) : php_mylite_statement :=
  mkStatement (statement_stmt x) (connection_object x) r.

Section php.
  Context `{Server, Build, Zend}.

Record php : Type := mkPhp {
  php_library : world;
  connection_objects : gmap nat php_mylite_connection;
  statement_objects : gmap nat php_mylite_statement;
  result_objects : gmap nat php_mylite_result;
}.

Definition set_php_library (w : world) (p : php) : php :=
  mkPhp w (connection_objects p) (statement_objects p) (result_objects p).
Definition set_connection_objects (v : gmap nat php_mylite_connection) (p : php) : php :=
  mkPhp (php_library p) v (statement_objects p) (result_objects p).
Definition set_statement_objects (v : gmap nat php_mylite_statement) (p : php) : php :=
  mkPhp (php_library p) (connection_objects p) v (result_objects p).
Definition set_result_objects (v : gmap nat php_mylite_result) (p : php) : php :=
  mkPhp (php_library p) (connection_objects p) (statement_objects p) v.

(** A call of a function of [mylite.h]. *)
Definition call_library {A} (m : cmd world A) : cmd php A := zoom php_library set_php_library m.

Definition get_connection (c : nat) : cmd php php_mylite_connection :=
  deref (fun p => connection_objects p !! c).
Definition put_connection (c : nat) (x : php_mylite_connection) : cmd php unit :=
  modify (fun p => set_connection_objects (<[c := x]> (connection_objects p)) p).
Definition get_statement (q : nat) : cmd php php_mylite_statement :=
  deref (fun p => statement_objects p !! q).
Definition put_statement (q : nat) (x : php_mylite_statement) : cmd php unit :=
  modify (fun p => set_statement_objects (<[q := x]> (statement_objects p)) p).
Definition get_result (r : nat) : cmd php php_mylite_result := deref (fun p => result_objects p !! r).
Definition put_result (r : nat) (x : php_mylite_result) : cmd php unit :=
  modify (fun p => set_result_objects (<[r := x]> (result_objects p)) p).

(** A function of [mylite.h] that reads a field of the handle. *)
Definition read_handle {A} (f : option mylite_db -> A) (d : nat) : cmd php A :=
  x ← call_library (get_db d); mret (f (Some x)).

(** ** Creating and freeing objects *)

(** A new connection object, with one reference to it. *)
Definition php_mylite_connection_create : cmd php nat := fun p =>
  let c := fresh (dom (connection_objects p)) in
  (Ret c, set_connection_objects (<[c := mkConnection None 1]> (connection_objects p)) p).

Definition php_mylite_statement_create : cmd php nat := fun p =>
  let q := fresh (dom (statement_objects p)) in
  (Ret q, set_statement_objects (<[q := mkStatement None None MYLITE_DONE]> (statement_objects p)) p).

Definition php_mylite_result_create : cmd php nat := fun p =>
  let r := fresh (dom (result_objects p)) in
  (Ret r, set_result_objects (<[r := mkResult [] 0]> (result_objects p)) p).

Definition php_mylite_connection_free (c : nat) : cmd php unit :=
  connection ← get_connection c;
  match connection_db connection with
  | Some d => call_library (mylite_close (Some d)) ;; mret tt
  | None => mret tt
  end ;;
  modify (fun p => set_connection_objects (delete c (connection_objects p)) p).

(** [GC_ADDREF] and [OBJ_RELEASE] of a connection object. *)
Definition GC_ADDREF (c : nat) : cmd php unit :=
  x ← get_connection c; put_connection c (mkConnection (connection_db x) (S (connection_refs x))).
Definition OBJ_RELEASE (c : nat) : cmd php unit :=
  x ← get_connection c;
  let x := mkConnection (connection_db x) (pred (connection_refs x)) in
  put_connection c x ;;
  match connection_refs x with
  | O => php_mylite_connection_free c
  | S _ => mret tt
  end.

Definition php_mylite_statement_free (q : nat) : cmd php unit :=
  statement ← get_statement q;
  match statement_stmt statement with
  | Some s =>
      call_library (mylite_finalize (Some s)) ;;
      put_statement q (mkStatement None (connection_object statement) (statement_step_result statement))
  | None => mret tt
  end ;;
  match connection_object statement with
  | Some c => OBJ_RELEASE c
  | None => mret tt
  end ;;
  modify (fun p => set_statement_objects (delete q (statement_objects p)) p).

Definition php_mylite_result_free (r : nat) : cmd php unit :=
  modify (fun p => set_result_objects (delete r (result_objects p)) p).

(** ** Exceptions *)

Definition php_mylite_throw_db {A} (db : option nat) (result : Z) (fallback : bytes)
    : cmd php (php_result A) :=
  match db with
  | Some d => message ← read_handle mylite_errmsg d; mret (Thrown (c_str message) result)
  | None => mret (Thrown fallback result)
  end.

Definition php_mylite_throw_result {A} (result : Z) (fallback : bytes) : cmd php (php_result A) :=
  mret (Thrown fallback result).

(** The methods that need an open connection. *)
Definition php_mylite_require_db {A} (c : nat) (body : nat -> cmd php (php_result A))
    : cmd php (php_result A) :=
  connection ← get_connection c;
  match connection_db connection with
  | None => mret (Thrown (str "MyLite connection is closed") MYLITE_MISUSE)
  | Some d => body d
  end.

(** ** Opening and closing *)

Definition php_mylite_validate_open_flags (flags : Z) : bool :=
  negb ((flags <? 0) || (UINT32_MAX <? flags)).

(** What [mylite_open] and the constructor share. *)
Definition open_handle {A} (path : bytes) (flags : Z) (use : option nat -> cmd php (php_result A))
    : cmd php (php_result A) :=
  if negb (php_mylite_validate_open_flags flags) then
    mret (Thrown (str "invalid MyLite open flags") MYLITE_MISUSE)
  else
    '(result, db) ← call_library (mylite_open (Some (c_str path)) true flags None);
    if negb (result =? MYLITE_OK)
    then php_mylite_throw_result result (str "could not open MyLite database")
    else use db.

(** [mylite_open]: the new connection object. *)
Definition php_mylite_open_into_object (path : bytes) (flags : Z) : cmd php (php_result nat) :=
  open_handle path flags (fun db =>
    c ← php_mylite_connection_create;
    put_connection c (mkConnection db 1) ;;
    mret (Returned c)).

(** [MyLite\Connection::__construct] *)
Definition connection_construct (c : nat) (path : bytes) (flags : Z) : cmd php (php_result unit) :=
  connection ← get_connection c;
  match connection_db connection with
  | Some _ => mret (Thrown (str "MyLite connection is already open") MYLITE_MISUSE)
  | None =>
      open_handle path flags (fun db =>
        put_connection c (with_connection_db db connection) ;;
        mret (Returned tt))
  end.

(** [MyLite\Connection::close] *)
Definition connection_close (c : nat) : cmd php (php_result bool) :=
  connection ← get_connection c;
  match connection_db connection with
  | None => mret (Returned true)
  | Some d =>
      result ← call_library (mylite_close (Some d));
      if negb (result =? MYLITE_OK)
      then php_mylite_throw_db (Some d) result (str "could not close MyLite database")
      else put_connection c (with_connection_db None connection) ;; mret (Returned true)
  end.

(** ** Statements on a connection *)

(** [MyLite\Connection::exec] *)
Definition connection_exec (c : nat) (sql : bytes) : cmd php (php_result Z) :=
  php_mylite_require_db c (fun d =>
    '(result, errmsg, _) ← call_library (mylite_exec (Some d) (Some (c_str sql)) None tt true);
    if negb (result =? MYLITE_OK)
    then php_mylite_throw_db (Some d) result (default (str "MyLite SQL execution failed") errmsg)
    else n ← read_handle mylite_changes d; mret (Returned n)).

Definition php_mylite_result_object_from_rows (rows : list zend_array) : cmd php nat :=
  r ← php_mylite_result_create;
  put_result r (mkResult rows 0) ;;
  mret r.

(** [MyLite\Connection::query]: a result object, or none for [true]; [fuel]
    bounds the number of rows.  [php_mylite_add_current_row] always succeeds. *)
Definition connection_query (fuel : nat) (c : nat) (sql : bytes) : cmd php (php_result (option nat)) :=
  php_mylite_require_db c (fun d =>
    '(prepare_result, stmt, _) ← call_library
       (mylite_prepare (Some d) (Some (sql ++ [zero])) (Z.of_nat (length sql)) true);
    if negb (prepare_result =? MYLITE_OK)
    then php_mylite_throw_db (Some d) prepare_result (str "could not prepare MyLite query")
    else
      step_result ← call_library (mylite_step stmt);
      '(rows, step_result) ← call_library (rows_loop column_to_zval fuel stmt step_result []);
      column_count ← call_library (mylite_column_count stmt);
      finalize_result ← call_library (mylite_finalize stmt);
      if negb (step_result =? MYLITE_DONE)
      then php_mylite_throw_db (Some d) step_result (str "MyLite query failed")
      else if negb (finalize_result =? MYLITE_OK)
      then php_mylite_throw_db (Some d) finalize_result (str "could not finalize MyLite query")
      else if column_count =? 0 then mret (Returned None)
      else r ← php_mylite_result_object_from_rows rows; mret (Returned (Some r))).

(** [MyLite\Connection::prepare] *)
Definition connection_prepare (c : nat) (sql : bytes) : cmd php (php_result nat) :=
  php_mylite_require_db c (fun d =>
    '(result, stmt, _) ← call_library
       (mylite_prepare (Some d) (Some (sql ++ [zero])) (Z.of_nat (length sql)) true);
    if negb (result =? MYLITE_OK)
    then php_mylite_throw_db (Some d) result (str "could not prepare MyLite statement")
    else
      q ← php_mylite_statement_create;
      put_statement q (mkStatement stmt (Some c) MYLITE_DONE) ;;
      GC_ADDREF c ;;
      mret (Returned q)).

(** ** Diagnostics of a connection *)

(** What a closed connection answers, or a field of the handle. *)
Definition connection_field {A} (closed : A) (f : option mylite_db -> A) (c : nat)
    : cmd php (php_result A) :=
  connection ← get_connection c;
  match connection_db connection with
  | Some d => v ← read_handle f d; mret (Returned v)
  | None => mret (Returned closed)
  end.

Definition connection_errorCode : nat -> cmd php (php_result Z) :=
  connection_field MYLITE_MISUSE mylite_errcode.
Definition connection_sqlState : nat -> cmd php (php_result bytes) :=
  connection_field (str "HY000") (fun x => c_str (mylite_sqlstate x)).
Definition connection_errorMessage : nat -> cmd php (php_result bytes) :=
  connection_field (str "MyLite connection is closed") (fun x => c_str (mylite_errmsg x)).
Definition connection_mariadbErrno : nat -> cmd php (php_result Z) :=
  connection_field 0 mylite_mariadb_errno.
Definition connection_changes : nat -> cmd php (php_result Z) := connection_field 0 mylite_changes.
Definition connection_lastInsertId : nat -> cmd php (php_result bytes) :=
  connection_field (to_string 0) (fun x => to_string (mylite_last_insert_id x)).

(** ** Prepared statements *)

(** [MyLite\Statement::bindValue] *)
Definition statement_bindValue (q : nat) (index : Z) (value : zval) : cmd php (php_result bool) :=
  statement ← get_statement q;
  match statement_stmt statement with
  | None => mret (Thrown (str "invalid MyLite statement binding") MYLITE_MISUSE)
  | Some s =>
      if (index <=? 0) || (UINT32_MAX <? index)
      then mret (Thrown (str "invalid MyLite statement binding") MYLITE_MISUSE)
      else
        result ← call_library (bind_zval (Some s) index value);
        if negb (result =? MYLITE_OK)
        then php_mylite_throw_result result (str "could not bind MyLite statement value")
        else mret (Returned true)
  end.

(** [MyLite\Statement::execute] *)
Definition statement_execute (q : nat) : cmd php (php_result bool) :=
  statement ← get_statement q;
  match statement_stmt statement with
  | None => mret (Thrown (str "MyLite statement is closed") MYLITE_MISUSE)
  | Some s =>
      reset_result ← (if (statement_step_result statement =? MYLITE_ROW) ||
                         (statement_step_result statement =? MYLITE_DONE)
                      then call_library (mylite_reset (Some s)) else mret MYLITE_OK);
      if negb (reset_result =? MYLITE_OK)
      then php_mylite_throw_result reset_result (str "could not reset MyLite statement")
      else
        step_result ← call_library (mylite_step (Some s));
        put_statement q (with_statement_step_result step_result statement) ;;
        if negb (step_result =? MYLITE_ROW) && negb (step_result =? MYLITE_DONE)
        then php_mylite_throw_result step_result (str "could not execute MyLite statement")
        else mret (Returned true)
  end.

(** [MyLite\Statement::fetchAssociative]: the row, or none for [null]. *)
Definition statement_fetchAssociative (q : nat) : cmd php (php_result (option zend_array)) :=
  statement ← get_statement q;
  match statement_stmt statement with
  | None => mret (Returned None)
  | Some s =>
      if negb (statement_step_result statement =? MYLITE_ROW) then mret (Returned None)
      else
        row ← call_library (current_row column_to_zval (Some s));
        step_result ← call_library (mylite_step (Some s));
        put_statement q (with_statement_step_result step_result statement) ;;
        mret (Returned (Some row))
  end.

(** ** Results *)

(** [MyLite\Result::fetchAssociative] *)
Definition result_fetchAssociative (r : nat) : cmd php (php_result (option zend_array)) :=
  result ← get_result r;
  match result_rows result !! result_position result with
  | None => mret (Returned None)
  | Some row =>
      put_result r (mkResult (result_rows result) (S (result_position result))) ;;
      mret (Returned (Some row))
  end.

(** [MyLite\Result::fetchAll] *)
Definition result_fetchAll (r : nat) : cmd php (php_result (list zend_array)) :=
  result ← get_result r; mret (Returned (result_rows result)).
End php.
