(* ===== verification/PhpFacts.v ===== *)
(** * Theorems on the extension mylite

    The objects and the library stay in step ([php_objects_ok]): every open
    handle belongs to exactly one connection object, every statement of the
    library to exactly one statement object, and a connection is freed only
    when it has no statements left.  A query gives the rows of the server's
    answer as arrays ([php_query_rows]). *)

From S2P Require Import Prelude Api Effects SqlLexer SqlPolicy SqlPolicyTheorems System Directory Numbers World.
From S2P Require Import Formats FormatsFacts BinaryRow BinaryFacts ClientQuery ClientStmt Runtime Exec Statement.
From S2P Require Import Frames Rules ClientFacts Scripted RuntimeFacts RuntimeTheorems Library ExecFacts Termination.
From S2P Require Import StatementFacts Lifetime Calls Bindings Rows ProtocolRows Fetch Step Execute Prepared.
From S2P Require Import PreparedTheorems Interleaving Columns Zend ZendFacts Php.
From stdpp Require Import options.
Set Default Proof Using "Type*".

Local Open Scope Z_scope.

(** ** The handles of the library *)

Section handles.
  Context `{Server, Build}.

(** No handle is opened or closed. *)
Definition same_handles (w w' : world) : Prop := dom (dbs w') = dom (dbs w).

#[global] Instance same_handles_preorder : PreOrder same_handles.
Proof. split; [done|]. intros w1 w2 w3. unfold same_handles. congruence. Qed.

Lemma library_frame_handles w w' : library_frame w w' -> same_handles w w'.
Proof.
  intros Hf. unfold same_handles. by rewrite <- (dom_fmap_L handle_core (dbs w')), (lf_cores _ _ Hf), dom_fmap_L.
Qed.

Lemma handles_kept {A} (m : cmd world A) : steps library_frame m -> steps same_handles m.
Proof. intros Hm w. apply library_frame_handles, Hm. Qed.

Lemma handles_update_db d f : steps same_handles (update_db d f).
Proof.
  intros w. unfold same_handles, update_db, get_db, put_db, mbind, cmd_bind, deref.
  destruct (dbs w !! d) as [x|] eqn:Hx; [|done]. simpl. by rewrite dom_insert_lookup_L by (by exists x).
Qed.
Lemma handles_put_stmt s x : steps same_handles (put_stmt s x).
Proof. done. Qed.
Lemma handles_new_mylite_stmt d : steps same_handles (new_mylite_stmt d).
Proof.
  unfold new_mylite_stmt. steps_auto; [..|apply handles_put_stmt]; apply handles_kept; steps_auto.
Qed.
Lemma handles_delete_stmt s : steps same_handles (modify (fun w => set_stmts (delete s (stmts w)) w)).
Proof. done. Qed.
Hint Resolve handles_update_db handles_put_stmt handles_new_mylite_stmt handles_delete_stmt : steps.
Hint Extern 2 (steps same_handles _) => apply handles_kept; solve [auto with steps] : steps.

Lemma handles_delete_mylite_stmt s : steps same_handles (delete_mylite_stmt s).
Proof. unfold delete_mylite_stmt. steps_auto. Qed.
Hint Resolve handles_delete_mylite_stmt : steps.
Lemma handles_mylite_prepare db sql len out : steps same_handles (mylite_prepare db sql len out).
Proof.
  unfold mylite_prepare, prepare_impl, prepare_allocated, sql_view, strlen. steps_auto.
Qed.
Lemma handles_mylite_finalize stmt : steps same_handles (mylite_finalize stmt).
Proof. unfold mylite_finalize. steps_auto. Qed.
End handles.

(** ** Finalizing a statement at the end of its rows *)

Section finalize.
  Context `{Server}.

(** The reset of a statement whose connection is free. *)
Lemma reset_ready_spec m d ms c (Q : outcome bool -> world -> Prop) w :
  mysql_stmts w !! m = Some ms -> s_mysql ms = Some d -> connections w !! d = Some c -> ready c ->
  more_results (m_server_status c) = false ->
  (forall ms' c', ready c' -> m_thd c' = m_thd c ->
     Q (Ret false) (set_mysql_stmts (<[m := ms']> (mysql_stmts w))
       (set_connections (<[d := c']> (connections w)) w))) ->
  wp (reset_stmt_handle m (Z.lor RESET_ALL_BUFFERS RESET_CLEAR_ERROR)) Q w.
Proof.
  intros Hms Hd Hc Hready Hmore HQ. unfold reset_stmt_handle, reset_stmt_handle_with. wp_auto.
  destruct (s_state ms <=? MYSQL_STMT_INIT_DONE).
  { wp_auto. specialize (HQ ms c Hready eq_refl). rewrite !insert_id in HQ by done. by destruct w. }
  change (has_flag _ RESET_STORE_RESULT) with false. change (has_flag _ RESET_ALL_BUFFERS) with true.
  change (has_flag _ RESET_SERVER_SIDE) with false. change (has_flag _ RESET_CLEAR_ERROR) with true.
  wp_auto. rewrite Hd. destruct (MYSQL_STMT_PREPARE_DONE <? s_state ms).
  - apply wp_bind. eapply release_ready_spec; [apply lookup_insert_eq|done..|]. intros c1 Hready1 Hthd1 _.
    apply bind_post_ret. wp_auto. simpl. rewrite !insert_insert_eq. by apply HQ.
  - wp_auto. simpl. rewrite !insert_insert_eq. assert (HQ' := fun ms' => HQ ms' c Hready eq_refl).
    rewrite (insert_id (connections w)) in HQ' by done. by apply HQ'.
Qed.

(** The client library closes its statement. *)
Lemma stmt_close_spec m d ms c t (Q : outcome bool -> world -> Prop) w :
  mysql_stmts w !! m = Some ms -> s_mysql ms = Some d -> connections w !! d = Some c -> ready c ->
  more_results (m_server_status c) = false -> m_thd c = Some t ->
  session_killed d (server_state w) = false ->
  (forall b c' ss srv fs, ready c' -> Q (Ret b) (set_mysql_stmts ss
     (set_connections (<[d := c']> (connections w)) (set_server_state srv fs w)))) ->
  wp (mysql_stmt_close m) Q w.
Proof.
  intros Hms Hd Hc Hready Hmore Ht Hkill HQ. unfold mysql_stmt_close. wp_auto. rewrite Hd.
  wp_auto. destruct (MYSQL_STMT_INIT_DONE <? s_state ms).
  - apply wp_bind. eapply (reset_ready_spec m d ms (net_clear_error c)); [done|done|apply lookup_insert_eq|done|done|].
    intros ms' c' Hready' Ht'. apply bind_post_ret.
    destruct (dispatch_command d (COM_STMT_CLOSE (s_stmt_id ms)) (server_state w) (files (sys w)))
      as [[r srv] fs] eqn:Hr.
    eapply emb_advanced_command_spec; [apply lookup_insert_eq|done|by rewrite Ht'|done|done|].
    apply bind_post_ret. wp_auto. simpl.
    rewrite !insert_insert_eq. by apply (HQ _ _ _ srv fs).
  - wp_auto. specialize (HQ false (net_clear_error c) (delete m (mysql_stmts w)) (server_state w) (files (sys w)) Hready).
    by destruct w as [? ? ? ? ? ? ? ? ? [] ? ?].
Qed.

(** What is left after the statement at the end of its rows is finalized. *)
Lemma finalize_stepped_spec s d w :
  stepped s d w -> session_killed d (server_state w) = false ->
  wp (mylite_finalize (Some s)) (fun o w' => o = Ret MYLITE_OK /\ stmts w' = delete s (stmts w) /\
    connection d ready w' /\ is_Some (dbs w' !! d)) w.
Proof.
  intros (m & st & ms & Hst & Hms & Hm & Hd & Hmd & Hexec & Hres & Hrow & [x Hx] & Hal & c & Hc &
    Hready & Hmore & _ & t & Ht & _) Hkill.
  unfold mylite_finalize, release_statement_results. wp_auto. rewrite Hm, Hres. wp_auto.
  apply free_columns_spec. intros bs. apply bind_post_ret. wp_auto. simpl. rewrite Hm. wp_auto.
  eapply (stmt_close_spec m d ms c t); [done..|]. intros b c' ss srv fs Hready'. apply bind_post_ret. wp_auto.
  simpl. rewrite Hd. wp_auto. unfold delete_mylite_stmt. wp_auto. apply free_columns_spec. intros bs1.
  apply bind_post_ret, wp_bind, free_parameters_spec. intros bs2. apply bind_post_ret. wp_auto. simpl.
  split; [done|]. rewrite delete_insert_eq. split; [done|]. split.
  - exists c'. split; [apply lookup_insert_eq|done].
  - rewrite lookup_insert_eq. by eexists.
Qed.
End finalize.

(** ** Commands that return *)

(** [yields m P s]: if [m] returns from [s], then with a value and a state in
    [P]. *)
Definition ret_post {S A} (P : A -> S -> Prop) (o : outcome A) (s : S) : Prop :=
  match o with Ret a => P a s | _ => True end.
Definition yields {S A} (m : cmd S A) (P : A -> S -> Prop) (s : S) : Prop := wp m (ret_post P) s.

Section yields.
  Context {S : Type}.
  Implicit Types s : S.

Lemma yields_bind {A B} (m : cmd S A) (f : A -> cmd S B) P s :
  yields m (fun a s' => yields (f a) P s') s -> yields (mbind f m) P s.
Proof. unfold yields, wp, mbind, cmd_bind. by destruct (m s) as [[] ?]. Qed.
Lemma yields_ret {A} (a : A) (P : A -> S -> Prop) s : P a s -> yields (mret a) P s.
Proof. done. Qed.
Lemma yields_modify f (P : unit -> S -> Prop) s : P tt (f s) -> yields (modify f) P s.
Proof. done. Qed.
Lemma yields_deref {A} (f : S -> option A) (P : A -> S -> Prop) s :
  (forall a, f s = Some a -> P a s) -> yields (deref f) P s.
Proof. unfold yields, wp, deref. intros HP. destruct (f s); simpl; auto. Qed.
Lemma yields_mono {A} (m : cmd S A) (P Q : A -> S -> Prop) s :
  yields m P s -> (forall a s', P a s' -> Q a s') -> yields m Q s.
Proof. unfold yields, wp. intros HP HPQ. destruct (m s) as [[] ?]; simpl in *; auto. Qed.
Lemma yields_zoom {T A} (g : S -> T) st (m : cmd T A) (P : A -> S -> Prop) s :
  yields m (fun a t => P a (st t s)) (g s) -> yields (zoom g st m) P s.
Proof. unfold yields, wp, zoom. by destruct (m (g s)) as [[] ?]. Qed.
Lemma yields_wp {A} (m : cmd S A) (Q : outcome A -> S -> Prop) (P : A -> S -> Prop) s :
  wp m Q s -> (forall a s', Q (Ret a) s' -> P a s') -> yields m P s.
Proof. unfold yields, wp. intros HQ HPQ. destruct (m s) as [[] ?]; simpl in *; auto. Qed.
Lemma yields_steps {A} (R : S -> S -> Prop) (m : cmd S A) (P : A -> S -> Prop) s :
  steps R m -> (forall a s', R s s' -> P a s') -> yields m P s.
Proof. unfold yields, wp. intros Hm HP. specialize (Hm s). destruct (m s) as [[] ?]; simpl in *; auto. Qed.
Lemma yields_wp_steps {A} (R : S -> S -> Prop) (m : cmd S A) (Q : outcome A -> S -> Prop) (P : A -> S -> Prop) s :
  wp m Q s -> steps R m -> (forall a s', Q (Ret a) s' -> R s s' -> P a s') -> yields m P s.
Proof.
  unfold yields, wp. intros HQ Hm HP. specialize (Hm s). destruct (m s) as [[] ?]; simpl in *; auto.
Qed.
End yields.

Ltac yields_step :=
  lazymatch goal with
  | |- yields (mbind _ _) _ _ => apply yields_bind
  | |- yields (mret _) _ _ => apply yields_ret
  | |- yields (modify _) _ _ => apply yields_modify
  | |- yields (match ?x with _ => _ end) _ _ => let E := fresh "E" in destruct x eqn:E
  end; cbn beta iota.

(** ** The objects and the library *)

Section objects.
  Context `{Server, Build, Zend}.
  Context (base : gmap Z open_file).

(** The handles of the connection objects, the statements of the statement
    objects, and the connections these refer to. *)
Definition opened (p : php) : gmap nat nat := omap connection_db (connection_objects p).
Definition held (p : php) : gmap nat nat := omap statement_stmt (statement_objects p).
Definition referred (p : php) : gmap nat nat := omap connection_object (statement_objects p).

Definition references (c : nat) (p : php) : nat :=
  stdpp.base.size (filter (fun entry => entry.2 = c) (referred p)).

Record php_core (p : php) : Prop := mkPhpCore {
  po_library : library_ok base (php_library p);
  po_opened : forall d, d ∈ dom (dbs (php_library p)) <-> exists c, opened p !! c = Some d;
  po_open_once : forall c c' d, opened p !! c = Some d -> opened p !! c' = Some d -> c = c';
  po_held : forall s, is_Some (owners (php_library p) !! s) <-> exists q, held p !! q = Some s;
  po_held_once : forall q q' s, held p !! q = Some s -> held p !! q' = Some s -> q = q';
  po_owner : forall q s, held p !! q = Some s -> exists c d,
    referred p !! q = Some c /\ opened p !! c = Some d /\
    owners (php_library p) !! s = Some (Some d);
  po_referred : forall q c, referred p !! q = Some c -> is_Some (held p !! q);
  po_counted : forall c x, connection_objects p !! c = Some x ->
    (references c p <= connection_refs x)%nat;
}.

(** Between two calls every connection object has a reference left. *)
Definition referenced (p : php) : Prop :=
  forall c x, connection_objects p !! c = Some x -> (0 < connection_refs x)%nat.
Definition php_ok (p : php) : Prop := php_core p /\ referenced p.

Lemma php_ok_library w p :
  library_ok base w -> same_handles (php_library p) w -> owners w = owners (php_library p) ->
  php_ok p -> php_ok (set_php_library w p).
Proof. intros Hw Hd Ho [[] Hpos]. split; [|done]. split; simpl; try done; rewrite ?Hd, ?Ho; done. Qed.

Lemma php_ok_frame w p :
  library_frame (php_library p) w -> php_ok p -> php_ok (set_php_library w p).
Proof.
  intros Hf Hp. apply php_ok_library; [|by apply library_frame_handles|apply Hf|done].
  eapply library_ok_frame; [done|apply Hp].
Qed.

(** Calls that keep the library. *)
Lemma yields_kept {A} (m : cmd world A) (P : A -> php -> Prop) p :
  steps library_frame m -> php_ok p ->
  (forall a w, library_frame (php_library p) w -> php_ok (set_php_library w p) ->
     P a (set_php_library w p)) ->
  yields (call_library m) P p.
Proof.
  intros Hm Hp HP. apply yields_zoom. eapply yields_steps; [exact Hm|]. intros a w Hf.
  apply HP; [done|]. by apply php_ok_frame.
Qed.

(** Objects whose pointers stay as they are. *)
Lemma php_ok_same p p' :
  php_library p' = php_library p -> opened p' = opened p -> held p' = held p ->
  referred p' = referred p ->
  (forall c x', connection_objects p' !! c = Some x' -> exists x,
     connection_objects p !! c = Some x /\ (connection_refs x <= connection_refs x')%nat) ->
  php_ok p -> php_ok p'.
Proof.
  intros Hl Ho Hh Hr Hrefs [[] Hpos]. split.
  - split; rewrite ?Hl, ?Ho, ?Hh, ?Hr in *; try done. intros c x' Hx'.
    destruct (Hrefs c x' Hx') as (x & Hx & Hle). unfold references in *. rewrite Hr.
    specialize (po_counted0 c x Hx). lia.
  - intros c x' Hx'. destruct (Hrefs c x' Hx') as (x & Hx & Hle). specialize (Hpos c x Hx). lia.
Qed.

Lemma omap_insert_same {A B} (f : A -> option B) (m : gmap nat A) i x x' :
  m !! i = Some x -> f x' = f x -> omap f (<[i := x']> m) = omap f m.
Proof.
  intros Hx Hf. apply map_eq. intros j. rewrite !lookup_omap.
  destruct (decide (j = i)) as [->|Hj]; [by rewrite lookup_insert_eq, Hx|by rewrite lookup_insert_ne].
Qed.

Lemma php_ok_put_statement q t t' p :
  statement_objects p !! q = Some t -> statement_stmt t' = statement_stmt t ->
  connection_object t' = connection_object t -> php_ok p ->
  php_ok (set_statement_objects (<[q := t']> (statement_objects p)) p).
Proof.
  intros Ht Hs Hc. apply php_ok_same; try done; [by eapply omap_insert_same..|].
  intros c x Hx. by exists x.
Qed.

(** ** Opening *)

Lemma php_ok_opened c d r w p :
  library_ok base w -> owners w = owners (php_library p) -> d ∉ dom (dbs (php_library p)) ->
  dom (dbs w) = {[d]} ∪ dom (dbs (php_library p)) -> opened p !! c = None ->
  (references c p <= r)%nat -> (0 < r)%nat -> php_ok p ->
  php_ok (set_connection_objects (<[c := mkConnection (Some d) r]> (connection_objects p))
            (set_php_library w p)).
Proof.
  intros Hw Ho Hd Hdom Hc Hr Hr0 [[] Hpos].
  assert (Hop : forall c', omap connection_db (<[c := mkConnection (Some d) r]> (connection_objects p)) !! c' =
                <[c := d]> (opened p) !! c').
  { intros c'. rewrite (omap_insert_Some _ _ _ _ d) by done. done. }
  assert (Hnew : forall c', opened p !! c' <> Some d).
  { intros c' Hc'. apply Hd, po_opened0. by exists c'. }
  split; [|intros c' x; simpl; by intros [[<- <-]|[_ Hx]]%lookup_insert_Some; [|by eapply Hpos]].
  split; simpl; try done; unfold opened; simpl.
  - intros d'. rewrite Hdom, elem_of_union, elem_of_singleton, po_opened0. setoid_rewrite Hop. split.
    + intros [->|[c' Hc']]; [exists c; apply lookup_insert_eq|]. exists c'. rewrite lookup_insert_ne; [done|].
      intros ->. congruence.
    + intros [c' [[_ ->]|[_ Hc']]%lookup_insert_Some]; [by left|right; by exists c'].
  - intros c1 c2 d'. rewrite !Hop. intros [[<- <-]|[_ H1']]%lookup_insert_Some [[<- Heq]|[_ H2']]%lookup_insert_Some;
      try done; [by destruct (Hnew c2)|subst; by destruct (Hnew c1)|by eapply po_open_once0].
  - by rewrite Ho.
  - intros q s Hs. destruct (po_owner0 q s Hs) as (c' & d' & Hq & Hc' & Hs'). exists c', d'.
    split; [done|]. rewrite Hop, Ho. split; [|done]. rewrite lookup_insert_ne; [done|]. intros ->. congruence.
  - intros c' x [[<- <-]|[_ Hx]]%lookup_insert_Some; [done|]. by apply po_counted0.
Qed.

(** ** Closing *)

(** The connection [c] of the handle [d] gives it up: the objects become
    [conns]. *)
Lemma php_core_closed c d w conns p :
  library_ok base w -> owners w = owners (php_library p) -> owned_by d (php_library p) = ∅ ->
  opened p !! c = Some d -> dbs w = delete d (dbs (php_library p)) ->
  omap connection_db conns = delete c (opened p) ->
  (forall c' x', conns !! c' = Some x' -> (references c' p <= connection_refs x')%nat) ->
  php_core p -> php_core (set_connection_objects conns (set_php_library w p)).
Proof.
  intros Hw Ho Hnone Hc Hdbs Hop Hrefs []. split; simpl; try done; unfold opened; simpl; rewrite ?Hop.
  - intros d'. rewrite Hdbs, dom_delete_L, elem_of_difference, elem_of_singleton, po_opened0. split.
    + intros [[c' Hc'] Hne]. exists c'. rewrite lookup_delete_ne; [done|]. intros ->. congruence.
    + intros [c' [Hne Hc']%lookup_delete_Some]. split; [by exists c'|]. intros ->.
      apply Hne. by eapply po_open_once0.
  - intros c1 c2 d' [_ H1']%lookup_delete_Some [_ H2']%lookup_delete_Some. by eapply po_open_once0.
  - by rewrite Ho.
  - intros q s Hs. destruct (po_owner0 q s Hs) as (c' & d' & Hq & Hc' & Hs'). exists c', d'.
    split; [done|]. rewrite Ho. split; [|done]. apply lookup_delete_Some. split; [|done]. intros ->.
    rewrite Hc in Hc'. injection Hc' as <-. by eapply map_filter_empty_not_lookup in Hnone.
Qed.

Lemma not_referred c q p : references c p = 0%nat -> referred p !! q <> Some c.
Proof.
  intros Hr Hq. unfold references in Hr. apply map_size_empty_inv in Hr.
  by eapply map_filter_empty_not_lookup in Hr.
Qed.

(** A connection that no statement object refers to has no statements. *)
Lemma unowned c d p :
  php_core p -> opened p !! c = Some d -> references c p = 0%nat -> owned_by d (php_library p) = ∅.
Proof.
  intros [] Hc Hr. apply map_empty. intros s. apply map_lookup_filter_None. right. intros o Hs Ho.
  simpl in Ho. subst o. destruct (proj1 (po_held0 s) (mk_is_Some _ _ Hs)) as [q Hq].
  destruct (po_owner0 q s Hq) as (c' & d' & Hq' & Hc' & Hs'). rewrite Hs in Hs'. injection Hs' as <-.
  rewrite (po_open_once0 _ _ _ Hc' Hc) in Hq'. by eapply not_referred.
Qed.

Lemma opened_lookup c x p : connection_objects p !! c = Some x -> opened p !! c = connection_db x.
Proof. intros Hx. unfold opened. by rewrite lookup_omap, Hx. Qed.

Lemma opened_delete c p : omap connection_db (delete c (connection_objects p)) = delete c (opened p).
Proof. unfold opened. by rewrite omap_delete. Qed.

Lemma connection_free_spec c x p :
  php_core p -> connection_objects p !! c = Some x -> references c p = 0%nat ->
  (forall c' x', c' <> c -> connection_objects p !! c' = Some x' -> (0 < connection_refs x')%nat) ->
  yields (php_mylite_connection_free c) (fun _ p' => php_ok p') p.
Proof.
  intros Hp Hx Hr Hpos. unfold php_mylite_connection_free. yields_step. apply yields_deref.
  rewrite Hx. intros ? [= <-]. yields_step.
  assert (Hcounted : forall c' x', delete c (connection_objects p) !! c' = Some x' ->
    (references c' p <= connection_refs x')%nat).
  { intros c' x' [_ Hx']%lookup_delete_Some. by apply Hp. }
  assert (Hdel : referenced (set_connection_objects (delete c (connection_objects p)) p)).
  { intros c' x'. simpl. intros [Hne Hx']%lookup_delete_Some. by eapply Hpos. }
  destruct (connection_db x) as [d|] eqn:Hdb.
  - assert (Hc : opened p !! c = Some d) by (by rewrite (opened_lookup c x)).
    yields_step. apply yields_zoom. eapply yields_wp.
    { apply (mylite_close_spec base d); [apply Hp|]. apply (po_opened _ Hp). by exists c. }
    intros a w (Hw & Ho & Hclose). pose proof (unowned c d p Hp Hc Hr) as Hnone.
    rewrite decide_True in Hclose by done. destruct Hclose as (_ & Hdbs & _).
    repeat yields_step. split; [|exact Hdel].
    apply (php_core_closed c d); try done. exact (opened_delete c p).
  - repeat yields_step. split; [|exact Hdel]. destruct Hp.
    assert (Hop : delete c (opened p) = opened p) by (apply delete_id; by rewrite (opened_lookup c x)).
    split; simpl; try done; unfold opened; simpl; rewrite ?opened_delete, ?Hop; done.
Qed.

Lemma OBJ_RELEASE_spec c x p :
  php_core p -> referenced p -> connection_objects p !! c = Some x ->
  (references c p < connection_refs x)%nat ->
  yields (OBJ_RELEASE c) (fun _ p' => php_ok p') p.
Proof.
  intros Hp Hpos Hx Hr. unfold OBJ_RELEASE. yields_step. apply yields_deref. rewrite Hx.
  intros ? [= <-]. simpl. unfold put_connection. do 2 yields_step.
  set (p1 := set_connection_objects _ p).
  assert (Hp1 : php_core p1).
  { assert (Hop : opened p1 = opened p) by (by eapply omap_insert_same). destruct Hp.
    split; rewrite ?Hop; try done. intros c' x'. simpl. intros [[<- <-]|[_ Hx']]%lookup_insert_Some.
    - simpl. change (references c p1) with (references c p). lia.
    - by apply po_counted0. }
  assert (Hpos1 : forall c' x', c' <> c -> connection_objects p1 !! c' = Some x' -> (0 < connection_refs x')%nat).
  { intros c' x' Hne. simpl. rewrite lookup_insert_ne by done. apply Hpos. }
  destruct (pred (connection_refs x)) as [|n] eqn:Hn.
  - eapply (connection_free_spec c); [done|apply lookup_insert_eq| |done].
    change (references c p1) with (references c p). lia.
  - apply yields_ret. split; [done|]. intros c' x' Hx'. destruct (decide (c' = c)) as [->|Hne]; [|by eapply Hpos1].
    simpl in Hx'. rewrite lookup_insert_eq in Hx'. injection Hx' as <-. simpl. lia.
Qed.

(** ** Statements *)

Lemma referring_delete q c (m : gmap nat nat) :
  filter (fun entry : nat * nat => entry.2 = c) (delete q m) =
  delete q (filter (fun entry : nat * nat => entry.2 = c) m).
Proof. apply map_filter_delete. Qed.

(** The statement object [q] of the statement [s] goes, and [s] with it. *)
Lemma php_core_dropped q t s c w p :
  php_core p -> statement_objects p !! q = Some t -> statement_stmt t = Some s ->
  connection_object t = Some c -> library_ok base w -> same_handles (php_library p) w ->
  owners w = delete s (owners (php_library p)) ->
  let p' := set_statement_objects (delete q (statement_objects p)) (set_php_library w p) in
  php_core p' /\ S (references c p') = references c p.
Proof.
  intros [] Ht Hs Hc Hw Hd Ho p'.
  assert (Hheld : held p !! q = Some s) by (unfold held; by rewrite lookup_omap, Ht).
  assert (Href : referred p !! q = Some c) by (unfold referred; by rewrite lookup_omap, Ht).
  assert (Hheld' : held p' = delete q (held p)) by apply omap_delete.
  assert (Href' : referred p' = delete q (referred p)) by apply omap_delete.
  assert (Hrefs : forall c', references c' p' = stdpp.base.size (delete q (filter (fun e => e.2 = c') (referred p)))).
  { intros c'. unfold references. by rewrite Href', referring_delete. }
  split.
  - split; try done; rewrite ?Hheld', ?Href'; simpl.
    + by rewrite Hd.
    + rewrite Ho. intros s'. split.
      * intros [o [Hne Hs']%lookup_delete_Some]. destruct (proj1 (po_held0 s') (mk_is_Some _ _ Hs')) as [q' Hq'].
        exists q'. rewrite lookup_delete_ne; [done|]. intros ->. congruence.
      * intros [q' [Hne Hq']%lookup_delete_Some]. rewrite lookup_delete_ne; [apply po_held0; by exists q'|].
        intros ->. apply Hne. by eapply po_held_once0.
    + intros q1 q2 s' [_ H1']%lookup_delete_Some [_ H2']%lookup_delete_Some. by eapply po_held_once0.
    + intros q' s' [Hne Hq']%lookup_delete_Some. destruct (po_owner0 q' s' Hq') as (c' & d' & Hc' & Hd' & Hs').
      exists c', d'. rewrite lookup_delete_ne by done. split; [done|]. split; [done|]. rewrite Ho.
      rewrite lookup_delete_ne; [done|]. intros ->. apply Hne. by eapply po_held_once0.
    + intros q' c' [Hne Hq']%lookup_delete_Some. rewrite lookup_delete_ne by done. by eapply po_referred0.
    + intros c' x Hx. rewrite Hrefs. etrans; [|by apply po_counted0]. unfold references.
      rewrite map_size_delete. destruct (filter _ (referred p) !! q); unfold id; lia.
  - rewrite Hrefs. unfold references.
    rewrite map_size_delete_Some by (exists c; by apply map_lookup_filter_Some).
    assert (stdpp.base.size (filter (fun e => e.2 = c) (referred p)) <> 0%nat); [|lia].
    intros Hz%map_size_empty_inv. by eapply map_filter_empty_not_lookup in Hz.
Qed.

(** The release of a connection does not look at statement objects. *)
Lemma release_commutes c m p :
  OBJ_RELEASE c (set_statement_objects m p) =
  let '(o, p') := OBJ_RELEASE c p in (o, set_statement_objects m p').
Proof.
  unfold OBJ_RELEASE, php_mylite_connection_free, get_connection, put_connection, call_library,
    zoom, mbind, cmd_bind, deref, modify. cbn -[mylite_close].
  destruct (connection_objects p !! c) as [x|]; [|done]. cbn -[mylite_close].
  destruct (pred (connection_refs x)); [|done]. cbn -[mylite_close]. rewrite lookup_insert_eq. cbn -[mylite_close].
  destruct (connection_db x) as [d|]; [|done].
  generalize (mylite_close (Some d)). intros close.
  cbn [php_library set_connection_objects set_statement_objects]. by destruct (close (php_library p)) as [[] w].
Qed.

Lemma release_statement_objects c p :
  statement_objects (snd (OBJ_RELEASE c p)) = statement_objects p.
Proof.
  pose proof (release_commutes c (statement_objects p) p) as Hr.
  replace (set_statement_objects (statement_objects p) p) with p in Hr by (by destruct p).
  destruct (OBJ_RELEASE c p) as [o p']. injection Hr as ->. by destruct p'.
Qed.

Lemma release_then_delete c q (P : php -> Prop) p :
  yields (OBJ_RELEASE c) (fun _ => P) (set_statement_objects (delete q (statement_objects p)) p) ->
  yields (OBJ_RELEASE c ;; modify (fun p => set_statement_objects (delete q (statement_objects p)) p))
    (fun _ => P) p.
Proof.
  unfold yields, wp. rewrite release_commutes. pose proof (release_statement_objects c p) as Hs.
  unfold mbind, cmd_bind. destruct (OBJ_RELEASE c p) as [[] p']; try done. simpl in *. by rewrite Hs.
Qed.

Lemma held_lookup q t p : statement_objects p !! q = Some t -> held p !! q = statement_stmt t.
Proof. intros Ht. unfold held. by rewrite lookup_omap, Ht. Qed.
Lemma referred_lookup q t p : statement_objects p !! q = Some t -> referred p !! q = connection_object t.
Proof. intros Ht. unfold referred. by rewrite lookup_omap, Ht. Qed.
Lemma opened_object c d p :
  opened p !! c = Some d -> exists x, connection_objects p !! c = Some x /\ connection_db x = Some d.
Proof. unfold opened. rewrite lookup_omap. destruct (connection_objects p !! c) as [x|] eqn:E; simpl; eauto; done. Qed.

Lemma statement_free_spec q p :
  php_ok p -> is_Some (statement_objects p !! q) ->
  yields (php_mylite_statement_free q) (fun _ p' => php_ok p') p.
Proof.
  intros [Hp Hpos] [t Ht]. unfold php_mylite_statement_free. yields_step. apply yields_deref. rewrite Ht.
  intros ? [= <-]. yields_step.
  destruct (statement_stmt t) as [s|] eqn:Hs.
  - assert (Hq : held p !! q = Some s) by (by rewrite (held_lookup q t)).
    destruct (po_owner p Hp q s Hq) as (c & d & Hc & Hd & Hso).
    rewrite (referred_lookup q t) in Hc by done. rewrite Hc. yields_step. apply yields_zoom.
    eapply yields_wp_steps; [|apply handles_mylite_finalize|].
    { apply (mylite_finalize_spec base s); [apply Hp|by exists (Some d)]. }
    intros r w (_ & Hw & Ho) Hh. apply yields_modify, release_then_delete. simpl. rewrite delete_insert_eq.
    destruct (php_core_dropped q t s c w p) as [Hcore Hr]; try done.
    destruct (opened_object c d p Hd) as (x & Hx & _).
    apply (OBJ_RELEASE_spec c x); [exact Hcore|exact Hpos|exact Hx|].
    eapply Nat.lt_le_trans; [|exact (po_counted p Hp c x Hx)]. rewrite <- Hr. apply Nat.lt_succ_diag_r.
  - assert (Hq : referred p !! q = None).
    { destruct (referred p !! q) eqn:E; [|done]. apply (po_referred p Hp) in E.
      rewrite (held_lookup q t), Hs in E by done. by destruct E. }
    rewrite (referred_lookup q t) in Hq by done. rewrite Hq. repeat yields_step.
    apply (php_ok_same p); try done; [..|intros c x Hx; by exists x].
    + unfold held. simpl. rewrite omap_delete. apply delete_id. by rewrite lookup_omap, Ht.
    + unfold referred. simpl. rewrite omap_delete. apply delete_id. by rewrite lookup_omap, Ht.
Qed.

(** ** Preparing *)

Lemma references_insert c c' q (m : gmap nat nat) :
  m !! q = None ->
  stdpp.base.size (filter (fun entry : nat * nat => entry.2 = c') (<[q := c]> m)) =
  ((if decide (c = c') then 1 else 0) +
   stdpp.base.size (filter (fun entry : nat * nat => entry.2 = c') m))%nat.
Proof.
  intros Hq. rewrite map_filter_insert. simpl. destruct (decide (c = c')) as [->|Hne].
  - rewrite map_size_insert_None; [done|]. apply map_lookup_filter_None. by left.
  - by rewrite delete_id.
Qed.

(** The new statement object [q] of the new statement [s] refers to [c]. *)
Lemma php_ok_prepared q s c d x r w p :
  library_ok base w -> same_handles (php_library p) w -> owners (php_library p) !! s = None ->
  owners w = <[s := Some d]> (owners (php_library p)) -> statement_objects p !! q = None ->
  connection_objects p !! c = Some x -> connection_db x = Some d -> php_ok p ->
  php_ok (set_connection_objects
            (<[c := mkConnection (Some d) (S (connection_refs x))]> (connection_objects p))
            (set_statement_objects (<[q := mkStatement (Some s) (Some c) r]> (statement_objects p))
               (set_php_library w p))).
Proof.
  intros Hw Hd Hs Ho Hq Hx Hdb [[] Hpos]. set (p' := set_connection_objects _ _).
  assert (Hop : opened p' = opened p) by (by eapply omap_insert_same).
  assert (Hh : held p' = <[q := s]> (held p)) by (by apply omap_insert_Some).
  assert (Hr : referred p' = <[q := c]> (referred p)) by (by apply omap_insert_Some).
  assert (Hhq : held p !! q = None) by (unfold held; by rewrite lookup_omap, Hq).
  assert (Hrq : referred p !! q = None) by (unfold referred; by rewrite lookup_omap, Hq).
  assert (Hnew : forall q', held p !! q' <> Some s).
  { intros q' Hq'. assert (is_Some (owners (php_library p) !! s)) as [? ?]; [|congruence].
    apply po_held0. by exists q'. }
  split; [|intros c' x'; simpl; by intros [[<- <-]|[_ Hx']]%lookup_insert_Some; [simpl; lia|by eapply Hpos]].
  split; rewrite ?Hop, ?Hh, ?Hr; simpl; try done.
  - by rewrite Hd.
  - intros s'. rewrite Ho. split.
    + intros [o [[<- <-]|[Hne Hs']]%lookup_insert_Some]; [exists q; apply lookup_insert_eq|].
      destruct (proj1 (po_held0 s') (mk_is_Some _ _ Hs')) as [q' Hq']. exists q'.
      rewrite lookup_insert_ne; [done|]. intros ->. congruence.
    + intros [q' [[<- <-]|[Hne Hq']]%lookup_insert_Some]; [rewrite lookup_insert_eq; eauto|].
      rewrite lookup_insert_ne; [apply po_held0; by exists q'|]. intros ->. by eapply Hnew.
  - intros q1 q2 s' [[<- <-]|[_ H1']]%lookup_insert_Some [[<- Heq]|[_ H2']]%lookup_insert_Some; try done.
    + by destruct (Hnew q2).
    + subst. by destruct (Hnew q1).
    + by eapply po_held_once0.
  - intros q' s' [[<- <-]|[Hne Hq']]%lookup_insert_Some.
    + exists c, d. by rewrite Ho, !lookup_insert_eq, (opened_lookup c x).
    + destruct (po_owner0 q' s' Hq') as (c' & d' & Hc' & Hd' & Hs'). exists c', d'.
      rewrite Ho, !lookup_insert_ne; [done|congruence|done].
  - intros q' c' [[<- <-]|[Hne Hq']]%lookup_insert_Some; [rewrite lookup_insert_eq; eauto|].
    rewrite lookup_insert_ne by done. by eapply po_referred0.
  - intros c' x' Hx'. unfold references. rewrite Hr, references_insert by done.
    apply lookup_insert_Some in Hx' as [[<- <-]|[Hne Hx']]; simpl.
    + rewrite decide_True by done. apply le_n_S, (po_counted0 c x Hx).
    + rewrite decide_False by done. apply (po_counted0 c' x' Hx').
Qed.

(** ** The methods *)

Definition keeps {A} (m : cmd php A) : Prop := forall p, php_ok p -> yields m (fun _ p' => php_ok p') p.

Lemma keeps_bind {A B} (m : cmd php A) (f : A -> cmd php B) :
  keeps m -> (forall a, keeps (f a)) -> keeps (mbind f m).
Proof. intros Hm Hf p Hp. apply yields_bind. eapply yields_mono; [by apply Hm|]. intros a p' Hp'. by apply Hf. Qed.
Lemma keeps_ret {A} (a : A) : keeps (mret a).
Proof. by intros p Hp. Qed.
Lemma keeps_call {A} (m : cmd world A) : steps library_frame m -> keeps (call_library m).
Proof. intros Hm p Hp. by apply yields_kept. Qed.
Lemma keeps_deref {A} (f : php -> option A) : keeps (deref f).
Proof. intros p Hp. by apply yields_deref. Qed.

Ltac keeps_step :=
  lazymatch goal with
  | |- keeps (mbind _ _) => apply keeps_bind; [|intros ?]
  | |- keeps (mret _) => apply keeps_ret
  | |- keeps (deref _) => apply keeps_deref
  | |- keeps (call_library _) => apply keeps_call; steps_auto
  | |- keeps (match ?x with _ => _ end) => destruct x
  end.
Ltac keeps_auto := repeat keeps_step.

Lemma keeps_read_handle {A} (f : option mylite_db -> A) d : keeps (read_handle f d).
Proof. unfold read_handle. keeps_auto. Qed.
Lemma keeps_throw_db {A} db r b : keeps (php_mylite_throw_db (A := A) db r b).
Proof. unfold php_mylite_throw_db. keeps_auto. apply keeps_read_handle. Qed.
Lemma keeps_connection_field {A} (closed : A) f c : keeps (connection_field closed f c).
Proof. unfold connection_field, get_connection. keeps_auto. apply keeps_read_handle. Qed.
Lemma keeps_connection_exec c sql : keeps (connection_exec c sql).
Proof.
  unfold connection_exec, php_mylite_require_db, get_connection. keeps_auto;
    [by apply kept_mylite_exec|apply keeps_throw_db|apply keeps_read_handle].
Qed.
Lemma keeps_statement_bindValue q index v : keeps (statement_bindValue q index v).
Proof.
  unfold statement_bindValue, get_statement, php_mylite_throw_result. keeps_auto. unfold bind_zval. steps_auto.
Qed.

Lemma kept_column_to_zval stmt column : steps library_frame (column_to_zval stmt column).
Proof.
  unfold column_to_zval, text_to_zval, mylite_column_type, mylite_column_int64, mylite_column_uint64,
    mylite_column_double, mylite_column_bytes, convert_text, mylite_column_text, metadata_column_at,
    value_column_at, read_c_string. steps_auto.
Qed.
Lemma kept_current_row convert stmt :
  (forall s i, steps library_frame (convert s i)) -> steps library_frame (current_row convert stmt).
Proof.
  intros Hc. unfold current_row, mylite_column_count.
  assert (Hrow : forall columns row, steps library_frame (row_columns convert stmt columns row)).
  { intros columns. induction columns; intros row; simpl;
      unfold mylite_column_name, metadata_column_at; steps_auto. }
  steps_auto.
Qed.
Lemma kept_rows_loop convert fuel stmt :
  (forall s i, steps library_frame (convert s i)) ->
  forall r rows, steps library_frame (rows_loop convert fuel stmt r rows).
Proof. intros Hc. induction fuel; intros r rows; simpl; steps_auto. by apply kept_current_row. Qed.

Lemma keeps_statement_execute q : keeps (statement_execute q).
Proof.
  intros p Hp. unfold statement_execute, php_mylite_throw_result. yields_step. apply yields_deref. intros t Ht.
  destruct (statement_stmt t) as [s|] eqn:Hs; [|by yields_step]. yields_step.
  assert (Hreset : yields (if (statement_step_result t =? MYLITE_ROW) || (statement_step_result t =? MYLITE_DONE)
      then call_library (mylite_reset (Some s)) else mret MYLITE_OK)
    (fun _ p' => php_ok p' /\ statement_objects p' = statement_objects p) p).
  { yields_step; [|by yields_step]. apply yields_kept; [steps_auto|done|]. intros a w _ Hw. done. }
  eapply yields_mono; [exact Hreset|]. intros r p1 [Hp1 Ho1]. destruct (negb _); [by yields_step|].
  yields_step. apply yields_kept; [steps_auto|done|]. intros a w _ Hw. unfold put_statement. do 2 yields_step.
  assert (Hput : php_ok (set_statement_objects
     (<[q := with_statement_step_result a t]> (statement_objects (set_php_library w p1))) (set_php_library w p1))).
  { apply (php_ok_put_statement q t); try done. simpl. congruence. }
  by repeat yields_step.
Qed.

Lemma keeps_statement_fetchAssociative q : keeps (statement_fetchAssociative q).
Proof.
  intros p Hp. unfold statement_fetchAssociative. yields_step. apply yields_deref. intros t Ht.
  destruct (statement_stmt t) as [s|] eqn:Hs; [|by yields_step]. destruct (negb _); [by yields_step|].
  yields_step. apply yields_kept; [apply kept_current_row, kept_column_to_zval|done|]. intros row w _ Hw.
  yields_step. apply yields_kept; [steps_auto|done|]. intros a w' _ Hw'. unfold put_statement. repeat yields_step.
  by apply (php_ok_put_statement q t).
Qed.

Lemma php_ok_results rs p : php_ok p -> php_ok (set_result_objects rs p).
Proof. intros Hp. apply (php_ok_same p); try done. intros c x Hx. by exists x. Qed.
Lemma keeps_result_fetchAssociative r : keeps (result_fetchAssociative r).
Proof.
  unfold result_fetchAssociative, get_result, put_result. keeps_auto. intros p Hp. by apply php_ok_results.
Qed.
Lemma keeps_result_fetchAll r : keeps (result_fetchAll r).
Proof. unfold result_fetchAll, get_result. keeps_auto. Qed.
Lemma keeps_result_object rows : keeps (php_mylite_result_object_from_rows rows).
Proof.
  unfold php_mylite_result_object_from_rows, put_result. keeps_auto; intros p Hp; by apply php_ok_results.
Qed.
Lemma keeps_result_free r : keeps (php_mylite_result_free r).
Proof. intros p Hp. by apply php_ok_results. Qed.

Lemma connection_close_spec c : keeps (connection_close c).
Proof.
  intros p [Hp Hpos]. unfold connection_close. yields_step. apply yields_deref. intros x Hx.
  destruct (connection_db x) as [d|] eqn:Hdb; [|by yields_step].
  assert (Hc : opened p !! c = Some d) by (by rewrite (opened_lookup c x)).
  yields_step. apply yields_zoom. eapply yields_wp.
  { apply (mylite_close_spec base d); [apply Hp|]. apply (po_opened _ Hp). by exists c. }
  intros r w (Hw & Ho & Hclose). destruct (decide (owned_by d (php_library p) = ∅)) as [Hnone|].
  - destruct Hclose as ([= ->] & Hdbs & _). change (negb (MYLITE_OK =? MYLITE_OK)) with false. cbn iota.
    unfold put_connection. repeat yields_step. split.
    + apply (php_core_closed c d); try done.
      * by apply omap_insert_None.
      * intros c' x'. simpl. intros [[<- <-]|[_ Hx']]%lookup_insert_Some;
          [exact (po_counted p Hp c x Hx)|by apply (po_counted p Hp)].
    + intros c' x'. simpl. intros [[<- <-]|[_ Hx']]%lookup_insert_Some; [exact (Hpos c x Hx)|by eapply Hpos].
  - destruct Hclose as ([= ->] & Hf). apply keeps_throw_db. by apply php_ok_frame.
Qed.

(** A statement that lives for a part of a method. *)
Definition holding_statement (s d : nat) (p p' : php) : Prop := exists w,
  p' = set_php_library w p /\ library_ok base w /\ same_handles (php_library p) w /\
  owners (php_library p) !! s = None /\ owners w = <[s := Some d]> (owners (php_library p)).

Lemma holding_kept {A} s d (m : cmd world A) (P : A -> php -> Prop) p p' :
  steps library_frame m -> holding_statement s d p p' ->
  (forall a p', holding_statement s d p p' -> P a p') -> yields (call_library m) P p'.
Proof.
  intros Hm (w & -> & Hw & Hd & Hs & Ho) HP. apply yields_zoom. eapply yields_steps; [exact Hm|].
  intros a w' Hf. apply HP. exists w'. split; [done|]. split; [by eapply library_ok_frame|].
  split; [etrans; [exact Hd|by apply library_frame_handles]|]. split; [done|]. rewrite <- Ho. apply Hf.
Qed.

Lemma holding_finalize s d (P : Z -> php -> Prop) p p' :
  holding_statement s d p p' -> php_ok p -> (forall a p'', php_ok p'' -> P a p'') ->
  yields (call_library (mylite_finalize (Some s))) P p'.
Proof.
  intros (w & -> & Hw & Hd & Hs & Ho) Hp HP. apply yields_zoom.
  eapply yields_wp_steps; [|apply handles_mylite_finalize|].
  { apply (mylite_finalize_spec base s); [exact Hw|]. simpl. rewrite Ho, lookup_insert_eq. eauto. }
  simpl. intros a w' (_ & Hw' & Ho') Hd'. apply HP. apply (php_ok_library w' p); [done| |by rewrite Ho', Ho, delete_insert_id|done].
  by etrans.
Qed.

(** The two methods that prepare a statement. *)
Lemma prepare_then {A} c d sql (P : php_result A -> php -> Prop) message (rest : option nat -> cmd php (php_result A)) p :
  php_ok p -> opened p !! c = Some d -> countable d (php_library p) ->
  (forall r p', php_ok p' -> P r p') ->
  (forall s p', holding_statement s d p p' -> yields (rest (Some s)) P p') ->
  yields ('(result, stmt, _) ← call_library
       (mylite_prepare (Some d) (Some (sql ++ [zero])) (Z.of_nat (length sql)) true);
    if negb (result =? MYLITE_OK) then php_mylite_throw_db (Some d) result message else rest stmt) P p.
Proof.
  intros Hp Hc Hcount HP Hrest. yields_step. apply yields_zoom.
  eapply yields_wp_steps; [|apply handles_mylite_prepare|].
  { apply (prepare_impl_spec base d); [apply Hp| |done]. apply (po_opened p (proj1 Hp)). by exists c. }
  intros [[code [s|]] tail] w; simpl.
  - intros (-> & Hw & Hs & Ho) Hd. change (negb (MYLITE_OK =? MYLITE_OK)) with false. cbn iota.
    apply Hrest. by exists w.
  - intros (Hcode & Hw & Ho) Hd. apply Z.eqb_neq in Hcode. rewrite Hcode.
    apply (yields_mono (php_mylite_throw_db (Some d) code message) (fun _ p' => php_ok p')); [|exact HP].
    apply keeps_throw_db. by apply php_ok_library.
Qed.

Lemma connection_query_spec fuel c sql p :
  php_ok p -> (forall d, opened p !! c = Some d -> countable d (php_library p)) ->
  yields (connection_query fuel c sql) (fun _ p' => php_ok p') p.
Proof.
  intros Hp Hcount. unfold connection_query, php_mylite_require_db. yields_step. apply yields_deref.
  intros x Hx. destruct (connection_db x) as [d|] eqn:Hdb; [|by yields_step].
  assert (Hc : opened p !! c = Some d) by (by rewrite (opened_lookup c x)).
  apply (prepare_then c d); [done|done|by apply Hcount|done|]. intros s p1 Hp1.
  yields_step. eapply (holding_kept s d); [steps_auto|done|]. intros r p2' Hp2'.
  yields_step. eapply (holding_kept s d); [apply kept_rows_loop, kept_column_to_zval|done|].
  intros [rows step_result] p2 Hp2.
  yields_step. eapply (holding_kept s d); [unfold mylite_column_count; steps_auto|done|]. intros n p3 Hp3.
  yields_step. eapply (holding_finalize s d); [done|exact Hp|]. intros finalize_result p4 Hp4.
  do 2 (destruct (negb _); [by apply keeps_throw_db|]). destruct (n =? 0); [by yields_step|].
  apply keeps_bind; [apply keeps_result_object|by intros; apply keeps_ret|done].
Qed.

Lemma connection_prepare_spec c sql p :
  php_ok p -> (forall d, opened p !! c = Some d -> countable d (php_library p)) ->
  yields (connection_prepare c sql) (fun _ p' => php_ok p') p.
Proof.
  intros Hp Hcount. unfold connection_prepare, php_mylite_require_db. yields_step. apply yields_deref.
  intros x Hx. destruct (connection_db x) as [d|] eqn:Hdb; [|by yields_step].
  assert (Hc : opened p !! c = Some d) by (by rewrite (opened_lookup c x)).
  apply (prepare_then c d); [done|done|by apply Hcount|done|]. intros s p1 (w & -> & Hw & Hd & Hs & Ho).
  yields_step. unfold php_mylite_statement_create, yields, wp. simpl. set (q := fresh _).
  unfold put_statement, GC_ADDREF, get_connection, put_connection, mbind, cmd_bind, deref, modify. simpl.
  rewrite Hx. simpl. unfold set_statement_objects at 2. simpl. rewrite insert_insert_eq, Hdb.
  apply (php_ok_prepared q s c d x); try done. apply not_elem_of_dom, is_fresh.
Qed.

(** ** Opening a connection *)

Lemma open_handle_spec `{!Compliant} {A} path flags (use : option nat -> cmd php (php_result A))
    (P : php_result A -> php -> Prop) p :
  php_ok p -> Z.of_nat (stdpp.base.size (dbs (php_library p))) < 2 ^ 32 - 1 ->
  (forall r p', php_ok p' -> connection_objects p' = connection_objects p -> P r p') ->
  (forall d w, library_ok base w -> owners w = owners (php_library p) -> d ∉ dom (dbs (php_library p)) ->
     dom (dbs w) = {[d]} ∪ dom (dbs (php_library p)) -> yields (use (Some d)) P (set_php_library w p)) ->
  yields (open_handle path flags use) P p.
Proof.
  intros Hp Hsize HP Huse. unfold open_handle. destruct (negb _); [by yields_step; apply HP|].
  yields_step. apply yields_zoom. eapply yields_wp.
  { apply (open_impl_spec base); [apply Hp|done]. }
  intros [code handle] w (Hw & Ho & code' & handle' & [= <- <-] & Hcase).
  destruct (code =? MYLITE_OK); simpl.
  - destruct Hcase as (d & -> & Hnew & Hd & Hdel & _). apply Huse; try done.
    rewrite <- Hdel, dom_delete_L. rewrite <- union_difference_singleton_L; [done|done].
  - destruct Hcase as (-> & Hdbs). apply yields_ret. apply HP; [|done].
    apply php_ok_library; try done. unfold same_handles. by rewrite Hdbs.
Qed.

Lemma connection_construct_spec `{!Compliant} c path flags p :
  php_ok p -> Z.of_nat (stdpp.base.size (dbs (php_library p))) < 2 ^ 32 - 1 ->
  yields (connection_construct c path flags) (fun _ p' => php_ok p') p.
Proof.
  intros Hp Hsize. unfold connection_construct. yields_step. apply yields_deref. intros x Hx.
  destruct (connection_db x) as [d|] eqn:Hdb; [by yields_step|].
  apply open_handle_spec; try done. intros d w Hw Ho Hd Hdom. unfold put_connection. repeat yields_step.
  apply (php_ok_opened c d (connection_refs x) w p); try done.
  - by rewrite (opened_lookup c x).
  - by apply (po_counted p (proj1 Hp)).
  - by apply (proj2 Hp c).
Qed.

Lemma references_fresh c p : php_core p -> connection_objects p !! c = None -> references c p = 0%nat.
Proof.
  intros Hp Hc. apply map_size_empty_iff, map_empty. intros q. apply map_lookup_filter_None. right.
  simpl. intros c' Hq ->. destruct (po_referred p Hp q c Hq) as [s Hs].
  destruct (po_owner p Hp q s Hs) as (c' & d & Hq' & Hc' & _). rewrite Hq in Hq'. injection Hq' as <-.
  destruct (opened_object c d p Hc') as (x & Hx & _). congruence.
Qed.

Lemma open_into_object_spec `{!Compliant} path flags p :
  php_ok p -> Z.of_nat (stdpp.base.size (dbs (php_library p))) < 2 ^ 32 - 1 ->
  yields (php_mylite_open_into_object path flags) (fun _ p' => php_ok p') p.
Proof.
  intros Hp Hsize. apply open_handle_spec; try done. intros d w Hw Ho Hd Hdom.
  yields_step. unfold php_mylite_connection_create, yields, wp. simpl. set (c := fresh _).
  unfold set_connection_objects at 1. simpl. rewrite insert_insert_eq.
  assert (Hc : connection_objects p !! c = None) by apply not_elem_of_dom, is_fresh.
  apply (php_ok_opened c d 1 w p); try done; [unfold opened; by rewrite lookup_omap, Hc| |lia].
  rewrite references_fresh by (done || apply Hp). lia.
Qed.

Lemma keeps_connection_create : keeps php_mylite_connection_create.
Proof.
  intros p [Hp Hpos]. unfold php_mylite_connection_create, yields, wp. simpl. set (c := fresh _).
  assert (Hc : connection_objects p !! c = None) by apply not_elem_of_dom, is_fresh.
  assert (Hop : omap connection_db (<[c := mkConnection None 1]> (connection_objects p)) = opened p).
  { rewrite omap_insert_None by done. apply delete_id. unfold opened. by rewrite lookup_omap, Hc. }
  split; [|intros c' x'; simpl; by intros [[<- <-]|[_ Hx']]%lookup_insert_Some; [simpl; lia|by eapply Hpos]].
  pose proof (references_fresh c p Hp Hc) as Hr. destruct Hp.
  split; simpl; try done; unfold opened; simpl; rewrite ?Hop; try done.
  intros c' x' [[<- <-]|[_ Hx']]%lookup_insert_Some; [|by apply po_counted0].
  change (references c p <= 1)%nat. lia.
Qed.

Lemma keeps_GC_ADDREF c : keeps (GC_ADDREF c).
Proof.
  intros p Hp. unfold GC_ADDREF, put_connection. yields_step. apply yields_deref. intros x Hx.
  yields_step. apply (php_ok_same p); try done; [by eapply omap_insert_same|].
  intros c' x'. simpl. intros [[<- <-]|[_ Hx']]%lookup_insert_Some; [exists x; simpl; auto|by exists x'].
Qed.
End objects.

(** ** Scripts *)

(** What the engine calls: the methods, and the functions that create and free
    objects.  [PhpRetain] and [PhpRelease] count the references of variables
    and other values to a connection. *)
Inductive php_call : Type :=
| PhpCreate
| PhpOpen (path : bytes) (flags : Z)
| PhpConstruct (c : nat) (path : bytes) (flags : Z)
| PhpClose (c : nat)
| PhpExec (c : nat) (sql : bytes)
| PhpQuery (fuel : nat) (c : nat) (sql : bytes)
| PhpPrepare (c : nat) (sql : bytes)
| PhpErrorCode (c : nat)
| PhpSqlState (c : nat)
| PhpErrorMessage (c : nat)
| PhpMariadbErrno (c : nat)
| PhpChanges (c : nat)
| PhpLastInsertId (c : nat)
| PhpBindValue (q : nat) (index : Z) (value : zval)
| PhpExecute (q : nat)
| PhpStatementFetch (q : nat)
| PhpResultFetch (r : nat)
| PhpFetchAll (r : nat)
| PhpRetain (c : nat)
| PhpRelease (c : nat)
| PhpFreeStatement (q : nat)
| PhpFreeResult (r : nat).

Section scripts.
  Context `{Server, Build, Zend}.

Definition ignore {A} (m : cmd php A) : cmd php unit := m ;; mret tt.

Definition run_php (call : php_call) : cmd php unit :=
  match call with
  | PhpCreate => ignore php_mylite_connection_create
  | PhpOpen path flags => ignore (php_mylite_open_into_object path flags)
  | PhpConstruct c path flags => ignore (connection_construct c path flags)
  | PhpClose c => ignore (connection_close c)
  | PhpExec c sql => ignore (connection_exec c sql)
  | PhpQuery fuel c sql => ignore (connection_query fuel c sql)
  | PhpPrepare c sql => ignore (connection_prepare c sql)
  | PhpErrorCode c => ignore (connection_errorCode c)
  | PhpSqlState c => ignore (connection_sqlState c)
  | PhpErrorMessage c => ignore (connection_errorMessage c)
  | PhpMariadbErrno c => ignore (connection_mariadbErrno c)
  | PhpChanges c => ignore (connection_changes c)
  | PhpLastInsertId c => ignore (connection_lastInsertId c)
  | PhpBindValue q index value => ignore (statement_bindValue q index value)
  | PhpExecute q => ignore (statement_execute q)
  | PhpStatementFetch q => ignore (statement_fetchAssociative q)
  | PhpResultFetch r => ignore (result_fetchAssociative r)
  | PhpFetchAll r => ignore (result_fetchAll r)
  | PhpRetain c => GC_ADDREF c
  | PhpRelease c => OBJ_RELEASE c
  | PhpFreeStatement q => php_mylite_statement_free q
  | PhpFreeResult r => php_mylite_result_free r
  end.

(** The engine releases only references that are not a statement's, and no
    count of the library reaches [UINT_MAX]. *)
Definition few_statements (c : nat) (p : php) : bool :=
  match connection_objects p !! c ≫= connection_db with
  | Some d => Z.of_nat (stdpp.base.size (owned_by d (php_library p))) <? 2 ^ 32 - 1
  | None => true
  end.
Definition few_handles (p : php) : bool :=
  Z.of_nat (stdpp.base.size (dbs (php_library p))) <? 2 ^ 32 - 1.

Definition php_call_ok (call : php_call) (p : php) : bool :=
  match call with
  | PhpOpen _ _ | PhpConstruct _ _ _ => few_handles p
  | PhpQuery _ c _ | PhpPrepare c _ => few_statements c p
  | PhpRelease c =>
      match connection_objects p !! c with
      | Some x => (references c p <? connection_refs x)%nat
      | None => false
      end
  | PhpFreeStatement q => bool_decide (is_Some (statement_objects p !! q))
  | _ => true
  end.

(** A script: calls that return, one after the other. *)
Fixpoint run_script (calls : list php_call) (p : php) : option php :=
  match calls with
  | [] => Some p
  | call :: calls =>
      if php_call_ok call p then
        match run_php call p with
        | (Ret _, p') => run_script calls p'
        | _ => None
        end
      else None
  end.

Lemma keeps_ignore base {A} (m : cmd php A) p :
  yields m (fun _ p' => php_ok base p') p -> yields (ignore m) (fun _ p' => php_ok base p') p.
Proof. intros Hm. apply yields_bind. by eapply yields_mono. Qed.

Lemma few_statements_countable c p :
  few_statements c p = true -> forall d, opened p !! c = Some d -> countable d (php_library p).
Proof.
  unfold few_statements, countable. intros Hfew d Hd. destruct (opened_object c d p Hd) as (x & Hx & Hdb).
  rewrite Hx in Hfew. simpl in Hfew. rewrite Hdb in Hfew. lia.
Qed.

Lemma run_php_ok `{!Compliant} base call p :
  php_ok base p -> php_call_ok call p = true -> yields (run_php call) (fun _ p' => php_ok base p') p.
Proof.
  intros Hp Hcall. destruct call; simpl in *; try apply keeps_ignore.
  - by apply keeps_connection_create.
  - apply (open_into_object_spec base); [done|]. unfold few_handles in Hcall. lia.
  - apply (connection_construct_spec base); [done|]. unfold few_handles in Hcall. lia.
  - by apply connection_close_spec.
  - by apply keeps_connection_exec.
  - apply connection_query_spec; [done|]. by apply few_statements_countable.
  - apply connection_prepare_spec; [done|]. by apply few_statements_countable.
  - by apply keeps_connection_field.
  - by apply keeps_connection_field.
  - by apply keeps_connection_field.
  - by apply keeps_connection_field.
  - by apply keeps_connection_field.
  - by apply keeps_connection_field.
  - by apply keeps_statement_bindValue.
  - by apply keeps_statement_execute.
  - by apply keeps_statement_fetchAssociative.
  - by apply keeps_result_fetchAssociative.
  - by apply keeps_result_fetchAll.
  - by apply keeps_GC_ADDREF.
  - destruct (connection_objects p !! c) as [x|] eqn:Hx; [|done].
    apply (OBJ_RELEASE_spec base c x); [apply Hp|apply Hp|done|]. by apply Nat.ltb_lt.
  - apply statement_free_spec; [done|]. by apply bool_decide_eq_true in Hcall.
  - by apply keeps_result_free.
Qed.

(** Without connections the library is idle and no statement is left. *)
Lemma php_ok_empty base p :
  php_ok base p -> connection_objects p = ∅ ->
  held p = ∅ /\ owners (php_library p) = ∅ /\ dbs (php_library p) = ∅ /\
  runtime (php_library p) = initial_runtime /\ descriptors (sys (php_library p)) = base.
Proof.
  intros [[] _] Hnone.
  assert (Hop : forall c, opened p !! c = None) by (intros c; unfold opened; by rewrite lookup_omap, Hnone, lookup_empty).
  assert (Hheld : forall q, held p !! q = None).
  { intros q. destruct (held p !! q) eqn:Hq; [|done]. destruct (po_owner0 _ _ Hq) as (c & d & _ & Hc & _). by rewrite Hop in Hc. }
  assert (Hdbs : dbs (php_library p) = ∅).
  { apply dom_empty_iff_L. apply set_eq. intros d. rewrite po_opened0. setoid_rewrite Hop. split; [by intros [? ?]|by intros ?%elem_of_empty]. }
  split; [by apply map_empty|]. split.
  - apply map_empty. intros s. apply eq_None_not_Some. rewrite po_held0. intros [q Hq]. by rewrite Hheld in Hq.
  - split; [done|]. by apply (ro_idle _ _ _ (lib_runtime _ _ po_library0)).
Qed.
End scripts.

(** C17: however a script uses the classes of the extension mylite, whatever
    fails in the library or the server and in whatever order the engine frees
    the objects, every open handle belongs to exactly one connection object,
    every prepared statement to exactly one statement object, whose connection
    object is still there and open with the statement's handle, and the
    reference count of a connection covers its statements; a connection is
    therefore freed after its statements, and once the script has no
    connection object left, no handle, no statement, no server and no lock is
    left behind.  The calls of the script are those that return. *)
Theorem php_objects_ok `{Server, !Compliant, Build, Zend} (base : gmap Z open_file)
    (calls : list php_call) (p p' : php) (Hok : php_ok base p) (Hrun : run_script calls p = Some p') :
  php_ok base p' /\
  (connection_objects p' = ∅ ->
   held p' = ∅ /\ owners (php_library p') = ∅ /\ dbs (php_library p') = ∅ /\
   runtime (php_library p') = initial_runtime /\ descriptors (sys (php_library p')) = base).
Proof.
  assert (Hp' : php_ok base p'); [|split; [done|by apply php_ok_empty]].
  revert p Hok Hrun. induction calls as [|call calls IH]; simpl; intros p Hok Hrun; [by injection Hrun as <-|].
  destruct (php_call_ok call p) eqn:Hcall; [|done]. pose proof (run_php_ok base call p Hok Hcall) as Hcall'.
  unfold yields, wp in Hcall'. destruct (run_php call p) as [[] p1]; try done. by apply (IH p1).
Qed.

(** ** Queries *)

Section queries.
  Context `{Server, Build, Zend}.

(** The rows as arrays. *)
Definition php_arrays (fields : list MYSQL_FIELD) (rows : list (list column_value)) : list zend_array :=
  map (fun vs => assoc_row fields (zip_with php_value fields vs)) rows.

Lemma rows_sent_length fields rows texts vs :
  rows_sent fields rows texts -> vs ∈ rows -> length vs = length fields.
Proof.
  intros Hsent [i Hvs]%list_elem_of_lookup. destruct (Forall2_lookup_l _ _ _ _ _ Hsent Hvs) as (ts & _ & Hok & _).
  apply Forall3_length_lm in Hok. by rewrite length_fmap in Hok.
Qed.

(** [while ($row = $result->fetchAssociative())] *)
Fixpoint fetch_loop (fuel : nat) (r : nat) : cmd php (list zend_array) :=
  match fuel with
  | O => out_of_fuel
  | S fuel =>
      row ← result_fetchAssociative r;
      match row with
      | Returned (Some row) => rows ← fetch_loop fuel r; mret (row :: rows)
      | _ => mret []
      end
  end.
Definition query_loop (fuel : nat) (c : nat) (sql : bytes) : cmd php (php_result (list zend_array)) :=
  result ← connection_query fuel c sql;
  match result with
  | Returned (Some r) => rows ← fetch_loop fuel r; mret (Returned rows)
  | Returned None => mret (Returned [])
  | Thrown message code => mret (Thrown message code)
  end.

Lemma fetch_next_spec r row before rows (Q : outcome (php_result (option zend_array)) -> php -> Prop) p :
  result_objects p !! r = Some (mkResult (before ++ row :: rows) (length before)) ->
  Q (Ret (Returned (Some row))) (set_result_objects
    (<[r := mkResult ((before ++ [row]) ++ rows) (length (before ++ [row]))]> (result_objects p)) p) ->
  wp (result_fetchAssociative r) Q p.
Proof.
  intros Hr HQ. unfold result_fetchAssociative, get_result, put_result. apply wp_bind.
  eapply wp_deref; [exact Hr|]. apply bind_post_ret. cbn [result_rows result_position].
  rewrite lookup_app_r, Nat.sub_diag by lia. cbn [lookup list_lookup]. wp_auto.
  by rewrite <- app_assoc, length_app, Nat.add_1_r in HQ.
Qed.

Lemma fetch_loop_spec r rows : forall before p,
  result_objects p !! r = Some (mkResult (before ++ rows) (length before)) ->
  wp (fetch_loop (S (length rows)) r) (fun o p' => o = Ret rows /\ php_library p' = php_library p /\
    connection_objects p' = connection_objects p) p.
Proof.
  induction rows as [|row rows IH]; intros before p Hr; cbn [length].
  - cbn [fetch_loop]. unfold result_fetchAssociative, get_result. apply wp_bind, wp_bind.
    eapply wp_deref; [exact Hr|]. apply bind_post_ret. cbn [result_rows result_position].
    rewrite app_nil_r, lookup_ge_None_2 by lia. apply wp_ret. by apply bind_post_ret, wp_ret.
  - remember (S (length rows)) as fuel. cbn [fetch_loop]. apply wp_bind. eapply fetch_next_spec; [exact Hr|].
    apply bind_post_ret, wp_bind. eapply wp_mono; [apply (IH (before ++ [row])); apply lookup_insert_eq|].
    intros o p' (-> & Hl & Hc). by apply bind_post_ret, wp_ret.
Qed.

Lemma connection_query_rows c d x sql id fields data rows texts srv srv' fs fs' p :
  connection_objects p !! c = Some x -> connection_db x = Some d ->
  at_rest d (php_library p) -> preparable d sql (Z.of_nat (length sql)) (php_library p) ->
  prepares d sql id 0 fields srv fs (php_library p) -> columns_known fields -> zerofill_unsigned fields ->
  executes d id [] data srv' fs' (set_server_state srv fs (php_library p)) ->
  d_fields_list data = Some fields -> d_rows data = packets rows -> rows_sent fields rows texts ->
  session_killed d srv' = false ->
  wp (connection_query (S (length rows)) c sql) (fun o p' => exists r,
    o = Ret (Returned (Some r)) /\ result_objects p' !! r = Some (mkResult (php_arrays fields rows) 0) /\
    connection_objects p' = connection_objects p /\ connection d ready (php_library p')) p.
Proof.
  intros Hc Hdb Hrest Hsql Hprep Hknown Hfill Hexec Hdata Hpackets Hrows Hlive.
  unfold connection_query, php_mylite_require_db, call_library. apply wp_bind. eapply wp_deref; [exact Hc|].
  apply bind_post_ret. rewrite Hdb.
  eapply (query_rows_spec php_library set_php_library ltac:(done) ltac:(done) column_to_zval php_value); try done;
    [by intros; eapply column_to_zval_spec|lia|].
  intros s w2 Hended Hsrv2. apply wp_bind, wp_part.
  eapply wp_mono; [eapply ended_count_reads; [exact Hended|apply Hknown|apply Hknown]|].
  intros o w3 [-> ->]. apply bind_post_ret. apply wp_bind, wp_part.
  eapply wp_mono; [eapply finalize_stepped_spec; [apply Hended|by rewrite <- Hsrv2 in Hlive]|].
  intros o w4 (-> & _ & Hready & _). apply bind_post_ret.
  change (negb (MYLITE_DONE =? MYLITE_DONE)) with false. change (negb (MYLITE_OK =? MYLITE_OK)) with false. cbn iota.
  destruct fields as [|field fields]; [by destruct Hknown|].
  rewrite (proj2 (Z.eqb_neq _ _)) by (simpl; lia). cbn iota. apply wp_bind.
  unfold php_mylite_result_object_from_rows, php_mylite_result_create, put_result, wp. simpl.
  eexists. split; [done|]. split; [apply lookup_insert_eq|]. done.
Qed.
End queries.


(** ** On the scripted server *)

(** A script that drops its connection before the statement. *)
Definition php_script : list php_call :=
  [PhpOpen (str "/srv/db") open_flags; PhpPrepare 0 example_sql; PhpRelease 0;
   PhpBindValue 0 2 (IS_LONG 5); PhpExecute 0; PhpStatementFetch 0; PhpFreeStatement 0].
Definition php_start : php :=
  mkPhp (initial_world (after_open [prepared 7 2 example_fields; ok_answer; answer [example_data]])) ∅ ∅ ∅.

Lemma php_start_ok : php_ok ∅ php_start.
Proof.
  split; [|by intros c x Hx; simpl in Hx; rewrite lookup_empty in Hx].
  split; simpl; try apply initial_library_ok; unfold opened, held, referred; simpl; try done.
  - intros d. split; [set_solver|]. intros [c Hc]. by rewrite lookup_omap, lookup_empty in Hc.
  - intros s. split; [intros [o Ho]; unfold owners in Ho; simpl in Ho; by rewrite fmap_empty, lookup_empty in Ho|].
    intros [q Hq]. by rewrite lookup_omap, lookup_empty in Hq.
Qed.

Lemma php_objects_ok_witness :
  exists p, run_script php_script php_start = Some p /\ connection_objects p = ∅ /\
    dbs (php_library p) = ∅ /\ descriptors (sys (php_library p)) = ∅.
Proof.
  assert (Hrun : (stdpp.base.size <$> (connection_objects <$> run_script php_script php_start)) = Some 0%nat) by (by vm_compute).
  apply fmap_Some in Hrun as (cs & Hrun & Hcs). apply fmap_Some in Hrun as (p & Hrun & ->).
  symmetry in Hcs. apply map_size_empty_inv in Hcs. exists p.
  destruct (php_objects_ok ∅ php_script php_start p php_start_ok Hrun) as [_ Hidle].
  destruct (Hidle Hcs) as (_ & _ & Hdbs & _ & Hdesc).
  exact (conj Hrun (conj Hcs (conj Hdbs Hdesc))).
Defined.

Definition plain_sql : bytes := str "SELECT a, b FROM t".
Definition php_world : php :=
  mkPhp (opened_world (after_open [prepared 7 0 example_fields; answer [example_data]]))
    {[ 3%nat := mkConnection (Some 0%nat) 1 ]} ∅ ∅.


(** ** Errors that are not reported *)

(** A short row, then one that needs a larger buffer. *)
Definition growing_rows : list (list column_value) :=
  [[VLong 1; VString (str "b")]; [VLong 2; VString (str "longer than its buffer")]].
Definition fetching_php (allocations : list bool) : php :=
  let start := mkPhp (initial_world (after_open [prepared 7 0 example_fields; ok_answer;
    answer [rows_data example_fields (map BinaryRow (map row_packet growing_rows))]])) ∅ ∅ ∅ in
  match run_script [PhpOpen (str "/srv/db") open_flags; PhpPrepare 0 plain_sql; PhpExecute 0] start with
  | Some p => set_php_library (set_allocations allocations (php_library p)) p
  | None => start
  end.

(** [fetchAssociative] steps ahead and keeps the error of that step to itself:
    when the memory for the second row runs out, the script gets the first row
    and then [null], as at the end of the rows, and no exception. *)
Lemma fetch_hides_error :
  let '(first, p1) := statement_fetchAssociative 0 (fetching_php [false]) in
  let '(second, p2) := statement_fetchAssociative 0 p1 in
  first = Ret (Returned (Some [(KeyString (str "a"), IS_LONG 1); (KeyString (str "b"), IS_STRING (str "b"))])) /\
  second = Ret (Returned None) /\
  statement_step_result <$> statement_objects p1 !! 0%nat = Some MYLITE_NOMEM.
Proof. vm_compute. by split_and!. Qed.

(** The class has no method that resets a statement, and [bindValue] does not:
    once it has been executed, no value can be bound to it any more. *)
Lemma rebind_throws :
  let start := mkPhp (initial_world (after_open [prepared 7 2 example_fields; ok_answer; answer [example_data]])) ∅ ∅ ∅ in
  (fun p => fst (statement_bindValue 0 1 (IS_LONG 5) p)) <$>
    run_script [PhpOpen (str "/srv/db") open_flags; PhpPrepare 0 example_sql; PhpBindValue 0 1 (IS_LONG 4);
                PhpExecute 0; PhpStatementFetch 0; PhpStatementFetch 0; PhpStatementFetch 0] start =
  Some (Ret (Thrown (str "could not bind MyLite statement value") MYLITE_MISUSE)).
Proof. by vm_compute. Qed.
