(* ===== verification/Pdo.v ===== *)
(** * The PDO driver

    [packages/php-ext-pdo-mylite/src/php_pdo_mylite.c]: the functions that PDO
    calls on a database object and on a statement object, over the functions
    of [mylite.h].  The objects of PDO are records with the fields the driver
    uses; the functions of PDO that it calls are the class [PdoCore]. *)

From S2P Require Import Prelude Api Effects System Numbers World BinaryRow Literals Runtime Exec Statement Zend.
From stdpp Require Import options.

Local Open Scope Z_scope.

(** ** Objects of PDO *)

Inductive pdo_param_event : Set :=
| PDO_PARAM_EVT_ALLOC
| PDO_PARAM_EVT_FREE
| PDO_PARAM_EVT_EXEC_PRE
| PDO_PARAM_EVT_EXEC_POST
| PDO_PARAM_EVT_FETCH_PRE
| PDO_PARAM_EVT_FETCH_POST
| PDO_PARAM_EVT_NORMALIZE.

#[global] Instance pdo_param_event_eq_dec : EqDecision pdo_param_event.
Proof. solve_decision. Defined.

Inductive pdo_attribute : Set :=
| PDO_ATTR_CLIENT_VERSION
| PDO_ATTR_SERVER_VERSION
| PDO_ATTR_DRIVER_NAME
| pdo_attribute_other (attr : Z).

Record pdo_bound_param_data : Set := mkParam {
  paramno : Z;
  is_param : bool;
  parameter : zval;
}.

Record pdo_column_data : Set := mkPdoColumn {
  column_name : bytes;
  maxlen : Z;
  precision : Z;
}.

(** [columns] and [column_count] of a statement; the former is a null pointer
    until PDO has allocated it. *)
Definition pdo_columns : Set := option (list pdo_column_data) * Z.

(** [struct pdo_mylite_db_handle] *)
Record pdo_mylite_db_handle : Set := mkPdoHandle {
  handle_db : option nat;
  native_errno : Z;
  handle_errmsg : option bytes;
}.

(** [struct pdo_mylite_stmt] *)
Record pdo_mylite_stmt : Set := mkPdoStmt {
  data_handle : nat;
  data_stmt : option nat;
  step_result : Z;
  prefetched : bool;
  data_done : bool;
}.

Record pdo_dbh_t : Set := mkDbh {
  dbh_driver_data : option nat;
  dbh_error_code : bytes;
  is_persistent : bool;
  data_source : bytes;
  alloc_own_columns : bool;
  max_escaped_char_length : Z;
  skip_param_evt : Z;
  dbh_methods : bool;
}.

Record pdo_stmt_t : Set := mkPdoStatement {
  stmt_dbh : nat;
  stmt_driver_data : option pdo_mylite_stmt;
  stmt_error_code : bytes;
  stmt_executed : bool;
  stmt_columns : pdo_columns;
  row_count : Z;
  placeholders_positional : bool;
  stmt_methods : bool;
}.

(** What the driver uses of PDO. *)
Class PdoCore : Set := {
  (** the values of the named options of a data source, and how many there are *)
  php_pdo_parse_data_source : bytes -> list bytes -> Z * list (option bytes);
  php_pdo_stmt_set_column_count : Z -> pdo_columns -> pdo_columns;
  pdo_param_event_value : pdo_param_event -> Z;
}.

(** Assignments to single fields. *)
Definition with_handle_db (db : option nat) (h : pdo_mylite_db_handle) : pdo_mylite_db_handle :=
  mkPdoHandle db (native_errno h) (handle_errmsg h).
Definition with_handle_error (errno : Z) (message : bytes) (h : pdo_mylite_db_handle)
    : pdo_mylite_db_handle :=
  mkPdoHandle (handle_db h) errno (Some message).
Definition with_step_result (r : Z) (t : pdo_mylite_stmt) : pdo_mylite_stmt :=
  mkPdoStmt (data_handle t) (data_stmt t) r (prefetched t) (data_done t).
Definition with_prefetched (b : bool) (t : pdo_mylite_stmt) : pdo_mylite_stmt :=
  mkPdoStmt (data_handle t) (data_stmt t) (step_result t) b (data_done t).
Definition with_done (b : bool) (t : pdo_mylite_stmt) : pdo_mylite_stmt :=
  mkPdoStmt (data_handle t) (data_stmt t) (step_result t) (prefetched t) b.
Definition with_dbh_driver_data (h : option nat) (x : pdo_dbh_t) : pdo_dbh_t :=
  mkDbh h (dbh_error_code x) (is_persistent x) (data_source x) (alloc_own_columns x)
    (max_escaped_char_length x) (skip_param_evt x) (dbh_methods x).
Definition with_dbh_error_code (code : bytes) (x : pdo_dbh_t) : pdo_dbh_t :=
  mkDbh (dbh_driver_data x) code (is_persistent x) (data_source x) (alloc_own_columns x)
    (max_escaped_char_length x) (skip_param_evt x) (dbh_methods x).
Definition with_dbh_settings (own : bool) (escaped evt : Z) (x : pdo_dbh_t) : pdo_dbh_t :=
  mkDbh (dbh_driver_data x) (dbh_error_code x) (is_persistent x) (data_source x) own escaped evt
    (dbh_methods x).
Definition with_dbh_methods (x : pdo_dbh_t) : pdo_dbh_t :=
  mkDbh (dbh_driver_data x) (dbh_error_code x) (is_persistent x) (data_source x)
    (alloc_own_columns x) (max_escaped_char_length x) (skip_param_evt x) true.
Definition with_stmt_driver_data (t : option pdo_mylite_stmt) (x : pdo_stmt_t) : pdo_stmt_t :=
  mkPdoStatement (stmt_dbh x) t (stmt_error_code x) (stmt_executed x) (stmt_columns x) (row_count x)
    (placeholders_positional x) (stmt_methods x).
Definition with_stmt_error_code (code : bytes) (x : pdo_stmt_t) : pdo_stmt_t :=
  mkPdoStatement (stmt_dbh x) (stmt_driver_data x) code (stmt_executed x) (stmt_columns x)
    (row_count x) (placeholders_positional x) (stmt_methods x).
Definition with_stmt_columns (columns : pdo_columns) (x : pdo_stmt_t) : pdo_stmt_t :=
  mkPdoStatement (stmt_dbh x) (stmt_driver_data x) (stmt_error_code x) (stmt_executed x) columns
    (row_count x) (placeholders_positional x) (stmt_methods x).
Definition with_row_count (n : Z) (x : pdo_stmt_t) : pdo_stmt_t :=
  mkPdoStatement (stmt_dbh x) (stmt_driver_data x) (stmt_error_code x) (stmt_executed x)
    (stmt_columns x) n (placeholders_positional x) (stmt_methods x).
Definition with_stmt_methods (x : pdo_stmt_t) : pdo_stmt_t :=
  mkPdoStatement (stmt_dbh x) (stmt_driver_data x) (stmt_error_code x) (stmt_executed x)
    (stmt_columns x) (row_count x) true true.

Section pdo.
  Context `{Server, Build, Zend, PdoCore}.

(** ** Memory *)

(** The library, the handles the driver has allocated, and the objects of
    PDO. *)
Record pdo : Type := mkPdo {
  library : world;
  handles : gmap nat pdo_mylite_db_handle;
  dbhs : gmap nat pdo_dbh_t;
  statements : gmap nat pdo_stmt_t;
}.

Definition set_library (w : world) (p : pdo) : pdo := mkPdo w (handles p) (dbhs p) (statements p).
Definition set_handles (v : gmap nat pdo_mylite_db_handle) (p : pdo) : pdo :=
  mkPdo (library p) v (dbhs p) (statements p).
Definition set_dbhs (v : gmap nat pdo_dbh_t) (p : pdo) : pdo :=
  mkPdo (library p) (handles p) v (statements p).
Definition set_statements (v : gmap nat pdo_stmt_t) (p : pdo) : pdo :=
  mkPdo (library p) (handles p) (dbhs p) v.

(** A call of a function of [mylite.h]. *)
Definition in_library {A} (m : cmd world A) : cmd pdo A := zoom library set_library m.

Definition get_handle (h : nat) : cmd pdo pdo_mylite_db_handle := deref (fun p => handles p !! h).
Definition update_handle (h : nat) (f : pdo_mylite_db_handle -> pdo_mylite_db_handle) : cmd pdo unit :=
  x ← get_handle h; modify (fun p => set_handles (<[h := f x]> (handles p)) p).
Definition get_dbh (dbh : nat) : cmd pdo pdo_dbh_t := deref (fun p => dbhs p !! dbh).
Definition update_dbh (dbh : nat) (f : pdo_dbh_t -> pdo_dbh_t) : cmd pdo unit :=
  x ← get_dbh dbh; modify (fun p => set_dbhs (<[dbh := f x]> (dbhs p)) p).
Definition get_pstmt (stmt : nat) : cmd pdo pdo_stmt_t := deref (fun p => statements p !! stmt).
Definition update_pstmt (stmt : nat) (f : pdo_stmt_t -> pdo_stmt_t) : cmd pdo unit :=
  x ← get_pstmt stmt; modify (fun p => set_statements (<[stmt := f x]> (statements p)) p).

(** [dbh->driver_data] and [stmt->driver_data] where the driver follows the
    pointer. *)
Definition handle_of (dbh : nat) : cmd pdo nat :=
  deref (fun p => x ← dbhs p !! dbh; dbh_driver_data x).
Definition data_of (stmt : nat) : cmd pdo pdo_mylite_stmt :=
  deref (fun p => x ← statements p !! stmt; stmt_driver_data x).
Definition update_data (stmt : nat) (f : pdo_mylite_stmt -> pdo_mylite_stmt) : cmd pdo unit :=
  t ← data_of stmt; update_pstmt stmt (with_stmt_driver_data (Some (f t))).

(** A function of [mylite.h] that reads a field of the handle. *)
Definition read_field {A} (f : option mylite_db -> A) (db : option nat) : cmd pdo A :=
  match db with
  | Some d => x ← in_library (get_db d); mret (f (Some x))
  | None => mret (f None)
  end.

(** [handle->db] *)
Definition db_of_handle (h : nat) : cmd pdo (option nat) := x ← get_handle h; mret (handle_db x).

(** ** Errors *)

(** [strncpy] into the six bytes of an error code. *)
Definition error_code (sqlstate : bytes) : bytes := take 6 (c_str sqlstate).

Definition pdo_mylite_error (dbh : nat) (stmt : option nat) (result : Z) (fallback : bytes)
    : cmd pdo Z :=
  x ← get_dbh dbh;
  db ← match dbh_driver_data x with
       | Some h => db_of_handle h
       | None => mret None
       end;
  '(sqlstate, message, errno) ←
    match db with
    | Some d =>
        sqlstate ← read_field mylite_sqlstate (Some d);
        errno ← read_field mylite_mariadb_errno (Some d);
        message ← read_field mylite_errmsg (Some d);
        mret (sqlstate, message, if negb (errno =? 0) then errno else result mod 2 ^ 32)
    | None => mret (str "HY000", fallback, result mod 2 ^ 32)
    end;
  match stmt with
  | Some s => update_pstmt s (with_stmt_error_code (error_code sqlstate))
  | None => update_dbh dbh (with_dbh_error_code (error_code sqlstate))
  end ;;
  match dbh_driver_data x with
  | Some h => update_handle h (with_handle_error errno (c_str message))
  | None => mret tt
  end ;;
  mret result.

(** The elements added to [info]. *)
Definition pdo_mylite_fetch_error (dbh : nat) (info : list zval) : cmd pdo (list zval) :=
  x ← get_dbh dbh;
  match dbh_driver_data x with
  | None => mret info
  | Some h =>
      handle ← get_handle h;
      match handle_errmsg handle with
      | Some errmsg =>
          if native_errno handle =? 0 then mret info
          else mret (info ++ [IS_LONG (native_errno handle); IS_STRING errmsg])
      | None => mret info
      end
  end.

(** ** Database objects *)

(** [estrdup] and [estrndup] of the path. *)
Definition pdo_mylite_resolve_path (dbh : nat) : cmd pdo bytes :=
  x ← get_dbh dbh;
  let '(found, optvals) := php_pdo_parse_data_source (data_source x) [str "path"] in
  mret (match mjoin (optvals !! 0%nat) with
        | Some optval => if 0 <? found then c_str optval else data_source x
        | None => data_source x
        end).

(** [PDO_MYLITE_ALL_PARAM_EVENTS], an [unsigned]. *)
Definition PDO_MYLITE_ALL_PARAM_EVENTS : Z :=
  (Z.shiftl 1 (pdo_param_event_value PDO_PARAM_EVT_NORMALIZE + 1) - 1) mod 2 ^ 32.

(** A new handle, all of whose bytes are zero. *)
Definition new_handle : cmd pdo nat :=
  fun p => let h := fresh (dom (handles p)) in
           (Ret h, set_handles (<[h := mkPdoHandle None 0 None]> (handles p)) p).

(** The body of [pdo_mylite_handle_factory] up to [cleanup]. *)
Definition handle_factory_body (dbh h : nat) : cmd pdo Z :=
  x ← get_dbh dbh;
  if is_persistent x then
    pdo_mylite_error dbh None MYLITE_MISUSE
      (str "persistent MyLite PDO connections are not supported") ;;
    mret 0
  else
    path ← pdo_mylite_resolve_path dbh;
    if bool_decide (c_str path = []) then
      pdo_mylite_error dbh None MYLITE_MISUSE
        (str "MyLite PDO DSN requires a database directory path") ;;
      mret 0
    else
      '(open_result, db) ← in_library
         (mylite_open (Some (c_str path)) true (Z.lor MYLITE_OPEN_READWRITE MYLITE_OPEN_CREATE) None);
      update_handle h (with_handle_db db) ;;
      if negb (open_result =? MYLITE_OK) then
        pdo_mylite_error dbh None open_result (str "could not open MyLite database") ;;
        mret 0
      else
        update_dbh dbh (with_dbh_settings true 2
          (Z.lxor PDO_MYLITE_ALL_PARAM_EVENTS
             (Z.shiftl 1 (pdo_param_event_value PDO_PARAM_EVT_EXEC_PRE)) mod 2 ^ 8)) ;;
        mret 1.

Definition pdo_mylite_handle_factory (dbh : nat) : cmd pdo Z :=
  h ← new_handle;
  update_dbh dbh (with_dbh_driver_data (Some h)) ;;
  ret ← handle_factory_body dbh h;
  update_dbh dbh with_dbh_methods ;;
  mret ret.

Definition pdo_mylite_handle_closer (dbh : nat) : cmd pdo unit :=
  x ← get_dbh dbh;
  match dbh_driver_data x with
  | None => mret tt
  | Some h =>
      handle ← get_handle h;
      match handle_db handle with
      | Some d => in_library (mylite_close (Some d)) ;; update_handle h (with_handle_db None)
      | None => mret tt
      end ;;
      modify (fun p => set_handles (delete h (handles p)) p) ;;
      update_dbh dbh (with_dbh_driver_data None)
  end.

Definition pdo_mylite_handle_preparer (dbh : nat) (sql : bytes) (stmt : nat) : cmd pdo bool :=
  h ← handle_of dbh;
  update_pstmt stmt (fun x =>
    with_stmt_methods (with_stmt_driver_data (Some (mkPdoStmt h None 0 false false)) x)) ;;
  db ← db_of_handle h;
  '(result, out_stmt, _) ← in_library
     (mylite_prepare db (Some (sql ++ [zero])) (Z.of_nat (length sql)) true);
  if negb (result =? MYLITE_OK) then
    update_pstmt stmt (with_stmt_driver_data None) ;;
    pdo_mylite_error dbh (Some stmt) result (str "could not prepare MyLite PDO statement") ;;
    mret false
  else
    update_pstmt stmt (with_stmt_driver_data (Some (mkPdoStmt h out_stmt 0 false false))) ;;
    mret true.

(** [sql] is the whole string; [mylite_exec] sees the C string in it. *)
Definition pdo_mylite_handle_doer (dbh : nat) (sql : bytes) : cmd pdo Z :=
  h ← handle_of dbh;
  db ← db_of_handle h;
  '(result, errmsg, _) ← in_library (mylite_exec db (Some (c_str sql)) None tt true);
  if negb (result =? MYLITE_OK) then
    pdo_mylite_error dbh None result (default (str "MyLite PDO exec failed") errmsg) ;;
    mret (-1)
  else read_field mylite_changes db.

(** A statement of the transaction functions. *)
Definition handle_transaction (sql fallback : bytes) (dbh : nat) : cmd pdo bool :=
  h ← handle_of dbh;
  db ← db_of_handle h;
  '(result, _, _) ← in_library (mylite_exec db (Some sql) None tt false);
  if negb (result =? MYLITE_OK) then pdo_mylite_error dbh None result fallback ;; mret false
  else mret true.

Definition pdo_mylite_handle_begin : nat -> cmd pdo bool :=
  handle_transaction (str "START TRANSACTION") (str "could not start MyLite transaction").
Definition pdo_mylite_handle_commit : nat -> cmd pdo bool :=
  handle_transaction (str "COMMIT") (str "could not commit MyLite transaction").
Definition pdo_mylite_handle_rollback : nat -> cmd pdo bool :=
  handle_transaction (str "ROLLBACK") (str "could not roll back MyLite transaction").

Definition pdo_mylite_last_insert_id (dbh : nat) : cmd pdo bytes :=
  h ← handle_of dbh;
  db ← db_of_handle h;
  n ← read_field mylite_last_insert_id db;
  mret (to_string n).

(** The result and [*return_value]. *)
Definition pdo_mylite_get_attribute (attr : pdo_attribute) : Z * option zval :=
  match attr with
  | PDO_ATTR_CLIENT_VERSION | PDO_ATTR_SERVER_VERSION => (1, Some (IS_STRING mylite_version))
  | PDO_ATTR_DRIVER_NAME => (1, Some (IS_STRING (str "mylite")))
  | pdo_attribute_other _ => (0, None)
  end.

(** ** Statement objects *)

Definition pdo_mylite_stmt_dtor (stmt : nat) : cmd pdo Z :=
  x ← get_pstmt stmt;
  match stmt_driver_data x with
  | Some statement_data =>
      match data_stmt statement_data with
      | Some s => in_library (mylite_finalize (Some s)) ;; mret tt
      | None => mret tt
      end ;;
      update_pstmt stmt (with_stmt_driver_data None)
  | None => mret tt
  end ;;
  mret 1.

(** [php_pdo_stmt_set_column_count(stmt, (int)mylite_column_count(...))] *)
Definition update_column_count (stmt : nat) : cmd pdo unit :=
  t ← data_of stmt;
  n ← in_library (mylite_column_count (data_stmt t));
  update_pstmt stmt (fun x =>
    with_stmt_columns (php_pdo_stmt_set_column_count (signed 32 n) (stmt_columns x)) x).

(** [statement_data->step_result = mylite_step(statement_data->stmt)] *)
Definition step_statement (stmt : nat) : cmd pdo Z :=
  t ← data_of stmt;
  result ← in_library (mylite_step (data_stmt t));
  update_data stmt (with_step_result result) ;;
  mret result.

Definition pdo_mylite_stmt_execute (stmt : nat) : cmd pdo Z :=
  t ← data_of stmt;
  x ← get_pstmt stmt;
  (if stmt_executed x then in_library (mylite_reset (data_stmt t)) ;; mret tt else mret tt) ;;
  update_data stmt (fun t => with_done false (with_prefetched false t)) ;;
  step_result ← step_statement stmt;
  if step_result =? MYLITE_ROW then
    update_data stmt (with_prefetched true) ;;
    update_column_count stmt ;;
    mret 1
  else if step_result =? MYLITE_DONE then
    update_data stmt (with_done true) ;;
    update_column_count stmt ;;
    db ← db_of_handle (data_handle t);
    n ← read_field mylite_changes db;
    update_pstmt stmt (with_row_count n) ;;
    mret 1
  else
    pdo_mylite_error (stmt_dbh x) (Some stmt) step_result
      (str "could not execute MyLite PDO statement") ;;
    mret 0.

(** The orientation and the offset are not used. *)
Definition pdo_mylite_stmt_fetch (stmt : nat) : cmd pdo Z :=
  t ← data_of stmt;
  if data_done t then mret 0
  else if prefetched t then update_data stmt (with_prefetched false) ;; mret 1
  else
    step_result ← step_statement stmt;
    if step_result =? MYLITE_ROW then mret 1
    else if step_result =? MYLITE_DONE then update_data stmt (with_done true) ;; mret 0
    else
      x ← get_pstmt stmt;
      pdo_mylite_error (stmt_dbh x) (Some stmt) step_result (str "could not fetch MyLite PDO row") ;;
      mret 0.

(** [column < 0 || (unsigned)column >= mylite_column_count(...)] *)
Definition column_missing (t : pdo_mylite_stmt) (column : Z) : cmd pdo bool :=
  if column <? 0 then mret true
  else n ← in_library (mylite_column_count (data_stmt t)); mret (n <=? column).

Definition pdo_mylite_stmt_describe (stmt : nat) (column : Z) : cmd pdo Z :=
  t ← data_of stmt;
  missing ← column_missing t column;
  if (missing : bool) then mret 0
  else
    name ← in_library (mylite_column_name (data_stmt t) column);
    x ← get_pstmt stmt;
    match stmt_columns x with
    | (Some columns, n) =>
        if bool_decide (Z.to_nat column < length columns)%nat then
          let described := mkPdoColumn (default [] (c_str <$> name)) 0 0 in
          update_pstmt stmt
            (with_stmt_columns (Some (<[Z.to_nat column := described]> columns), n)) ;;
          mret 1
        else undefined
    | (None, _) => undefined
    end.

Definition pdo_mylite_column_to_zval (stmt : option nat) (column : Z) : cmd pdo zval :=
  in_library (column_to_zval stmt column).

(** The result and [*result]. *)
Definition pdo_mylite_stmt_get_col (stmt : nat) (column : Z) : cmd pdo (Z * zval) :=
  t ← data_of stmt;
  missing ← column_missing t column;
  if (missing : bool) then mret (0, IS_NULL)
  else v ← pdo_mylite_column_to_zval (data_stmt t) column; mret (1, v).

Definition pdo_mylite_bind_zval (stmt : option nat) (index : Z) (value : zval) : cmd pdo Z :=
  in_library (bind_zval stmt index value).

Definition pdo_mylite_stmt_param_hook (stmt : nat) (param : pdo_bound_param_data)
    (event_type : pdo_param_event) : cmd pdo Z :=
  if bool_decide (event_type <> PDO_PARAM_EVT_EXEC_PRE) || negb (is_param param) then mret 1
  else
    x ← get_pstmt stmt;
    if (paramno param <? 0) || (UINT32_MAX <=? paramno param) then
      pdo_mylite_error (stmt_dbh x) (Some stmt) MYLITE_MISUSE
        (str "named MyLite PDO parameters are not supported yet") ;;
      mret 0
    else
      t ← data_of stmt;
      result ← pdo_mylite_bind_zval (data_stmt t) (paramno param + 1) (parameter param);
      if negb (result =? MYLITE_OK) then
        pdo_mylite_error (stmt_dbh x) (Some stmt) result (str "could not bind MyLite PDO parameter") ;;
        mret 0
      else mret 1.

Definition pdo_mylite_stmt_cursor_closer (stmt : nat) : cmd pdo Z :=
  x ← get_pstmt stmt;
  match stmt_driver_data x with
  | None => mret 1
  | Some statement_data =>
      match data_stmt statement_data with
      | Some s => in_library (mylite_reset (Some s)) ;; mret tt
      | None => mret tt
      end ;;
      update_data stmt (fun t => with_done true (with_prefetched false t)) ;;
      mret 1
  end.
End pdo.
