(* ===== verification/PdoFacts.v ===== *)
(** * Theorems on the PDO driver

    A query through PDO gives every row of the server's answer once, each
    value as the PHP value that stands for it ([pdo_query_rows]); the binding
    of a parameter after an execution fails and reports no error
    ([pdo_bind_after_execution_fails]). *)

From S2P Require Import Prelude Api Effects SqlLexer SqlPolicy SqlPolicyTheorems System Numbers World.
From S2P Require Import Formats FormatsFacts BinaryRow BinaryFacts ClientQuery ClientStmt Runtime Exec Statement.
From S2P Require Import Frames Rules ClientFacts Scripted RuntimeFacts Library ExecFacts Termination StatementFacts.
From S2P Require Import Lifetime Bindings Rows ProtocolRows Fetch Step Execute Prepared PreparedTheorems Interleaving.
From S2P Require Import Columns Literals Zend ZendFacts Pdo.
From stdpp Require Import options.
Set Default Proof Using "Type*".

Local Open Scope Z_scope.

(** ** Rules *)

Section rules.
  Context `{Server, Build, Zend, PdoCore}.
  Implicit Types p : pdo.

Lemma wp_in_library {A} (m : cmd world A) (Q : outcome A -> pdo -> Prop) p :
  wp m (fun o w => Q o (set_library w p)) (library p) -> wp (in_library m) Q p.
Proof. apply wp_zoom. Qed.

Lemma wp_get_handle h x Q p : handles p !! h = Some x -> Q (Ret x) p -> wp (get_handle h) Q p.
Proof. intros Hx HQ. by eapply wp_deref. Qed.
Lemma wp_get_dbh h x Q p : dbhs p !! h = Some x -> Q (Ret x) p -> wp (get_dbh h) Q p.
Proof. intros Hx HQ. by eapply wp_deref. Qed.
Lemma wp_get_pstmt q x Q p : statements p !! q = Some x -> Q (Ret x) p -> wp (get_pstmt q) Q p.
Proof. intros Hx HQ. by eapply wp_deref. Qed.
Lemma wp_update_handle h x f Q p :
  handles p !! h = Some x -> Q (Ret tt) (set_handles (<[h := f x]> (handles p)) p) ->
  wp (update_handle h f) Q p.
Proof. intros Hx HQ. apply wp_bind. by apply wp_get_handle with x. Qed.
Lemma wp_update_dbh h x f Q p :
  dbhs p !! h = Some x -> Q (Ret tt) (set_dbhs (<[h := f x]> (dbhs p)) p) ->
  wp (update_dbh h f) Q p.
Proof. intros Hx HQ. apply wp_bind. by apply wp_get_dbh with x. Qed.
Lemma wp_update_pstmt q x f Q p :
  statements p !! q = Some x -> Q (Ret tt) (set_statements (<[q := f x]> (statements p)) p) ->
  wp (update_pstmt q f) Q p.
Proof. intros Hx HQ. apply wp_bind. by apply wp_get_pstmt with x. Qed.
Lemma wp_data_of q x t Q p :
  statements p !! q = Some x -> stmt_driver_data x = Some t -> Q (Ret t) p -> wp (data_of q) Q p.
Proof. intros Hx Ht HQ. eapply wp_deref; [|exact HQ]. by rewrite Hx. Qed.
Lemma wp_handle_of q x h Q p :
  dbhs p !! q = Some x -> dbh_driver_data x = Some h -> Q (Ret h) p -> wp (handle_of q) Q p.
Proof. intros Hx Ht HQ. eapply wp_deref; [|exact HQ]. by rewrite Hx. Qed.
Lemma wp_update_data q x t f Q p :
  statements p !! q = Some x -> stmt_driver_data x = Some t ->
  Q (Ret tt) (set_statements (<[q := with_stmt_driver_data (Some (f t)) x]> (statements p)) p) ->
  wp (update_data q f) Q p.
Proof. intros Hx Ht HQ. apply wp_bind. eapply wp_data_of; [done..|]. by eapply wp_update_pstmt. Qed.
Lemma wp_read_field {A} (f : option mylite_db -> A) d x Q p :
  dbs (library p) !! d = Some x -> Q (Ret (f (Some x))) p -> wp (read_field f (Some d)) Q p.
Proof.
  intros Hx HQ. apply wp_bind, wp_in_library. eapply wp_get_db; [done|]. apply bind_post_ret, wp_ret.
  by destruct p.
Qed.
End rules.

#[global] Arguments read_field {_ A} f db : simpl never.

(** A function of the library that only reads. *)
Lemma wp_reads `{Server} {A} (m : cmd world A) a (Q : outcome A -> pdo -> Prop) p :
  wp m (fun o w => o = Ret a /\ w = library p) (library p) -> Q (Ret a) p -> wp (in_library m) Q p.
Proof.
  intros Hm HQ. apply wp_in_library. eapply wp_mono; [exact Hm|]. intros o w [-> ->]. by destruct p.
Qed.

(** Symbolic execution of the driver. *)
Ltac pdo_step :=
  lazymatch goal with
  | |- wp (get_handle _) _ _ => eapply wp_get_handle; [find_lookup|]
  | |- wp (db_of_handle _) _ _ => unfold db_of_handle
  | |- wp (get_dbh _) _ _ => eapply wp_get_dbh; [find_lookup|]
  | |- wp (get_pstmt _) _ _ => eapply wp_get_pstmt; [find_lookup|]
  | |- wp (update_handle _ _) _ _ => eapply wp_update_handle; [find_lookup|]
  | |- wp (update_dbh _ _) _ _ => eapply wp_update_dbh; [find_lookup|]
  | |- wp (update_pstmt _ _) _ _ => eapply wp_update_pstmt; [find_lookup|]
  | |- wp (data_of _) _ _ => eapply wp_data_of; [find_lookup|first [eassumption|reflexivity]|]
  | |- wp (handle_of _) _ _ => eapply wp_handle_of; [find_lookup|first [eassumption|reflexivity]|]
  | |- wp (update_data _ _) _ _ => eapply wp_update_data; [find_lookup|first [eassumption|reflexivity]|]
  | |- wp (read_field _ (Some _)) _ _ => eapply wp_read_field; [find_lookup|]
  | |- _ => wp_step
  end; cbn beta iota.
Ltac pdo_auto := repeat pdo_step.

(** ** A caller *)

Section caller.
  Context `{Server, Build, Zend, PdoCore}.

(** The columns of the current row. *)
Fixpoint get_row (stmt : nat) (columns : list nat) : cmd pdo (list zval) :=
  match columns with
  | [] => mret []
  | i :: columns =>
      '(_, v) ← pdo_mylite_stmt_get_col stmt (Z.of_nat i);
      vs ← get_row stmt columns;
      mret (v :: vs)
  end.

(** Fetches until there is no row, and all the rows that were read. *)
Fixpoint fetch_all (fuel : nat) (stmt : nat) : cmd pdo (list (list zval)) :=
  match fuel with
  | O => out_of_fuel
  | S fuel =>
      fetched ← pdo_mylite_stmt_fetch stmt;
      if fetched =? 1 then
        x ← get_pstmt stmt;
        row ← get_row stmt (seq 0 (Z.to_nat (snd (stmt_columns x))));
        rows ← fetch_all fuel stmt;
        mret (row :: rows)
      else mret []
  end.

(** The hooks of the parameters before an execution, up to the first that
    fails. *)
Fixpoint bind_params (stmt : nat) (params : list pdo_bound_param_data) : cmd pdo bool :=
  match params with
  | [] => mret true
  | param :: params =>
      ok ← pdo_mylite_stmt_param_hook stmt param PDO_PARAM_EVT_EXEC_PRE;
      if ok =? 1 then bind_params stmt params else mret false
  end.

(** [PDO::prepare], [PDOStatement::execute] and [PDOStatement::fetchAll]: the
    rows, or that a function of the driver has failed. *)
Definition pdo_query (dbh stmt : nat) (sql : bytes) (params : list pdo_bound_param_data) (fuel : nat)
    : cmd pdo (option (list (list zval))) :=
  prepared ← pdo_mylite_handle_preparer dbh sql stmt;
  if negb prepared then mret None
  else
    bound ← bind_params stmt params;
    if negb bound then mret None
    else
      executed ← pdo_mylite_stmt_execute stmt;
      if negb (executed =? 1) then mret None
      else rows ← fetch_all fuel stmt; mret (Some rows).


(** ** The driver's statement *)

(** The statement object [q] stands for the statement [s] of the handle [d];
    the row that was fetched ahead is [pre], the end of the rows [fin], and
    PDO knows [n] columns. *)
Definition driven (q s d : nat) (pre fin : bool) (n : Z) (p : pdo) : Prop :=
  exists x t handle, statements p !! q = Some x /\ stmt_driver_data x = Some t /\
    data_stmt t = Some s /\ prefetched t = pre /\ data_done t = fin /\ snd (stmt_columns x) = n /\
    stmt_executed x = false /\ handles p !! data_handle t = Some handle /\ handle_db handle = Some d /\
    exists y, dbhs p !! stmt_dbh x = Some y /\ dbh_driver_data y = Some (data_handle t).

Lemma driven_library q s d pre fin n w p :
  driven q s d pre fin n p -> driven q s d pre fin n (set_library w p).
Proof. done. Qed.

Lemma driven_data q s d pre fin pre' fin' n f p x t :
  driven q s d pre fin n p -> statements p !! q = Some x -> stmt_driver_data x = Some t ->
  (forall t, data_handle (f t) = data_handle t /\ data_stmt (f t) = data_stmt t) ->
  prefetched (f t) = pre' -> data_done (f t) = fin' ->
  driven q s d pre' fin' n
    (set_statements (<[q := with_stmt_driver_data (Some (f t)) x]> (statements p)) p).
Proof.
  intros (x' & t' & handle & Hx' & Ht' & Hs & _ & _ & Hn & He & Hh & Hd & Hy) Hx Ht Hf Hpre Hfin.
  rewrite Hx' in Hx. injection Hx as <-. rewrite Ht' in Ht. injection Ht as <-.
  destruct (Hf t') as [Hf1 Hf2]. eexists _, (f t'), handle. split; [apply lookup_insert_eq|].
  simpl. rewrite Hf1, Hf2. by split_and!.
Qed.

Lemma update_data_spec {B} q s d pre fin pre' fin' n f (k : unit -> cmd pdo B) Q p :
  driven q s d pre fin n p ->
  (forall t, data_handle (f t) = data_handle t /\ data_stmt (f t) = data_stmt t) ->
  (forall t, prefetched t = pre -> data_done t = fin -> prefetched (f t) = pre' /\ data_done (f t) = fin') ->
  (forall p', driven q s d pre' fin' n p' -> library p' = library p -> handles p' = handles p ->
     wp (k tt) Q p') ->
  wp (mbind k (update_data q f)) Q p.
Proof.
  intros Hdr Hkeep Hset HQ. pose proof Hdr as (x & t & handle & Hx & Ht & _ & Hpre & Hfin & _).
  apply wp_bind. eapply wp_update_data; [done..|]. apply bind_post_ret. destruct (Hset t Hpre Hfin).
  apply HQ; [|done..]. by eapply driven_data.
Qed.

(** The step of the driver. *)
Lemma step_statement_spec {B} q s d pre fin n (R : outcome Z -> world -> Prop) (k : Z -> cmd pdo B) Q p :
  driven q s d pre fin n p -> wp (mylite_step (Some s)) R (library p) ->
  (forall r w, R (Ret r) w -> forall p', driven q s d pre fin n p' -> library p' = w ->
     handles p' = handles p -> wp (k r) Q p') ->
  (forall o w, R o w -> exists r, o = Ret r) ->
  wp (mbind k (step_statement q)) Q p.
Proof.
  intros Hdr Hstep HQ Hret. pose proof Hdr as (x & t & handle & Hx & Ht & Hs & Hpre & Hfin & Hrest).
  apply wp_bind. unfold step_statement. apply wp_bind. eapply wp_data_of; [done..|].
  apply bind_post_ret, wp_bind, wp_in_library. rewrite Hs. eapply wp_mono; [exact Hstep|].
  intros o w Ho. destruct (Hret o w Ho) as [r ->]. apply bind_post_ret, wp_bind.
  eapply (wp_update_data q x t); [done..|]. apply bind_post_ret, wp_ret, bind_post_ret.
  apply (HQ r w Ho); [|done..]. eapply driven_data; [by apply (driven_library _ _ _ _ _ _ w)|done..].
Qed.

(** ** Reading a row *)

Lemma get_col_spec q s d pre fin n fields vs i v field p :
  driven q s d pre fin n p -> row_of s d fields vs (library p) -> Z.of_nat (length fields) < 2 ^ 32 ->
  zerofill_unsigned fields -> vs !! i = Some v -> fields !! i = Some field ->
  wp (pdo_mylite_stmt_get_col q (Z.of_nat i)) (fun o p' => o = Ret (1, php_value field v) /\ p' = p) p.
Proof.
  intros (x & t & handle & Hx & Ht & Hs & _) Hrow Hlen Hfill Hv Hfield.
  destruct (column_count_reads _ _ _ _ _ Hrow Hlen) as [_ Hcount].
  unfold pdo_mylite_stmt_get_col, column_missing. apply wp_bind. eapply wp_data_of; [done..|].
  apply bind_post_ret, wp_bind. rewrite (proj2 (Z.ltb_ge _ _)), Hs by lia. apply wp_bind.
  eapply wp_reads; [exact Hcount|]. apply bind_post_ret, wp_ret, bind_post_ret.
  rewrite (proj2 (Z.leb_gt _ _)) by (apply lookup_lt_Some in Hfield; lia). apply wp_bind.
  eapply wp_reads; [by eapply column_to_zval_spec|]. by apply bind_post_ret, wp_ret.
Qed.

Lemma get_row_spec q s d pre fin n fields vs p :
  driven q s d pre fin n p -> row_of s d fields vs (library p) -> Z.of_nat (length fields) < 2 ^ 32 ->
  zerofill_unsigned fields -> forall m k, (k + m = length fields)%nat ->
  wp (get_row q (seq k m)) (fun o p' => o = Ret (drop k (zip_with php_value fields vs)) /\ p' = p) p.
Proof.
  intros Hdr Hrow Hlen Hfill. destruct (column_count_reads _ _ _ _ _ Hrow Hlen) as [Hvs _].
  induction m as [|m IH]; intros k Hk; simpl.
  { apply wp_ret. by rewrite drop_ge by (rewrite length_zip_with; lia). }
  destruct (lookup_lt_is_Some_2 fields k) as [field Hfield]; [lia|].
  destruct (lookup_lt_is_Some_2 vs k) as [v Hv]; [lia|]. apply wp_bind.
  eapply wp_mono; [by eapply get_col_spec|]. intros o p' [-> ->]. apply bind_post_ret, wp_bind.
  eapply wp_mono; [apply IH; lia|]. intros o p' [-> ->]. apply bind_post_ret, wp_ret. split; [|done].
  rewrite (drop_S _ (php_value field v) k); [done|]. rewrite lookup_zip_with, Hfield. simpl. by rewrite Hv.
Qed.

(** ** Fetching *)

Definition all_fetched (q s d : nat) (fields : list MYSQL_FIELD) (rows : list (list column_value))
    (srv : server) (system' : system) (o : outcome (list (list zval))) (p : pdo) : Prop :=
  o = Ret (php_rows fields rows) /\ (exists n, driven q s d false true n p) /\
  stepped s d (library p) /\ server_state (library p) = srv /\ sys (library p) = system'.

(** What the fetch of a row does when the rows [rows] are left. *)
Definition hook_outcome (q s d : nat) (fields : list MYSQL_FIELD) (rows : list (list column_value))
    (o : outcome Z) (p : pdo) : Prop :=
  match rows with
  | vs :: rest =>
      o = Ret 1 /\ driven q s d false false (Z.of_nat (length fields)) p /\
      stepping s d fields (packets rest) (library p) /\ row_of s d fields vs (library p)
  | [] => o = Ret 0 /\ driven q s d false true (Z.of_nat (length fields)) p /\ stepped s d (library p)
  end.

Lemma fetch_hook_spec q s d fields rows texts p :
  rows_sent fields rows texts -> driven q s d false false (Z.of_nat (length fields)) p ->
  stepping s d fields (packets rows) (library p) ->
  wp (pdo_mylite_stmt_fetch q) (fun o p' => hook_outcome q s d fields rows o p' /\
    kept_by_steps (library p) (library p')) p.
Proof.
  intros Hsent Hdr Hs. pose proof Hdr as (x & t & handle & Hx & Ht & Hst & Hpre & Hfin & _).
  unfold pdo_mylite_stmt_fetch. apply wp_bind. eapply wp_data_of; [done..|]. apply bind_post_ret.
  rewrite Hfin, Hpre. eapply step_statement_spec; [done|by eapply next_step_sent| |].
  - intros r w [Ho Hk] p' Hdr' Hw _. subst w. destruct rows as [|vs rows].
    + destruct Ho as [[= ->] [[Hdone _] _]]. change (MYLITE_DONE =? MYLITE_ROW) with false.
      change (MYLITE_DONE =? MYLITE_DONE) with true. cbn iota.
      eapply (update_data_spec _ _ _ _ _ false true); [done|done|by simpl; intros|].
      intros p2 Hdr2 Hlib _. apply wp_ret. split; [|by rewrite Hlib]. split; [done|]. by rewrite Hlib.
    + destruct Ho as ([= ->] & Hs' & Hrow). change (MYLITE_ROW =? MYLITE_ROW) with true. cbn iota.
      by apply wp_ret.
  - intros o w [Ho _]. by eapply sent_outcome_ret.
Qed.

(** What is done with a fetched row. *)
Lemma fetched_row_spec q s d fields vs rest p (next : cmd pdo (list (list zval))) system' srv :
  Z.of_nat (length fields) < 2 ^ 32 -> zerofill_unsigned fields ->
  driven q s d false false (Z.of_nat (length fields)) p -> row_of s d fields vs (library p) ->
  wp next (all_fetched q s d fields rest srv system') p ->
  wp (x ← get_pstmt q;
      row ← get_row q (seq 0 (Z.to_nat (snd (stmt_columns x))));
      rows ← next;
      mret (row :: rows)) (all_fetched q s d fields (vs :: rest) srv system') p.
Proof.
  intros Hlen Hfill Hdr Hrow Hnext. pose proof Hdr as (x & t & handle & Hx & _ & _ & _ & _ & Hn & _).
  apply wp_bind. eapply wp_get_pstmt; [done|]. apply bind_post_ret, wp_bind. rewrite Hn, Nat2Z.id.
  eapply wp_mono; [by eapply (get_row_spec q s d); [..|apply Nat.add_0_l]|]. intros o p' [-> ->].
  apply bind_post_ret, wp_bind. eapply wp_mono; [exact Hnext|]. intros o p' (-> & Hrest).
  by apply bind_post_ret, wp_ret.
Qed.

Lemma fetch_all_spec q s d fields rows texts :
  Z.of_nat (length fields) < 2 ^ 32 -> zerofill_unsigned fields -> rows_sent fields rows texts -> forall p,
  driven q s d false false (Z.of_nat (length fields)) p ->
  stepping s d fields (packets rows) (library p) ->
  wp (fetch_all (S (length rows)) q)
    (all_fetched q s d fields rows (server_state (library p)) (sys (library p))) p.
Proof.
  intros Hlen Hfill Hsent. induction Hsent as [|vs ts rows texts Hrow Hsent IH]; intros p Hdr Hs;
    cbn [fetch_all length]; apply wp_bind.
  - eapply wp_mono; [eapply (fetch_hook_spec q s d fields [] []); [by constructor|done..]|].
    intros o p' [(-> & Hdr' & Hdone) [Hsrv Hsys]]. apply bind_post_ret, wp_ret. split; [done|].
    split; [by eexists|done].
  - eapply wp_mono; [eapply (fetch_hook_spec q s d fields (vs :: rows)); [by constructor|done..]|].
    intros o p' [(-> & Hdr' & Hs' & Hrow') [Hsrv Hsys]]. apply bind_post_ret.
    change (1 =? 1) with true. cbn iota. eapply fetched_row_spec; [done..|].
    rewrite <- Hsrv, <- Hsys. by apply IH.
Qed.

(** ** Executing *)

(** [php_pdo_stmt_set_column_count] sets the number of columns. *)
Definition sets_column_count : Prop :=
  forall n columns, snd (php_pdo_stmt_set_column_count n columns) = n.

Lemma update_column_count_spec {B} q s d pre fin n n' (k : unit -> cmd pdo B) Q p :
  sets_column_count -> driven q s d pre fin n p ->
  wp (mylite_column_count (Some s)) (fun o w => o = Ret n' /\ w = library p) (library p) ->
  (forall p', driven q s d pre fin (signed 32 n') p' -> library p' = library p ->
     handles p' = handles p -> wp (k tt) Q p') ->
  wp (mbind k (update_column_count q)) Q p.
Proof.
  intros Hsets (x & t & handle & Hx & Ht & Hs & Hpre & Hfin & _ & He & Hh & Hd & Hy) Hcount HQ.
  apply wp_bind. unfold update_column_count. apply wp_bind. eapply wp_data_of; [done..|].
  apply bind_post_ret, wp_bind. rewrite Hs. eapply wp_reads; [exact Hcount|]. apply bind_post_ret.
  eapply wp_update_pstmt; [done|]. apply bind_post_ret. apply HQ; [|done..].
  eexists _, t, handle. split; [apply lookup_insert_eq|]. split_and!; try done. apply Hsets.
Qed.

(** What the execution does when the server's answer has the rows [rows]. *)
Definition execute_outcome (q s d : nat) (fields : list MYSQL_FIELD) (rows : list (list column_value))
    (o : outcome Z) (p : pdo) : Prop :=
  o = Ret 1 /\
  match rows with
  | vs :: rest =>
      driven q s d true false (Z.of_nat (length fields)) p /\
      stepping s d fields (packets rest) (library p) /\ row_of s d fields vs (library p)
  | [] => (exists n, driven q s d false true n p) /\ stepped s d (library p)
  end.

Lemma execute_hook_spec q s d m id vs fields st ms c data rows texts srv fs pre fin n p :
  sets_column_count -> driven q s d pre fin n p -> Z.of_nat (length fields) < 2 ^ 31 ->
  idle s d m id vs fields st ms c (library p) -> columns_known fields ->
  executes d id vs data srv fs (library p) -> d_fields_list data = Some fields ->
  d_rows data = packets rows -> rows_sent fields rows texts ->
  wp (pdo_mylite_stmt_execute q) (fun o p' => execute_outcome q s d fields rows o p' /\
    server_state (library p') = srv /\ files (sys (library p')) = fs) p.
Proof.
  intros Hsets Hdr Hlen Hi Hknown Hx Hf Hrows Hsent.
  pose proof Hdr as (x & t & handle & Hqx & Ht & Hst & _ & _ & _ & He & Hh & Hd & _).
  unfold pdo_mylite_stmt_execute. apply wp_bind. eapply wp_data_of; [done..|]. apply bind_post_ret, wp_bind.
  eapply wp_get_pstmt; [done|]. apply bind_post_ret. rewrite He. apply wp_bind, wp_ret, bind_post_ret.
  eapply (update_data_spec _ _ _ _ _ false false); [done|done|done|]. intros p1 Hdr1 Hlib1 Hh1.
  eapply step_statement_spec; [done|rewrite Hlib1; by eapply first_step_sent| |].
  - intros r w (Ho & Hsrv & Hfs) p2 Hdr2 Hlib2 Hh2. subst w. destruct rows as [|row rows].
    + destruct Ho as [[= ->] Hended]. change (MYLITE_DONE =? MYLITE_ROW) with false.
      change (MYLITE_DONE =? MYLITE_DONE) with true. cbn iota.
      eapply (update_data_spec _ _ _ _ _ false true); [done|done|by simpl; intros|].
      intros p3 Hdr3 Hlib3 Hh3. rewrite <- Hlib3 in Hended, Hsrv, Hfs. pose proof (proj1 (proj1 Hended)) as Hdone.
      eapply update_column_count_spec; [done|done| |].
      { eapply ended_count_reads; [exact Hended|apply Hknown|apply Hknown]. } intros p4 Hdr4 Hlib4 Hh4. rewrite <- Hlib4 in Hdone, Hsrv, Hfs.
      pose proof Hdone as (_ & _ & _ & _ & _ & _ & _ & _ & _ & _ & _ & [y Hy] & _).
      assert (Hh' : handles p4 !! data_handle t = Some handle) by congruence.
      destruct Hdr4 as (x4 & t4 & handle4 & Hx4 & Ht4 & Hrest4). pdo_auto. rewrite Hd. pdo_auto.
      split; [|done]. split; [done|]. split; [|done]. eexists _, _, t4, handle4.
      split; [apply lookup_insert_eq|]. by split.
    + destruct Ho as ([= ->] & Hs' & Hrow). change (MYLITE_ROW =? MYLITE_ROW) with true. cbn iota.
      eapply (update_data_spec _ _ _ _ _ true false); [done|done|by simpl; intros|].
      intros p3 Hdr3 Hlib3 Hh3. rewrite <- Hlib3 in Hs', Hrow, Hsrv, Hfs.
      destruct (column_count_reads _ _ _ _ _ Hrow) as [_ Hcount]; [lia|].
      eapply update_column_count_spec; [done..|]. intros p4 Hdr4 Hlib4 Hh4. rewrite <- Hlib4 in Hs', Hrow, Hsrv, Hfs.
      apply wp_ret. split; [|done]. split; [done|]. split; [|done].
      unfold signed in Hdr4.
      by rewrite (proj2 (Z.leb_gt _ _)) in Hdr4 by lia.
  - intros o w [Ho _]. by eapply sent_outcome_ret.
Qed.

Lemma fetch_executed_spec q s d fields rows texts p :
  Z.of_nat (length fields) < 2 ^ 32 -> zerofill_unsigned fields -> rows_sent fields rows texts ->
  execute_outcome q s d fields rows (Ret 1) p ->
  wp (fetch_all (S (length rows)) q)
    (all_fetched q s d fields rows (server_state (library p)) (sys (library p))) p.
Proof.
  intros Hlen Hfill Hsent [_ Hout]. cbn [fetch_all]. unfold pdo_mylite_stmt_fetch. destruct Hsent as [|vs ts rows texts Hrow Hsent].
  - destruct Hout as [[n Hdr] Hdone]. pose proof Hdr as (x & t & handle & Hx & Ht & Hst & Hpre & Hfin & _).
    apply wp_bind, wp_bind. eapply wp_data_of; [done..|]. apply bind_post_ret. rewrite Hfin.
    apply wp_ret, bind_post_ret, wp_ret. split; [done|]. split; [by exists n|done].
  - destruct Hout as (Hdr & Hs & Hrow'). pose proof Hdr as (x & t & handle & Hx & Ht & Hst & Hpre & Hfin & _).
    apply wp_bind, wp_bind. eapply wp_data_of; [done..|]. apply bind_post_ret. rewrite Hfin, Hpre.
    eapply (update_data_spec _ _ _ _ _ false false); [done|done|by simpl; intros|].
    intros p1 Hdr1 Hlib1 _. apply wp_ret, bind_post_ret. change (1 =? 1) with true. cbn iota.
    rewrite <- Hlib1 in Hs, Hrow' |- *. eapply fetched_row_spec; [done..|].
    by eapply fetch_all_spec.
Qed.

(** ** Parameters *)

(** The parameters as positions and calls. *)
Definition param_calls : list pdo_bound_param_data -> list (Z * bind_call) -> Prop :=
  Forall2 (fun param '(index, call) => is_param param = true /\ 0 <= paramno param < UINT32_MAX /\
             index = paramno param + 1 /\ zval_call (parameter param) = Some call).

Lemma bind_params_spec q s d pre fin n vs calls vs' : binds_all vs calls vs' ->
  forall params m id fields st ms c p, param_calls params calls ->
  driven q s d pre fin n p -> idle s d m id vs fields st ms c (library p) ->
  wp (bind_params q params) (fun o p' => o = Ret true /\ driven q s d pre fin n p' /\
    parameter_frame (library p) (library p') /\
    exists st', idle s d m id vs' fields st' ms c (library p')) p.
Proof.
  induction 1 as [vs|vs index call v calls vs' Hindex Hv _ IH]; intros params m id fields st ms c p Hparams Hdr Hi.
  { inversion Hparams. apply wp_ret. split; [done|]. split; [done|]. split; [done|]. by exists st. }
  inversion Hparams as [|param ? params' ? Hone Hparams']. subst. destruct Hone as (Hisp & Hno & -> & Hcall).
  cbn [bind_params].
  pose proof Hdr as (x & t & handle & Hx & Ht & Hst & _). apply wp_bind. unfold pdo_mylite_stmt_param_hook.
  rewrite bool_decide_eq_false_2, Hisp by (by intros []). cbn [orb negb]. apply wp_bind. eapply wp_get_pstmt; [done|].
  apply bind_post_ret. rewrite (proj2 (Z.ltb_ge _ _)), (proj2 (Z.leb_gt _ _)) by lia. cbn [orb]. apply wp_bind.
  eapply wp_data_of; [done..|]. apply bind_post_ret, wp_bind. rewrite Hst.
  apply wp_in_library. eapply bind_zval_spec; [done|].
  eapply wp_mono; [by eapply bind_idle|]. intros o w1 (-> & Hf & st1 & Hi1). apply bind_post_ret.
  change (negb (MYLITE_OK =? MYLITE_OK)) with false. cbn iota. apply wp_ret, bind_post_ret.
  change (1 =? 1) with true. cbn iota.
  eapply wp_mono; [by eapply (IH params' m id fields st1 ms c (set_library w1 p))|].
  intros o p2 (-> & Hdr2 & Hf2 & Hi2). split; [done|]. split; [done|]. split; [by transitivity w1|done].
Qed.

(** ** Preparing *)

(** The database object [dbh] is open on the handle [d], and [q] is a
    statement object that PDO has made for it. *)
Definition pdo_ready (dbh q d : nat) (p : pdo) : Prop :=
  (exists x h handle, dbhs p !! dbh = Some x /\ dbh_driver_data x = Some h /\
     handles p !! h = Some handle /\ handle_db handle = Some d) /\
  exists y, statements p !! q = Some y /\ stmt_dbh y = dbh /\ stmt_executed y = false.

Lemma preparer_spec dbh q sql d id n fields srv fs p :
  pdo_ready dbh q d p -> at_rest d (library p) -> preparable d sql (Z.of_nat (length sql)) (library p) ->
  prepares d sql id n fields srv fs (library p) ->
  wp (pdo_mylite_handle_preparer dbh sql q) (fun o p' => o = Ret true /\ exists s k,
    driven q s d false false k p' /\
    idle_after d s id (replicate n ParamNull) fields srv fs (library p')) p.
Proof.
  intros [(x & h & handle & Hx & Hh & Hhandle & Hd) (y & Hy & Hdbh & He)] Hrest Hsql Hprep.
  destruct Hsql as (Hlen & Hnul & (z & Hz & Hok) & Hcall). rewrite Nat2Z.id, firstn_all in Hok, Hcall.
  unfold pdo_mylite_handle_preparer. pdo_auto. simpl. rewrite Hd. apply wp_in_library.
  assert (Htake : take (Z.to_nat (Z.of_nat (length sql))) (sql ++ [zero]) = sql).
  { by rewrite Nat2Z.id, take_app_length. }
  eapply wp_mono.
  { eapply (prepare_idle_spec d z _ _ id n fields srv fs); simpl; rewrite ?Htake; try done.
    rewrite length_app. simpl. lia. }
  intros o w' (s & -> & Hi). apply bind_post_ret. change (negb (MYLITE_OK =? MYLITE_OK)) with false. cbn iota.
  pdo_auto. split; [done|]. exists s, (snd (stmt_columns y)). split; [|done].
  eexists _, _, handle. split; [apply lookup_insert_eq|]. split_and!; try done.
  exists x. by rewrite <- Hdbh in Hx.
Qed.
End caller.

(** C18: a query through the PDO driver - prepare, one hook for each bound
    parameter, execute, fetch until there is no row - on an accepted
    statement gives every row of the server's answer exactly once and in
    order, the row that the execution fetches ahead included: integers of any
    width as PHP integers, or as their digits where PHP has no such integer,
    null as null, floating point and decimal columns as floats, everything
    else as the bytes the server sent.  The server has executed the statement
    once, with the values of the parameters. *)
Theorem pdo_query_rows `{Server, Build, Zend, PdoCore} (dbh q d : nat) (sql : bytes) (id : Z) (n : nat)
    (fields : list MYSQL_FIELD) (params : list pdo_bound_param_data) (calls : list (Z * bind_call))
    (vs : list param_value) (data : MYSQL_DATA) (rows : list (list column_value))
    (texts : list (list (option bytes))) (srv srv' : server) (fs fs' : filesystem) (p : pdo)
    (Hready : pdo_ready dbh q d p) (Hsets : sets_column_count)
    (Hrest : at_rest d (library p)) (Hsql : preparable d sql (Z.of_nat (length sql)) (library p))
    (Hprepares : prepares d sql id n fields srv fs (library p))
    (Hparams : param_calls params calls) (Hbinds : binds_all (replicate n ParamNull) calls vs)
    (Hfields : columns_known fields) (Hcount : Z.of_nat (length fields) < 2 ^ 31)
    (Hfill : zerofill_unsigned fields)
    (Hexecutes : executes d id vs data srv' fs' (set_server_state srv fs (library p)))
    (Hdata : d_fields_list data = Some fields) (Hpackets : d_rows data = packets rows)
    (Hrows : rows_sent fields rows texts) :
  wp (pdo_query dbh q sql params (S (length rows))) (fun o p' => o = Ret (Some (php_rows fields rows)) /\
    (exists s, stepped s d (library p')) /\ server_state (library p') = srv' /\
    files (sys (library p')) = fs') p.
Proof.
  unfold pdo_query. apply wp_bind. eapply wp_mono; [by eapply preparer_spec|].
  intros o p1 (-> & s & k & Hdr & m & st & ms & c & Hi & Hsrv & Hfs). apply bind_post_ret, wp_bind. cbn [negb].
  eapply wp_mono; [by eapply bind_params_spec|]. intros o p2 (-> & Hdr2 & Hf & st2 & Hi2).
  apply bind_post_ret. cbn [negb]. apply wp_bind.
  pose proof (executes_same _ _ _ _ _ _ _ _ _ (library p2) Hexecutes) as Hx.
  rewrite (pf_server _ _ Hf), (pf_sys _ _ Hf) in Hx. specialize (Hx Hsrv Hfs).
  eapply wp_mono; [by eapply execute_hook_spec|]. intros o p3 (Hout & Hsrv3 & Hfs3).
  pose proof (proj1 Hout) as ->. apply bind_post_ret. change (negb (1 =? 1)) with false. cbn iota.
  apply wp_bind. eapply wp_mono; [eapply (fetch_executed_spec q s d fields rows texts); [lia|done..]|].
  intros o p4 (-> & _ & Hdone & Hsrv4 & Hsys4). apply bind_post_ret, wp_ret. split; [done|].
  split; [by exists s|]. split; congruence.
Qed.

(** ** Binding again *)

Section again.
  Context `{Server, Build, Zend, PdoCore}.

Lemma execute_outcome_driven q s d fields rows p :
  execute_outcome q s d fields rows (Ret 1) p ->
  (exists pre fin n, driven q s d pre fin n p) /\
  exists st z, stmts (library p) !! s = Some st /\ executed st = true /\ dbs (library p) !! d = Some z.
Proof.
  intros [_ Hout]. destruct rows as [|vs rest].
  - destruct Hout as [[n Hdr] (m & st & ms & Hst & _ & _ & _ & _ & Hex & _ & _ & [z Hz] & _)].
    split; [by do 3 eexists|]. by exists st, z.
  - destruct Hout as (Hdr & (m & slots & st & ms & Hr & _ & _ & _ & _ & _ & Hex & _ & _ & [z Hz] & _) & _).
    split; [by do 3 eexists|]. exists st, z. by destruct Hr.
Qed.

(** The hook of a parameter on a statement that has been executed. *)
Lemma rebind_spec q s d pre fin n st z param call p :
  driven q s d pre fin n p -> stmts (library p) !! s = Some st -> executed st = true ->
  dbs (library p) !! d = Some z -> is_param param = true -> 0 <= paramno param < UINT32_MAX ->
  zval_call (parameter param) = Some call ->
  wp (pdo_mylite_stmt_param_hook q param PDO_PARAM_EVT_EXEC_PRE) (fun o p' => o = Ret 0 /\
    library p' = library p /\ exists y, statements p' !! q = Some y /\
      stmt_error_code y = error_code (sqlstate z)) p.
Proof.
  intros (x & t & handle & Hx & Ht & Hs & _ & _ & _ & _ & Hh & Hd & y & Hy & Hyd) Hst Hex Hz Hp Hno Hcall.
  unfold pdo_mylite_stmt_param_hook. rewrite bool_decide_eq_false_2, Hp by (by intros []). cbn [orb negb].
  pdo_auto. rewrite (proj2 (Z.ltb_ge _ _)), (proj2 (Z.leb_gt _ _)) by lia. cbn [orb]. pdo_auto. rewrite Hs.
  apply wp_in_library. eapply bind_zval_spec; [done|]. unfold wp.
  rewrite (run_bind_misused call s st) by (done || (by eapply zval_call_terminated) || (unfold misused; auto)).
  apply bind_post_ret. change (negb (MYLITE_MISUSE =? MYLITE_OK)) with true. cbn iota.
  unfold pdo_mylite_error. pdo_auto. simpl. rewrite Hyd. pdo_auto. simpl. rewrite Hd. pdo_auto. cbn beta iota.
  pdo_auto. split; [done|]. split; [by destruct p|]. eexists. by split; [apply lookup_insert_eq|].
Qed.
End again.


(** ** On the scripted server *)

#[global] Instance plain_pdo : PdoCore := {
  php_pdo_parse_data_source _ _ := (0, [None]);
  php_pdo_stmt_set_column_count n columns := (fst columns, n);
  pdo_param_event_value event :=
    match event with
    | PDO_PARAM_EVT_ALLOC => 0
    | PDO_PARAM_EVT_FREE => 1
    | PDO_PARAM_EVT_EXEC_PRE => 2
    | PDO_PARAM_EVT_EXEC_POST => 3
    | PDO_PARAM_EVT_FETCH_PRE => 4
    | PDO_PARAM_EVT_FETCH_POST => 5
    | PDO_PARAM_EVT_NORMALIZE => 6
    end;
}.

Definition example_handle : pdo_mylite_db_handle := mkPdoHandle (Some 0%nat) 0 None.
Definition example_dbh : pdo_dbh_t := mkDbh (Some 3%nat) (str "00000") false (str "/db") true 2 123 true.
Definition example_statement (t : option pdo_mylite_stmt) : pdo_stmt_t :=
  mkPdoStatement 1 t (str "00000") false (None, 0) 0 true true.
Definition example_pdo (w : world) (t : option pdo_mylite_stmt) : pdo :=
  mkPdo w {[3%nat := example_handle]} {[1%nat := example_dbh]} {[2%nat := example_statement t]}.

Definition example_params : list pdo_bound_param_data :=
  [mkParam 1 true IS_TRUE; mkParam 0 true (IS_REFERENCE (IS_STRING (str "xy"))); mkParam 1 true IS_NULL].
Definition example_param_calls : list (Z * bind_call) :=
  [(2, BindInt64 1); (1, BindText (Some (str "xy" ++ [zero])) 2 MYLITE_TRANSIENT); (2, BindNull)].

Lemma example_params_calls : param_calls example_params example_param_calls.
Proof. repeat constructor; vm_compute; discriminate. Qed.

Lemma example_param_binds :
  binds_all (replicate 2 ParamNull) example_param_calls [ParamText (str "xy"); ParamNull].
Proof.
  eapply (binds_next _ 2 _ (ParamInt 1)); [simpl; lia|constructor; unfold LLONG_MIN, LLONG_MAX; lia|].
  eapply (binds_next _ 1 _ (ParamText (str "xy"))); [simpl; lia| |].
  { apply (binds_text (str "xy" ++ [zero]) 2); [discriminate|by vm_compute|vm_compute; lia]. }
  eapply (binds_next _ 2 _ ParamNull); [simpl; lia|constructor|]. apply binds_none.
Qed.

Lemma pdo_query_rows_witness :
  let srv := after_prepare example_sql select_world in
  let srv' := after_execute 7 [ParamText (str "xy"); ParamNull] srv in
  wp (pdo_query 1 2 example_sql example_params 3) (fun o p' =>
    o = Ret (Some [[IS_LONG (-41); IS_STRING (str "longer than its buffer")]; [IS_NULL; IS_STRING []]]) /\
    (exists s, stepped s 0 (library p')) /\ server_state (library p') = srv' /\
    files (sys (library p')) = files (sys select_world)) (example_pdo select_world None).
Proof.
  intros srv srv'.
  apply (pdo_query_rows 1 2 0 example_sql 7 2 example_fields example_params example_param_calls
    [ParamText (str "xy"); ParamNull] example_data example_rows example_texts srv srv'
    (files (sys select_world)) (files (sys select_world)) (example_pdo select_world None)).
  - split; [by exists example_dbh, 3%nat, example_handle|]. by exists (example_statement None).
  - done.
  - apply example_rest.
  - split; [lia|]. split; [by vm_compute|]. split; [|by vm_compute].
    eexists. split; [by vm_compute|]. by vm_compute.
  - eapply example_prepares. by vm_compute.
  - apply example_params_calls.
  - apply example_param_binds.
  - apply example_columns.
  - by vm_compute.
  - repeat constructor; vm_compute; discriminate.
  - eapply example_executes; by vm_compute.
  - done.
  - done.
  - apply example_rows_sent.
Defined.

Lemma example_execution :
  exists s m st ms c p, driven 2 s 0 false false 0 p /\
    idle s 0 m 7 [ParamNull; ParamNull] example_fields st ms c (library p) /\
    executes 0 7 [ParamNull; ParamNull] example_data
      (after_execute 7 [ParamNull; ParamNull] (server_state (library p))) (files (sys (library p))) (library p).
Proof.
  destruct example_idle as (s & m & st & ms & c & w & Hi & Hscript).
  exists s, m, st, ms, c, (example_pdo w (Some (mkPdoStmt 3 (Some s) 0 false false))). split; [|split; [done|]].
  - eexists _, _, example_handle. split_and!; try done. by exists example_dbh.
  - pose proof (example_executes 7 [ParamNull; ParamNull] example_data [] (server_state w)
      (files (sys w)) w Hscript eq_refl eq_refl) as Hx. by destruct w as [? ? ? ? ? ? ? ? ? [] ? ?].
Qed.


(** The same on the whole run: the error that is recorded is no error. *)
Lemma rebind_reports_success :
  let p := snd (pdo_query 1 2 example_sql example_params 3 (example_pdo select_world None)) in
  let '(o, p') := pdo_mylite_stmt_param_hook 2 (mkParam 0 true (IS_LONG 5)) PDO_PARAM_EVT_EXEC_PRE p in
  o = Ret 0 /\ stmt_error_code <$> statements p' !! 2%nat = Some (str "00000") /\
  handle_errmsg <$> handles p' !! 3%nat = Some (Some (str "not an error")).
Proof. vm_compute. by split_and!. Qed.
