(* ===== verification/Mysqli.v ===== *)
(** * The extension mysqli_mylite

    [packages/php-ext-mysqli-mylite/src/php_mysqli_mylite.c]: links, results
    and statements in the shape of mysqli, over the functions of [mylite.h].
    The functions [mysqli_*] and the methods of the classes do the same; a
    definition stands for both.  The parsing of arguments and the checks of
    their classes are the engine's, and an object's class, the extension's own
    or the global one, decides nothing but its name.  Values that a script
    binds by reference are cells of [variables], which the script may change
    at any time.  Scripts do not assign to the properties of links nor to
    those of field objects. *)

From S2P Require Import Prelude Api Effects System Numbers World BinaryRow Runtime Exec Statement Literals Zend.
From stdpp Require Import options.

Local Open Scope Z_scope.

(** ** Objects *)

(** The properties that [php_mylite_mysqli_declare_link_properties] declares. *)
Record link_properties : Set := mkProperties {
  errno_property : Z;
  error_property : bytes;
  connect_errno_property : Z;
  connect_error_property : bytes;
  affected_rows_property : Z;
  insert_id_property : bytes;
}.

Definition php_mylite_mysqli_declare_link_properties : link_properties :=
  mkProperties 0 [] 0 [] 0 (str "0").

(** [struct php_mylite_mysqli_link], with its properties and the count of the
    references to it. *)
Record php_mylite_mysqli_link : Set := mkLink {
  link_db : option nat;
  link_charset : bytes;
  link_props : link_properties;
  link_refs : nat;
}.

(** The properties of a field object that are not constant. *)
Record mysqli_field : Set := mkMysqliField {
  field_name : bytes;
  field_orgname : bytes;
  field_table : bytes;
  field_orgtable : bytes;
}.

(** [struct php_mylite_mysqli_result], with its property [num_rows] *)
Record php_mylite_mysqli_result : Set := mkMysqliResult {
  r_rows : list zend_array;
  r_fields : list mysqli_field;
  r_position : nat;
  r_field_position : nat;
  r_num_rows : Z;
}.

(** A bound value: a copy, or a reference to a variable. *)
Inductive bound_value : Set :=
| BoundCopy (v : zval)
| BoundReference (variable : nat).

(** [struct php_mylite_mysqli_stmt]; [bound_count] is the number of
    [bound_values]. *)
Record php_mylite_mysqli_stmt : Set := mkMysqliStmt {
  q_stmt : option nat;
  q_link_object : option nat;
  q_types : option bytes;
  q_bound_values : list bound_value;
  q_rows : list zend_array;
  q_fields : list mysqli_field;
  q_has_rows : bool;
}.

(** [struct php_mylite_mysqli_exec_result_context] *)
Record php_mylite_mysqli_exec_result_context : Set := mkExecContext {
  ctx_rows : list zend_array;
  ctx_fields : list mysqli_field;
  fields_initialized : bool;
}.

Definition with_link_db (db : option nat) (x : php_mylite_mysqli_link) : php_mylite_mysqli_link :=
  mkLink db (link_charset x) (link_props x) (link_refs x).
Definition with_link_charset (charset : bytes) (x : php_mylite_mysqli_link) : php_mylite_mysqli_link :=
  mkLink (link_db x) charset (link_props x) (link_refs x).
Definition with_link_props (f : link_properties -> link_properties) (x : php_mylite_mysqli_link)
    : php_mylite_mysqli_link :=
  mkLink (link_db x) (link_charset x) (f (link_props x)) (link_refs x).
Definition with_link_refs (n : nat) (x : php_mylite_mysqli_link) : php_mylite_mysqli_link :=
  mkLink (link_db x) (link_charset x) (link_props x) n.
Definition with_errors (errno : Z) (error : bytes) (x : link_properties) : link_properties :=
  mkProperties errno error errno error (affected_rows_property x) (insert_id_property x).
Definition with_effect_properties (affected_rows : Z) (insert_id : bytes) (x : link_properties) : link_properties :=
  mkProperties (errno_property x) (error_property x) (connect_errno_property x) (connect_error_property x)
    affected_rows insert_id.
Definition with_position (n : nat) (x : php_mylite_mysqli_result) : php_mylite_mysqli_result :=
  mkMysqliResult (r_rows x) (r_fields x) n (r_field_position x) (r_num_rows x).
Definition with_field_position (n : nat) (x : php_mylite_mysqli_result) : php_mylite_mysqli_result :=
  mkMysqliResult (r_rows x) (r_fields x) (r_position x) n (r_num_rows x).
Definition with_bindings (types : option bytes) (values : list bound_value) (x : php_mylite_mysqli_stmt)
    : php_mylite_mysqli_stmt :=
  mkMysqliStmt (q_stmt x) (q_link_object x) types values (q_rows x) (q_fields x) (q_has_rows x).
Definition with_q_stmt (stmt : option nat) (x : php_mylite_mysqli_stmt) : php_mylite_mysqli_stmt :=
  mkMysqliStmt stmt (q_link_object x) (q_types x) (q_bound_values x) (q_rows x) (q_fields x) (q_has_rows x).
Definition with_q_rows (rows : list zend_array) (has_rows : bool) (x : php_mylite_mysqli_stmt)
    : php_mylite_mysqli_stmt :=
  mkMysqliStmt (q_stmt x) (q_link_object x) (q_types x) (q_bound_values x) rows (q_fields x) has_rows.
Definition with_q_fields (fields : list mysqli_field) (x : php_mylite_mysqli_stmt) : php_mylite_mysqli_stmt :=
  mkMysqliStmt (q_stmt x) (q_link_object x) (q_types x) (q_bound_values x) (q_rows x) fields (q_has_rows x).

Definition nonempty (t : option bytes) : bool := match t with Some (_ :: _) => true | _ => false end.

(** ** Texts of statements *)

Definition php_mylite_mysqli_use_database_sql (database : bytes) : bytes :=
  str "USE `" ++ flat_map (fun c => if Ascii.eqb c "`" then ["`"%char; c] else [c]) database ++ str "`".

Definition php_mylite_mysqli_set_charset_sql (charset : bytes) : bytes := str "SET NAMES " ++ charset.

Definition is_spacing (value : ascii) : bool :=
  Ascii.eqb value " " || Ascii.eqb value (ascii_of_nat 9) || Ascii.eqb value (ascii_of_nat 10) ||
  Ascii.eqb value (ascii_of_nat 13) || Ascii.eqb value (ascii_of_nat 12).

Definition php_mylite_mysqli_is_call_query (sql : bytes) : bool :=
  match drop (count_while is_spacing sql) sql with
  | c0 :: c1 :: c2 :: c3 :: rest =>
      if (negb (Ascii.eqb c0 "C") && negb (Ascii.eqb c0 "c")) ||
         (negb (Ascii.eqb c1 "A") && negb (Ascii.eqb c1 "a")) ||
         (negb (Ascii.eqb c2 "L") && negb (Ascii.eqb c2 "l")) ||
         (negb (Ascii.eqb c3 "L") && negb (Ascii.eqb c3 "l"))
      then false
      else match rest with [] => true | next :: _ => is_spacing next end
  | _ => false
  end.

(** ** Rows *)

(** The elements with string keys of a row. *)
Definition string_elements (row : zend_array) : list (bytes * zval) :=
  omap (fun '(k, v) => match k with KeyString name => Some (name, v) | KeyLong _ => None end) row.

Definition php_mylite_mysqli_fetch_array_row `{Zend} (fields : list mysqli_field) (row : zend_array)
    (mode : Z) : zend_array :=
  let assoc :=
    if negb (Z.land mode 2 =? 0) then
      foldl (fun a '(name, v) => add_assoc_zval_ex a name v) [] (string_elements row)
    else [] in
  if negb (Z.land mode 1 =? 0) then
    foldl (fun a field =>
             match zend_hash_find row (KeyString (field_name field)) with
             | Some v => add_next_index_zval a v
             | None => a
             end) assoc fields
  else assoc.

(** The properties of the new object. *)
Definition php_mylite_mysqli_fetch_object_row (row : zend_array) : list (bytes * zval) :=
  string_elements row.

Definition php_mylite_mysqli_add_field (fields : list mysqli_field)
    (name org_name table org_table : option bytes) : list mysqli_field :=
  let text (t : option bytes) := c_str (default [] t) in
  fields ++ [mkMysqliField (text name) (text org_name) (text table) (text org_table)].

Section mysqli.
  Context `{Server, Build, Zend}.

Record mysqli : Type := mkMysqli {
  mysqli_library : world;
  mysqli_links : gmap nat php_mylite_mysqli_link;
  mysqli_results : gmap nat php_mylite_mysqli_result;
  mysqli_stmts : gmap nat php_mylite_mysqli_stmt;
  php_mylite_mysqli_connect_errno_value : Z;
  php_mylite_mysqli_connect_error_value : bytes;
  variables : gmap nat zval;
}.

Definition set_mysqli_library (w : world) (p : mysqli) : mysqli :=
  mkMysqli w (mysqli_links p) (mysqli_results p) (mysqli_stmts p)
    (php_mylite_mysqli_connect_errno_value p) (php_mylite_mysqli_connect_error_value p) (variables p).
Definition set_mysqli_links (v : gmap nat php_mylite_mysqli_link) (p : mysqli) : mysqli :=
  mkMysqli (mysqli_library p) v (mysqli_results p) (mysqli_stmts p)
    (php_mylite_mysqli_connect_errno_value p) (php_mylite_mysqli_connect_error_value p) (variables p).
Definition set_mysqli_results (v : gmap nat php_mylite_mysqli_result) (p : mysqli) : mysqli :=
  mkMysqli (mysqli_library p) (mysqli_links p) v (mysqli_stmts p)
    (php_mylite_mysqli_connect_errno_value p) (php_mylite_mysqli_connect_error_value p) (variables p).
Definition set_mysqli_stmts (v : gmap nat php_mylite_mysqli_stmt) (p : mysqli) : mysqli :=
  mkMysqli (mysqli_library p) (mysqli_links p) (mysqli_results p) v
    (php_mylite_mysqli_connect_errno_value p) (php_mylite_mysqli_connect_error_value p) (variables p).
Definition set_connect_values (errno : Z) (error : bytes) (p : mysqli) : mysqli :=
  mkMysqli (mysqli_library p) (mysqli_links p) (mysqli_results p) (mysqli_stmts p) errno error (variables p).
Definition set_variables (v : gmap nat zval) (p : mysqli) : mysqli :=
  mkMysqli (mysqli_library p) (mysqli_links p) (mysqli_results p) (mysqli_stmts p)
    (php_mylite_mysqli_connect_errno_value p) (php_mylite_mysqli_connect_error_value p) v.

Definition call_mylite {A} (m : cmd world A) : cmd mysqli A := zoom mysqli_library set_mysqli_library m.

Definition get_link (l : nat) : cmd mysqli php_mylite_mysqli_link := deref (fun p => mysqli_links p !! l).
Definition put_link (l : nat) (x : php_mylite_mysqli_link) : cmd mysqli unit :=
  modify (fun p => set_mysqli_links (<[l := x]> (mysqli_links p)) p).
Definition update_link (l : nat) (f : php_mylite_mysqli_link -> php_mylite_mysqli_link) : cmd mysqli unit :=
  x ← get_link l; put_link l (f x).
Definition get_mysqli_result (r : nat) : cmd mysqli php_mylite_mysqli_result :=
  deref (fun p => mysqli_results p !! r).
Definition put_mysqli_result (r : nat) (x : php_mylite_mysqli_result) : cmd mysqli unit :=
  modify (fun p => set_mysqli_results (<[r := x]> (mysqli_results p)) p).
Definition get_mysqli_stmt (q : nat) : cmd mysqli php_mylite_mysqli_stmt :=
  deref (fun p => mysqli_stmts p !! q).
Definition update_mysqli_stmt (q : nat) (f : php_mylite_mysqli_stmt -> php_mylite_mysqli_stmt)
    : cmd mysqli unit :=
  x ← get_mysqli_stmt q;
  modify (fun p => set_mysqli_stmts (<[q := f x]> (mysqli_stmts p)) p).

(** A function of [mylite.h] that reads a field of the handle. *)
Definition read_link_handle {A} (f : option mylite_db -> A) (d : nat) : cmd mysqli A :=
  x ← call_mylite (get_db d); mret (f (Some x)).

(** ** Creating and freeing objects *)

Definition php_mylite_mysqli_link_create : cmd mysqli nat := fun p =>
  let l := fresh (dom (mysqli_links p)) in
  (Ret l, set_mysqli_links
     (<[l := mkLink None (str "utf8mb4") php_mylite_mysqli_declare_link_properties 1]> (mysqli_links p)) p).

Definition php_mylite_mysqli_link_free (l : nat) : cmd mysqli unit :=
  link ← get_link l;
  match link_db link with
  | Some d => call_mylite (mylite_close (Some d)) ;; mret tt
  | None => mret tt
  end ;;
  modify (fun p => set_mysqli_links (delete l (mysqli_links p)) p).

(** [GC_ADDREF] and [OBJ_RELEASE] of a link object. *)
Definition addref_link (l : nat) : cmd mysqli unit :=
  update_link l (fun x => with_link_refs (S (link_refs x)) x).
Definition release_link (l : nat) : cmd mysqli unit :=
  update_link l (fun x => with_link_refs (pred (link_refs x)) x) ;;
  x ← get_link l;
  match link_refs x with
  | O => php_mylite_mysqli_link_free l
  | S _ => mret tt
  end.

Definition php_mylite_mysqli_result_create : cmd mysqli nat := fun p =>
  let r := fresh (dom (mysqli_results p)) in
  (Ret r, set_mysqli_results (<[r := mkMysqliResult [] [] 0 0 0]> (mysqli_results p)) p).

Definition php_mylite_mysqli_result_free (r : nat) : cmd mysqli unit :=
  modify (fun p => set_mysqli_results (delete r (mysqli_results p)) p).

Definition php_mylite_mysqli_stmt_create : cmd mysqli nat := fun p =>
  let q := fresh (dom (mysqli_stmts p)) in
  (Ret q, set_mysqli_stmts (<[q := mkMysqliStmt None None None [] [] [] false]> (mysqli_stmts p)) p).

Definition php_mylite_mysqli_stmt_clear_bindings (q : nat) : cmd mysqli unit :=
  update_mysqli_stmt q (with_bindings None []).
Definition php_mylite_mysqli_stmt_clear_rows (q : nat) : cmd mysqli unit :=
  update_mysqli_stmt q (with_q_rows [] false).
Definition php_mylite_mysqli_stmt_clear_fields (q : nat) : cmd mysqli unit :=
  update_mysqli_stmt q (with_q_fields []).

Definition php_mylite_mysqli_stmt_free (q : nat) : cmd mysqli unit :=
  stmt ← get_mysqli_stmt q;
  match q_stmt stmt with
  | Some s => call_mylite (mylite_finalize (Some s)) ;; update_mysqli_stmt q (with_q_stmt None)
  | None => mret tt
  end ;;
  php_mylite_mysqli_stmt_clear_bindings q ;;
  match q_link_object stmt with
  | Some l => release_link l
  | None => mret tt
  end ;;
  modify (fun p => set_mysqli_stmts (delete q (mysqli_stmts p)) p).

(** ** Errors and status *)

Definition php_mylite_mysqli_clear_error (l : nat) : cmd mysqli unit :=
  update_link l (with_link_props (with_errors 0 [])).

Definition php_mylite_mysqli_clear_connect_error : cmd mysqli unit := modify (set_connect_values 0 []).

(** [snprintf] into a buffer of 512 bytes. *)
Definition php_mylite_mysqli_set_connect_error (error_number : Z) (message : bytes) : cmd mysqli unit :=
  modify (set_connect_values error_number (take 511 message)).

Definition php_mylite_mysqli_set_error (l : nat) (result : Z) (fallback : bytes) : cmd mysqli unit :=
  link ← get_link l;
  '(mariadb_errno, message) ←
    match link_db link with
    | Some d =>
        n ← read_link_handle mylite_mariadb_errno d;
        message ← read_link_handle mylite_errmsg d;
        mret (n, c_str message)
    | None => mret (0, fallback)
    end;
  let mariadb_errno := if mariadb_errno =? 0 then result mod 2 ^ 32 else mariadb_errno in
  update_link l (with_link_props (with_errors mariadb_errno message)).

Definition php_mylite_mysqli_sync_status (l : nat) : cmd mysqli unit :=
  link ← get_link l;
  match link_db link with
  | None => update_link l (with_link_props (with_effect_properties 0 (str "0")))
  | Some d =>
      changes ← read_link_handle mylite_changes d;
      insert_id ← read_link_handle mylite_last_insert_id d;
      update_link l (with_link_props (with_effect_properties changes (to_string insert_id)))
  end.

(** ** Connecting *)

Definition host_message : bytes := str "MyLite mysqli host must be a database directory path".

(** [true] is [SUCCESS]. *)
Definition php_mylite_mysqli_open_link (l : nat) (path : option bytes) : cmd mysqli bool :=
  if negb (nonempty (c_str <$> path)) then
    php_mylite_mysqli_set_error l MYLITE_MISUSE host_message ;;
    php_mylite_mysqli_set_connect_error MYLITE_MISUSE host_message ;;
    mret false
  else
    link ← get_link l;
    match link_db link with
    | Some d => call_mylite (mylite_close (Some d)) ;; update_link l (with_link_db None)
    | None => mret tt
    end ;;
    '(result, db) ← call_mylite
       (mylite_open (c_str <$> path) true (Z.lor MYLITE_OPEN_READWRITE MYLITE_OPEN_CREATE) None);
    if negb (result =? MYLITE_OK) then
      php_mylite_mysqli_set_error l result (str "could not open MyLite database") ;;
      php_mylite_mysqli_set_connect_error (result mod 2 ^ 32) (str "could not open MyLite database") ;;
      mret false
    else
      update_link l (with_link_db db) ;;
      php_mylite_mysqli_clear_connect_error ;;
      php_mylite_mysqli_clear_error l ;;
      php_mylite_mysqli_sync_status l ;;
      mret true.

(** The new link, or none for [false]. *)
Definition php_mylite_mysqli_connect_impl (path : option bytes) : cmd mysqli (option nat) :=
  l ← php_mylite_mysqli_link_create;
  opened ← php_mylite_mysqli_open_link l path;
  if (opened : bool) then mret (Some l) else release_link l ;; mret None.

Definition php_mylite_mysqli_connection_path (host socket : option bytes) : option bytes :=
  match socket with
  | Some (_ :: _) => socket
  | _ => match host with Some (_ :: _) => host | _ => None end
  end.

(** A statement that the extension itself runs. *)
Definition run_own_sql (l d : nat) (sql : bytes) (fallback : bytes) : cmd mysqli bool :=
  '(result, _, _) ← call_mylite (mylite_exec (Some d) (Some (c_str sql)) None tt false);
  if negb (result =? MYLITE_OK) then php_mylite_mysqli_set_error l result fallback ;; mret false
  else mret true.

(** [php_mylite_mysqli_require_db] and the error of a closed link. *)
Definition with_db {A} (failed : A) (l : nat) (body : nat -> cmd mysqli A) : cmd mysqli A :=
  link ← get_link l;
  match link_db link with
  | None =>
      php_mylite_mysqli_set_error l MYLITE_MISUSE (str "MyLite mysqli link is closed") ;; mret failed
  | Some d => body d
  end.

Definition php_mylite_mysqli_select_database (l : nat) (database : bytes) : cmd mysqli bool :=
  with_db false l (fun d =>
    ok ← run_own_sql l d (php_mylite_mysqli_use_database_sql database) (str "could not select database");
    if (ok : bool) then php_mylite_mysqli_clear_error l ;; mret true else mret false).

Definition php_mylite_mysqli_set_charset_impl (l : nat) (charset : bytes) : cmd mysqli bool :=
  with_db false l (fun d =>
    ok ← run_own_sql l d (php_mylite_mysqli_set_charset_sql charset)
           (str "could not set connection charset");
    if (ok : bool) then
      update_link l (with_link_charset charset) ;; php_mylite_mysqli_clear_error l ;; mret true
    else mret false).

(** The global [mysqli_connect]. *)
Definition mylite_mysqli_global_connect (host : bytes) (database socket : option bytes)
    : cmd mysqli (option nat) :=
  connected ← php_mylite_mysqli_connect_impl (php_mylite_mysqli_connection_path (Some host) socket);
  match connected with
  | None => mret None
  | Some l =>
      if nonempty database then
        ok ← php_mylite_mysqli_select_database l (default [] database);
        if (ok : bool) then mret (Some l) else release_link l ;; mret None
      else mret (Some l)
  end.

Definition mylite_mysqli_real_connect (l : nat) (host database socket : option bytes) : cmd mysqli bool :=
  match php_mylite_mysqli_connection_path host socket with
  | None => php_mylite_mysqli_set_connect_error MYLITE_MISUSE host_message ;; mret false
  | path =>
      opened ← php_mylite_mysqli_open_link l path;
      if negb opened then mret false
      else if nonempty database then php_mylite_mysqli_select_database l (default [] database)
      else mret true
  end.

Definition mylite_mysqli_close (l : nat) : cmd mysqli bool :=
  link ← get_link l;
  match link_db link with
  | None => mret true
  | Some d =>
      result ← call_mylite (mylite_close (Some d));
      if negb (result =? MYLITE_OK) then
        php_mylite_mysqli_set_error l result (str "could not close database") ;; mret false
      else update_link l (with_link_db None) ;; mret true
  end.

(** ** Queries *)

Definition php_mylite_mysqli_column_to_zval (stmt : option nat) (column : Z) : cmd world zval :=
  type ← mylite_column_type stmt column;
  match type with
  | MYLITE_TYPE_NULL => mret IS_NULL
  | _ => text_to_zval stmt column
  end.

Fixpoint add_fields (stmt : option nat) (columns : list nat) (fields : list mysqli_field)
    : cmd world (list mysqli_field) :=
  match columns with
  | [] => mret fields
  | column :: columns =>
      name ← mylite_column_name stmt (Z.of_nat column);
      org_name ← mylite_column_org_name stmt (Z.of_nat column);
      table ← mylite_column_table stmt (Z.of_nat column);
      org_table ← mylite_column_org_table stmt (Z.of_nat column);
      add_fields stmt columns (php_mylite_mysqli_add_field fields name org_name table org_table)
  end.
Definition php_mylite_mysqli_fields_from_stmt (stmt : option nat) : cmd world (list mysqli_field) :=
  column_count ← mylite_column_count stmt;
  add_fields stmt (seq 0 (Z.to_nat column_count)) [].

Definition php_mylite_mysqli_result_from_rows (rows : list zend_array) (fields : list mysqli_field)
    : cmd mysqli nat :=
  r ← php_mylite_mysqli_result_create;
  put_mysqli_result r (mkMysqliResult rows fields 0 0 (Z.of_nat (length rows))) ;;
  mret r.

(** The two loops of the callback. *)
Fixpoint callback_fields (names : list (option bytes)) (columns : list nat) (fields : list mysqli_field)
    : cmd world (list mysqli_field) :=
  match columns with
  | [] => mret fields
  | column :: columns =>
      match names !! column with
      | None => undefined
      | Some name =>
          callback_fields names columns (php_mylite_mysqli_add_field fields name name None None)
      end
  end.
Fixpoint callback_row (values names : list (option bytes)) (columns : list nat) (row : zend_array)
    : cmd world zend_array :=
  match columns with
  | [] => mret row
  | column :: columns =>
      match values !! column, names !! column with
      | Some value, Some name =>
          let value := match value with None => IS_NULL | Some text => IS_STRING (c_str text) end in
          callback_row values names columns (add_assoc_zval_ex row (c_str (default [] name)) value)
      | _, _ => undefined
      end
  end.

Definition php_mylite_mysqli_exec_result_callback
    : mylite_exec_callback php_mylite_mysqli_exec_result_context :=
  fun ctx column_count values column_names =>
    let columns := seq 0 (Z.to_nat column_count) in
    fields ← (if fields_initialized ctx then mret (ctx_fields ctx)
              else callback_fields column_names columns (ctx_fields ctx));
    row ← callback_row values column_names columns [];
    mret (0, mkExecContext (ctx_rows ctx ++ [row]) fields true).

(** [None] is [FAILURE], for which the caller returns [false]; else the new
    result, or none for [true]. *)
Definition php_mylite_mysqli_exec_query_impl (l d : nat) (sql : bytes) : cmd mysqli (option (option nat)) :=
  '(result, _, ctx) ← call_mylite
     (mylite_exec (Some d) (Some (c_str sql)) (Some php_mylite_mysqli_exec_result_callback)
        (mkExecContext [] [] false) true);
  if negb (result =? MYLITE_OK) then
    php_mylite_mysqli_set_error l result (str "query failed") ;; mret None
  else
    php_mylite_mysqli_clear_error l ;;
    php_mylite_mysqli_sync_status l ;;
    if negb (fields_initialized ctx) then mret (Some None)
    else r ← php_mylite_mysqli_result_from_rows (ctx_rows ctx) (ctx_fields ctx); mret (Some (Some r)).

Definition php_mylite_mysqli_query_impl (fuel : nat) (l : nat) (sql : bytes)
    : cmd mysqli (option (option nat)) :=
  with_db None l (fun d =>
    if php_mylite_mysqli_is_call_query sql then php_mylite_mysqli_exec_query_impl l d sql
    else
      '(prepare_result, stmt, _) ← call_mylite
         (mylite_prepare (Some d) (Some (sql ++ [zero])) (Z.of_nat (length sql)) true);
      if negb (prepare_result =? MYLITE_OK) then
        php_mylite_mysqli_set_error l prepare_result (str "could not prepare query") ;; mret None
      else
        step_result ← call_mylite (mylite_step stmt);
        '(rows, step_result) ← call_mylite
           (rows_loop php_mylite_mysqli_column_to_zval fuel stmt step_result []);
        column_count ← call_mylite (mylite_column_count stmt);
        fields ← call_mylite (php_mylite_mysqli_fields_from_stmt stmt);
        finalize_result ← call_mylite (mylite_finalize stmt);
        if negb (step_result =? MYLITE_DONE) || negb (finalize_result =? MYLITE_OK) then
          php_mylite_mysqli_set_error l step_result (str "query failed") ;; mret None
        else
          php_mylite_mysqli_clear_error l ;;
          php_mylite_mysqli_sync_status l ;;
          if column_count =? 0 then mret (Some None)
          else r ← php_mylite_mysqli_result_from_rows rows fields; mret (Some (Some r))).

(** ** Results *)

(** The row at the position, which moves on. *)
Definition next_row (r : nat) : cmd mysqli (option (php_mylite_mysqli_result * zend_array)) :=
  result ← get_mysqli_result r;
  match r_rows result !! r_position result with
  | None => mret None
  | Some row => put_mysqli_result r (with_position (S (r_position result)) result) ;; mret (Some (result, row))
  end.

Definition mylite_mysqli_fetch_assoc (r : nat) : cmd mysqli (option zend_array) :=
  next ← next_row r; mret (snd <$> next).
Definition mylite_mysqli_fetch_array (r : nat) (mode : Z) : cmd mysqli (option zend_array) :=
  next ← next_row r;
  mret ((fun '(result, row) => php_mylite_mysqli_fetch_array_row (r_fields result) row mode) <$> next).
Definition mylite_mysqli_fetch_object (r : nat) : cmd mysqli (option (list (bytes * zval))) :=
  next ← next_row r; mret ((fun '(_, row) => php_mylite_mysqli_fetch_object_row row) <$> next).

Definition php_mylite_mysqli_fetch_all_rows (r : nat) (mode : Z) : cmd mysqli (list zend_array) :=
  result ← get_mysqli_result r;
  put_mysqli_result r (with_position (length (r_rows result)) result) ;;
  mret (map (fun row => php_mylite_mysqli_fetch_array_row (r_fields result) row mode) (r_rows result)).

Definition mylite_mysqli_num_rows (r : nat) : cmd mysqli Z :=
  result ← get_mysqli_result r; mret (Z.of_nat (length (r_rows result))).
Definition mylite_mysqli_num_fields (r : nat) : cmd mysqli Z :=
  result ← get_mysqli_result r; mret (Z.of_nat (length (r_fields result))).

(** None is [false]. *)
Definition mylite_mysqli_fetch_field (r : nat) : cmd mysqli (option mysqli_field) :=
  result ← get_mysqli_result r;
  match r_fields result !! r_field_position result with
  | None => mret None
  | Some field =>
      put_mysqli_result r (with_field_position (S (r_field_position result)) result) ;; mret (Some field)
  end.

Definition mylite_mysqli_free_result (r : nat) : cmd mysqli unit :=
  result ← get_mysqli_result r;
  put_mysqli_result r (mkMysqliResult [] [] 0 0 (r_num_rows result)).

(** ** Reading a link *)

Definition mylite_mysqli_error (l : nat) : cmd mysqli bytes :=
  link ← get_link l; mret (error_property (link_props link)).
Definition mylite_mysqli_errno (l : nat) : cmd mysqli Z :=
  link ← get_link l; mret (errno_property (link_props link)).
Definition mylite_mysqli_affected_rows (l : nat) : cmd mysqli Z :=
  link ← get_link l; mret (affected_rows_property (link_props link)).
Definition mylite_mysqli_insert_id (l : nat) : cmd mysqli bytes :=
  link ← get_link l; mret (insert_id_property (link_props link)).
Definition mylite_mysqli_character_set_name (l : nat) : cmd mysqli bytes :=
  link ← get_link l; mret (link_charset link).

(** None is [null]. *)
Definition mylite_mysqli_connect_error : cmd mysqli (option bytes) :=
  error ← gets php_mylite_mysqli_connect_error_value;
  mret (if nonempty (Some error) then Some error else None).
Definition mylite_mysqli_connect_errno : cmd mysqli Z := gets php_mylite_mysqli_connect_errno_value.

(** ** Prepared statements *)

(** The new statement, or none for [false]. *)
Definition php_mylite_mysqli_prepare_impl (l : nat) (sql : bytes) : cmd mysqli (option nat) :=
  with_db None l (fun d =>
    '(result, stmt, _) ← call_mylite
       (mylite_prepare (Some d) (Some (sql ++ [zero])) (Z.of_nat (length sql)) true);
    if negb (result =? MYLITE_OK) then
      php_mylite_mysqli_set_error l result (str "could not prepare statement") ;; mret None
    else
      q ← php_mylite_mysqli_stmt_create;
      update_mysqli_stmt q (fun x =>
        mkMysqliStmt stmt (Some l) (q_types x) (q_bound_values x) (q_rows x) (q_fields x) (q_has_rows x)) ;;
      addref_link l ;;
      mret (Some q)).

(** None is the exception about the types. *)
Definition mylite_mysqli_stmt_bind_param (q : nat) (types : bytes) (params : list bound_value)
    : cmd mysqli (option bool) :=
  if negb (length params =? length types)%nat then mret None
  else
    php_mylite_mysqli_stmt_clear_bindings q ;;
    update_mysqli_stmt q (with_bindings (Some types) params) ;;
    mret (Some true).

(** The value that is bound, at this moment. *)
Definition bound_zval (v : bound_value) : cmd mysqli zval :=
  match v with
  | BoundCopy v => mret v
  | BoundReference x => v ← deref (fun p => variables p !! x); mret (IS_REFERENCE v)
  end.

(** The loop over the bound values: whether all calls were [MYLITE_OK]. *)
Fixpoint bind_values (stmt : option nat) (index : Z) (values : list bound_value) : cmd mysqli bool :=
  match values with
  | [] => mret true
  | v :: values =>
      value ← bound_zval v;
      bind_result ← call_mylite (bind_zval stmt (index + 1) value);
      if negb (bind_result =? MYLITE_OK) then mret false else bind_values stmt (index + 1) values
  end.

Definition php_mylite_mysqli_stmt_execute_impl (fuel : nat) (q : nat) : cmd mysqli bool :=
  stmt ← get_mysqli_stmt q;
  match q_stmt stmt with
  | None => mret false
  | Some s =>
      call_mylite (mylite_reset (Some s)) ;;
      call_mylite (mylite_clear_bindings (Some s)) ;;
      bound ← bind_values (Some s) 0 (q_bound_values stmt);
      if negb bound then mret false
      else
        php_mylite_mysqli_stmt_clear_rows q ;;
        php_mylite_mysqli_stmt_clear_fields q ;;
        step_result ← call_mylite (mylite_step (Some s));
        column_count ← call_mylite (mylite_column_count (Some s));
        '(rows, step_result) ← call_mylite
           (rows_loop php_mylite_mysqli_column_to_zval fuel (Some s) step_result []);
        update_mysqli_stmt q (with_q_rows rows false) ;;
        if negb (step_result =? MYLITE_DONE) then mret false
        else
          fields ← call_mylite (php_mylite_mysqli_fields_from_stmt (Some s));
          update_mysqli_stmt q (fun x => with_q_rows (q_rows x) (0 <? column_count) (with_q_fields fields x)) ;;
          mret true
  end.

(** The new result, or none for [false]. *)
Definition mylite_mysqli_stmt_get_result (q : nat) : cmd mysqli (option nat) :=
  stmt ← get_mysqli_stmt q;
  if negb (q_has_rows stmt) then mret None
  else r ← php_mylite_mysqli_result_from_rows (q_rows stmt) (q_fields stmt); mret (Some r).
End mysqli.
