(* ===== verification/MysqliFacts.v ===== *)
(** * Theorems on the extension mysqli_mylite

    A query gives the rows of the server's answer in each of the modes of
    [fetch_array] ([mysqli_query_rows]), as long as the names of the columns
    are distinct and no name is a number; what happens otherwise, and the
    other cases in which the extension loses rows, errors or a handle, is
    computed on the scripted server. *)

From S2P Require Import Prelude Api Effects SqlLexer SqlPolicy SqlPolicyFacts SqlPolicyTheorems System Directory Numbers World.
From S2P Require Import Formats FormatsFacts BinaryRow BinaryFacts ClientQuery ClientStmt Runtime Exec Statement.
From S2P Require Import Frames Rules ClientFacts Scripted RuntimeFacts RuntimeTheorems Library ExecFacts Termination.
From S2P Require Import StatementFacts Lifetime Calls Bindings Rows ProtocolRows Fetch Step Execute Prepared.
From S2P Require Import PreparedTheorems Interleaving Columns Zend ZendFacts PhpFacts Mysqli.
From stdpp Require Import options.
Set Default Proof Using "Type*".

Local Open Scope Z_scope.

(** ** Columns *)

Section columns.
  Context `{Server, Build, Zend}.

(** Every value is a string, or null. *)
Definition mysqli_value (field : MYSQL_FIELD) (v : column_value) : zval :=
  match mjoin (value_text field (initial_width field) v) with Some text => IS_STRING text | None => IS_NULL end.

Lemma mysqli_column_spec s d fields vs i v field w :
  row_of s d fields vs w -> fields !! i = Some field -> vs !! i = Some v ->
  wp (php_mylite_mysqli_column_to_zval (Some s) (Z.of_nat i)) (fun o w' =>
    o = Ret (mysqli_value field v) /\ w' = w) w.
Proof.
  intros Hrow Hfield Hv. destruct (row_of_column s d fields vs i v _ Hrow Hv)
    as (st & c & field' & t & Hst & Hhas & Hc & Hf & Hshows & Hdesc & Hok & Ht).
  rewrite Hfield in Hf. injection Hf as <-.
  pose proof (column_type_cases c field v t _ _ Hdesc Hshows Hok Ht) as Hcases.
  unfold php_mylite_mysqli_column_to_zval, mysqli_value. rewrite Ht. simpl.
  apply wp_bind. eapply wp_mono; [by eapply column_type_reads|]. intros o w' [-> ->]. apply bind_post_ret.
  destruct t as [text|]; simpl.
  - destruct (shows_texted s st i c text w) as (b & Htext); [done..|].
    assert (Htype : column_type c <> MYLITE_TYPE_NULL).
    { destruct (integer_of v); [by rewrite Hcases; destruct (has_flag _ _)|].
      destruct (is_float field); [by rewrite Hcases|by destruct Hcases as [-> | ->]]. }
    destruct (column_type c); try done; by eapply string_column_spec.
  - assert (Hint : integer_of v = None) by (destruct v; simpl in *; congruence).
    rewrite Hint in Hcases. rewrite Hcases. by apply wp_ret.
Qed.

(** ** Fields *)

Definition field_of (field : MYSQL_FIELD) : mysqli_field :=
  mkMysqliField (column_name field) (c_str (default [] (f_org_name field)))
    (c_str (default [] (f_table field))) (c_str (default [] (f_org_table field))).

Lemma described_column s d fields i field w :
  ended s d fields w -> fields !! i = Some field -> exists st c,
    stmts w !! s = Some st /\ columns st !! i = Some c /\ column_description c = field_description field.
Proof.
  intros [_ (st & Hst & Hdesc)] Hi. apply (f_equal (lookup i)) in Hdesc. rewrite !list_lookup_fmap, Hi in Hdesc.
  destruct (columns st !! i) as [c|] eqn:Hc; [|done]. simpl in Hdesc. apply (inj Some) in Hdesc. by exists st, c.
Qed.

Lemma metadata_spec s st i c (Q : outcome (option ResultColumn) -> world -> Prop) w :
  stmts w !! s = Some st -> columns st !! i = Some c -> Q (Ret (Some c)) w ->
  wp (metadata_column_at (Some s) (Z.of_nat i)) Q w.
Proof.
  intros Hst Hc HQ. unfold metadata_column_at. wp_auto.
  by rewrite (proj2 (Z.leb_gt _ _)), Nat2Z.id, Hc by (apply lookup_lt_Some in Hc; lia).
Qed.

Lemma add_fields_spec s d fields w :
  ended s d fields w -> forall n k acc, (k + n = length fields)%nat ->
  wp (add_fields (Some s) (seq k n) acc) (fun o w' =>
    o = Ret (acc ++ map field_of (drop k fields)) /\ w' = w) w.
Proof.
  intros Hended. induction n as [|n IH]; intros k acc Hk; cbn [seq add_fields].
  { apply wp_ret. by rewrite drop_ge, app_nil_r by lia. }
  destruct (lookup_lt_is_Some_2 fields k) as [field Hfield]; [lia|].
  destruct (described_column s d fields k field w Hended Hfield) as (st & c & Hst & Hc & Hdesc).
  injection Hdesc as _ _ Hname Horg Htable Horgtable.
  unfold mylite_column_name, mylite_column_org_name, mylite_column_table, mylite_column_org_table.
  do 4 (apply wp_bind, wp_bind; eapply metadata_spec; [done|done|]; apply bind_post_ret, wp_ret, bind_post_ret).
  eapply wp_mono; [apply IH; lia|]. intros o w' [-> ->]. split; [|done].
  rewrite (drop_S _ _ _ Hfield). unfold php_mylite_mysqli_add_field. simpl.
  by rewrite Hname, Horg, Htable, Horgtable, !c_str_idemp, <- app_assoc.
Qed.

Lemma fields_from_stmt_spec s d fields w :
  ended s d fields w -> fields <> [] -> Z.of_nat (length fields) < 2 ^ 32 ->
  wp (php_mylite_mysqli_fields_from_stmt (Some s)) (fun o w' => o = Ret (map field_of fields) /\ w' = w) w.
Proof.
  intros Hended Hne Hlen. unfold php_mylite_mysqli_fields_from_stmt. apply wp_bind.
  eapply wp_mono; [by eapply ended_count_reads|]. intros o w' [-> ->]. apply bind_post_ret. rewrite Nat2Z.id.
  by apply (add_fields_spec s d fields w Hended _ 0 []).
Qed.
End columns.

(** ** Arrays *)

Definition later_index (entry : array_key * zval) (n : Z) : Z :=
  match fst entry with KeyLong h => Z.max n (h + 1) | KeyString _ => n end.

Lemma next_index_from a : forall m, 0 <= m -> foldr later_index m a = Z.max m (next_index a).
Proof.
  induction a as [|[[h|k] v] a IH]; intros m Hm; unfold next_index in *; simpl in *; [lia|..]; unfold later_index at 1; simpl.
  - rewrite IH by done. lia.
  - by apply IH.
Qed.

Lemma next_index_nonneg a : 0 <= next_index a.
Proof. unfold next_index. induction a as [|[[] ?] a IH]; simpl; lia. Qed.

Lemma next_index_fresh a h v : (KeyLong h, v) ∈ a -> h < next_index a.
Proof.
  unfold next_index. induction a as [|[k x] a IH]; [by intros ?%elem_of_nil|].
  intros [Heq|Hin]%elem_of_cons; simpl.
  - injection Heq as <- <-. lia.
  - apply IH in Hin. destruct k; lia.
Qed.

Lemma add_next_index_new a v :
  add_next_index_zval a v = a ++ [(KeyLong (next_index a), v)] /\
  next_index (a ++ [(KeyLong (next_index a), v)]) = next_index a + 1.
Proof.
  split.
  - apply zend_hash_update_new. intros ([k x] & Hk & Hin)%list_elem_of_fmap. simpl in Hk. subst k.
    apply next_index_fresh in Hin. lia.
  - pose proof (next_index_nonneg a). unfold next_index at 1. rewrite foldr_app. simpl.
    change (foldr _ ?m a) with (foldr later_index m a). rewrite next_index_from by lia. lia.
Qed.

(** The integer keys from [k] on. *)
Definition indices (k : Z) (n : nat) : list array_key := (fun i => KeyLong (k + Z.of_nat i)) <$> seq 0 n.

Lemma indices_S k n : indices k (S n) = KeyLong k :: indices (k + 1) n.
Proof.
  unfold indices. simpl. rewrite Z.add_0_r. f_equal. rewrite <- fmap_S_seq, <- list_fmap_compose.
  apply list_fmap_ext. intros i x _. simpl. f_equal. lia.
Qed.

Lemma add_indexed {A} (find : A -> option zval) (xs : list A) (values : list zval) : forall a,
  Forall2 (fun x v => find x = Some v) xs values ->
  foldl (fun a x => match find x with Some v => add_next_index_zval a v | None => a end) a xs =
  a ++ zip (indices (next_index a) (length xs)) values.
Proof.
  intros a Hv. revert a. induction Hv as [|x v xs values Hx Hv IH]; intros a; cbn [foldl length];
    [by rewrite app_nil_r|].
  rewrite Hx. destruct (add_next_index_new a v) as [-> Hnext].
  by rewrite IH, Hnext, <- app_assoc, indices_S.
Qed.

Lemma find_named (names : list bytes) (values : list zval) i name v :
  NoDup names -> names !! i = Some name -> values !! i = Some v ->
  zend_hash_find (zip (KeyString <$> names) values) (KeyString name) = Some v.
Proof.
  intros Hno. revert values i. induction Hno as [|x names Hx Hno IH]; intros values i Hi Hv; [done|].
  destruct values as [|y values]; [done|]. unfold zend_hash_find in *. simpl.
  destruct i as [|i]; simpl in Hi, Hv.
  - injection Hi as ->. injection Hv as ->. by rewrite bool_decide_eq_true_2.
  - rewrite bool_decide_eq_false_2 by (intros [= ->]; apply Hx; by eapply list_elem_of_lookup_2). by eapply IH.
Qed.

Section arrays.
  Context `{Zend}.

(** Names that are not numbers. *)
Definition plain_names (names : list bytes) : Prop :=
  NoDup names /\ Forall (fun name => ZEND_HANDLE_NUMERIC_STR name = None) names.

Lemma plain_keys names : plain_names names -> symtable_key <$> names = KeyString <$> names.
Proof.
  intros [_ Hp]. induction Hp as [|name names Hn Hp IH]; [done|].
  rewrite !fmap_cons, IH. unfold symtable_key. by rewrite Hn.
Qed.

(** What [fetch_array] gives in the mode [mode]. *)
Definition fetched (mode : Z) (names : list bytes) (values : list zval) : zend_array :=
  (if negb (Z.land mode 2 =? 0) then zip (KeyString <$> names) values else []) ++
  (if negb (Z.land mode 1 =? 0) then zip (indices 0 (length names)) values else []).

Lemma string_elements_named names : forall values,
  string_elements (zip (KeyString <$> names) values) = zip names values.
Proof. unfold string_elements. induction names as [|n names IH]; intros [|v values]; simpl; [done..|]. by rewrite IH. Qed.

Lemma next_index_named names : forall values, next_index (zip (KeyString <$> names) values) = 0.
Proof. unfold next_index. induction names as [|n names IH]; intros [|v values]; simpl; try done. Qed.

Lemma add_columns_plain names values :
  plain_names names -> length values = length names ->
  add_columns [] (zip names values) = zip (KeyString <$> names) values.
Proof.
  intros Hp Hlen. rewrite add_columns_distinct; simpl.
  - by rewrite zip_keys, plain_keys.
  - rewrite list_fmap_compose, fst_zip, plain_keys by (done || lia). apply NoDup_fmap_2; [by intros ? ? [=]|apply Hp].
Qed.

Lemma foldl_columns columns : forall row,
  foldl (fun a '(name, v) => add_assoc_zval_ex a name v) row columns = add_columns row columns.
Proof. induction columns as [|[name v] columns IH]; intros row; [done|]. apply IH. Qed.

Lemma fetch_array_row_spec fields values mode :
  plain_names (field_name <$> fields) -> length values = length fields ->
  php_mylite_mysqli_fetch_array_row fields (zip (KeyString <$> (field_name <$> fields)) values) mode =
  fetched mode (field_name <$> fields) values.
Proof.
  intros Hp Hlen. unfold php_mylite_mysqli_fetch_array_row, fetched.
  set (assoc := if negb (Z.land mode 2 =? 0) then zip (KeyString <$> (field_name <$> fields)) values else []).
  assert (Ha : (if negb (Z.land mode 2 =? 0) then
      foldl (fun a '(name, v) => add_assoc_zval_ex a name v) []
        (string_elements (zip (KeyString <$> (field_name <$> fields)) values)) else []) = assoc).
  { unfold assoc. destruct (negb _); [|done]. rewrite string_elements_named.
    rewrite foldl_columns. apply add_columns_plain; [done|]. by rewrite length_fmap. }
  rewrite Ha. destruct (negb (Z.land mode 1 =? 0)); [|by rewrite app_nil_r].
  rewrite (add_indexed (fun field => zend_hash_find (zip (KeyString <$> (field_name <$> fields)) values)
    (KeyString (field_name field))) fields values).
  - rewrite length_fmap. do 2 f_equal. f_equal. unfold assoc. destruct (negb _); [apply next_index_named|done].
  - apply Forall2_same_length_lookup_2; [done|]. intros i field v Hf Hv.
    eapply find_named; [apply Hp| |exact Hv]. by rewrite list_lookup_fmap, Hf.
Qed.
End arrays.

(** ** Statements that are calls *)

Lemma either_letter c a b : negb (Ascii.eqb c a) && negb (Ascii.eqb c b) = false -> c = a \/ c = b.
Proof. destruct (Ascii.eqb_spec c a), (Ascii.eqb_spec c b); auto; done. Qed.

Lemma spacing_no_identifier c : is_spacing c = true -> is_sql_identifier_char c = false.
Proof. ascii_cases c; vm_compute; done. Qed.

(** What the extension takes for a [CALL] is one for the library, which refuses
    to prepare it. *)
Lemma call_query_is_call sql :
  php_mylite_mysqli_is_call_query sql = true ->
  token_equals (identifier_token_at (collect_sql_policy_tokens sql) 0) "CALL" = true.
Proof.
  unfold php_mylite_mysqli_is_call_query. set (n := count_while is_spacing sql).
  assert (Hgap : sql_gap (take n sql)).
  { unfold n. clear. induction sql as [|c sql IH]; simpl; [constructor|]. destruct (is_spacing c) eqn:Hc; simpl; [|constructor].
    apply gap_space; [exact Hc|exact IH]. }
  destruct (drop n sql) as [|c0 [|c1 [|c2 [|c3 rest]]]] eqn:Hdrop; try done.
  intros Hcall.
  destruct (_ || _) eqn:Hletters; [done|]. rewrite !orb_false_iff in Hletters.
  destruct Hletters as [[[H0 H1] H2] H3].
  assert (Hw : upper [c0; c1; c2; c3] = upper (str "CALL")).
  { by destruct (either_letter _ _ _ H0), (either_letter _ _ _ H1), (either_letter _ _ _ H2),
      (either_letter _ _ _ H3); subst. }
  assert (Hrest : starts_no_identifier rest).
  { intros c Hc. destruct rest as [|next rest]; [done|]. injection Hc as ->. by apply spacing_no_identifier. }
  assert (Hspells : spells ["CALL"%string] rest sql).
  { rewrite <- (take_drop n sql), Hdrop. change (c0 :: c1 :: c2 :: c3 :: rest) with ([c0; c1; c2; c3] ++ rest).
    apply spells_cons; [done|done|done|constructor]. }
  apply token_equals_spec. rewrite <- identifier_token_at_upper.
  apply (spells_identifiers ["CALL"%string] rest sql 0); [done|done|by vm_compute; lia|done].
Qed.

(** ** Queries *)

Section queries.
  Context `{Server, Build, Zend}.

Lemma wp_call_mylite {A} (m : cmd world A) (Q : outcome A -> mysqli -> Prop) p :
  wp m (fun o w => Q o (set_mysqli_library w p)) (mysqli_library p) -> wp (call_mylite m) Q p.
Proof. unfold wp, call_mylite, zoom. by destruct (m (mysqli_library p)). Qed.

Lemma update_link_spec l f x (Q : outcome unit -> mysqli -> Prop) p :
  mysqli_links p !! l = Some x ->
  Q (Ret tt) (set_mysqli_links (<[l := f x]> (mysqli_links p)) p) -> wp (update_link l f) Q p.
Proof. intros Hx HQ. unfold update_link, get_link, put_link. apply wp_bind. by eapply wp_deref; [exact Hx|]. Qed.

Lemma read_link_handle_spec {A} (f : option mylite_db -> A) d z (Q : outcome A -> mysqli -> Prop) p :
  dbs (mysqli_library p) !! d = Some z -> Q (Ret (f (Some z))) p -> wp (read_link_handle f d) Q p.
Proof.
  intros Hz HQ. unfold read_link_handle. apply wp_bind, wp_call_mylite. unfold get_db.
  eapply wp_deref; [exact Hz|]. apply bind_post_ret, wp_ret. by destruct p.
Qed.

(** After a success the link has no error, and the counts of the handle. *)
Definition link_synced (d : nat) (x x' : php_mylite_mysqli_link) (z : mylite_db) : Prop :=
  x' = with_link_props (fun _ => mkProperties 0 [] 0 [] (changes z) (to_string (last_insert_id z))) x.

Lemma sync_spec {B} l d x z (k : cmd mysqli B) (Q : outcome B -> mysqli -> Prop) p :
  mysqli_links p !! l = Some x -> link_db x = Some d -> dbs (mysqli_library p) !! d = Some z ->
  (forall x', link_synced d x x' z -> wp k Q (set_mysqli_links (<[l := x']> (mysqli_links p)) p)) ->
  wp (php_mylite_mysqli_clear_error l ;; php_mylite_mysqli_sync_status l ;; k) Q p.
Proof.
  intros Hx Hd Hz HQ. unfold php_mylite_mysqli_clear_error, php_mylite_mysqli_sync_status. apply wp_bind.
  eapply update_link_spec; [exact Hx|]. apply bind_post_ret, wp_bind, wp_bind. unfold get_link.
  eapply wp_deref; [apply lookup_insert_eq|]. apply bind_post_ret. cbn [link_db with_link_props]. rewrite Hd.
  do 2 (apply wp_bind; eapply read_link_handle_spec; [exact Hz|]; apply bind_post_ret).
  eapply update_link_spec; [apply lookup_insert_eq|]. apply bind_post_ret. simpl. rewrite insert_insert_eq. by apply HQ.
Qed.

Definition mysqli_arrays (fields : list MYSQL_FIELD) (rows : list (list column_value)) : list zend_array :=
  map (fun vs => assoc_row fields (zip_with mysqli_value fields vs)) rows.

(** The result object of a query, and its link. *)
Definition queried (l d : nat) (x : php_mylite_mysqli_link) (fields : list MYSQL_FIELD)
    (rows : list (list column_value)) (r : nat) (p : mysqli) : Prop :=
  mysqli_results p !! r =
    Some (mkMysqliResult (mysqli_arrays fields rows) (map field_of fields) 0 0 (Z.of_nat (length rows))) /\
  (exists x' z, mysqli_links p !! l = Some x' /\ link_synced d x x' z) /\ connection d ready (mysqli_library p).

Lemma query_impl_spec l d x sql id fields data rows texts srv srv' fs fs' p :
  mysqli_links p !! l = Some x -> link_db x = Some d ->
  at_rest d (mysqli_library p) -> preparable d sql (Z.of_nat (length sql)) (mysqli_library p) ->
  prepares d sql id 0 fields srv fs (mysqli_library p) -> columns_known fields ->
  executes d id [] data srv' fs' (set_server_state srv fs (mysqli_library p)) ->
  d_fields_list data = Some fields -> d_rows data = packets rows -> rows_sent fields rows texts ->
  session_killed d srv' = false ->
  wp (php_mylite_mysqli_query_impl (length rows) l sql) (fun o p' => exists r,
    o = Ret (Some (Some r)) /\ queried l d x fields rows r p') p.
Proof.
  intros Hx Hdb Hrest Hsql Hprep Hknown Hexec Hdata Hpackets Hrows Hlive.
  unfold php_mylite_mysqli_query_impl, with_db, call_mylite. apply wp_bind. eapply wp_deref; [exact Hx|].
  apply bind_post_ret. rewrite Hdb. destruct (php_mylite_mysqli_is_call_query sql) eqn:Hc.
  { apply call_query_is_call in Hc. destruct Hsql as (_ & _ & _ & Hcall).
    rewrite Nat2Z.id, firstn_all in Hcall. congruence. }
  eapply (query_rows_spec mysqli_library set_mysqli_library ltac:(done) ltac:(done)
    php_mylite_mysqli_column_to_zval mysqli_value); try done; [by intros; eapply mysqli_column_spec|].
  intros s w2 Hended Hsrv2. apply wp_bind, wp_part.
  eapply wp_mono; [eapply ended_count_reads; [exact Hended|apply Hknown|apply Hknown]|].
  intros o w [-> ->]. apply bind_post_ret, wp_bind, wp_part.
  eapply wp_mono; [eapply fields_from_stmt_spec; [exact Hended|apply Hknown|apply Hknown]|].
  intros o w [-> ->]. apply bind_post_ret, wp_bind, wp_part.
  eapply wp_mono; [eapply finalize_stepped_spec; [apply Hended|by rewrite <- Hsrv2 in Hlive]|].
  intros o w4 (-> & _ & Hready & [z4 Hz4]). apply bind_post_ret.
  change (negb (MYLITE_DONE =? MYLITE_DONE) || negb (MYLITE_OK =? MYLITE_OK)) with false. cbn iota.
  eapply sync_spec; [exact Hx|exact Hdb|exact Hz4|]. intros x' Hx'.
  destruct fields as [|field fields]; [by destruct Hknown|].
  rewrite (proj2 (Z.eqb_neq _ _)) by (simpl; lia). cbn iota. apply wp_bind.
  unfold php_mylite_mysqli_result_from_rows, php_mylite_mysqli_result_create, put_mysqli_result, wp. simpl.
  eexists. split; [done|]. split; [|split].
  - simpl. rewrite lookup_insert_eq. unfold mysqli_arrays. by rewrite length_map.
  - exists x', z4. split; [apply lookup_insert_eq|done].
  - done.
Qed.

(** [while ($row = $result->fetch_array($mode))] *)
Fixpoint fetch_array_loop (fuel : nat) (r : nat) (mode : Z) : cmd mysqli (list zend_array) :=
  match fuel with
  | O => out_of_fuel
  | S fuel =>
      row ← mylite_mysqli_fetch_array r mode;
      match row with
      | Some row => rows ← fetch_array_loop fuel r mode; mret (row :: rows)
      | None => mret []
      end
  end.
Definition mysqli_query_loop (fuel : nat) (l : nat) (sql : bytes) (mode : Z) : cmd mysqli (option (list zend_array)) :=
  result ← php_mylite_mysqli_query_impl fuel l sql;
  match result with
  | Some (Some r) => rows ← fetch_array_loop (S fuel) r mode; mret (Some rows)
  | Some None => mret (Some [])
  | None => mret None
  end.

Lemma fetch_array_next r row before rows fields n k mode (Q : outcome (option zend_array) -> mysqli -> Prop) p :
  mysqli_results p !! r = Some (mkMysqliResult (before ++ row :: rows) fields (length before) n k) ->
  Q (Ret (Some (php_mylite_mysqli_fetch_array_row fields row mode))) (set_mysqli_results
    (<[r := mkMysqliResult ((before ++ [row]) ++ rows) fields (length (before ++ [row])) n k]> (mysqli_results p)) p) ->
  wp (mylite_mysqli_fetch_array r mode) Q p.
Proof.
  intros Hr HQ. unfold mylite_mysqli_fetch_array, next_row, get_mysqli_result, put_mysqli_result.
  apply wp_bind, wp_bind. eapply wp_deref; [exact Hr|]. apply bind_post_ret. cbn [r_rows r_position].
  rewrite lookup_app_r, Nat.sub_diag by lia. cbn [lookup list_lookup]. wp_auto.
  by rewrite <- app_assoc, length_app, Nat.add_1_r in HQ.
Qed.

Lemma fetch_array_loop_spec r fields mode n k rows : forall before p,
  mysqli_results p !! r = Some (mkMysqliResult (before ++ rows) fields (length before) n k) ->
  wp (fetch_array_loop (S (length rows)) r mode) (fun o p' =>
    o = Ret (map (fun row => php_mylite_mysqli_fetch_array_row fields row mode) rows) /\
    mysqli_library p' = mysqli_library p /\ mysqli_links p' = mysqli_links p) p.
Proof.
  induction rows as [|row rows IH]; intros before p Hr; cbn [length].
  - cbn [fetch_array_loop]. unfold mylite_mysqli_fetch_array, next_row, get_mysqli_result. apply wp_bind, wp_bind, wp_bind.
    eapply wp_deref; [exact Hr|]. apply bind_post_ret. cbn [r_rows r_position].
    rewrite app_nil_r, lookup_ge_None_2 by lia. apply wp_ret, bind_post_ret, wp_ret. by apply bind_post_ret, wp_ret.
  - remember (S (length rows)) as fuel. cbn [fetch_array_loop]. apply wp_bind. eapply fetch_array_next; [exact Hr|].
    apply bind_post_ret, wp_bind. eapply wp_mono; [apply (IH (before ++ [row])); apply lookup_insert_eq|].
    intros o p' (-> & Hl & Hc). by apply bind_post_ret, wp_ret.
Qed.
End queries.


(** ** On the scripted server *)

Definition mysqli_plain_sql : bytes := str "SELECT a, b FROM t".
Definition mysqli_link_3 : php_mylite_mysqli_link :=
  mkLink (Some 0%nat) (str "utf8mb4") php_mylite_mysqli_declare_link_properties 1.
Definition mysqli_of (w : world) : mysqli := mkMysqli w {[ 3%nat := mysqli_link_3 ]} ∅ ∅ 0 [] ∅.
Definition mysqli_world : mysqli :=
  mysqli_of (opened_world (after_open [prepared 7 0 example_fields; answer [example_data]])).


(** ** What gets lost *)

Definition named_field (name : bytes) : MYSQL_FIELD :=
  mkField (Some name) (Some name) (Some (str "t")) (Some (str "t")) 1 0 0 0 MYSQL_TYPE_VAR_STRING.

(** A column whose name is a number, as that of [SELECT 1], is stored under an
    integer key, and no mode of [fetch_array] finds it: the columns after it
    move up. *)
Lemma numeric_column_lost :
  let fields := [named_field (str "1"); named_field (str "b")] in
  let row := assoc_row fields [IS_STRING (str "1"); IS_STRING (str "x")] in
  php_mylite_mysqli_fetch_array_row (map field_of fields) row 1 = [(KeyLong 0, IS_STRING (str "x"))] /\
  php_mylite_mysqli_fetch_array_row (map field_of fields) row 2 = [(KeyString (str "b"), IS_STRING (str "x"))] /\
  php_mylite_mysqli_fetch_object_row row = [(str "b", IS_STRING (str "x"))].
Proof. by vm_compute. Qed.

(** Of columns with the same name only the last is stored, and [MYSQLI_NUM]
    gives its value for each of them. *)
Lemma duplicate_columns_merged :
  let fields := [named_field (str "id"); named_field (str "id")] in
  let row := assoc_row fields [IS_STRING (str "1"); IS_STRING (str "2")] in
  php_mylite_mysqli_fetch_array_row (map field_of fields) row 1 =
    [(KeyLong 0, IS_STRING (str "2")); (KeyLong 1, IS_STRING (str "2"))].
Proof. by vm_compute. Qed.

(** A [CALL] whose result set has no rows gives [true] instead of a result,
    because only the rows tell the callback of the columns. *)
Lemma empty_call_gives_true :
  fst (php_mylite_mysqli_query_impl 0 3 (str "CALL p()")
    (mysqli_of (opened_world (after_open [answer [rows_data example_fields []]])))) = Ret (Some None).
Proof. by vm_compute. Qed.

(** A link that is connected again while a statement of it is alive forgets its
    handle without closing it: when all objects are gone, the handle, the
    server and the lock of the database are still there. *)
Definition reconnecting : cmd mysqli (option nat) :=
  connected ← mylite_mysqli_global_connect (str "/srv/db") None None;
  match connected with
  | None => mret None
  | Some l =>
      prepared ← php_mylite_mysqli_prepare_impl l mysqli_plain_sql;
      match prepared with
      | None => mret None
      | Some q =>
          reconnected ← mylite_mysqli_real_connect l (Some (str "/srv/db")) None None;
          php_mylite_mysqli_stmt_free q ;;
          release_link l ;;
          mret (if (reconnected : bool) then Some l else None)
      end
  end.
Lemma reconnect_leaks_handle :
  let '(o, p) := reconnecting (mkMysqli (initial_world (after_open [prepared 7 0 example_fields])) ∅ ∅ ∅ 0 [] ∅) in
  (exists l, o = Ret (Some l)) /\ mysqli_links p = ∅ /\ mysqli_stmts p = ∅ /\
  stdpp.base.size (dbs (mysqli_library p)) = 1%nat /\ mysql_client_init (mysqli_library p) = true.
Proof. vm_compute. split_and!; try done. by eexists. Qed.

(** A statement of one parameter that is executed, then executed again with one
    value too many, and its result. *)
Definition executing_twice : cmd mysqli (option (bool * bool * option nat * Z * bytes)) :=
  prepared ← php_mylite_mysqli_prepare_impl 3 (str "SELECT a, b FROM t WHERE c = ?");
  match prepared with
  | None => mret None
  | Some q =>
      mylite_mysqli_stmt_bind_param q (str "i") [BoundReference 0] ;;
      first ← php_mylite_mysqli_stmt_execute_impl 2 q;
      mylite_mysqli_stmt_bind_param q (str "ii") [BoundReference 0; BoundCopy (IS_LONG 2)] ;;
      second ← php_mylite_mysqli_stmt_execute_impl 2 q;
      result ← mylite_mysqli_stmt_get_result q;
      errno ← mylite_mysqli_errno 3;
      error ← mylite_mysqli_error 3;
      mret (Some (first, second, result, errno, error))
  end.

(** The second execution fails before it reaches the server; the link tells of
    no error, and the statement gives the rows of the first execution as its
    result. *)
Lemma failed_execution_keeps_rows :
  let '(o, p) := executing_twice (set_variables {[ 0%nat := IS_LONG 1 ]}
    (mysqli_of (opened_world (after_open [prepared 7 1 example_fields; ok_answer; answer [example_data]; ok_answer])))) in
  exists r, o = Ret (Some (true, false, Some r, 0, [])) /\
    r_num_rows <$> mysqli_results p !! r = Some 2.
Proof. vm_compute. eexists. by split. Qed.
