(* ===== verification/Threads.v ===== *)
(** * Threads

    Different handles may be used on different threads
    ([docs/api/libmylite-c-api.md]); they meet in [g_runtime], which
    [mylite_open] and [mylite_close] change under its mutex.  A [pc] is a
    position inside one of these two calls, between two pieces of work of
    which each is a critical section of the mutex or touches, besides the
    server and the file system, only the handle of the call.  [pc_step] does
    the next piece, and [thread_step] lets any thread do one.  The other calls
    stay away from [g_runtime] and are single steps. *)

From S2P Require Import Prelude Api Effects System Directory World Runtime Exec Statement Library Calls.
From stdpp Require Import options.

Local Open Scope Z_scope.

(** The handle is the first argument where there is one already. *)
Inductive pc : Type :=
| OpenBegin (path : option bytes) (out_db : bool) (flags : Z) (config : option mylite_open_config)
| OpenValidate (d : nat) (database_path : bytes) (flags : Z) (config : option mylite_open_config)
| OpenPrepare (d : nat) (database_path : bytes) (flags : Z) (config : option mylite_open_config)
| OpenStart (d : nat) (config : option mylite_open_config)
| OpenConnect (d : nat)
| OpenRelease (d : nat) (result : Z)
| OpenDelete (d : nat) (result : Z)
| OpenUnwind (d : nat) (e : exn)
| CloseBegin (d : nat)
| CloseRelease (d : nat)
| CloseDelete (d : nat)
| Finished (result : Z) (out_db : option nat).

Section threads.
  Context `{Server, Build}.

(** The [catch] clauses of [open_impl]. *)
Definition caught (e : exn) : cmd world pc :=
  match e with
  | bad_alloc => mret (Finished MYLITE_NOMEM None)
  | filesystem_error => mret (Finished MYLITE_IOERR None)
  | length_error => throw e
  end.

(** An exception out of the [try] block first destroys the
    [std::unique_ptr]. *)
Definition unwinding (d : nat) (m : cmd world pc) : cmd world pc :=
  try_catch m (fun e => mret (OpenUnwind d e)).

(** The next piece of [open_impl], from [OpenBegin] to [OpenUnwind], or of
    [mylite_close] on a handle, from [CloseBegin] to [CloseDelete]. *)
Definition pc_step (p : pc) : cmd world pc :=
  match p with
  | OpenBegin path out_db flags config =>
      let validation_result := validate_open_args path out_db flags config in
      if negb (validation_result =? MYLITE_OK) then mret (Finished validation_result None)
      else
        try_catch
          (d ← new_mylite_db;
           unwinding d
             (database_path ← on_system (normalize_database_path (default [] path));
              update_db d (fun x => with_database_path x database_path) ;;
              mret (OpenValidate d database_path flags config)))
          caught
  | OpenValidate d database_path flags config =>
      unwinding d
        (runtime_path_result ← validate_runtime_database_path d;
         if negb (runtime_path_result =? MYLITE_OK) then mret (OpenDelete d runtime_path_result)
         else mret (OpenPrepare d database_path flags config))
  | OpenPrepare d database_path flags config =>
      unwinding d
        (directory_result ← on_system (prepare_database_directory database_path flags);
         if negb (directory_result =? MYLITE_OK) then mret (OpenDelete d directory_result)
         else mret (OpenStart d config))
  | OpenStart d config =>
      unwinding d
        (runtime_result ← start_runtime d config;
         if negb (runtime_result =? MYLITE_OK) then mret (OpenDelete d runtime_result)
         else mret (OpenConnect d))
  | OpenConnect d =>
      unwinding d
        (connect_result ← connect_runtime d;
         if negb (connect_result =? MYLITE_OK) then
           close_connection d ;; mret (OpenRelease d connect_result)
         else
           system_tables_result ← ensure_core_system_tables d;
           if negb (system_tables_result =? MYLITE_OK) then
             close_connection d ;; mret (OpenRelease d system_tables_result)
           else mret (Finished MYLITE_OK (Some d)))
  | OpenRelease d result => unwinding d (release_runtime ;; mret (OpenDelete d result))
  | OpenDelete d result => delete_mylite_db d ;; mret (Finished result None)
  | OpenUnwind d e => delete_mylite_db d ;; caught e
  | CloseBegin d =>
      x ← get_db d;
      if 0 <? active_statement_count x then
        update_db d (fun x => set_error x MYLITE_BUSY "database has active statements") ;;
        mret (Finished MYLITE_BUSY None)
      else close_connection d ;; mret (CloseRelease d)
  | CloseRelease d => release_runtime ;; mret (CloseDelete d)
  | CloseDelete d => delete_mylite_db d ;; mret (Finished MYLITE_OK None)
  | Finished _ _ => mret p
  end.

(** The steps a call has left, at most. *)
Definition pc_rank (p : pc) : nat :=
  match p with
  | OpenBegin _ _ _ _ => 7
  | OpenValidate _ _ _ _ => 6
  | OpenPrepare _ _ _ _ => 5
  | OpenStart _ _ => 4
  | OpenConnect _ | CloseBegin _ => 3
  | OpenRelease _ _ | CloseRelease _ => 2
  | OpenDelete _ _ | OpenUnwind _ _ | CloseDelete _ => 1
  | Finished _ _ => 0
  end.

(** One thread alone. *)
Fixpoint run_pc (fuel : nat) (p : pc) : cmd world (Z * option nat) :=
  match p with
  | Finished result out_db => mret (result, out_db)
  | _ =>
      match fuel with
      | O => out_of_fuel
      | S fuel => p' ← pc_step p; run_pc fuel p'
      end
  end.

#[global] Arguments run_pc : simpl never.

(** The handle a call works on; it has one from [new mylite_db()] on. *)
Definition pc_handle (p : pc) : option nat :=
  match p with
  | OpenBegin _ _ _ _ => None
  | OpenValidate d _ _ _ | OpenPrepare d _ _ _ | OpenStart d _ | OpenConnect d
  | OpenRelease d _ | OpenDelete d _ | OpenUnwind d _
  | CloseBegin d | CloseRelease d | CloseDelete d => Some d
  | Finished _ out_db => out_db
  end.

(** The handle, if [ref_count] does not count it: before [start_runtime] and
    after [release_runtime]. *)
Definition pc_uncounted (p : pc) : option nat :=
  match p with
  | OpenValidate d _ _ _ | OpenPrepare d _ _ _ | OpenStart d _
  | OpenDelete d _ | OpenUnwind d _ | CloseDelete d => Some d
  | _ => None
  end.

(** ** Pools *)

(** The calls to [mylite_open] and [mylite_close] that threads are in. *)
#[local] Abbreviation threads := (gmap nat pc).

Definition in_use (pool : threads) (d : nat) : Prop :=
  exists i p, pool !! i = Some p /\ pc_handle p = Some d.

(** A thread begins a call, does the next piece of it, or returns; a handle is
    not used by two threads at a time.  [ref_count] is a 32-bit counter, which
    the handles in memory do not exhaust. *)
Inductive thread_step : threads * world -> threads * world -> Prop :=
| step_open i path out_db flags config pool w :
    pool !! i = None ->
    thread_step (pool, w) (<[i := OpenBegin path out_db flags config]> pool, w)
| step_close i d pool w :
    pool !! i = None -> d ∈ dom (dbs w) -> ~ in_use pool d ->
    thread_step (pool, w) (<[i := CloseBegin d]> pool, w)
| step_advance i p p' pool w w' :
    pool !! i = Some p -> Z.of_nat (stdpp.base.size (dbs w)) < 2 ^ 32 - 1 ->
    pc_step p w = (Ret p', w') ->
    thread_step (pool, w) (<[i := p']> pool, w')
| step_return i result out_db pool w :
    pool !! i = Some (Finished result out_db) -> thread_step (pool, w) (delete i pool, w)
| step_call i c pool w :
    pool !! i = None -> opens_or_closes c = false -> call_ok c w ->
    (forall d, call_handle c w = Some d -> ~ in_use pool d) ->
    fst (run_call c w) <> Undefined ->
    thread_step (pool, w) (pool, snd (run_call c w)).
End threads.
