(* ===== verification/ThreadsFacts.v ===== *)
(** * Threads that open and close handles

    A call that runs alone is [mylite_open] or [mylite_close]; calls that run
    in several threads keep [threads_ok], whatever the schedule. *)

From S2P Require Import Prelude Api Effects System Directory World ClientQuery ClientStmt Frames.
From S2P Require Import Rules ClientFacts Runtime Exec Statement Scripted RuntimeFacts RuntimeTheorems.
From S2P Require Import Library ExecFacts Termination StatementFacts Lifetime Calls Threads.
From stdpp Require Import options.
Set Default Proof Using "Type*".

Local Open Scope Z_scope.

(** ** One thread *)

Section alone.
  Context `{Server, Build}.

Lemma run_pc_S fuel p w :
  (0 < pc_rank p)%nat -> run_pc (S fuel) p w = (p' ← pc_step p; run_pc fuel p') w.
Proof. destruct p; simpl; [done..|lia]. Qed.
Lemma run_pc_finished fuel result out_db w : run_pc fuel (Finished result out_db) w = (Ret (result, out_db), w).
Proof. by destruct fuel. Qed.

(** What [open_impl] makes of the rest [m] of its [try] block. *)
Definition try_block (d : nat) (m : cmd world Z) : cmd world (Z * option nat) :=
  try_catch
    (result ← try_catch m (fun e => delete_mylite_db d ;; throw e);
     if negb (result =? MYLITE_OK) then delete_mylite_db d ;; mret (result, None)
     else mret (MYLITE_OK, Some d))
    (fun e =>
       match e with
       | bad_alloc => mret (MYLITE_NOMEM, None)
       | filesystem_error => mret (MYLITE_IOERR, None)
       | length_error => throw e
       end).

Lemma run_delete fuel d result w :
  (result =? MYLITE_OK) = false -> run_pc (S fuel) (OpenDelete d result) w = try_block d (mret result) w.
Proof.
  intros Hr. rewrite run_pc_S by (simpl; lia). unfold try_block, try_catch, mbind, cmd_bind. simpl.
  rewrite Hr. simpl. by rewrite run_pc_finished.
Qed.
Lemma run_unwind fuel d e w : run_pc (S fuel) (OpenUnwind d e) w = try_block d (throw e) w.
Proof.
  rewrite run_pc_S by (simpl; lia). unfold try_block, try_catch, mbind, cmd_bind. simpl.
  destruct e; simpl; by rewrite ?run_pc_finished.
Qed.

(** A piece of work inside the [try] block. *)
Lemma run_piece {A} fuel d (m : cmd world A) (k : A -> cmd world pc) (rest : A -> cmd world Z) w :
  (forall a w, (p ← unwinding d (k a); run_pc (S fuel) p) w = try_block d (rest a) w) ->
  (p ← unwinding d (a ← m; k a); run_pc (S fuel) p) w = try_block d (a ← m; rest a) w.
Proof.
  intros Hk. unfold unwinding, try_block, try_catch, mbind, cmd_bind in *. simpl.
  destruct (m w) as [[a|e| |] w1]; simpl; [apply (Hk a)| |done..].
  rewrite run_unwind. unfold try_block, try_catch, mbind, cmd_bind. simpl. by destruct e.
Qed.

Lemma run_release fuel d result w :
  (result =? MYLITE_OK) = false ->
  run_pc (S (S fuel)) (OpenRelease d result) w = try_block d (release_runtime ;; mret result) w.
Proof.
  intros Hr. rewrite run_pc_S by (simpl; lia). apply run_piece. intros [] w1. by apply run_delete.
Qed.

(** A result that ends the open, or leads to the next piece. *)
Lemma run_result fuel d result p q (stop continue : cmd world Z) w :
  ((result =? MYLITE_OK) = false -> run_pc fuel p w = try_block d stop w) ->
  run_pc fuel q w = try_block d continue w ->
  (p' ← unwinding d (if negb (result =? MYLITE_OK) then mret p else mret q); run_pc fuel p') w =
  try_block d (if negb (result =? MYLITE_OK) then stop else continue) w.
Proof. destruct (result =? MYLITE_OK); simpl; auto. Qed.

Lemma run_connect fuel d w :
  run_pc (S (S (S fuel))) (OpenConnect d) w =
  try_block d
    (connect_result ← connect_runtime d;
     if negb (connect_result =? MYLITE_OK) then
       close_connection d ;; release_runtime ;; mret connect_result
     else
       system_tables_result ← ensure_core_system_tables d;
       if negb (system_tables_result =? MYLITE_OK) then
         close_connection d ;; release_runtime ;; mret system_tables_result
       else mret MYLITE_OK) w.
Proof.
  assert (Hgive_up : forall result w, (result =? MYLITE_OK) = false ->
    (p ← unwinding d (close_connection d ;; mret (OpenRelease d result)); run_pc (S (S fuel)) p) w =
    try_block d (close_connection d ;; release_runtime ;; mret result) w).
  { intros result w1 Hr. apply run_piece. intros [] w2. by apply run_release. }
  rewrite run_pc_S by (simpl; lia). apply run_piece. intros r1 w1.
  destruct (r1 =? MYLITE_OK) eqn:Hr1; simpl; [|by apply Hgive_up].
  apply run_piece. intros r2 w2. destruct (r2 =? MYLITE_OK) eqn:Hr2; simpl; [|by apply Hgive_up].
  apply run_pc_finished.
Qed.

(** The first piece makes the handle of the [try] block. *)
Lemma run_new fuel (m : cmd world nat) (k : nat -> cmd world pc) (rest : nat -> cmd world Z) w :
  (forall d w, (p ← unwinding d (k d); run_pc fuel p) w = try_block d (rest d) w) ->
  (p ← try_catch (d ← m; unwinding d (k d)) caught; run_pc fuel p) w =
  try_catch
    (d ← m;
     result ← try_catch (rest d) (fun e => delete_mylite_db d ;; throw e);
     if negb (result =? MYLITE_OK) then delete_mylite_db d ;; mret (result, None)
     else mret (MYLITE_OK, Some d))
    (fun e =>
       match e with
       | bad_alloc => mret (MYLITE_NOMEM, None)
       | filesystem_error => mret (MYLITE_IOERR, None)
       | length_error => throw e
       end) w.
Proof.
  intros Hk. unfold unwinding, try_block, try_catch, mbind, cmd_bind in *. simpl.
  destruct (m w) as [[d|[]| |] w1]; simpl; rewrite ?run_pc_finished; [|done..].
  etransitivity; [|apply (Hk d w1)]. by destruct (k d w1) as [[p|e| |] w2].
Qed.

Lemma run_pc_open path out_db flags config w :
  run_pc 7 (OpenBegin path out_db flags config) w = mylite_open path out_db flags config w.
Proof.
  rewrite run_pc_S by (simpl; lia). unfold mylite_open, open_impl. cbn [pc_step].
  destruct (validate_open_args path out_db flags config =? MYLITE_OK); simpl; [|apply run_pc_finished].
  apply run_new. intros d w1. unfold open_db. apply run_piece. intros database_path w2.
  apply run_piece. intros [] w3. unfold open_path.
  etransitivity; [apply (run_pc_S 5); simpl; lia|]. apply run_piece. intros r1 w4.
  apply run_result; [by apply run_delete|].
  etransitivity; [apply (run_pc_S 4); simpl; lia|]. apply run_piece. intros r2 w5.
  apply run_result; [by apply run_delete|].
  etransitivity; [apply (run_pc_S 3); simpl; lia|]. apply run_piece. intros r3 w6.
  apply run_result; [by apply run_delete|]. apply run_connect.
Qed.

Lemma run_pc_close d w :
  run_pc 3 (CloseBegin d) w = (result ← mylite_close (Some d); mret (result, None)) w.
Proof.
  rewrite run_pc_S by (simpl; lia). cbn [pc_step]. unfold mylite_close, mbind, cmd_bind.
  destruct (get_db d w) as [[x|e| |] w1]; simpl; try done.
  destruct (0 <? active_statement_count x).
  { destruct (update_db d _ w1) as [[[]|e| |] w2]; simpl; rewrite ?run_pc_finished; done. }
  destruct (close_connection d w1) as [[[]|e| |] w2]; simpl; try done.
  rewrite run_pc_S by (simpl; lia). cbn [pc_step]. unfold mbind, cmd_bind.
  by destruct (release_runtime w2) as [[[]|e| |] w3].
Qed.
End alone.

(** ** The invariant of a pool *)

#[local] Abbreviation threads := (gmap nat pc).

Section pool.
  Context `{Server, Build}.
  Context (base : gmap Z open_file).

(** The handles that no call has given back or not taken yet. *)
Definition uncounted (pool : threads) : gset nat :=
  list_to_set (omap (fun entry => pc_uncounted entry.2) (map_to_list pool)).

Definition counted (pool : threads) (w : world) : gmap nat mylite_db :=
  filter (fun entry => entry.1 ∉ uncounted pool) (dbs w).

Lemma elem_of_uncounted pool d :
  d ∈ uncounted pool <-> exists i p, pool !! i = Some p /\ pc_uncounted p = Some d.
Proof.
  unfold uncounted. rewrite elem_of_list_to_set, list_elem_of_omap. split.
  - intros ([i p] & Hi%elem_of_map_to_list & Hd). eauto.
  - intros (i & p & Hi & Hd). exists (i, p). split; [by apply elem_of_map_to_list|done].
Qed.

(** A handle without statements. *)
Definition unused (d : nat) (path : bytes) (w : world) : Prop :=
  exists x, dbs w !! d = Some x /\ handle_core x = (path, 0).

(** What holds of the handle of a call at its position. *)
Definition pc_ok (p : pc) (w : world) : Prop :=
  match p with
  | OpenBegin _ _ _ _ => True
  | OpenValidate d path _ _ | OpenPrepare d path _ _ => unused d path w
  | OpenStart d _ | OpenConnect d | CloseRelease d | CloseDelete d => exists path, unused d path w
  | OpenRelease d result | OpenDelete d result => result <> MYLITE_OK /\ exists path, unused d path w
  | OpenUnwind d e => e = filesystem_error /\ exists path, unused d path w
  | CloseBegin d => is_Some (dbs w !! d)
  | Finished result None => True
  | Finished result (Some d) => result = MYLITE_OK /\ exists path, unused d path w
  end.

Record threads_ok (pool : threads) (w : world) : Prop := mkThreadsOk {
  to_runtime : runtime_ok base (counted pool w) w;
  to_tables : tables_ok w;
  to_calls : forall i p, pool !! i = Some p -> pc_ok p w;
  to_apart : forall i j p q d, pool !! i = Some p -> pool !! j = Some q ->
    pc_handle p = Some d -> pc_handle q = Some d -> i = j;
}.

Lemma pc_uncounted_handle p d : pc_uncounted p = Some d -> pc_handle p = Some d.
Proof. by destruct p. Qed.

Lemma pc_ok_handle p d w : pc_ok p w -> pc_handle p = Some d -> is_Some (dbs w !! d).
Proof.
  destruct p as [| | | | | | | | | | |r [h|]]; simpl; intros Hok [= <-]; try done;
    [destruct Hok as (x & Hx & _)|destruct Hok as (x & Hx & _)|destruct Hok as (path & x & Hx & _)
    |destruct Hok as (path & x & Hx & _)|destruct Hok as (_ & path & x & Hx & _)
    |destruct Hok as (_ & path & x & Hx & _)|destruct Hok as (_ & path & x & Hx & _)
    |destruct Hok as (path & x & Hx & _)|destruct Hok as (path & x & Hx & _)
    |destruct Hok as (_ & path & x & Hx & _)]; by exists x.
Qed.

(** Only the core of the handle matters. *)
Lemma pc_ok_same p w w' :
  (forall d, pc_handle p = Some d -> handle_core <$> dbs w' !! d = handle_core <$> dbs w !! d) ->
  pc_ok p w -> pc_ok p w'.
Proof.
  intros Hsame.
  assert (Hunused : forall d path, pc_handle p = Some d -> unused d path w -> unused d path w').
  { intros d path Hd (x & Hx & Hcore). specialize (Hsame d Hd). rewrite Hx in Hsame.
    destruct (dbs w' !! d) as [x'|] eqn:Hx'; [|done]. exists x'. split; [done|]. simpl in Hsame. congruence. }
  assert (Hpath : forall d, pc_handle p = Some d -> (exists path, unused d path w) -> exists path, unused d path w').
  { intros d Hd [path Hp]. exists path. by apply Hunused. }
  destruct p as [| | | | | | | |d| | |r [h|]]; simpl in *; intros Hp;
    first [done|by apply Hunused|by apply Hpath|destruct Hp; split; [done|by apply Hpath]|idtac].
  specialize (Hsame d eq_refl). destruct Hp as [x Hx]. rewrite Hx in Hsame. by destruct (dbs w' !! d).
Qed.

(** ** One step of a call *)

(** The counted handles after a step to [p'] that works on [d]. *)
Definition recount (p' : pc) (d : nat) (handles : gmap nat mylite_db) (w' : world) : gmap nat mylite_db :=
  partial_alter (fun _ => if decide (pc_uncounted p' = Some d) then None else dbs w' !! d) d handles.

(** What a step of a call at [p] does: it works on one handle, its own or a
    new one, keeps the handles and statements in order and the runtime in step
    with the handles that are counted. *)
Record advanced (p : pc) (handles : gmap nat mylite_db) (w : world) (d : nat) (p' : pc) (w' : world)
    : Prop := mkAdvanced {
  adv_tables : tables_ok w';
  adv_ok : pc_ok p' w';
  adv_rank : (pc_rank p' < pc_rank p)%nat;
  adv_handle : pc_handle p = Some d \/ (pc_handle p = None /\ dbs w !! d = None);
  adv_handle' : forall h, pc_handle p' = Some h -> h = d;
  adv_others : delete d (dbs w') = delete d (dbs w);
  adv_runtime : runtime_ok base (recount p' d handles w') w';
}.

Lemma handle_cores d w w' : handle_frame d w w' -> handle_core <$> dbs w' = handle_core <$> dbs w.
Proof.
  intros Hf. apply map_eq. intros e. rewrite !lookup_fmap. destruct (decide (e = d)) as [->|Hne].
  - apply (hf_core _ _ _ Hf).
  - by rewrite <- (lookup_delete_ne (dbs w') d), <- (lookup_delete_ne (dbs w) d), (hf_others _ _ _ Hf) by done.
Qed.

Lemma handle_library_frame d w w' : handle_frame d w w' -> outer_frame w w' -> library_frame w w'.
Proof.
  intros Hf [Hn Hs Hc]. pose proof Hf as []. split; try done; [by eapply handle_cores|by apply owners_frame].
Qed.

Lemma unused_frame d path w w' : handle_frame d w w' -> unused d path w -> unused d path w'.
Proof.
  intros Hf (x & Hx & Hcore). pose proof (hf_core _ _ _ Hf) as Hc. rewrite Hx in Hc.
  destruct (dbs w' !! d) as [x'|] eqn:Hx'; [|done]. exists x'. split; [done|]. simpl in Hc. congruence.
Qed.

(** A step that leaves the runtime and the counted handles alone. *)
Lemma advanced_local p p' d handles w w' :
  handle_frame d w w' -> outer_frame w w' -> tables_ok w -> runtime_ok base handles w ->
  handles !! d = (if decide (pc_uncounted p = Some d) then None else dbs w !! d) ->
  pc_handle p = Some d -> (forall h, pc_handle p' = Some h -> h = d) ->
  pc_uncounted p' = pc_uncounted p -> (pc_rank p' < pc_rank p)%nat -> pc_ok p' w' ->
  advanced p handles w d p' w'.
Proof.
  intros Hf Ho Htab Hrt Hd Hp Hp' Hsame Hrank Hok.
  split; auto; [by eapply tables_ok_frame, Htab; eapply handle_library_frame|apply Hf|].
  eapply runtime_ok_paths, runtime_ok_frame, Hrt; [|done]. unfold recount. rewrite Hsame.
  apply map_eq. intros e. rewrite !lookup_fmap. destruct (decide (e = d)) as [->|Hne].
  - rewrite lookup_partial_alter_eq, Hd. case_decide; [done|].
    pose proof (hf_core _ _ _ Hf) as Hc. destruct (dbs w' !! d), (dbs w !! d); simpl in *; try done.
    unfold handle_core in Hc. congruence.
  - by rewrite lookup_partial_alter_ne by done.
Qed.

Definition advances (p : pc) (handles : gmap nat mylite_db) (w : world) (o : outcome pc) (w' : world) : Prop :=
  exists p' d, o = Ret p' /\ advanced p handles w d p' w'.

Lemma wp_unwinding d (m : cmd world pc) (Q : outcome pc -> world -> Prop) w :
  wp m (fun o w' => match o with Throw e => Q (Ret (OpenUnwind d e)) w' | _ => Q o w' end) w ->
  wp (unwinding d m) Q w.
Proof.
  intros Hm. apply wp_try_catch. eapply wp_mono; [exact Hm|]. by intros [a|e| |] w'.
Qed.

Lemma unwinding_advances d m p handles w w1 :
  wp m (advances p handles w) w1 -> wp (unwinding d m) (advances p handles w) w1.
Proof.
  intros Hm. apply wp_unwinding. eapply wp_mono; [exact Hm|]. by intros o w' (p' & d' & -> & Ha); exists p', d'.
Qed.

Lemma handle_frame_outer {A} d (m : cmd world A) (P : outcome A -> world -> Prop) w :
  steps (handle_frame d) m -> steps outer_frame m -> wp m P w ->
  wp m (fun o w' => P o w' /\ handle_frame d w w' /\ outer_frame w w') w.
Proof. intros Hf Ho HP. apply wp_and; [done|]. by apply (wp_and _ (fun _ => _)); [apply Hf|apply Ho]. Qed.

Lemma step_validate d path flags config handles w :
  tables_ok w -> pc_ok (OpenValidate d path flags config) w -> handles !! d = None ->
  runtime_ok base handles w ->
  wp (pc_step (OpenValidate d path flags config))
    (advances (OpenValidate d path flags config) handles w) w.
Proof.
  intros Htab Hok Hnew Hrt. pose proof Hok as (x & Hx & Hcore). apply wp_unwinding.
  unfold validate_runtime_database_path. wp_auto. destruct (_ && _); simpl; wp_auto.
  - set (w' := set_dbs _ _).
    assert (Hf : handle_frame d w w') by (by eapply (handle_frame_set_db d x)).
    eexists _, d. split; [done|]. apply advanced_local; try done; [by rewrite decide_True|simpl; congruence|simpl; lia|].
    split; [done|]. exists path. by eapply unused_frame.
  - eexists _, d. split; [done|].
    apply advanced_local; try done; [by rewrite decide_True|simpl; congruence|simpl; lia].
Qed.

Lemma step_prepare d path flags config handles w :
  tables_ok w -> pc_ok (OpenPrepare d path flags config) w -> handles !! d = None ->
  runtime_ok base handles w ->
  wp (pc_step (OpenPrepare d path flags config))
    (advances (OpenPrepare d path flags config) handles w) w.
Proof.
  intros Htab Hok Hnew Hrt. apply wp_unwinding, wp_bind.
  apply (wp_system true); [auto with steps|auto with ends|].
  assert (Hadv : forall p' t, descriptors t = descriptors (sys w) ->
    pc_handle p' = Some d -> pc_uncounted p' = Some d -> (pc_rank p' < 5)%nat ->
    pc_ok p' (set_sys t w) ->
    advances (OpenPrepare d path flags config) handles w (Ret p') (set_sys t w)).
  { intros p' t Ht Hp' Hu Hrank Hp. exists p', d. split; [done|].
    apply advanced_local; try done; [by rewrite decide_True|congruence]. }
  intros [r|[]| |] t Ho Ht; try done.
  - apply bind_post_ret. destruct (Z.eqb_spec r MYLITE_OK); simpl; apply wp_ret, Hadv; simpl; try done; try lia.
    + by exists path.
    + split; [done|]. by exists path.
  - apply Hadv; simpl; try done; [lia|]. split; [done|]. by exists path.
Qed.

(** The handles and statements after a step that keeps the cores. *)
Lemma tables_ok_outer w w' :
  handle_core <$> dbs w' = handle_core <$> dbs w -> outer_frame w w' -> tables_ok w -> tables_ok w'.
Proof. intros Hcores [Hn Hs Hc]. apply tables_ok_same; [done|by apply owners_frame|done..]. Qed.

Lemma recount_out p' d handles w' :
  pc_uncounted p' = Some d -> handles !! d = None -> recount p' d handles w' = handles.
Proof.
  intros Hu Hd. unfold recount. rewrite decide_True by done. apply map_eq. intros e.
  destruct (decide (e = d)) as [->|Hne]; [by rewrite lookup_partial_alter_eq|].
  by rewrite lookup_partial_alter_ne.
Qed.
Lemma recount_in p' d x handles w' :
  pc_uncounted p' = None -> dbs w' !! d = Some x -> recount p' d handles w' = <[d := x]> handles.
Proof.
  intros Hu Hx. unfold recount. rewrite Hu, decide_False, Hx by done. done.
Qed.

Lemma step_start d config handles w :
  tables_ok w -> pc_ok (OpenStart d config) w -> handles !! d = None ->
  runtime_ok base handles w -> Z.of_nat (stdpp.base.size handles) < 2 ^ 32 - 1 ->
  wp (pc_step (OpenStart d config)) (advances (OpenStart d config) handles w) w.
Proof.
  intros Htab (path & x & Hx & Hcore) Hnew Hrt Hsize. apply wp_unwinding, wp_bind.
  eapply wp_mono; [apply wp_outer; [apply outer_start_runtime|by eapply start_runtime_started]|].
  intros o w' [(Hothers & x' & Hx' & Hcore' & Ho) Houter].
  assert (Hcores : handle_core <$> dbs w' = handle_core <$> dbs w).
  { apply map_eq. intros e. rewrite !lookup_fmap. destruct (decide (e = d)) as [->|Hne].
    - rewrite Hx, Hx'. simpl. congruence.
    - by rewrite <- (lookup_delete_ne (dbs w') d), <- (lookup_delete_ne (dbs w) d), Hothers by done. }
  assert (Hadv : forall p', pc_handle p' = Some d -> (pc_rank p' < 4)%nat -> pc_ok p' w' ->
    runtime_ok base (recount p' d handles w') w' -> advances (OpenStart d config) handles w (Ret p') w').
  { intros p' Hp' Hrank Hok Hrun. exists p', d. split; [done|].
    split; try done; [by eapply tables_ok_outer|by left|congruence]. }
  destruct o as [r|[]| |]; try done; simpl.
  - destruct (Z.eqb_spec r MYLITE_OK); simpl; apply Hadv; simpl; try done; try lia; try by rewrite recount_out.
    + exists path. by exists x'.
    + by rewrite (recount_in _ d x').
    + split; [done|]. exists path. by exists x'.
  - apply Hadv; simpl; try done; [lia| |by rewrite recount_out]. split; [done|]. exists path. by exists x'.
Qed.

Lemma step_connect `{!Compliant} d handles w :
  tables_ok w -> pc_ok (OpenConnect d) w -> handles !! d = dbs w !! d -> runtime_ok base handles w ->
  wp (pc_step (OpenConnect d)) (advances (OpenConnect d) handles w) w.
Proof.
  intros Htab [path Hok] Hd Hrt. pose proof Hok as (x & Hx & Hcore).
  assert (Hinit : mysql_client_init w = true).
  { apply (ro_used _ _ _ Hrt). intros ->. by rewrite Hx, lookup_empty in Hd. }
  assert (Hadv : forall p' w', handle_frame d w w' -> outer_frame w w' -> pc_handle p' = Some d ->
    pc_uncounted p' = None -> (pc_rank p' < 3)%nat -> pc_ok p' w' ->
    advances (OpenConnect d) handles w (Ret p') w').
  { intros p' w' Hf Ho Hp' Hu Hrank Hp. exists p', d. split; [done|].
    apply advanced_local; try done. congruence. }
  assert (Hgive_up : forall r w', r <> MYLITE_OK -> handle_frame d w w' -> outer_frame w w' ->
    connection d (fun _ => True) w' ->
    wp (close_connection d ;; mret (OpenRelease d r)) (advances (OpenConnect d) handles w) w').
  { intros r w' Hr Hf Ho Hc. pose proof (unused_frame _ _ _ _ Hf Hok) as (x' & Hx' & _). apply wp_bind.
    eapply wp_mono; [apply handle_frame_outer; [auto with steps|apply outer_close_connection|];
      apply close_connection_spec; [by exists x'|done]|].
    intros o w2 ([-> _] & Hf2 & Ho2). apply bind_post_ret, wp_ret.
    apply Hadv; simpl; try done; try lia; [by transitivity w'..|].
    split; [done|]. exists path. eapply unused_frame, Hok. by transitivity w'. }
  apply unwinding_advances, wp_bind.
  eapply wp_mono; [apply handle_frame_outer; [auto with steps|apply outer_connect_runtime|];
    by apply connect_runtime_spec; [exists x|]|].
  intros o w1 ((r & -> & Hready & Hc & Hd1) & Hf1 & Ho1). apply bind_post_ret.
  destruct (Z.eqb_spec r MYLITE_OK) as [Hr|Hr]; simpl; [|by apply Hgive_up]. apply wp_bind.
  eapply wp_mono; [apply handle_frame_outer; [auto with steps|apply outer_ensure_core_system_tables|];
    apply ensure_core_system_tables_spec; auto|].
  intros o w2 ((r2 & -> & _ & Hc2 & _) & Hf2 & Ho2). apply bind_post_ret.
  assert (Hf : handle_frame d w w2) by (by transitivity w1).
  assert (Ho : outer_frame w w2) by (by transitivity w1).
  destruct (Z.eqb_spec r2 MYLITE_OK) as [Hr2|Hr2]; simpl; [|by apply Hgive_up].
  apply wp_ret, Hadv; simpl; try done; [lia|]. split; [done|]. exists path. by eapply unused_frame.
Qed.

(** Giving the runtime back, in a failed open or in a close. *)
Lemma release_advances d handles w p p' :
  tables_ok w -> (exists path, unused d path w) -> handles !! d = dbs w !! d -> runtime_ok base handles w ->
  pc_handle p = Some d -> pc_handle p' = Some d -> pc_uncounted p' = Some d ->
  (pc_rank p' < pc_rank p)%nat -> (forall w', (exists path, unused d path w') -> pc_ok p' w') ->
  wp (release_runtime ;; mret p') (advances p handles w) w.
Proof.
  intros Htab (path & x & Hx & Hcore) Hd Hrt Hp Hp' Hu Hrank Hok. rewrite Hx in Hd.
  rewrite <- (insert_delete_id handles d x) in Hrt by done. apply wp_bind.
  eapply wp_mono; [apply wp_outer; [apply outer_release_runtime|];
    apply (release_runtime_spec base d x (delete d handles)); [apply lookup_delete_eq|done]|].
  intros o w' [(-> & Hdbs & Hrt' & _) Houter]. apply bind_post_ret, wp_ret. exists p', d. split; [done|].
  split; try done.
  - eapply tables_ok_outer, Htab; [by rewrite Hdbs|done].
  - apply Hok. exists path, x. by rewrite Hdbs.
  - by left.
  - congruence.
  - by rewrite Hdbs.
  - replace (recount p' d handles w') with (delete d handles); [done|]. unfold recount.
    by rewrite decide_True.
Qed.

(** Deleting the handle. *)
Lemma delete_advances d handles w p p' (k : cmd world pc) :
  tables_ok w -> (exists path, unused d path w) -> handles !! d = None -> runtime_ok base handles w ->
  (forall w', k w' = (Ret p', w')) -> pc_handle p = Some d -> pc_handle p' = None -> pc_uncounted p' = None ->
  (pc_rank p' < pc_rank p)%nat -> (forall w', pc_ok p' w') ->
  wp (delete_mylite_db d ;; k) (advances p handles w) w.
Proof.
  intros Htab (path & x & Hx & Hcore) Hd Hrt Hk Hp Hp' Hu Hrank Hok. unfold delete_mylite_db. wp_auto.
  unfold wp. rewrite Hk. exists p', d. split; [done|]. injection Hcore as _ Hactive.
  assert (Hnone : owned_by d w = ∅).
  { apply map_size_empty_inv. pose proof (tab_counts _ Htab d x Hx). lia. }
  split; simpl; try done.
  - eapply (tables_ok_closed d w); simpl; try done. rewrite dom_delete_L. set_solver.
  - by left.
  - congruence.
  - by rewrite delete_delete_eq.
  - replace (recount _ _ _ _) with handles; [by eapply runtime_ok_same, Hrt|].
    unfold recount. simpl. rewrite Hu, decide_False, lookup_delete_eq by done.
    change (handles = delete d handles). by rewrite delete_id.
Qed.

Lemma fresh_handle w : tables_ok w -> dbs w !! next_address w = None.
Proof.
  intros Htab. apply not_elem_of_dom. intros Hd. destruct (tab_handles _ Htab _ Hd). lia.
Qed.

Lemma recount_absent p' d handles w' :
  dbs w' !! d = None -> handles !! d = None -> recount p' d handles w' = handles.
Proof.
  intros Hx Hd. unfold recount. rewrite Hx. transitivity (delete d handles); [|by apply delete_id].
  by destruct (decide _).
Qed.

(** The first step makes a handle that is not counted yet, or fails. *)
Lemma begin_failed path out_db flags config result handles w l :
  tables_ok w -> handles ⊆ dbs w -> runtime_ok base handles w ->
  advances (OpenBegin path out_db flags config) handles w (Ret (Finished result None)) (set_allocations l w).
Proof.
  intros Htab Hsub Hrt. exists (Finished result None), (next_address w). split; [done|].
  pose proof (fresh_handle w Htab) as Hnew. split; simpl; try done.
  - by eapply tables_ok_same, Htab.
  - lia.
  - by right.
  - rewrite recount_absent; [by eapply runtime_ok_same, Hrt|done|]. by eapply lookup_weaken_None.
Qed.

Lemma begin_made p' path out_db flags config handles w w' d x :
  tables_ok w -> handles ⊆ dbs w -> runtime_ok base handles w -> d = next_address w ->
  dbs w' = <[d := x]> (dbs w) -> active_statement_count x = 0 -> runtime_frame (set_dbs (dbs w') w) w' ->
  outer_frame w w' -> (d < next_address w')%nat -> d ∈ dom (connections w') ->
  pc_handle p' = Some d -> pc_uncounted p' = Some d -> (pc_rank p' < 7)%nat -> pc_ok p' w' ->
  advances (OpenBegin path out_db flags config) handles w (Ret p') w'.
Proof.
  intros Htab Hsub Hrt -> Hdbs Hactive Hf [Hn Hs Hc] Hd Hconn Hp' Hu Hrank Hok.
  exists p', (next_address w). split; [done|]. pose proof (fresh_handle w Htab) as Hnew.
  assert (Hnone : handles !! next_address w = None) by (by eapply lookup_weaken_None).
  split; try done.
  - eapply (tables_ok_opened (next_address w) x w); try done. by apply owners_frame.
  - by right.
  - congruence.
  - by rewrite Hdbs, delete_insert_eq.
  - rewrite recount_out by done. destruct Hf. by eapply runtime_ok_same, Hrt.
Qed.

Lemma step_begin path out_db flags config handles w :
  tables_ok w -> handles ⊆ dbs w -> runtime_ok base handles w ->
  wp (pc_step (OpenBegin path out_db flags config))
    (advances (OpenBegin path out_db flags config) handles w) w.
Proof.
  intros Htab Hsub Hrt. simpl.
  destruct (validate_open_args path out_db flags config =? MYLITE_OK); simpl.
  2: { apply wp_ret. pose proof (begin_failed path out_db flags config
         (validate_open_args path out_db flags config) handles w (allocations w) Htab Hsub Hrt) as Hb.
       by destruct w. }
  apply wp_try_catch, wp_bind. unfold new_mylite_db. apply wp_bind, wp_allocate. intros [] l.
  2: { simpl. apply wp_ret. by apply begin_failed. }
  wp_auto. simpl. wp_auto. simpl. set (d := next_address w). set (w1 := set_connections _ _).
  assert (Hw1 : outer_frame w w1) by (split; simpl; [lia|done|rewrite dom_insert; set_solver]).
  apply wp_unwinding, wp_bind. apply (wp_system true); [auto with steps|auto with ends|].
  intros [database_path|[]| |] t Ho Ht; try done.
  - apply bind_post_ret.
    assert (Hx : dbs (set_sys t w1) !! d = Some (new_db [])) by apply lookup_insert_eq.
    wp_auto. eapply (begin_made _ path out_db flags config handles w _ d); simpl;
      first [done|lia|apply insert_insert_eq|by destruct Hw1; split|rewrite dom_insert; set_solver|idtac].
    eexists. split; [apply lookup_insert_eq|done].
  - eapply (begin_made _ path out_db flags config handles w _ d); simpl;
      first [done|lia|by destruct Hw1; split|rewrite dom_insert; set_solver|idtac].
    split; [done|]. exists []. eexists. split; [apply lookup_insert_eq|done].
Qed.

Lemma step_close_begin d handles w :
  tables_ok w -> pc_ok (CloseBegin d) w -> handles !! d = dbs w !! d -> runtime_ok base handles w ->
  wp (pc_step (CloseBegin d)) (advances (CloseBegin d) handles w) w.
Proof.
  intros Htab [x Hx] Hd Hrt. simpl. apply wp_bind, (wp_get_db _ x _ _ Hx), bind_post_ret.
  destruct (0 <? active_statement_count x) eqn:Hactive; [wp_auto|].
  - eexists _, d. split; [done|]. apply advanced_local; simpl; try done; [|lia].
    by eapply (handle_frame_set_db d x).
  - assert (Hunused : unused d (database_path x) w).
    { exists x. split; [done|]. unfold handle_core. apply Z.ltb_ge in Hactive.
      pose proof (tab_counts _ Htab d x Hx). f_equal. lia. }
    destruct (tab_handles _ Htab d) as [_ [c Hc]%elem_of_dom]; [by apply elem_of_dom|].
    apply wp_bind. eapply wp_mono; [apply handle_frame_outer; [auto with steps|apply outer_close_connection|];
      apply close_connection_spec; [by exists x|by exists c]|].
    intros o w' ([-> _] & Hf & Ho). apply bind_post_ret, wp_ret. eexists _, d. split; [done|].
    apply advanced_local; simpl; try done; [congruence|lia|]. exists (database_path x). by eapply unused_frame.
Qed.

Lemma pc_step_spec `{!Compliant} p handles w :
  tables_ok w -> pc_ok p w -> handles ⊆ dbs w ->
  (forall d, pc_handle p = Some d ->
     handles !! d = if decide (pc_uncounted p = Some d) then None else dbs w !! d) ->
  runtime_ok base handles w -> Z.of_nat (stdpp.base.size handles) < 2 ^ 32 - 1 -> (0 < pc_rank p)%nat ->
  wp (pc_step p) (advances p handles w) w.
Proof.
  intros Htab Hok Hsub Hhandle Hrt Hsize Hrank.
  destruct p as [| | | | |d r|d r|d e|d|d|d|]; simpl in Hhandle;
    try specialize (Hhandle _ eq_refl); try rewrite decide_True in Hhandle by done.
  - by apply step_begin.
  - by apply step_validate.
  - by apply step_prepare.
  - by apply step_start.
  - by apply step_connect.
  - destruct Hok as [Hr Hok]. apply unwinding_advances, (release_advances d); simpl; auto.
  - destruct Hok as [Hr Hok]. eapply delete_advances; simpl; auto; done.
  - destruct Hok as [-> Hok]. eapply delete_advances; simpl; auto; done.
  - by apply step_close_begin.
  - apply (release_advances d); simpl; auto.
  - eapply delete_advances; simpl; auto; done.
  - simpl in Hrank. lia.
Qed.

(** ** Steps of a pool *)

Lemma counted_lookup pool w d :
  counted pool w !! d = if decide (d ∈ uncounted pool) then None else dbs w !! d.
Proof.
  unfold counted. rewrite map_lookup_filter. destruct (dbs w !! d); simpl; repeat case_decide; simpl; try done.
  all: by case_guard.
Qed.

Lemma counted_sub pool w : counted pool w ⊆ dbs w.
Proof. apply map_filter_subseteq. Qed.

Lemma counted_own pool w i p d :
  threads_ok pool w -> pool !! i = Some p -> pc_handle p = Some d ->
  counted pool w !! d = if decide (pc_uncounted p = Some d) then None else dbs w !! d.
Proof.
  intros Hok Hi Hd. rewrite counted_lookup. apply decide_ext. rewrite elem_of_uncounted. split.
  - intros (j & q & Hj & Hq).
    apply pc_uncounted_handle in Hq as Hq'. assert (j = i) as -> by (by eapply (to_apart _ _ Hok)). congruence.
  - eauto.
Qed.

(** No other call has the handle of a step. *)
Lemma advanced_apart pool w i p d p' w' j q :
  threads_ok pool w -> pool !! i = Some p -> advanced p (counted pool w) w d p' w' ->
  pool !! j = Some q -> pc_handle q = Some d -> j = i.
Proof.
  intros Hok Hi Ha Hj Hq. destruct (adv_handle _ _ _ _ _ _ Ha) as [Hp|[_ Hnone]].
  - by eapply (to_apart _ _ Hok).
  - destruct (pc_ok_handle q d w) as [x Hx]; [by eapply (to_calls _ _ Hok)|done|]. congruence.
Qed.

Lemma counted_advanced pool w i p d p' w' :
  threads_ok pool w -> pool !! i = Some p -> advanced p (counted pool w) w d p' w' ->
  counted (<[i := p']> pool) w' = recount p' d (counted pool w) w'.
Proof.
  intros Hok Hi Ha. apply map_eq. intros e. rewrite counted_lookup. unfold recount.
  destruct (decide (e = d)) as [->|Hne].
  - rewrite lookup_partial_alter_eq. apply decide_ext. rewrite elem_of_uncounted. split.
    + intros (j & q & [[<- <-]|[Hji Hj]]%lookup_insert_Some & Hq); [done|].
      apply pc_uncounted_handle in Hq. by destruct Hji; symmetry; eapply advanced_apart.
    + intros Hu. exists i, p'. by rewrite lookup_insert_eq.
  - rewrite lookup_partial_alter_ne, counted_lookup by done.
    assert (Hdbs : dbs w' !! e = dbs w !! e).
    { by rewrite <- (lookup_delete_ne (dbs w') d), <- (lookup_delete_ne (dbs w) d),
        (adv_others _ _ _ _ _ _ Ha) by done. }
    rewrite Hdbs. apply decide_ext. rewrite !elem_of_uncounted. split.
    + intros (j & q & [[<- <-]|[Hji Hj]]%lookup_insert_Some & Hq); [|by exists j, q].
      apply pc_uncounted_handle, (adv_handle' _ _ _ _ _ _ Ha) in Hq. done.
    + intros (j & q & Hj & Hq). exists j, q. split; [|done]. rewrite lookup_insert_ne; [done|].
      intros <-. assert (q = p) as -> by congruence. apply pc_uncounted_handle in Hq.
      destruct (adv_handle _ _ _ _ _ _ Ha) as [Hp|[Hp _]]; congruence.
Qed.

Lemma threads_ok_advance pool w i p d p' w' :
  threads_ok pool w -> pool !! i = Some p -> advanced p (counted pool w) w d p' w' ->
  threads_ok (<[i := p']> pool) w'.
Proof.
  intros Hok Hi Ha. split.
  - rewrite (counted_advanced pool w i p d) by done. apply Ha.
  - apply Ha.
  - intros j q [[<- <-]|[Hji Hj]]%lookup_insert_Some; [apply Ha|].
    eapply pc_ok_same, (to_calls _ _ Hok); [|done]. intros e He.
    assert (Hne : e <> d) by (intros ->; by destruct Hji; symmetry; eapply advanced_apart).
    by rewrite <- (lookup_delete_ne (dbs w') d), <- (lookup_delete_ne (dbs w) d),
      (adv_others _ _ _ _ _ _ Ha) by done.
  - assert (Hother : forall j q e, j <> i -> pool !! j = Some q -> pc_handle p' = Some e ->
      pc_handle q = Some e -> False).
    { intros j q e Hji Hj He%(adv_handle' _ _ _ _ _ _ Ha) Hq. subst e. by destruct Hji; eapply advanced_apart. }
    intros j1 j2 q1 q2 e [[<- <-]|[H1 Hj1]]%lookup_insert_Some [[<- <-]|[H2 Hj2]]%lookup_insert_Some Hq1 Hq2;
      [done|by destruct (Hother j2 q2 e)|by destruct (Hother j1 q1 e)|by eapply (to_apart _ _ Hok)].
Qed.

(** A call begins or returns. *)
Lemma counted_begin pool w i p :
  pool !! i = None -> pc_uncounted p = None -> counted (<[i := p]> pool) w = counted pool w.
Proof.
  intros Hi Hp. apply map_eq. intros e. rewrite !counted_lookup. apply decide_ext.
  rewrite !elem_of_uncounted. split.
  - intros (j & q & [[<- <-]|[Hji Hj]]%lookup_insert_Some & Hq); [congruence|by exists j, q].
  - intros (j & q & Hj & Hq). exists j, q. split; [|done]. rewrite lookup_insert_ne; [done|congruence].
Qed.

Lemma threads_ok_begin pool w i p :
  threads_ok pool w -> pool !! i = None -> pc_uncounted p = None -> pc_ok p w ->
  (forall d, pc_handle p = Some d -> ~ in_use pool d) -> threads_ok (<[i := p]> pool) w.
Proof.
  intros [Hrt Htab Hcalls Hapart] Hi Hu Hp Hfree. split; [by rewrite counted_begin|done|..].
  - intros j q [[<- <-]|[_ Hj]]%lookup_insert_Some; [done|by eapply Hcalls].
  - assert (Hother : forall j q e, pool !! j = Some q -> pc_handle p = Some e -> pc_handle q = Some e -> False).
    { intros j q e Hj He Hq. apply (Hfree e He). by exists j, q. }
    intros j1 j2 q1 q2 e [[<- <-]|[_ Hj1]]%lookup_insert_Some [[<- <-]|[_ Hj2]]%lookup_insert_Some Hq1 Hq2;
      [done|by destruct (Hother j2 q2 e)|by destruct (Hother j1 q1 e)|by eapply Hapart].
Qed.

Lemma threads_ok_return pool w i result out_db :
  threads_ok pool w -> pool !! i = Some (Finished result out_db) -> threads_ok (delete i pool) w.
Proof.
  intros [Hrt Htab Hcalls Hapart] Hi.
  assert (Hc : counted (delete i pool) w = counted pool w).
  { rewrite <- (insert_delete_id pool i _ Hi) at 2. by rewrite counted_begin by (done || apply lookup_delete_eq). }
  split; [by rewrite Hc|done|..].
  - intros j q [_ Hj]%lookup_delete_Some. by eapply Hcalls.
  - intros j1 j2 q1 q2 e [_ Hj1]%lookup_delete_Some [_ Hj2]%lookup_delete_Some. by eapply Hapart.
Qed.

(** Another call, on a handle that no thread opens or closes. *)
Lemma core_kept e w w' :
  tables_ok w -> tables_kept w w' -> owned_by e w' = owned_by e w ->
  handle_core <$> dbs w' !! e = handle_core <$> dbs w !! e.
Proof.
  intros Htab [Htab' Hf] Howned. pose proof (rf_paths _ _ Hf) as Hpaths.
  apply (f_equal (.!! e)) in Hpaths. rewrite !lookup_fmap in Hpaths.
  destruct (dbs w !! e) as [x|] eqn:Hx, (dbs w' !! e) as [x'|] eqn:Hx'; try done. simpl in *. f_equal.
  unfold handle_core. f_equal; [congruence|].
  by rewrite (tab_counts _ Htab e x Hx), (tab_counts _ Htab' e x' Hx'), Howned.
Qed.

Lemma counted_paths pool w :
  database_path <$> counted pool w = filter (fun entry => entry.1 ∉ uncounted pool) (database_path <$> dbs w).
Proof.
  apply map_eq. intros e. rewrite lookup_fmap, counted_lookup, map_lookup_filter, lookup_fmap.
  destruct (dbs w !! e); simpl; repeat case_decide; simpl; try done; by case_guard.
Qed.

Lemma threads_ok_kept pool w w' :
  threads_ok pool w -> tables_kept w w' ->
  (forall e, in_use pool e -> owned_by e w' = owned_by e w) -> threads_ok pool w'.
Proof.
  intros [Hrt Htab Hcalls Hapart] Hkept Howned. pose proof Hkept as [Htab' [Hp Hr Hi Hd]]. split; try done.
  - eapply runtime_ok_paths; [by rewrite !counted_paths, Hp|]. by eapply runtime_ok_same, Hrt.
  - intros i p Hpool. eapply pc_ok_same, Hcalls; [|done]. intros e He. apply core_kept; [done..|].
    apply Howned. by exists i, p.
Qed.

Lemma counted_size pool w :
  Z.of_nat (stdpp.base.size (dbs w)) < 2 ^ 32 - 1 ->
  Z.of_nat (stdpp.base.size (counted pool w)) < 2 ^ 32 - 1.
Proof. pose proof (map_subseteq_size _ _ (counted_sub pool w)). lia. Qed.

(** A thread that is inside a call can go on, whatever the others do. *)
Lemma threads_ok_progress `{!Compliant} pool w i p :
  threads_ok pool w -> Z.of_nat (stdpp.base.size (dbs w)) < 2 ^ 32 - 1 ->
  pool !! i = Some p -> (0 < pc_rank p)%nat ->
  wp (pc_step p) (advances p (counted pool w) w) w.
Proof.
  intros Hok Hsize Hi Hrank. apply pc_step_spec; try done.
  - apply (to_tables _ _ Hok).
  - by eapply (to_calls _ _ Hok).
  - apply counted_sub.
  - intros d Hd. by eapply counted_own.
  - apply (to_runtime _ _ Hok).
  - by apply counted_size.
Qed.

Lemma threads_ok_step `{!Compliant} pool w pool' w' :
  threads_ok pool w -> thread_step (pool, w) (pool', w') -> threads_ok pool' w'.
Proof.
  intros Hok Hstep. inversion Hstep as [i path out_db flags config ? ? Hi|i d ? ? Hi Hd Hfree
    |i p p' ? ? ? Hi Hsize Hp|i result out_db ? ? Hi|i c ? ? Hi Hother Hc Hfree Hdef]; subst.
  - by apply threads_ok_begin.
  - apply threads_ok_begin; try done; [by apply elem_of_dom|by intros e [= <-]].
  - destruct (decide (0 < pc_rank p)%nat) as [Hrank|Hrank].
    + pose proof (threads_ok_progress _ _ i p Hok Hsize Hi Hrank) as Hadv. unfold wp in Hadv.
      rewrite Hp in Hadv. destruct Hadv as (p2 & d & [= <-] & Hadv). by eapply threads_ok_advance.
    + destruct p; simpl in Hrank; try lia. injection Hp as <- <-. by rewrite insert_id.
  - by eapply threads_ok_return.
  - destruct (call_kept c w) as [Hkept Howned]; [done|apply Hok|done..|].
    eapply threads_ok_kept; [done..|]. intros e He. apply Howned. intros Hce. by apply (Hfree e).
Qed.

Lemma threads_ok_steps `{!Compliant} (s s' : threads * world) :
  rtc thread_step s s' -> threads_ok s.1 s.2 -> threads_ok s'.1 s'.2.
Proof.
  induction 1 as [|[pool1 w1] [pool2 w2] s3 Hstep _ IH]; [done|]. intros Hok. apply IH. by eapply threads_ok_step.
Qed.

(** Without calls under way this is the invariant of the library. *)
Lemma counted_idle w : counted ∅ w = dbs w.
Proof.
  apply map_eq. intros d. rewrite counted_lookup, decide_False; [done|].
  rewrite elem_of_uncounted. by intros (i & p & Hi & _).
Qed.
Lemma threads_ok_idle w : threads_ok ∅ w <-> library_ok base w.
Proof.
  split.
  - intros [Hrt Htab _ _]. rewrite counted_idle in Hrt. by split.
  - intros [Hrt Htab]. split; [by rewrite counted_idle|done|..]; by intros i.
Qed.

(** The server runs while a call has a handle that is counted. *)
Lemma threads_ok_running pool w i p d :
  threads_ok pool w -> pool !! i = Some p -> pc_handle p = Some d -> pc_uncounted p = None ->
  mysql_client_init w = true /\ lock_ok base (descriptors (sys w)) (runtime w).
Proof.
  intros Hok Hi Hd Hu. apply (ro_used _ _ _ (to_runtime _ _ Hok)). intros Hempty.
  pose proof (counted_own pool w i p d Hok Hi Hd) as Hc. rewrite Hempty, Hu, lookup_empty in Hc. simpl in Hc.
  destruct (pc_ok_handle p d w) as [x Hx]; [by eapply (to_calls _ _ Hok)|done|congruence].
Qed.
End pool.

(** ** Schedules *)

Section schedules.
  Context `{Server, Build}.

(** Lets the threads of a schedule do one piece of work each. *)
Fixpoint advance_all (schedule : list nat) (state : gmap nat pc * world) : option (gmap nat pc * world) :=
  match schedule with
  | [] => Some state
  | i :: schedule =>
      p ← state.1 !! i;
      if negb (Z.of_nat (stdpp.base.size (dbs state.2)) <? 2 ^ 32 - 1) then None
      else match pc_step p state.2 with
           | (Ret p', w') => advance_all schedule (<[i := p']> state.1, w')
           | _ => None
           end
  end.

Lemma advance_all_steps schedule state state' :
  advance_all schedule state = Some state' -> rtc thread_step state state'.
Proof.
  revert state. induction schedule as [|i schedule IH]; intros [pool w]; simpl; [by intros [= ->]|].
  destruct (pool !! i) as [p|] eqn:Hi; [|done]. simpl.
  destruct (Z.ltb_spec (Z.of_nat (stdpp.base.size (dbs w))) (2 ^ 32 - 1)); simpl; [|done].
  destruct (pc_step p w) as [[p'| | |] w'] eqn:Hp; try done. intros Hrest.
  eapply rtc_l; [by eapply step_advance|by apply IH].
Qed.
End schedules.

(** C4: threads that open and close handles in any interleaving, and use the
    others in between, one thread per handle, stay in step: [ref_count] is the
    number of the handles that were opened or are between [start_runtime] and
    [release_runtime], all of them have the path of the runtime, and while
    there is one the server runs and the lock is held, so that no thread ever
    connects to or queries a server that another thread has stopped; without
    one, [g_runtime] and the descriptors are as at the start.  A thread inside
    a call can always go on, to a position with fewer steps left, whatever the
    others have done, so no call waits for another for ever; and when no call
    is under way, the invariant of the sequential library holds. *)
Theorem threads_share_runtime `{Server, !Compliant, Build} (base : gmap Z open_file) (w0 w : world)
    (pool : gmap nat pc) (Hok : library_ok base w0) (Hrun : rtc thread_step (∅, w0) (pool, w)) :
  threads_ok base pool w /\
  (forall i p d, pool !! i = Some p -> pc_handle p = Some d -> pc_uncounted p = None ->
     mysql_client_init w = true /\ lock_ok base (descriptors (sys w)) (runtime w)) /\
  (Z.of_nat (stdpp.base.size (dbs w)) < 2 ^ 32 - 1 ->
   forall i p, pool !! i = Some p -> (0 < pc_rank p)%nat ->
     exists p' w', pc_step p w = (Ret p', w') /\ (pc_rank p' < pc_rank p)%nat) /\
  (pool = ∅ -> library_ok base w).
Proof.
  assert (Hthreads : threads_ok base pool w).
  { by apply (threads_ok_steps base (∅, w0) (pool, w)), threads_ok_idle. }
  split; [done|]. split; [|split].
  - intros i p d. by apply threads_ok_running.
  - intros Hsize i p Hi Hrank. pose proof (threads_ok_progress base pool w i p Hthreads Hsize Hi Hrank) as Hadv.
    unfold wp in Hadv. destruct (pc_step p w) as [o w']. simpl in Hadv. destruct Hadv as (p' & d & -> & Hadv).
    exists p', w'. split; [done|apply Hadv].
  - intros ->. by apply threads_ok_idle.
Qed.


(** Two threads that open the same database at the same time: both look at the
    directory before either starts the server. *)
Definition two_opens : gmap nat pc * world :=
  ({[ 0%nat := OpenBegin (Some (str "/srv/db")) true open_flags None;
      1%nat := OpenBegin (Some (str "/srv/db")) true open_flags None ]}, initial_world []).
Definition two_opens_schedule : list nat := [0; 1; 1; 0; 1; 0; 0; 1; 1; 0]%nat.
Definition two_opened : gmap nat pc * world := default two_opens (advance_all two_opens_schedule two_opens).

Lemma two_opens_reached : rtc thread_step (∅, initial_world []) two_opened.
Proof.
  eapply rtc_l; [apply (step_open 1 (Some (str "/srv/db")) true open_flags None); done|].
  eapply rtc_l; [apply (step_open 0 (Some (str "/srv/db")) true open_flags None); done|].
  apply (advance_all_steps two_opens_schedule). unfold two_opened.
  assert (Hrun : match advance_all two_opens_schedule two_opens with Some _ => true | None => false end = true)
    by (vm_compute; reflexivity).
  change (advance_all two_opens_schedule two_opens =
    Some (default two_opens (advance_all two_opens_schedule two_opens))).
  by destruct (advance_all two_opens_schedule two_opens).
Qed.
Lemma threads_share_runtime_witness :
  let '(pool, w) := two_opened in
  threads_ok ∅ pool w /\ ref_count (runtime w) = 2 /\
  pool = {[ 0%nat := Finished MYLITE_OK (Some 0%nat); 1%nat := Finished MYLITE_OK (Some 1%nat) ]}.
Proof.
  pose proof two_opens_reached as Hrun.
  assert (Hv : ref_count (runtime two_opened.2) = 2 /\
    two_opened.1 = {[ 0%nat := Finished MYLITE_OK (Some 0%nat); 1%nat := Finished MYLITE_OK (Some 1%nat) ]})
    by (by vm_compute).
  destruct two_opened as [pool w]. destruct Hv as [Hcount Hpool].
  split; [|split; [exact Hcount|exact Hpool]].
  apply (threads_share_runtime ∅ (initial_world []) w pool); [apply initial_library_ok|exact Hrun].
Defined.

(** An exception that leaves the [try] block of [open_impl] after
    [start_runtime] - say [std::bad_alloc] from the [std::string] of a message -
    deletes the handle, but nothing calls [release_runtime]: the count stays. *)
Lemma unwinding_keeps_count `{Server, Build} (d : nat) (w : world) :
  let '(o, w') := pc_step (OpenUnwind d bad_alloc) w in
  o = Ret (Finished MYLITE_NOMEM None) /\ dbs w' = delete d (dbs w) /\ runtime w' = runtime w.
Proof. done. Qed.

(** ** Directories are prepared without a lock *)

(** The end of [prepare_database_directory], for a path that does not exist. *)
Definition create_database_directory (database_path : bytes) : cmd system Z :=
  error ← fs_create_directories database_path;
  if (error : bool) then mret MYLITE_IOERR
  else initialize_database_layout database_path ;; mret MYLITE_OK.

Lemma prepare_missing database_path flags (s s' : system) :
  is_memory_database_path database_path = false -> has_flag flags MYLITE_OPEN_CREATE = true ->
  fs_exists database_path s = (Ret (false, false), s') ->
  prepare_database_directory database_path flags s = create_database_directory database_path s'.
Proof.
  intros Hmem Hflag Hexists. unfold prepare_database_directory. rewrite Hmem.
  unfold mbind at 1, cmd_bind. by rewrite Hexists, andb_false_r, Hflag.
Qed.

(** Two threads or processes that open the same new database exclusively both
    succeed, if each looks for the directory before the other creates it. *)
Definition exclusive_flags : Z := Z.lor open_flags MYLITE_OPEN_EXCLUSIVE.
Lemma exclusive_opens_both_succeed :
  let path := str "/srv/new" in
  fst ((first ← fs_exists path;
        second_result ← prepare_database_directory path exclusive_flags;
        first_result ← create_database_directory path;
        mret (first, first_result, second_result)) initial_system) =
  Ret ((false, false), MYLITE_OK, MYLITE_OK).
Proof. by vm_compute. Qed.

(** One that looks while the other has created the data directory, but not yet
    the metadata, takes the new database for a corrupt one; and so do all
    later ones, if the first gets no further. *)
Lemma half_created_database_is_corrupt :
  let path := str "/srv/new" in
  fst ((fs_create_directories path ;;
        create_layout_directory (path_append path k_datadir_name) ;;
        prepare_database_directory path open_flags) initial_system) = Ret MYLITE_CORRUPT.
Proof. by vm_compute. Qed.
